(* ===== verification/_CoqProject ===== *)
-Q . S2P
Prelude.v
CxxText.v
Version.v
Calendar.v
UpdateFormats.v
ReleaseSelection.v
UpdateReport.v
UpdateMarker.v
DeadTunnel.v
StopBudget.v
NetworkNotify.v
Capture.v
NetPolicy.v
Wfp.v
WfpPolicy.v
Balance.v
Instance.v
Health.v
Gesture.v
Provide.v
WintunError.v
Watchdog.v
NetworkCountry.v
Workers.v
SignOut.v
SignOutRun.v
AuthLink.v
Approval.v
SlowInternet.v
LogUpload.v
SessionSlot.v
Bootstrap.v
FlowOwner.v
Controller.v
ControllerFacts.v
ControllerStop.v
ControllerSession.v
ControllerStart.v
ControllerCapture.v
ControllerProvider.v
ControllerRequests.v
ControllerProperties.v
StatusMirror.v
