(* ===== verification/Prelude.v ===== *)
(** * Verification of the URnetwork Windows client

    The program is a VPN client in three processes: a tray app (src/app/src/App), a
    service that owns the tunnel (src/app/src/Service) and an update helper
    (src/app/src/Updater).  Their decisions are in headers free of Windows calls, under
    src/app/src/Common and src/app/src/Service, which the processes bind to the pipe,
    the SDK, the Wintun driver and the Windows APIs.  This development models those
    headers, function by function, and proves what makes each of them correct.

    ** Parts and files

    Every file names the header it models at its top; definitions keep the source's
    names where they are free.

    - [Prelude]: integers at their width, automation ([urnw] hints, [bool_hyps],
      [cases_if]), spans of lists, and reachability ([star]).  [CxxText]: what the
      sources use of [std::string_view], [std::wstring], [std::to_string] and
      [std::from_chars].
    - Updates, from the release list to the installed build:
      [Version] (Common/VersionGrammar.h, the tag's release code), [Calendar]
      (UTC seconds and civil dates, Common/UpdateResult.h and ReleaseSelection.h),
      [UpdateFormats] (Common/UpdateFormats.h), [ReleaseSelection]
      (Common/ReleaseSelection.h: feeds, the soak, the choice of a release, asset
      redirects, MSI versions), [UpdateReport] (Common/UpdateResult.h,
      Common/UpdateApply.h, Common/UpdateSchedule.h: what the helper reports, when a
      package is replayed, what the app says) and [UpdateMarker]
      (Common/UpdateMarker.h: the marker that turns launches away while an installer
      runs, and its file format).
    - The service's session:
      [DeadTunnel] (Service/DeadTunnelVerdict.h and its settings: the failsafe),
      [StopBudget] (Service/StopBudget.h: bounded teardowns, abandoned workers,
      forced stops, the self-restart), [NetworkNotify]
      (Service/NetworkChangeNotify.h: coalesced notifications and their thread),
      [Capture] (Service/CaptureReadiness.h: the readiness revision and the
      all-or-nothing capture transaction), [NetPolicy] (Service/NetPolicy.h: the
      bypass tables and the derived capture routes), [Wfp] (the filter set of
      Service/WfpPolicy.cpp and the policy it stands for), [WfpPolicy] (the object that
      installs it), [WintunError] (Service/WintunError.h),
      [Watchdog] (Service/TunnelWatchdog.cpp and .h: the sampling thread around the
      verdict, with its gaps, rebases and stops), [LogUpload] (Common/LogUpload.h and the
      controller's upload: the flight, its call's thread and the devices it keeps) and
      [FlowOwner] (Service/FlowOwner.h and .cpp: who owns a flow, answered from bounded
      caches a worker fills).
    - The tunnel controller (Service/TunnelController.h and .cpp), which composes all of
      the service's parts: [Controller] has its members, its monad and its operations;
      [ControllerFacts] a weakest precondition for that monad and what the threads
      without the session lock may change; [ControllerStop], [ControllerSession],
      [ControllerStart], [ControllerCapture] and [ControllerProvider] the invariant and
      the operations' specifications; [ControllerRequests] requests in any order;
      [ControllerProperties] what is promised; and [StatusMirror] the two writers of the
      status mirror, step by step.  [Provide] (Common/ProvideLifecycle.h and
      the identities of Common/Protocol.h) has the rules of the provider-only device.
    - The app's connection and process:
      [Health] (Common/ConnectionHealth.h: the one word every surface says of the
      connection), [Gesture] (Common/ConnectAction.h: the plan of every connect and
      disconnect gesture, with the protocol states it reads, and a pass of the session
      worker of App/SdkHost.cpp that performs it),
      [Balance] (Common/BalanceGate.h: the insufficient-balance gate and its recovery),
      [Instance] (Common/InstanceHandover.h: the activation gate, launches and the
      command line), [SessionSlot] (SdkHost's session requests and their worker, the hold of
      a tap of App/TapHold.h, and the app's endings of Common/ExitDrain.h and
      Common/AppLifetime.h), [Bootstrap] (Common/RpcSessionBlob.h and SdkHost's bootstrap: the
      session adopted or started, its record on disk, its teardown), [NetworkCountry] (Common/NetworkCountry.h),
      [SlowInternet] (App/TunnelIndicator.h and App/SlowInternet.h: the dwell, the pill and
      the tray's notice) and [Workers] (App/OrderedWorker.h and Common/CoalescedWorker.h).
    - Accounts: [SignOut] (Common/SignOut.h: the sign-out a service still owes),
      [SignOutRun] (App/SignOutRun.h and the sign-in and sign-out paths of SdkHost, as
      threads), [AuthLink] (App/AuthLink.h: the links of the browser's sign-in, parsed and
      redacted) and [Approval] (App/UrIoApproval.h, App/ApprovalNetwork.h,
      App/ApprovalUnseal.h: the attempt such a link answers, its slot and its deadline).

    ** How state and effects are modelled

    A class is a [Record] of its members with one function per method, at the source's
    order of guards.  Callbacks a function calls are the effects it returns
    ([Balance.Sink]), a trace ([Instance.LCall], [Gesture.PassCall]), or an oracle that may answer
    differently at every call ([Instance.Launcher], the clock and predicate of
    [StopBudget.WaitBounded]).  Code that runs on several threads is a step relation
    whose steps are its locked regions: [StopBudget.step] (waits, their workers, sweeps
    and the operator), [NetworkNotify.notify_step] (sinks, the notifier's thread and its
    destructor), [Instance.gate_step] (concurrent takes, the opening, the closing and
    the UI thread's queue), [Watchdog] (the sampler, the evaluator and the stop),
    [SignOutRun] (the tail and the sign-ins against it), [LogUpload.step] (the call, its
    report and the teardowns), [SessionSlot.step] (the taps, the worker, the quit's thread,
    the exit and the destructor), [Bootstrap.step] (a bootstrap's calls, its device's
    listeners and the ends of the process) and [FlowOwner.step] (the lookups, the worker and the
    stop).  Where the step is a function to [option], a run is a list of events; invariants are proved by induction on runs.  The capture
    transaction runs against arbitrary interference between its stages.  Unsigned
    counters wrap at their width ([wrap]); a text is the list of its bytes or UTF-16
    units.  Milliseconds and byte counts are [Z]; where a signed subtraction of an
    outside value could overflow, a theorem says what the wrapped result decides.

    [Bootstrap.Json] and [Bootstrap.Vault] are what the session's record asks of the JSON
    library and of the system's protection, [FlowOwner.Inet] what a flow's key asks of the
    address parser.  [Workers.WorkerQueue] is the interface of the two workers' queues to their one thread.
    [NetPolicy.PrefixFamily] and [NetPolicy.PrefixLaws] are the interface the prefix
    subtraction is proved against, once; IPv4 and IPv6 are its instances.
    [Wfp.FilterEngine] and its laws are the arbitration Windows documents, with
    [Wfp.reference_engine] as an instance; [WfpPolicy.Bfe] answers the engine's calls one
    by one.  The controller is a state and exception monad over its record; every call
    that leaves it is a question to [Controller.Platform], which is asked with the log of
    all that happened and may answer anything, so the theorems hold on every machine.
    Where a call blocks, a stop may arrive and the connecting watchdog may fire
    ([Controller.yield]); where the readiness object is read, other threads have worked on
    it ([Controller.interfere]).

    ** What the theorems show

    - Updates: the offer is the greatest eligible code, with that release's own asset;
      official offers soaked a full day; a day's lists agree; redirects stay on release
      hosts; MSI versions increase; tags and UTC texts parse exactly their grammar and
      print back; a package is never replayed for another offer; a launch is refused
      exactly while its installer runs, and the marker's file reads back as written.
    - Session: the failsafe's verdict is never against signals of a tunnel that carries, and
      is against those of a dead one within its windows; bounded waits return, and sweeps count exactly the
      devices still held; the notifier makes one call per burst, none after its join;
      the capture is all or nothing and no ticket survives an invalidation; the capture
      routes are exactly the complement of the bypass table, for both families.
    - Firewall: each state's filters let through exactly what the policy allows; armed
      seals the machine, connected leaks nothing, an attempt can always resolve; the
      exempted LAN is the bypass table; a policy is swapped whole or not at all.
    - Controller: the members agree after any requests; the mirror from which a status is
      served without the lock is the members' but for one race with the connecting
      watchdog ([StatusMirror]); a stop gives routes, marker and firewall back before it tears
      a device down; a failsafe stop keeps the kill switch's promise; a stop that cannot
      have the lock frees the machine all the same; an activation captures everything or
      nothing; a start that a stop overtook, or a clamped service, never captures; and the
      refusals.
    - Watchdog, logs and flows: a stop was preceded by a whole window awake and by no packet
      the counters could show inside the fast window, and an SDK that goes silent while no
      packet comes in is stopped; the device of a log upload's call outlives the call; the flow
      cache is a bounded queue, and a flow's answer names an owner that was seen.
    - Requests and endings: a recorded request is served, a tap is displaced only on
      purpose and shown until its pass is done, and a quit that settled has the last word.
    - Bootstrap: a session outlives the app that started it, as long as nothing refuses it,
      and is taken up again with its own keys; its record is written before it is started and
      confirmed only once synced; an app that only attaches starts and stops nothing and
      writes only such confirmations, over any file it finds.
    - Accounts: only the live attempt is answered, a link is parsed exactly and redacted in
      the log; signed out is signed out where no call of the tail throws, and no start comes
      before the service knows, unless the sign-out was lost before it was written.
    - App: the word Connected is backed by a proof, its hold or the session's claim, and
      a loss degrades at the hold's end; a gesture's plan is consistent, a captured
      machine always has its way out, a connect never drives a session that is gone, a
      pass gives the machine back before it touches the SDK, and off stays off until the
      user connects; recovery never retries more than its budget nor anything the user did not
      ask for; the gate answers every launch truthfully and acts on it at most once; a
      launch ends in at most four redirects with the result its last call decided; the slow
      notice comes, stays and goes exactly by its readings, and in time.
    - What the model showed: [DeadTunnel.fast_teardown_unannounced],
      [StatusMirror.raced_mirror_is_stale],
      [ControllerProperties.failed_import_leaves_the_egress_monitor],
      [Watchdog.first_ready_edge_forgets_the_packets],
      [SignOutRun.throwing_tail_keeps_the_account], [SessionSlot.pass_can_follow_the_stop],
      [SessionSlot.close_request_leaves_the_slot_open],
      [FlowOwner.reused_pid_keeps_the_old_name],
      [Bootstrap.failed_bootstrap_leaves_its_device],
      [Bootstrap.plaintext_record_is_adopted] and
      [Bootstrap.lost_hello_is_called_an_old_service].

    ** Fuel and bounds

    [NetPolicy.complement] runs on a fuel of 256 steps, with the source's stack
    capacity checked at every push; the partition theorems evaluate it on the program's
    tables, so running out of either would refute them.  [StopBudget.WaitBounded],
    [UpdateReport]'s helper wait and [Instance.await_update_end] take fuel for their
    rounds; each has a theorem that a clock past the deadline gives fuel enough for a
    result.  [CxxText.decimal] and [WintunError.hexadecimal] take the length of the number's binary,
    [NetworkCountry.lower_bound] the length of its table, and [AuthLink.RedactLinks] the length
    of its text; the theorems about what they print, find and hide are at
    those fuels.  [Instance.launch_round] recurses on the rounds that are left, and every
    other function is structural.

    ** Not modelled

    The Windows, SDK, driver and pipe calls; the pages, drawing and texts; JSON parsing (a
    library's); the update helper's HTTP and installer calls; and the split-tunnel driver,
    a WDK callout in C.  They are I/O around the modelled decisions.  Of the tunnel
    controller: what the SDK does inside a call, the split-tunnel driver's settings, the
    extender, measurement and ingress settings, the provider's statistics, and a stop's
    escape in the middle of another operation (it writes the mirror too); the egress indices
    of a status are the monitor's current ones, where [Status] reads the copies of the
    monitor's last report, and no theorem is about them.  [Controller]'s publish is one step;
    [StatusMirror] is about its halves.  A launch counts as served where it is decided, before
    the gate's lock is free.  Of the session worker: a connect that waits
    on its balance; of the bootstrap: the seeds of the device's settings and the listeners of
    the presentation; reading the local state is taken to answer.  Of [FlowOwner]:
    the hash, which decides only where a map keeps a key. *)

From Stdlib Require Export ZArith Lia Ascii.
From stdpp Require Export base list strings gmap.
#[global] Open Scope Z_scope.

(** * Machine integers

    A machine integer of [w] bits is a [Z].  Unsigned arithmetic wraps, and the
    wrap is written where the code computes; signed arithmetic is exact, with
    the bounds that keep it in range stated by the theorems about it. *)

Definition wrap (w z : Z) : Z := z mod 2 ^ w.
Abbreviation u8 := (wrap 8).
Abbreviation u32 := (wrap 32).
Abbreviation u64 := (wrap 64).

Definition int64_min : Z := - 2 ^ 63.
Definition int64_max : Z := 2 ^ 63 - 1.
Definition uint64_max : Z := 2 ^ 64 - 1.

Lemma wrap_small w z : 0 <= z < 2 ^ w -> wrap w z = z.
Proof. apply Z.mod_small. Qed.

Lemma wrap_range w z : 0 <= w -> 0 <= wrap w z < 2 ^ w.
Proof. intros Hw. apply Z.mod_pos_bound. lia. Qed.

Lemma wrap_idemp w z : 0 <= w -> wrap w (wrap w z) = wrap w z.
Proof. intros Hw. apply wrap_small, wrap_range, Hw. Qed.

(** A counter that is incremented at its width moves by exactly the number of
    increments, modulo the width. *)
Lemma wrap_add_l w a b : wrap w (wrap w a + b) = wrap w (a + b).
Proof. apply Zplus_mod_idemp_l. Qed.

(** * Automation *)

Create HintDb urnw discriminated.

(** Closes the small side conditions of a rewrite. *)
Ltac side := solve [done | lia | eauto with urnw].

(** [bool_hyps] turns the boolean tests of the hypotheses into propositions. *)
Ltac bool_hyps :=
  repeat match goal with
    | H : (_ && _) = true |- _ => apply andb_true_iff in H as [? ?]
    | H : (_ || _) = false |- _ => apply orb_false_iff in H as [? ?]
    | H : negb _ = true |- _ => apply negb_true_iff in H
    | H : negb _ = false |- _ => apply negb_false_iff in H
    | H : bool_decide _ = true |- _ => apply bool_decide_eq_true in H
    | H : bool_decide _ = false |- _ => apply bool_decide_eq_false in H
    | H : (_ <=? _) = true |- _ => apply Z.leb_le in H
    | H : (_ <=? _) = false |- _ => apply Z.leb_gt in H
    | H : (_ <? _) = true |- _ => apply Z.ltb_lt in H
    | H : (_ <? _) = false |- _ => apply Z.ltb_ge in H
    | H : (_ =? _) = true |- _ => apply Z.eqb_eq in H
    | H : (_ =? _) = false |- _ => apply Z.eqb_neq in H
    end.

(** [cases_if] splits on the tests of the goal's conditionals, left to right,
    and keeps each test as a hypothesis. *)
Ltac cases_if :=
  repeat match goal with
    | |- context [if ?b then _ else _] =>
        lazymatch b with
        | context [if _ then _ else _] => fail
        | _ => let E := fresh "E" in destruct b eqn:E; try discriminate
        end
    end; bool_hyps.

(** The same on a hypothesis. *)
Ltac cases_if_in H :=
  repeat match type of H with
    | context [if ?b then _ else _] =>
        lazymatch b with
        | context [if _ then _ else _] => fail
        | _ => let E := fresh "E" in destruct b eqn:E; try discriminate
        end
    end; bool_hyps.

(** * Lists *)

Section Span.
Context {A : Type} (f : A -> bool).

(** The longest prefix whose elements satisfy [f], and what follows it. *)
Fixpoint span (l : list A) : list A * list A :=
  match l with
  | [] => ([], [])
  | x :: l' => if f x then let '(a, b) := span l' in (x :: a, b) else ([], l)
  end.

Lemma span_app l : (span l).1 ++ (span l).2 = l.
Proof. induction l as [|x l IH]; simpl; [done|]. destruct (f x); [|done].
  destruct (span l); simpl in *. by rewrite IH. Qed.

Lemma span_Forall l : Forall (fun x => f x = true) (span l).1.
Proof. induction l as [|x l IH]; simpl; [constructor|]. destruct (f x) eqn:E; [|constructor].
  destruct (span l); simpl in *. by constructor. Qed.

(** The element after the prefix does not satisfy [f]. *)
Definition stops (l : list A) : Prop := forall x, head l = Some x -> f x = false.

Lemma span_stops l : stops (span l).2.
Proof. induction l as [|x l IH]; simpl; [by intros ?|]. destruct (f x) eqn:E.
  - by destruct (span l).
  - intros y [= <-]. done. Qed.

Lemma span_unique a b :
  Forall (fun x => f x = true) a -> stops b -> span (a ++ b) = (a, b).
Proof.
  intros Ha Hb. induction Ha as [|x a Hx Ha IH]; simpl.
  - destruct b as [|y b]; simpl; [done|]. by rewrite (Hb y eq_refl).
  - by rewrite Hx, IH.
Qed.
End Span.

(** * Reachability *)

Section Star.
Context {A : Type} (R : A -> A -> Prop).

Inductive star : A -> A -> Prop :=
| star_refl a : star a a
| star_step a b c : R a b -> star b c -> star a c.

Lemma star_trans a b c : star a b -> star b c -> star a c.
Proof. induction 1; intros; [done|]. econstructor; eauto. Qed.

(** An invariant of every step holds in every reachable state. *)
Lemma star_invariant (P : A -> Prop) a b :
  (forall x y, P x -> R x y -> P y) -> star a b -> P a -> P b.
Proof. intros HP. induction 1; eauto. Qed.
End Star.
#[export] Hint Constructors star : urnw.
