(* ===== verification/CxxText.v ===== *)
(** C++ text as the code uses it: a [std::string] or [std::string_view] is a list
    of bytes, a [std::wstring] a list of UTF-16 code units.  Only the members of
    the standard library that the modelled code calls are here. *)

From S2P Require Import Prelude.

Abbreviation text := (list ascii).
Abbreviation wtext := (list Z).

Definition txt (s : string) : text := String.list_ascii_of_string s.
Arguments txt _%_string.

(** A byte as a number.  The code compares characters as [char], which is signed
    on this target; every test it makes against an ASCII character gives the same
    answer on the unsigned value, because both bounds are below 128. *)
Definition ord (c : ascii) : Z := Z.of_N (N_of_ascii c).
Definition chr (z : Z) : ascii := ascii_of_N (Z.to_N z).

Definition wtxt (s : string) : wtext := map ord (txt s).
Arguments wtxt _%_string.

Lemma ord_range c : 0 <= ord c < 256.
Proof. unfold ord. pose proof (N_ascii_bounded c). lia. Qed.

Lemma chr_ord c : chr (ord c) = c.
Proof. unfold chr, ord. rewrite N2Z.id. apply ascii_N_embedding. Qed.

Lemma ord_chr z : 0 <= z < 256 -> ord (chr z) = z.
Proof. intros H. unfold ord, chr. rewrite N_ascii_embedding; lia. Qed.

Lemma ord_inj a b : ord a = ord b -> a = b.
Proof. intros H. rewrite <- (chr_ord a), <- (chr_ord b). by rewrite H. Qed.

(** [a == b] on strings. *)
Definition teqb (a b : text) : bool := bool_decide (a = b).

Lemma teqb_eq a b : teqb a b = true <-> a = b.
Proof. apply bool_decide_eq_true. Qed.

Definition size (s : text) : Z := Z.of_nat (length s).

Lemma size_nonneg s : 0 <= size s.
Proof. unfold size. lia. Qed.

(** ** Prefixes and suffixes *)

(** [s.substr(0, p.size()) == p]. *)
Definition has_prefix (p s : text) : bool := bool_decide (take (length p) s = p).

Lemma has_prefix_spec p s : has_prefix p s = true <-> exists t, s = p ++ t.
Proof.
  unfold has_prefix. rewrite bool_decide_eq_true. split.
  - intros H. exists (drop (length p) s). by rewrite <- H at 1; rewrite take_drop.
  - intros [t ->]. by rewrite take_app_length.
Qed.

Lemma has_prefix_drop p s : has_prefix p s = true -> s = p ++ drop (length p) s.
Proof. intros [t ->]%has_prefix_spec. by rewrite drop_app_length. Qed.

(** [s.size() >= x.size() && s.substr(s.size() - x.size()) == x]. *)
Definition has_suffix (x s : text) : bool :=
  (size x <=? size s) && bool_decide (drop (length s - length x) s = x).

Lemma has_suffix_spec x s : has_suffix x s = true <-> exists t, s = t ++ x.
Proof.
  unfold has_suffix, size. rewrite andb_true_iff, Z.leb_le, bool_decide_eq_true. split.
  - intros [Hl H]. exists (take (length s - length x) s). by rewrite <- H at 2; rewrite take_drop.
  - intros [t ->]. rewrite length_app. split; [lia|].
    replace (length t + length x - length x)%nat with (length t) by lia.
    by rewrite drop_app_length.
Qed.

(** ** Searching *)

(** [s.find(c)]: the first position of [c]. *)
Fixpoint find_char (c : ascii) (s : text) : option nat :=
  match s with
  | [] => None
  | d :: s' => if bool_decide (d = c) then Some O else S <$> find_char c s'
  end.

(** [s.find_first_of(set)]: the first position of a character of [set]. *)
Fixpoint find_first_of (set s : text) : option nat :=
  match s with
  | [] => None
  | d :: s' => if bool_decide (d ∈ set) then Some O else S <$> find_first_of set s'
  end.

(** [s.rfind(p)]: the last position where [p] occurs. *)
Fixpoint rfind (p s : text) : option nat :=
  match s with
  | [] => if has_prefix p [] then Some O else None
  | _ :: s' =>
      match rfind p s' with
      | Some n => Some (S n)
      | None => if has_prefix p s then Some O else None
      end
  end.

Lemma find_char_Some c s n :
  find_char c s = Some n -> s = take n s ++ c :: drop (S n) s /\ c ∉ take n s.
Proof.
  revert n. induction s as [|d s IH]; intros n; simpl; [done|].
  case_bool_decide as Hd.
  - intros [= <-]. simpl. subst. split; [done|]. set_solver.
  - destruct (find_char c s) as [m|] eqn:E; simpl; [|done]. intros [= <-].
    destruct (IH m eq_refl) as [Hs Hn]. simpl. split; [by rewrite <- Hs|]. set_solver.
Qed.

Lemma find_char_None c s : find_char c s = None <-> c ∉ s.
Proof.
  induction s as [|d s IH]; simpl; [set_solver|]. case_bool_decide as Hd.
  - set_solver.
  - rewrite fmap_None, IH. set_solver.
Qed.

Lemma find_first_of_Some set s n :
  find_first_of set s = Some n ->
  exists c, s = take n s ++ c :: drop (S n) s /\ c ∈ set /\ Forall (fun d => d ∉ set) (take n s).
Proof.
  revert n. induction s as [|d s IH]; intros n; simpl; [done|].
  case_bool_decide as Hd.
  - intros [= <-]. exists d. simpl. repeat split; [done..|constructor].
  - destruct (find_first_of set s) as [m|] eqn:E; simpl; [|done]. intros [= <-].
    destruct (IH m eq_refl) as (c & Hs & Hc & Hf). exists c. simpl. split; [by rewrite <- Hs|].
    split; [done|]. by constructor.
Qed.

Lemma find_first_of_app set a c b :
  Forall (fun d => d ∉ set) a -> c ∈ set -> find_first_of set (a ++ c :: b) = Some (length a).
Proof.
  intros Ha Hc. induction Ha as [|d a Hd Ha IH]; simpl.
  - by rewrite bool_decide_eq_true_2.
  - by rewrite bool_decide_eq_false_2, IH.
Qed.

Lemma find_char_app c a b : c ∉ a -> find_char c (a ++ c :: b) = Some (length a).
Proof.
  induction a as [|d a IH]; intros Ha; simpl.
  - by rewrite bool_decide_eq_true_2.
  - rewrite bool_decide_eq_false_2, IH by set_solver. done.
Qed.

Lemma rfind_Some p s n :
  rfind p s = Some n -> s = take n s ++ p ++ drop (n + length p) s.
Proof.
  revert n. induction s as [|d s IH]; intros n.
  - cbn [rfind]. destruct (has_prefix p []) eqn:E; [|done]. intros [= <-].
    by apply has_prefix_drop in E.
  - cbn [rfind]. destruct (rfind p s) as [m|] eqn:E.
    + intros [= <-]. simpl. by rewrite <- (IH m eq_refl).
    + destruct (has_prefix p (d :: s)) eqn:E'; [|done]. intros [= <-].
      by apply has_prefix_drop in E'.
Qed.

(** The last occurrence of a pattern whose first character does not come again. *)
Lemma rfind_app c p a b : c ∉ p ++ b -> rfind (c :: p) (a ++ (c :: p) ++ b) = Some (length a).
Proof.
  intros Hc. assert (forall s, c ∉ s -> rfind (c :: p) s = None) as Hn.
  { intros s. induction s as [|d s IH]; intros Hs; [done|]. cbn [rfind].
    rewrite IH by set_solver. unfold has_prefix. rewrite bool_decide_eq_false_2; [done|].
    cbn [length take]. intros [= -> _]. set_solver. }
  assert (rfind (c :: p) ((c :: p) ++ b) = Some O) as Hq.
  { cbn [app rfind]. rewrite Hn by done. by rewrite (proj2 (has_prefix_spec _ _)) by (by exists b). }
  revert Hq. generalize ((c :: p) ++ b). intros q Hq.
  induction a as [|d a IH]; cbn [app rfind length]; [done|]. by rewrite IH.
Qed.

Lemma rfind_take c p s n : rfind (c :: p) s = Some n -> length (take n s) = n.
Proof.
  revert n. induction s as [|d s IH]; intros n; [by cbn [rfind]|]. cbn [rfind].
  destruct (rfind (c :: p) s) as [m|].
  - intros [= <-]. cbn [take length]. by rewrite IH.
  - destruct (has_prefix _ _); [|done]. by intros [= <-].
Qed.

(** ** Characters *)

(** [c >= lo && c <= hi]. *)
Definition in_range (lo hi : Z) (c : ascii) : bool := (lo <=? ord c) && (ord c <=? hi).

Definition is_digit : ascii -> bool := in_range 48 57.
Definition digit_value (c : ascii) : Z := ord c - 48.
Definition digit_char (d : Z) : ascii := chr (48 + d).

Definition all_digits (s : text) : Prop := Forall (fun c => is_digit c = true) s.

Lemma is_digit_ord c : is_digit c = true <-> 48 <= ord c <= 57.
Proof. unfold is_digit, in_range. rewrite andb_true_iff, !Z.leb_le. done. Qed.

Lemma ord_digit_char d : 0 <= d <= 9 -> ord (digit_char d) = 48 + d.
Proof. intros H. apply ord_chr. lia. Qed.

Lemma is_digit_char d : 0 <= d <= 9 -> is_digit (digit_char d) = true.
Proof. intros H. apply is_digit_ord. rewrite ord_digit_char; lia. Qed.

Lemma digit_value_char d : 0 <= d <= 9 -> digit_value (digit_char d) = d.
Proof. intros H. unfold digit_value. rewrite ord_digit_char; lia. Qed.

Lemma digit_char_value c : is_digit c = true -> digit_char (digit_value c) = c.
Proof.
  intros H%is_digit_ord. apply ord_inj. rewrite ord_digit_char; unfold digit_value; lia.
Qed.

Lemma digit_value_range c : is_digit c = true -> 0 <= digit_value c <= 9.
Proof. intros H%is_digit_ord. unfold digit_value. lia. Qed.

(** ** Decimal numbers *)

(** [value = value * 10 + (c - '0')] over a run of digits, on mathematical
    integers. *)
Definition digits_value (s : text) : Z := foldl (fun v c => v * 10 + digit_value c) 0 s.

Lemma foldl_digits v s :
  foldl (fun v c => v * 10 + digit_value c) v s = v * 10 ^ size s + digits_value s.
Proof.
  unfold digits_value, size. revert v. induction s as [|c s IH]; intros v; cbn [foldl length].
  - rewrite Z.pow_0_r. lia.
  - rewrite IH, (IH (0 * 10 + _)), Nat2Z.inj_succ, Z.pow_succ_r by lia. ring.
Qed.

Lemma digits_value_app a b : digits_value (a ++ b) = digits_value a * 10 ^ size b + digits_value b.
Proof. unfold digits_value at 1. rewrite foldl_app. apply foldl_digits. Qed.

Lemma digits_value_cons c s : digits_value (c :: s) = digit_value c * 10 ^ size s + digits_value s.
Proof. change (c :: s) with ([c] ++ s). rewrite digits_value_app. unfold digits_value at 1. simpl. lia. Qed.

Lemma digits_value_bound s : all_digits s -> 0 <= digits_value s < 10 ^ size s.
Proof.
  intros H. induction H as [|c s Hc Hs IH].
  - unfold digits_value, size. simpl. lia.
  - rewrite digits_value_cons. unfold size in *. cbn [length].
    rewrite Nat2Z.inj_succ, Z.pow_succ_r by lia. pose proof (digit_value_range c Hc). nia.
Qed.

(** A number with a leading digit other than '0' determines its digits. *)
Lemma digits_value_inj a b :
  length a = length b -> all_digits a -> all_digits b -> digits_value a = digits_value b -> a = b.
Proof.
  intros Hl Ha. revert b Hl. induction Ha as [|c a Hc Ha IH]; intros [|d b] Hl Hb Hv; try done.
  apply Forall_cons in Hb as [Hd Hb]. cbn [length] in Hl.
  rewrite !digits_value_cons in Hv.
  pose proof (digits_value_bound a Ha) as Ba. pose proof (digits_value_bound b Hb) as Bb.
  assert (size a = size b) as Es by (unfold size; lia). rewrite Es in *.
  assert (digit_value c = digit_value d) as E by nia.
  f_equal; [|apply IH; [lia|done|nia]].
  by rewrite <- (digit_char_value c Hc), <- (digit_char_value d Hd), E.
Qed.

(** [std::to_string] of a non-negative number; [fuel] bounds its digits. *)
Fixpoint decimal (fuel : nat) (n : Z) : text :=
  match fuel with
  | O => []
  | S fuel' =>
      if n <? 10 then [digit_char n] else decimal fuel' (n / 10) ++ [digit_char (n mod 10)]
  end.

Definition decimal_fuel (n : Z) : nat := S (Z.to_nat (Z.log2 n)).

(** [std::to_string]. *)
Definition to_string (n : Z) : text :=
  if n <? 0 then chr 45 :: decimal (decimal_fuel (- n)) (- n) else decimal (decimal_fuel n) n.

Lemma decimal_spec fuel n :
  0 <= n < 2 ^ Z.of_nat fuel -> (0 < fuel)%nat ->
  all_digits (decimal fuel n) /\ digits_value (decimal fuel n) = n /\ decimal fuel n <> [].
Proof.
  revert n. induction fuel as [|fuel IH]; intros n Hn Hf; [lia|].
  cbn [decimal]. destruct (n <? 10) eqn:E; bool_hyps.
  - split; [|split; [|done]].
    + constructor; [apply is_digit_char; lia|constructor].
    + rewrite digits_value_cons. unfold size, digits_value. simpl.
      rewrite digit_value_char; lia.
  - rewrite Nat2Z.inj_succ, Z.pow_succ_r in Hn by lia.
    assert (0 <= n mod 10 <= 9) by (pose proof (Z.mod_pos_bound n 10); lia).
    assert (0 < fuel)%nat by (destruct fuel; simpl in Hn; lia).
    destruct (IH (n / 10)) as (H1 & H2 & _); [|done|].
    { split; [apply Z.div_pos; lia|]. apply Z.div_lt_upper_bound; lia. }
    split; [|split].
    + apply Forall_app. split; [done|]. constructor; [by apply is_digit_char|constructor].
    + rewrite digits_value_app, H2, digits_value_cons. unfold size, digits_value. simpl.
      rewrite digit_value_char by done. pose proof (Z.div_mod n 10). lia.
    + by destruct (decimal fuel (n / 10)).
Qed.

Lemma decimal_fuel_enough n : 0 <= n -> n < 2 ^ Z.of_nat (decimal_fuel n).
Proof.
  intros H. unfold decimal_fuel. rewrite Nat2Z.inj_succ, Z2Nat.id by apply Z.log2_nonneg.
  destruct (Z.eq_dec n 0) as [->|]; [done|]. apply Z.log2_spec. lia.
Qed.

Lemma to_string_nonneg n :
  0 <= n -> all_digits (to_string n) /\ digits_value (to_string n) = n /\ to_string n <> [].
Proof.
  intros H. unfold to_string. rewrite (proj2 (Z.ltb_ge n 0)) by lia.
  apply decimal_spec; [|unfold decimal_fuel; lia]. split; [done|]. by apply decimal_fuel_enough.
Qed.

Lemma to_string_neg n :
  n < 0 -> exists d, to_string n = chr 45 :: d /\ all_digits d /\ digits_value d = - n /\ d <> [].
Proof.
  intros H. unfold to_string. rewrite (proj2 (Z.ltb_lt n 0)) by lia.
  eexists. split; [done|]. apply decimal_spec; [|unfold decimal_fuel; lia].
  split; [lia|]. apply decimal_fuel_enough. lia.
Qed.

(** How many digits a number has. *)
Lemma decimal_length d fuel n :
  10 ^ Z.of_nat d <= n < 10 ^ Z.of_nat (S d) -> (d < fuel)%nat -> length (decimal fuel n) = S d.
Proof.
  revert fuel n. induction d as [|d IH]; intros [|fuel] n Hn Hf; try lia.
  - cbn [decimal]. change (10 ^ Z.of_nat 1) with 10 in Hn. rewrite (proj2 (Z.ltb_lt n 10)) by lia. done.
  - cbn [decimal]. rewrite !(Nat2Z.inj_succ (S d)), (Nat2Z.inj_succ d), !Z.pow_succ_r in Hn by lia.
    pose proof (Z.pow_pos_nonneg 10 (Z.of_nat d)). rewrite (proj2 (Z.ltb_ge n 10)) by lia.
    rewrite length_app, IH; [cbn; lia| |lia]. rewrite Nat2Z.inj_succ, Z.pow_succ_r by lia.
    split; [apply Z.div_le_lower_bound|apply Z.div_lt_upper_bound]; lia.
Qed.

Lemma to_string_length d n : 10 ^ Z.of_nat d <= n < 10 ^ Z.of_nat (S d) -> length (to_string n) = S d.
Proof.
  intros Hn. pose proof (Z.pow_pos_nonneg 10 (Z.of_nat d)). unfold to_string. rewrite (proj2 (Z.ltb_ge n 0)) by lia.
  apply decimal_length; [done|]. unfold decimal_fuel. assert (Z.of_nat d <= Z.log2 n); [|lia].
  apply Z.log2_le_pow2; [lia|]. etransitivity; [|apply Hn]. apply Z.pow_le_mono_l. lia.
Qed.

(** Small numbers, digit by digit. *)
Lemma to_string_digit n : 0 <= n <= 9 -> to_string n = [digit_char n].
Proof.
  intros H. unfold to_string. rewrite (proj2 (Z.ltb_ge n 0)) by lia.
  unfold decimal_fuel. cbn [decimal]. by rewrite (proj2 (Z.ltb_lt n 10)) by lia.
Qed.

Lemma decimal_step fuel n : 10 <= n -> decimal (S fuel) n = decimal fuel (n / 10) ++ [digit_char (n mod 10)].
Proof. intros H. cbn [decimal]. by rewrite (proj2 (Z.ltb_ge n 10)). Qed.

(** The digits do not depend on the fuel. *)
Lemma decimal_fuel_irrel f g n :
  0 <= n -> n < 2 ^ Z.of_nat f -> n < 2 ^ Z.of_nat g -> (0 < f)%nat -> (0 < g)%nat ->
  decimal f n = decimal g n.
Proof.
  revert g n. induction f as [|f IH]; intros g n H0 Hf Hg Pf Pg; [lia|].
  destruct g as [|g]; [lia|]. cbn [decimal]. destruct (n <? 10) eqn:E; [done|]. bool_hyps.
  rewrite Nat2Z.inj_succ, Z.pow_succ_r in Hf, Hg by lia. f_equal.
  apply IH; [apply Z.div_pos; lia|apply Z.div_lt_upper_bound; lia..|
    destruct f; simpl in *; lia|destruct g; simpl in *; lia].
Qed.

Lemma to_string_step n : 10 <= n -> to_string n = to_string (n / 10) ++ [digit_char (n mod 10)].
Proof.
  intros H. unfold to_string. rewrite !(proj2 (Z.ltb_ge _ 0)) by (try apply Z.div_pos; lia).
  assert (1 <= n / 10) by (apply Z.div_le_lower_bound; lia).
  assert (n / 10 <= n / 2) by (apply Z.div_le_compat_l; lia).
  unfold decimal_fuel at 1. rewrite decimal_step by done. f_equal.
  pose proof (decimal_fuel_enough n ltac:(lia)) as Hn. unfold decimal_fuel in Hn.
  rewrite Nat2Z.inj_succ, Z.pow_succ_r in Hn by lia.
  apply decimal_fuel_irrel; [lia|..].
  - apply Z.div_lt_upper_bound; lia.
  - apply decimal_fuel_enough. lia.
  - pose proof (Z.log2_le_mono 8 n ltac:(lia)) as Hl. change (Z.log2 8) with 3 in Hl. lia.
  - unfold decimal_fuel. lia.
Qed.

(** ** [std::from_chars] *)

(** An unsigned value of [w] bits: the value of the digits at the front and what
    follows them, or [None] when there is no digit or the value is out of range
    (the caller's value and position are then unchanged). *)
Definition from_chars_unsigned (w : Z) (s : text) : option (Z * text) :=
  let '(d, rest) := span is_digit s in
  if bool_decide (d = []) then None
  else if digits_value d <? 2 ^ w then Some (digits_value d, rest) else None.

(** A signed 64-bit value: the same with an optional minus sign. *)
Definition from_chars_int64 (s : text) : option (Z * text) :=
  match s with
  | c :: s' =>
      if bool_decide (c = chr 45) then
        let '(d, rest) := span is_digit s' in
        if bool_decide (d = []) then None
        else if int64_min <=? - digits_value d then Some (- digits_value d, rest) else None
      else
        let '(d, rest) := span is_digit s in
        if bool_decide (d = []) then None
        else if digits_value d <=? int64_max then Some (digits_value d, rest) else None
  | [] => None
  end.

Lemma from_chars_unsigned_to_string w n rest :
  0 <= n < 2 ^ w -> stops is_digit rest ->
  from_chars_unsigned w (to_string n ++ rest) = Some (n, rest).
Proof.
  intros Hn Hr. destruct (to_string_nonneg n ltac:(lia)) as (H1 & H2 & H3).
  unfold from_chars_unsigned. rewrite span_unique, bool_decide_eq_false_2, H2 by done.
  by rewrite (proj2 (Z.ltb_lt _ _)) by lia.
Qed.

Lemma from_chars_int64_to_string n rest :
  int64_min <= n <= int64_max -> stops is_digit rest ->
  from_chars_int64 (to_string n ++ rest) = Some (n, rest).
Proof.
  intros Hn Hr. destruct (Z.lt_ge_cases n 0) as [Hneg|Hpos].
  - destruct (to_string_neg n Hneg) as (d & -> & H1 & H2 & H3).
    cbn [app from_chars_int64]. rewrite bool_decide_eq_true_2 by done.
    rewrite span_unique, bool_decide_eq_false_2, H2 by done.
    rewrite (proj2 (Z.leb_le _ _)) by lia. by rewrite Z.opp_involutive.
  - destruct (to_string_nonneg n Hpos) as (H1 & H2 & H3).
    destruct (to_string n) as [|c d] eqn:E; [done|]. cbn [app].
    unfold from_chars_int64. change (c :: d ++ rest) with ((c :: d) ++ rest).
    rewrite bool_decide_eq_false_2.
    + rewrite span_unique, bool_decide_eq_false_2, H2 by done.
      by rewrite (proj2 (Z.leb_le _ _)) by lia.
    + intros ->. apply Forall_cons in H1 as [H1 _]. by vm_compute in H1.
Qed.

(** ** Case folding *)

Definition ascii_lower (c : ascii) : ascii := if in_range 65 90 c then chr (ord c - 65 + 97) else c.
Definition ascii_upper (c : ascii) : ascii := if in_range 97 122 c then chr (ord c - (97 - 65)) else c.
