(* ===== verification/Version.v ===== *)
(** The release tag grammar (Common/VersionGrammar.h): [TakeDigits],
    [ParseReleaseCode], and the grammar they implement stated on its own. *)

From S2P Require Import Prelude.
From S2P Require Import CxxText.

Definition IsDigit (c : ascii) : bool := (48 <=? ord c) && (ord c <=? 57).

Record DigitRun := mkDigitRun { value : Z; run_length : nat }.

Definition no_run : DigitRun := {| value := 0; run_length := 0 |}.

(** The accumulation [value * 10 + (c - '0')] in [std::uint64_t]. *)
Definition accumulate (digits : text) : Z :=
  foldl (fun v c => u64 (v * 10 + (ord c - 48))) 0 digits.

Definition TakeDigits (s : text) (maxDigits : nat) : DigitRun :=
  let run := length (span IsDigit s).1 in
  if bool_decide (run = 0%nat) || bool_decide (maxDigits < run)%nat then no_run
  else {| value := accumulate (take run s); run_length := run |}.

Definition front_is (c : ascii) (s : text) : bool := bool_decide (head s = Some c).

Definition ParseReleaseCode (tag : text) : Z :=
  let tag := if front_is "v"%char tag then drop 1 tag else tag in
  let year := TakeDigits tag 4 in
  if negb (bool_decide (run_length year = 4%nat)) then 0 else
  let tag := drop (run_length year) tag in
  if negb (front_is "."%char tag) then 0 else
  let tag := drop 1 tag in
  let month := TakeDigits tag 2 in
  if bool_decide (run_length month = 0%nat) || (value month <? 1) || (12 <? value month) then 0 else
  let tag := drop (run_length month) tag in
  if negb (front_is "."%char tag) then 0 else
  let tag := drop 1 tag in
  let day := TakeDigits tag 2 in
  if bool_decide (run_length day = 0%nat) || (value day <? 1) || (31 <? value day) then 0 else
  let tag := drop (run_length day) tag in
  if negb (front_is "-"%char tag) then 0 else
  let tag := drop 1 tag in
  let code := TakeDigits tag 18 in
  if bool_decide (run_length code = 0%nat) then 0 else
  let tag := drop (run_length code) tag in
  if negb (bool_decide (tag = [])) && negb (teqb tag (txt "-beta")) then 0 else
  value code.

(** * The grammar, stated without the parser *)

(** A run of at least one and at most [max] digits. *)
Definition digit_run (max : nat) (d : text) : Prop :=
  all_digits d /\ (0 < length d <= max)%nat.

(** [v<YYYY.M.D>-<code>[-beta]], the [v] optional. *)
Definition release_tag (tag : text) (code : Z) : Prop :=
  exists v y m d c suffix,
    tag = v ++ y ++ txt "." ++ m ++ txt "." ++ d ++ txt "-" ++ c ++ suffix /\
    (v = [] \/ v = txt "v") /\
    (all_digits y /\ length y = 4%nat) /\
    (digit_run 2 m /\ 1 <= digits_value m <= 12) /\
    (digit_run 2 d /\ 1 <= digits_value d <= 31) /\
    digit_run 18 c /\
    (suffix = [] \/ suffix = txt "-beta") /\
    code = digits_value c.

(** * [TakeDigits] *)

Lemma IsDigit_is_digit c : IsDigit c = is_digit c.
Proof. done. Qed.

Lemma accumulate_exact s : all_digits s -> (length s <= 18)%nat -> accumulate s = digits_value s.
Proof.
  intros Hs Hl. unfold accumulate.
  assert (forall a, Forall (fun c => is_digit c = true) a -> (length a <= 18)%nat ->
    foldl (fun v c => u64 (v * 10 + (ord c - 48))) 0 a = digits_value a) as H; [|by apply H].
  clear s Hs Hl. intros a. induction a as [|c a IH] using rev_ind; intros Ha Hl; [done|].
  rewrite length_app in Hl. cbn [length] in Hl. apply Forall_app in Ha as [Ha Hc].
  rewrite foldl_app. cbn [foldl]. rewrite IH by (done || lia). rewrite wrap_small.
  - unfold digits_value. rewrite foldl_app. done.
  - apply Forall_cons in Hc as [Hc%digit_value_range _]. unfold digit_value in Hc.
    pose proof (digits_value_bound a Ha) as B.
    assert (10 ^ size a <= 10 ^ 17) by (apply Z.pow_le_mono_r; unfold size; lia).
    assert (10 * 10 ^ 17 < 2 ^ 64) by done. lia.
Qed.

(** A run that is accepted is the whole run of digits, with its exact value. *)
Lemma TakeDigits_spec s max :
  (max <= 18)%nat ->
  (run_length (TakeDigits s max) = 0%nat /\ TakeDigits s max = no_run) \/
  exists d rest, s = d ++ rest /\ stops is_digit rest /\ digit_run max d /\
    TakeDigits s max = {| value := digits_value d; run_length := length d |}.
Proof.
  intros Hmax. unfold TakeDigits.
  destruct (span IsDigit s) as [d rest] eqn:E. cbn [fst].
  pose proof (span_app IsDigit s) as Ha. pose proof (span_Forall IsDigit s) as Hf.
  pose proof (span_stops IsDigit s) as Hs. rewrite E in Ha, Hf, Hs. cbn [fst snd] in *.
  destruct (bool_decide _ || bool_decide _) eqn:Et; [by left|]. right. bool_hyps.
  exists d, rest. split; [done|]. split; [done|].
  split; [split; [done|lia]|]. subst s. rewrite take_app_length, accumulate_exact by (done || lia).
  done.
Qed.

(** The converse: a run of the grammar is taken whole. *)
Lemma TakeDigits_run d rest max :
  digit_run max d -> (max <= 18)%nat -> stops is_digit rest ->
  TakeDigits (d ++ rest) max = {| value := digits_value d; run_length := length d |}.
Proof.
  intros [Hd Hl] Hmax Hr. unfold TakeDigits.
  rewrite (span_unique IsDigit) by done. cbn [fst].
  rewrite !bool_decide_eq_false_2 by lia. cbn [orb].
  rewrite take_app_length, accumulate_exact by (done || lia). done.
Qed.

Lemma front_is_true c s : front_is c s = true -> exists t, s = c :: t.
Proof. unfold front_is. destruct s as [|d t]; simpl; intros H; bool_hyps; [done|]. naive_solver. Qed.

Lemma front_is_cons c s : front_is c (c :: s) = true.
Proof. by apply bool_decide_eq_true. Qed.

Lemma stops_cons c s : is_digit c = false -> stops is_digit (c :: s).
Proof. by intros H x [= <-]. Qed.

Lemma stops_suffix s : s = [] \/ s = txt "-beta" -> stops is_digit s.
Proof. intros [-> | ->] x; [done|]. by intros [= <-]. Qed.
#[export] Hint Resolve stops_suffix : urnw.
#[export] Hint Extern 1 (stops is_digit (_ :: _)) => (apply stops_cons; reflexivity) : urnw.

Lemma drop_1_cons {A} (x : A) s : drop 1 (x :: s) = s.
Proof. done. Qed.

(** ** The parser recognises the grammar *)

Lemma ParseReleaseCode_complete tag code : release_tag tag code -> ParseReleaseCode tag = code.
Proof.
  intros (v & y & m & d & c & x & -> & Hv & [Hy Ly] & [Hm Vm] & [Hd Vd] & Hc & Hx & ->).
  assert (digit_run 4 y) as Hy4 by (split; [done|lia]).
  unfold ParseReleaseCode.
  assert ((if front_is "v"%char (v ++ y ++ txt "." ++ m ++ txt "." ++ d ++ txt "-" ++ c ++ x)
           then drop 1 (v ++ y ++ txt "." ++ m ++ txt "." ++ d ++ txt "-" ++ c ++ x)
           else v ++ y ++ txt "." ++ m ++ txt "." ++ d ++ txt "-" ++ c ++ x)
          = y ++ txt "." ++ m ++ txt "." ++ d ++ txt "-" ++ c ++ x) as ->.
  { destruct Hv as [-> | ->]; [|done]. cbn [app]. unfold front_is.
    rewrite bool_decide_eq_false_2; [done|]. destruct y as [|a y]; [done|].
    intros [= ->]. by apply Forall_cons in Hy as [Hy _]. }
  cbv zeta. cbn [txt String.list_ascii_of_string app].
  rewrite (TakeDigits_run y) by side. cbn [run_length value].
  rewrite Ly, bool_decide_eq_true_2 by done. cbn [negb].
  rewrite (drop_app_length' y) by done. rewrite front_is_cons. cbn [negb]. rewrite drop_1_cons.
  rewrite (TakeDigits_run m) by side. cbn [run_length value].
  destruct Hm as [Hm Lm], Hd as [Hd Ld].
  rewrite bool_decide_eq_false_2, (proj2 (Z.ltb_ge _ _)), (proj2 (Z.ltb_ge _ _)) by lia.
  cbn [orb]. rewrite drop_app_length, front_is_cons. cbn [negb]. rewrite drop_1_cons.
  rewrite (TakeDigits_run d) by side. cbn [run_length value].
  rewrite bool_decide_eq_false_2, (proj2 (Z.ltb_ge _ _)), (proj2 (Z.ltb_ge _ _)) by lia.
  cbn [orb]. rewrite drop_app_length, front_is_cons. cbn [negb]. rewrite drop_1_cons.
  rewrite (TakeDigits_run c) by side. cbn [run_length value].
  destruct Hc as [_ Lc]. rewrite bool_decide_eq_false_2, drop_app_length by lia.
  by destruct Hx as [-> | ->].
Qed.

(** Passes the next refusal of the parser, and consumes a separator. *)
Ltac next_guard E :=
  lazymatch goal with |- (if ?b then 0 else _) <> 0 -> _ => destruct b eqn:E; [done|] end.
Ltac next_front E :=
  apply negb_false_iff, front_is_true in E as [s ->]; rewrite drop_1_cons.

Lemma ParseReleaseCode_sound tag :
  ParseReleaseCode tag <> 0 -> release_tag tag (ParseReleaseCode tag).
Proof.
  unfold ParseReleaseCode.
  set (t := if front_is "v"%char tag then drop 1 tag else tag).
  assert (exists v, tag = v ++ t /\ (v = [] \/ v = txt "v")) as (v & Htag & Hv).
  { unfold t. destruct (front_is "v"%char tag) eqn:E; [|by exists []; auto].
    apply front_is_true in E as [t' ->]. exists (txt "v"). auto. }
  clearbody t. subst tag. cbv zeta.
  destruct (TakeDigits_spec t 4) as [[_ ->]|(y & r1 & -> & _ & [Hy Ly] & ->)]; [lia|by cbn|].
  cbn [run_length value]. next_guard E1. rewrite drop_app_length. next_guard E2. next_front E2.
  destruct (TakeDigits_spec s 2) as [[_ ->]|(m & r3 & -> & _ & Hm & ->)]; [lia|by cbn|].
  cbn [run_length value]. next_guard E3. rewrite drop_app_length. next_guard E4. next_front E4.
  destruct (TakeDigits_spec s 2) as [[_ ->]|(d & r5 & -> & _ & Hd & ->)]; [lia|by cbn|].
  cbn [run_length value]. next_guard E5. rewrite drop_app_length. next_guard E6. next_front E6.
  destruct (TakeDigits_spec s 18) as [[_ ->]|(c & x & -> & _ & Hc & ->)]; [lia|by cbn|].
  cbn [run_length value]. next_guard E7. rewrite drop_app_length. next_guard E8. intros _.
  bool_hyps. exists v, y, m, d, c, x. split; [done|].
  assert (x = [] \/ x = txt "-beta").
  { apply andb_false_iff in E8 as [E|E]; bool_hyps; [by left|]. right. by apply teqb_eq. }
  split_and!; first [done|lia].
Qed.

(** Every code the parser returns has at most 18 digits. *)
Lemma ParseReleaseCode_bound tag : 0 <= ParseReleaseCode tag < 10 ^ 18.
Proof.
  destruct (Z.eq_dec (ParseReleaseCode tag) 0) as [->|H]; [done|].
  apply ParseReleaseCode_sound in H as (v & y & m & d & c & x & _ & _ & _ & _ & _ & [Hc Lc] & _ & ->).
  pose proof (digits_value_bound c Hc).
  assert (10 ^ size c <= 10 ^ 18) by (apply Z.pow_le_mono_r; unfold size; lia). lia.
Qed.

(** * Properties *)

(** [ParseReleaseCode] reads exactly the release tag grammar: a non-zero code is
    returned for the tags of the grammar with that code and for no other text.
    So no text outside the grammar ranks as a release, and no tag of the grammar
    with a positive code is missed. *)
Theorem parse_release_code_iff tag code :
  code <> 0 -> ParseReleaseCode tag = code <-> release_tag tag code.
Proof.
  intros Hc. split; [intros <-; by apply ParseReleaseCode_sound|apply ParseReleaseCode_complete].
Qed.

Lemma parse_release_code_iff_witness :
  1060587890 <> 0 /\
  (ParseReleaseCode (txt "v2026.10.1-1060587890-beta") = 1060587890 <->
   release_tag (txt "v2026.10.1-1060587890-beta") 1060587890).
Proof. split; [done|]. apply parse_release_code_iff. done. Defined.

Example tag_dev : ParseReleaseCode (txt "0.0.0-dev") = 0.
Proof. reflexivity. Qed.
Example tag_long : ParseReleaseCode (txt "v2026.10.1-1234567890123456789") = 0.
Proof. reflexivity. Qed.
