(* ===== verification/Calendar.v ===== *)
(** Dates and times of the updater: the ISO 8601 UTC second that the releases API
    and the update report use (Common/UpdateResult.h [IsUtcSecond],
    [DaysInMonth], [ParseUtcSecond]; Common/UpdateApply.h [FormatUtcSecond]), the
    Gregorian date of a day number (Common/ReleaseSelection.h [CivilFromDays]) and
    the start of a UTC day ([UtcDayStart]). *)

From S2P Require Import Prelude.
From S2P Require Import CxxText.

(** Linear arithmetic with divisions by constants. *)
Ltac zdiv := Z.to_euclidean_division_equations; lia.

(** * The code *)

Definition kSecondsPerDay : Z := 24 * 60 * 60.

(** [%] and [/] on [std::int64_t] truncate towards zero. *)
Definition UtcDayStart (unixSeconds : Z) : Z :=
  let intoDay := Z.rem unixSeconds kSecondsPerDay in
  let intoDay := if intoDay <? 0 then intoDay + kSecondsPerDay else intoDay in
  unixSeconds - intoDay.

Record CivilDate := mkCivilDate { year : Z; month : Z; day : Z }.

(** The [unsigned] intermediates are 32 bits wide. *)
Definition CivilFromDays (days : Z) : CivilDate :=
  let days := days + 719468 in
  let era := Z.quot (if 0 <=? days then days else days - 146096) 146097 in
  let dayOfEra := u32 (days - era * 146097) in
  let yearOfEra :=
    u32 (dayOfEra - dayOfEra / 1460 + dayOfEra / 36524 - dayOfEra / 146096) / 365 in
  let dayOfYear := u32 (dayOfEra - u32 (365 * yearOfEra + yearOfEra / 4 - yearOfEra / 100)) in
  let monthIndex := u32 (5 * dayOfYear + 2) / 153 in
  let day := u32 (dayOfYear - u32 (153 * monthIndex + 2) / 5 + 1) in
  let month := if monthIndex <? 10 then monthIndex + 3 else monthIndex - 9 in
  let year := yearOfEra + era * 400 + (if month <=? 2 then 1 else 0) in
  {| year := year; month := month; day := day |}.

Definition kShape : text := txt "0000-00-00T00:00:00Z".

Fixpoint matches_shape (shape s : text) : bool :=
  match shape, s with
  | k :: shape', c :: s' =>
      (if bool_decide (k = "0"%char) then (48 <=? ord c) && (ord c <=? 57)
       else bool_decide (c = k)) && matches_shape shape' s'
  | [], [] => true
  | _, _ => false
  end.

Definition IsUtcSecond (s : text) : bool :=
  if negb (size s =? size kShape) then false else matches_shape kShape s.

Definition kDays : list Z := [31; 28; 31; 30; 31; 30; 31; 31; 30; 31; 30; 31].

(** [month] is 1 to 12 wherever the code calls it. *)
Definition DaysInMonth (year month : Z) : Z :=
  let leap := (Z.rem year 4 =? 0) && (negb (Z.rem year 100 =? 0) || (Z.rem year 400 =? 0)) in
  if (month =? 2) && leap then 29 else default 0 (kDays !! Z.to_nat (month - 1)).

(** The [digits] characters of [s] from [at_], as a number. *)
Definition number (s : text) (at_ digits : nat) : Z :=
  foldl (fun value c => value * 10 + (ord c - 48)) 0 (take digits (drop at_ s)).

Definition DaysFromCivil (year month day : Z) : Z :=
  let y := year - (if month <=? 2 then 1 else 0) in
  let era := Z.quot (if 0 <=? y then y else y - 399) 400 in
  let yearOfEra := y - era * 400 in
  let dayOfYear :=
    Z.quot (153 * (if 2 <? month then month - 3 else month + 9) + 2) 5 + day - 1 in
  let dayOfEra := yearOfEra * 365 + Z.quot yearOfEra 4 - Z.quot yearOfEra 100 + dayOfYear in
  era * 146097 + dayOfEra - 719468.

Definition ParseUtcSecond (s : text) : option Z :=
  if negb (IsUtcSecond s) then None else
  let year := number s 0 4 in
  let month := number s 5 2 in
  let day := number s 8 2 in
  let hour := number s 11 2 in
  let minute := number s 14 2 in
  let second := number s 17 2 in
  if (month <? 1) || (12 <? month) || (day <? 1) || (23 <? hour) || (59 <? minute) || (59 <? second)
  then None
  else if DaysInMonth year month <? day then None
  else Some (DaysFromCivil year month day * 86400 + hour * 3600 + minute * 60 + second).

Definition two (value : Z) : text :=
  let s := to_string value in if value <? 10 then txt "0" ++ s else s.

(** [while (year.size() < 4) year.insert(0, "0")]. *)
Definition pad4 (s : text) : text := replicate (4 - length s) "0"%char ++ s.

Definition FormatUtcSecond (unixSeconds : Z) : text :=
  let days :=
    if 0 <=? unixSeconds then Z.quot unixSeconds 86400 else Z.quot (unixSeconds - 86399) 86400 in
  let secondOfDay := unixSeconds - days * 86400 in
  let date := CivilFromDays days in
  pad4 (to_string (year date)) ++ txt "-" ++ two (month date) ++ txt "-" ++ two (day date) ++
  txt "T" ++ two (Z.quot secondOfDay 3600) ++ txt ":" ++
  two (Z.rem (Z.quot secondOfDay 60) 60) ++ txt ":" ++ two (Z.rem secondOfDay 60) ++ txt "Z".

(** * The start of a day *)

Lemma UtcDayStart_floor t : UtcDayStart t = t / kSecondsPerDay * kSecondsPerDay.
Proof.
  unfold UtcDayStart, kSecondsPerDay. change (24 * 60 * 60) with 86400.
  destruct (Z.rem t 86400 <? 0) eqn:E; bool_hyps; zdiv.
Qed.

Lemma UtcDayStart_le t : UtcDayStart t <= t < UtcDayStart t + kSecondsPerDay.
Proof. rewrite UtcDayStart_floor. unfold kSecondsPerDay. zdiv. Qed.

Lemma UtcDayStart_idemp t : UtcDayStart (UtcDayStart t) = UtcDayStart t.
Proof. rewrite !UtcDayStart_floor. unfold kSecondsPerDay. zdiv. Qed.

Lemma UtcDayStart_mono a b : a <= b -> UtcDayStart a <= UtcDayStart b.
Proof. intros H. rewrite !UtcDayStart_floor. unfold kSecondsPerDay. zdiv. Qed.

(** * Day numbers and dates

    Both conversions go through the same decomposition of a day: the 400-year era
    counted from 0000-03-01, the March-based year of the era, the month counted
    from March, and the day of the month. *)

(** Days of an era before the March-based year [y]. *)
Definition before_year (y : Z) : Z := 365 * y + y / 4 - y / 100.

(** Days of a March-based year before the month [mi]. *)
Definition before_month (mi : Z) : Z := (153 * mi + 2) / 5.

Definition month_of (mi : Z) : Z := if mi <? 10 then mi + 3 else mi - 9.
Definition month_index (m : Z) : Z := if 2 <? m then m - 3 else m + 9.

Definition compose (era yoe mi day : Z) : Z :=
  era * 146097 + before_year yoe + before_month mi + day - 1 - 719468.

Definition valid_date (d : CivilDate) : Prop :=
  1 <= month d <= 12 /\ 1 <= day d <= DaysInMonth (year d) (month d).

Lemma month_of_index m : 1 <= m <= 12 -> month_of (month_index m) = m /\ 0 <= month_index m <= 11.
Proof. intros H. unfold month_of, month_index. destruct (2 <? m) eqn:E; bool_hyps; cases_if; lia. Qed.

Lemma month_index_of mi : 0 <= mi <= 11 -> month_index (month_of mi) = mi /\ 1 <= month_of mi <= 12.
Proof. intros H. unfold month_of, month_index. destruct (mi <? 10) eqn:E; bool_hyps; cases_if; lia. Qed.

(** The last day of the March-based year [yoe] of [era]: 365 when the February
    that ends it is a leap one. *)
Lemma leap_February era yoe :
  0 <= yoe <= 399 ->
  DaysInMonth (yoe + era * 400 + 1) 2 = 28 + (before_year (yoe + 1) + (yoe + 1) / 400 - before_year yoe - 365).
Proof.
  intros H. unfold DaysInMonth, before_year. rewrite (proj2 (Z.eqb_eq 2 2)) by done.
  change (default 0 (kDays !! Z.to_nat (2 - 1))) with 28. cbn [andb].
  destruct (Z.rem (yoe + era * 400 + 1) 4 =? 0) eqn:E4; cbn [andb]; bool_hyps; [|zdiv].
  destruct (Z.rem (yoe + era * 400 + 1) 100 =? 0) eqn:E100; cbn [negb orb]; bool_hyps; [|zdiv].
  destruct (Z.rem (yoe + era * 400 + 1) 400 =? 0) eqn:E400; bool_hyps; zdiv.
Qed.

Lemma DaysInMonth_other y mi :
  0 <= mi <= 10 -> DaysInMonth y (month_of mi) = before_month (mi + 1) - before_month mi.
Proof.
  intros H. assert (mi = 0 \/ mi = 1 \/ mi = 2 \/ mi = 3 \/ mi = 4 \/ mi = 5 \/ mi = 6 \/ mi = 7 \/
    mi = 8 \/ mi = 9 \/ mi = 10) as Hm by lia.
  repeat destruct Hm as [-> |Hm]; try subst mi; by vm_compute.
Qed.

(** Where a day of year lies. *)
Lemma day_of_year_month doy :
  0 <= doy <= 365 ->
  let mi := (5 * doy + 2) / 153 in
  0 <= mi <= 11 /\ before_month mi <= doy /\ (mi <= 10 -> doy < before_month (mi + 1)).
Proof. intros H. cbv zeta. unfold before_month. zdiv. Qed.

(** Where a day of an era lies. *)
Lemma day_of_era_year doe :
  0 <= doe < 146097 ->
  let y := (doe - doe / 1460 + doe / 36524 - doe / 146096) / 365 in
  0 <= y <= 399 /\ before_year y <= doe < before_year (y + 1) + (y + 1) / 400.
Proof.
  intros H. cbv zeta. unfold before_year.
  assert (doe / 36524 = 0 \/ doe / 36524 = 1 \/ doe / 36524 = 2 \/ doe / 36524 = 3 \/ doe / 36524 = 4)
    as Hc by zdiv.
  destruct Hc as [Hc|[Hc|[Hc|[Hc|Hc]]]]; rewrite Hc; zdiv.
Qed.

Lemma before_year_range y : 0 <= y <= 399 -> 0 <= before_year y <= 145731.
Proof. intros H. unfold before_year. zdiv. Qed.

Lemma before_year_mono a b : 0 <= a -> a < b <= 400 -> before_year (a + 1) + (a + 1) / 400 <= before_year b + b / 400.
Proof. intros Ha H. unfold before_year. zdiv. Qed.

(** A day of an era in its year and month. *)
Lemma era_decompose doe :
  0 <= doe < 146097 ->
  let yoe := (doe - doe / 1460 + doe / 36524 - doe / 146096) / 365 in
  let doy := doe - before_year yoe in
  let mi := (5 * doy + 2) / 153 in
  0 <= yoe <= 399 /\ 0 <= doy <= 365 /\ 0 <= mi <= 11 /\ before_month mi <= doy.
Proof.
  intros H. cbv zeta. pose proof (day_of_era_year doe H) as [Hy Hd].
  set (yoe := (doe - doe / 1460 + doe / 36524 - doe / 146096) / 365) in *. clearbody yoe.
  assert (0 <= doe - before_year yoe <= 365) as Hdoy by (unfold before_year in *; zdiv).
  pose proof (day_of_year_month _ Hdoy) as [Hm [Hb _]]. cbv zeta in Hb. lia.
Qed.

Lemma floor_era z : Z.quot (if 0 <=? z then z else z - 146096) 146097 = z / 146097.
Proof. destruct (0 <=? z) eqn:E; bool_hyps; zdiv. Qed.

Lemma floor_400 y : Z.quot (if 0 <=? y then y else y - 399) 400 = y / 400.
Proof. destruct (0 <=? y) eqn:E; bool_hyps; zdiv. Qed.

(** No unsigned intermediate of [CivilFromDays] wraps, and the date it returns
    decomposes the day. *)
Lemma CivilFromDays_compose n :
  exists era yoe mi, 0 <= yoe <= 399 /\ 0 <= mi <= 11 /\
    let d := CivilFromDays n in
    n = compose era yoe mi (day d) /\ month d = month_of mi /\
    year d = yoe + era * 400 + (if month_of mi <=? 2 then 1 else 0) /\
    1 <= day d /\ before_month mi + day d - 1 <= 365 /\
    (mi <= 10 -> before_month mi + day d - 1 < before_month (mi + 1)) /\
    before_year yoe + before_month mi + day d - 1 < before_year (yoe + 1) + (yoe + 1) / 400.
Proof.
  unfold CivilFromDays. rewrite floor_era. set (era := (n + 719468) / 146097).
  assert (0 <= n + 719468 - era * 146097 < 146097) as Hdoe by (unfold era; zdiv).
  rewrite (wrap_small 32 (n + 719468 - era * 146097)) by lia.
  set (doe := n + 719468 - era * 146097) in *.
  pose proof (era_decompose doe Hdoe) as (Hyoe & Hdoy & Hmi & Hbm).
  pose proof (day_of_era_year doe Hdoe) as [_ Hy].
  rewrite (wrap_small 32 (doe - doe / 1460 + doe / 36524 - doe / 146096)) by zdiv.
  set (yoe := (doe - doe / 1460 + doe / 36524 - doe / 146096) / 365) in *.
  pose proof (before_year_range yoe Hyoe) as Hby.
  rewrite (wrap_small 32 (365 * yoe + yoe / 4 - yoe / 100)) by (unfold before_year in *; lia).
  change (365 * yoe + yoe / 4 - yoe / 100) with (before_year yoe) in *.
  pose proof (day_of_year_month _ Hdoy) as (_ & _ & Hlt).
  rewrite (wrap_small 32 (doe - before_year yoe)) by lia. cbv zeta in *.
  rewrite (wrap_small 32 (5 * _ + 2)) by lia.
  set (mi := (5 * (doe - before_year yoe) + 2) / 153) in *.
  rewrite (wrap_small 32 (153 * mi + 2)) by lia. fold (before_month mi).
  assert (0 <= before_month mi) by (unfold before_month; zdiv).
  rewrite (wrap_small 32 (_ - before_month mi + 1)) by lia. fold (month_of mi).
  exists era, yoe, mi. cbn [year month day]. unfold compose. unfold doe in *.
  split_and!; try done; try lia.
Qed.

Lemma DaysFromCivil_compose y m d :
  1 <= m <= 12 ->
  let y' := y - (if m <=? 2 then 1 else 0) in
  DaysFromCivil y m d = compose (y' / 400) (y' mod 400) (month_index m) d.
Proof.
  intros Hm. cbv zeta. unfold DaysFromCivil. rewrite floor_400. unfold compose.
  set (y' := y - _). fold (month_index m). pose proof (month_of_index m Hm) as [_ Hmi].
  unfold before_year, before_month. zdiv.
Qed.

(** The decomposition of a day is unique. *)
Lemma compose_inj e1 y1 m1 d1 e2 y2 m2 d2 :
  0 <= y1 <= 399 -> 0 <= y2 <= 399 -> 0 <= m1 <= 11 -> 0 <= m2 <= 11 ->
  1 <= d1 -> 1 <= d2 ->
  before_year y1 + before_month m1 + d1 - 1 < before_year (y1 + 1) + (y1 + 1) / 400 ->
  before_year y2 + before_month m2 + d2 - 1 < before_year (y2 + 1) + (y2 + 1) / 400 ->
  (m1 <= 10 -> before_month m1 + d1 - 1 < before_month (m1 + 1)) ->
  (m2 <= 10 -> before_month m2 + d2 - 1 < before_month (m2 + 1)) ->
  compose e1 y1 m1 d1 = compose e2 y2 m2 d2 ->
  e1 = e2 /\ y1 = y2 /\ m1 = m2 /\ d1 = d2.
Proof.
  unfold compose. intros Hy1 Hy2 Hm1 Hm2 Hd1 Hd2 B1 B2 M1 M2 E.
  assert (forall y, 0 <= y <= 399 -> before_year (y + 1) + (y + 1) / 400 <= 146097) as Hmax
    by (intros y Hy; unfold before_year; zdiv).
  pose proof (before_year_range y1 Hy1). pose proof (before_year_range y2 Hy2).
  pose proof (Hmax y1 Hy1). pose proof (Hmax y2 Hy2).
  assert (0 <= before_month m1 /\ 0 <= before_month m2) as [] by (unfold before_month; zdiv).
  assert (e1 = e2) as -> by nia. split; [done|].
  assert (y1 = y2) as ->.
  { destruct (Z.lt_trichotomy y1 y2) as [L|[L|L]]; [|done|].
    - pose proof (before_year_mono y1 y2 ltac:(lia) ltac:(lia)).
      assert (y2 / 400 = 0) by zdiv. lia.
    - pose proof (before_year_mono y2 y1 ltac:(lia) ltac:(lia)).
      assert (y1 / 400 = 0) by zdiv. lia. }
  split; [done|].
  assert (forall a b, 0 <= a -> a < b <= 11 -> before_month (a + 1) <= before_month b) as Hmono
    by (intros a b Ha Hb; unfold before_month; zdiv).
  assert (m1 = m2) as ->; [|lia].
  destruct (Z.lt_trichotomy m1 m2) as [L|[L|L]]; [|done|].
  - pose proof (Hmono m1 m2 ltac:(lia) ltac:(lia)). lia.
  - pose proof (Hmono m2 m1 ltac:(lia) ltac:(lia)). lia.
Qed.

(** The bounds a valid date gives its decomposition. *)
Lemma valid_date_bounds y m d :
  1 <= m <= 12 -> 1 <= d <= DaysInMonth y m ->
  let y' := y - (if m <=? 2 then 1 else 0) in
  let yoe := y' mod 400 in let mi := month_index m in
  before_year yoe + before_month mi + d - 1 < before_year (yoe + 1) + (yoe + 1) / 400 /\
  (mi <= 10 -> before_month mi + d - 1 < before_month (mi + 1)).
Proof.
  intros Hm Hd. cbv zeta. pose proof (month_of_index m Hm) as [Hmi Hr].
  set (y' := y - _). set (yoe := y' mod 400). assert (0 <= yoe <= 399) as Hyoe by (unfold yoe; zdiv).
  destruct (Z.eq_dec m 2) as [-> |Hne].
  - change (month_index 2) with 11. split; [|lia].
    assert (y = yoe + y' / 400 * 400 + 1) as Ey by (unfold yoe, y'; cbn; zdiv).
    rewrite Ey, leap_February in Hd by done. unfold before_month. change ((153 * 11 + 2) / 5) with 337. lia.
  - assert (month_index m <= 10) as Hle by (unfold month_index; cases_if; lia).
    rewrite <- Hmi, DaysInMonth_other in Hd by lia.
    assert (before_month (month_index m + 1) <= 337) by (unfold before_month; zdiv).
    assert (before_year (yoe + 1) >= before_year yoe + 365) by (unfold before_year; zdiv).
    assert (0 <= (yoe + 1) / 400) by zdiv. lia.
Qed.

(** A date the conversion returns is a valid one. *)
Lemma CivilFromDays_valid n : valid_date (CivilFromDays n).
Proof.
  destruct (CivilFromDays_compose n) as (era & yoe & mi & Hy & Hm & _ & Em & Ey & H1 & _ & H2 & H3).
  unfold valid_date. rewrite Em. pose proof (month_index_of mi Hm) as [_ Hr]. split; [done|]. split; [done|].
  destruct (Z.eq_dec mi 11) as [-> |Hne].
  - change (month_of 11) with 2 in *. rewrite Ey. cbn [Z.leb]. change (2 <=? 2) with true. cbn iota.
    rewrite leap_February by done. unfold before_month in *. change ((153 * 11 + 2) / 5) with 337 in *. lia.
  - rewrite DaysInMonth_other by lia. specialize (H2 ltac:(lia)). lia.
Qed.

(** Days to a date and back. *)
Lemma DaysFromCivil_CivilFromDays n :
  let d := CivilFromDays n in DaysFromCivil (year d) (month d) (day d) = n.
Proof.
  cbv zeta. destruct (CivilFromDays_compose n) as (era & yoe & mi & Hy & Hm & En & Em & Ey & _).
  pose proof (month_index_of mi Hm) as [Hmi Hr].
  rewrite DaysFromCivil_compose by (rewrite Em; done). rewrite Em, Ey, Hmi.
  set (l := if month_of mi <=? 2 then 1 else 0). rewrite Z.add_simpl_r.
  replace ((yoe + era * 400) / 400) with era by zdiv.
  replace ((yoe + era * 400) mod 400) with yoe by zdiv. by rewrite En at 2.
Qed.

Lemma CivilFromDays_DaysFromCivil y m d :
  1 <= m <= 12 -> 1 <= d <= DaysInMonth y m ->
  CivilFromDays (DaysFromCivil y m d) = {| year := y; month := m; day := d |}.
Proof.
  intros Hm Hd. pose proof (valid_date_bounds y m d Hm Hd) as [B1 B2].
  destruct (CivilFromDays_compose (DaysFromCivil y m d))
    as (era & yoe & mi & Hy & Hmi & En & Em & Ey & C1 & _ & C2 & C3).
  pose proof (month_of_index m Hm) as [Hmo Hmr].
  rewrite DaysFromCivil_compose in En at 1 by done. cbv zeta in *.
  set (y' := y - _) in *. assert (0 <= y' mod 400 <= 399) by zdiv.
  apply compose_inj in En as (E1 & E2 & E3 & E4); [|done..|lia|done|done|done|done|done].
  destruct (CivilFromDays _) as [y0 m0 d0]; cbn [year month day] in *. subst.
  rewrite Hmo. f_equal. unfold y' in *. zdiv.
Qed.

Lemma CivilFromDays_inj a b : CivilFromDays a = CivilFromDays b -> a = b.
Proof.
  intros H. pose proof (DaysFromCivil_CivilFromDays a) as Ea. pose proof (DaysFromCivil_CivilFromDays b) as Eb.
  rewrite H in Ea. congruence.
Qed.

(** ** The order of dates is the order of days *)

Definition date_le (a b : CivilDate) : Prop :=
  year a < year b \/ (year a = year b /\ (month a < month b \/ (month a = month b /\ day a <= day b))).

Lemma before_month_mono a b : 0 <= a -> a < b <= 11 -> before_month (a + 1) <= before_month b.
Proof. intros Ha Hb. unfold before_month. zdiv. Qed.

Lemma CivilFromDays_mono a b : a <= b -> date_le (CivilFromDays a) (CivilFromDays b).
Proof.
  intros Hab.
  destruct (CivilFromDays_compose a) as (e1 & y1 & m1 & Hy1 & Hm1 & E1 & M1 & Y1 & D1 & _ & B1 & C1).
  destruct (CivilFromDays_compose b) as (e2 & y2 & m2 & Hy2 & Hm2 & E2 & M2 & Y2 & D2 & _ & B2 & C2).
  unfold date_le. rewrite M1, M2, Y1, Y2. set (d1 := day _) in *. set (d2 := day (CivilFromDays b)) in *.
  clearbody d1 d2. unfold compose in *. rewrite E1, E2 in Hab. clear E1 E2 M1 M2 Y1 Y2 a b.
  set (l1 := if month_of m1 <=? 2 then 1 else 0). set (l2 := if month_of m2 <=? 2 then 1 else 0).
  assert (forall m, 0 <= m <= 11 -> (m <= 9 /\ month_of m = m + 3 /\ (if month_of m <=? 2 then 1 else 0) = 0) \/
    (10 <= m /\ month_of m = m - 9 /\ (if month_of m <=? 2 then 1 else 0) = 1)) as Hl.
  { intros m Hm. unfold month_of. destruct (m <? 10) eqn:E; bool_hyps; [left|right]; cases_if; lia. }
  pose proof (Hl m1 Hm1) as H1. pose proof (Hl m2 Hm2) as H2. fold l1 in H1. fold l2 in H2.
  assert (forall y, 0 <= y <= 399 -> before_year (y + 1) + (y + 1) / 400 <= 146097) as Hmax
    by (intros y Hy; unfold before_year; zdiv).
  pose proof (before_year_range y1 Hy1). pose proof (before_year_range y2 Hy2).
  pose proof (Hmax y1 Hy1). pose proof (Hmax y2 Hy2).
  assert (0 <= before_month m1 /\ 0 <= before_month m2) as [] by (unfold before_month; zdiv).
  destruct (Z.lt_trichotomy e1 e2) as [L|[<-|L]]; [lia| |nia].
  destruct (Z.lt_trichotomy y1 y2) as [L|[<-|L]]; [lia| |].
  - destruct (Z.lt_trichotomy m1 m2) as [L|[<-|L]]; [lia|lia|].
    pose proof (before_month_mono m2 m1 ltac:(lia) ltac:(lia)). lia.
  - pose proof (before_year_mono y2 y1 ltac:(lia) ltac:(lia)).
    assert (y1 / 400 = 0) by zdiv. lia.
Qed.

(** * The text of a second *)

(** Two lists of digits are equal when their values are. *)
Ltac digits_eq :=
  repeat (apply (f_equal2 (@cons ascii)); [apply (f_equal digit_char); zdiv|]); reflexivity.

Lemma two_digits v : 0 <= v <= 99 -> two v = [digit_char (v / 10); digit_char (v mod 10)].
Proof.
  intros H. unfold two. destruct (v <? 10) eqn:E; bool_hyps.
  - rewrite to_string_digit by lia. change (txt "0") with [digit_char 0]. cbn [app]. digits_eq.
  - rewrite to_string_step by lia. rewrite to_string_digit by zdiv. done.
Qed.

Lemma pad4_digits y :
  0 <= y <= 9999 ->
  pad4 (to_string y) =
  [digit_char (y / 1000); digit_char (y / 100 mod 10); digit_char (y / 10 mod 10); digit_char (y mod 10)].
Proof.
  intros H. unfold pad4.
  assert (forall n, 10 <= n <= 99 -> to_string n = [digit_char (n / 10); digit_char (n mod 10)]) as T2.
  { intros n Hn. rewrite to_string_step, to_string_digit by zdiv. done. }
  assert (forall n, 100 <= n <= 999 ->
    to_string n = [digit_char (n / 100); digit_char (n / 10 mod 10); digit_char (n mod 10)]) as T3.
  { intros n Hn. rewrite to_string_step, T2 by zdiv. cbn [app]. digits_eq. }
  destruct (Z.lt_ge_cases y 10); [|destruct (Z.lt_ge_cases y 100); [|destruct (Z.lt_ge_cases y 1000)]].
  - rewrite to_string_digit by lia. cbn. change "0"%char with (digit_char 0). digits_eq.
  - rewrite T2 by lia. cbn. change "0"%char with (digit_char 0). digits_eq.
  - rewrite T3 by lia. cbn. change "0"%char with (digit_char 0). digits_eq.
  - rewrite to_string_step, T3 by zdiv. cbn. digits_eq.
Qed.

(** Two digits as the code reads them. *)
Lemma two_value a b :
  is_digit a = true -> is_digit b = true ->
  0 <= 10 * digit_value a + digit_value b <= 99 /\
  two (10 * digit_value a + digit_value b) = [a; b].
Proof.
  intros Ha Hb. pose proof (digit_value_range a Ha). pose proof (digit_value_range b Hb).
  split; [lia|]. rewrite two_digits by lia.
  replace ((10 * digit_value a + digit_value b) / 10) with (digit_value a) by zdiv.
  replace ((10 * digit_value a + digit_value b) mod 10) with (digit_value b) by zdiv.
  by rewrite !digit_char_value.
Qed.

Lemma pad4_value a b c d :
  is_digit a = true -> is_digit b = true -> is_digit c = true -> is_digit d = true ->
  let y := 1000 * digit_value a + 100 * digit_value b + 10 * digit_value c + digit_value d in
  0 <= y <= 9999 /\ pad4 (to_string y) = [a; b; c; d].
Proof.
  intros Ha Hb Hc Hd. cbv zeta.
  pose proof (digit_value_range a Ha). pose proof (digit_value_range b Hb).
  pose proof (digit_value_range c Hc). pose proof (digit_value_range d Hd).
  split; [lia|]. rewrite pad4_digits by lia. set (y := _ + digit_value d).
  replace (y / 1000) with (digit_value a) by (unfold y; zdiv).
  replace (y / 100 mod 10) with (digit_value b) by (unfold y; zdiv).
  replace (y / 10 mod 10) with (digit_value c) by (unfold y; zdiv).
  replace (y mod 10) with (digit_value d) by (unfold y; zdiv).
  by rewrite !digit_char_value.
Qed.

(** The fields of a text with the shape of a UTC second. *)
Record stamp := mkStamp { y4 : Z; mo2 : Z; d2 : Z; h2 : Z; mi2 : Z; s2 : Z }.

Definition stamp_text (t : stamp) : text :=
  pad4 (to_string (y4 t)) ++ txt "-" ++ two (mo2 t) ++ txt "-" ++ two (d2 t) ++
  txt "T" ++ two (h2 t) ++ txt ":" ++ two (mi2 t) ++ txt ":" ++ two (s2 t) ++ txt "Z".

Definition stamp_range (t : stamp) : Prop :=
  0 <= y4 t <= 9999 /\ 0 <= mo2 t <= 99 /\ 0 <= d2 t <= 99 /\ 0 <= h2 t <= 99 /\
  0 <= mi2 t <= 99 /\ 0 <= s2 t <= 99.

Definition stamp_fields (s : text) : stamp :=
  {| y4 := number s 0 4; mo2 := number s 5 2; d2 := number s 8 2;
     h2 := number s 11 2; mi2 := number s 14 2; s2 := number s 17 2 |}.

Lemma number_two a b rest : number (a :: b :: rest) 0 2 = 10 * digit_value a + digit_value b.
Proof. unfold number, digit_value. simpl. lia. Qed.

Lemma matches_cons k shape c s :
  matches_shape (k :: shape) (c :: s) =
  (if bool_decide (k = "0"%char) then is_digit c else bool_decide (c = k)) && matches_shape shape s.
Proof. done. Qed.

(** Ltac for the twenty characters of the shape. *)
Ltac shape_step H :=
  lazymatch type of H with
  | matches_shape (_ :: _) ?s = true =>
      let c := fresh "c" in let s' := fresh "s" in
      destruct s as [|c s']; [done|]; rewrite matches_cons in H;
      apply andb_true_iff in H as [? H]
  end.

Lemma IsUtcSecond_stamp s :
  IsUtcSecond s = true -> s = stamp_text (stamp_fields s) /\ stamp_range (stamp_fields s).
Proof.
  unfold IsUtcSecond. destruct (negb (size s =? size kShape)); [done|].
  unfold kShape. cbn [txt String.list_ascii_of_string]. intros H.
  do 20 shape_step H.
  lazymatch type of H with matches_shape [] ?r = true => destruct r; [clear H|done] end.
  repeat match goal with
  | H : (if bool_decide (?a = ?b) then _ else _) = true |- _ =>
      first [rewrite (bool_decide_eq_true_2 (a = b)) in H by done
            |rewrite (bool_decide_eq_false_2 (a = b)) in H by done; apply bool_decide_eq_true in H]
  end. subst.
  unfold stamp_text, stamp_fields, stamp_range; cbn [y4 mo2 d2 h2 mi2 s2].
  change (number _ 5 2) with (number [c4; c5] 0 2). change (number _ 8 2) with (number [c7; c8] 0 2).
  change (number _ 11 2) with (number [c10; c11] 0 2). change (number _ 14 2) with (number [c13; c14] 0 2).
  change (number _ 17 2) with (number [c16; c17] 0 2).
  match goal with |- context [number ?s 0 4] =>
    replace (number s 0 4) with (1000 * digit_value c + 100 * digit_value c0 + 10 * digit_value c1 + digit_value c2)
      by (unfold number, digit_value; simpl; lia) end.
  rewrite !number_two.
  destruct (pad4_value c c0 c1 c2) as [? ->]; try done.
  destruct (two_value c4 c5) as [? ->]; try done. destruct (two_value c7 c8) as [? ->]; try done.
  destruct (two_value c10 c11) as [? ->]; try done. destruct (two_value c13 c14) as [? ->]; try done.
  destruct (two_value c16 c17) as [? ->]; try done.
Qed.

Lemma matches_digit c shape s :
  is_digit c = true -> matches_shape ("0"%char :: shape) (c :: s) = matches_shape shape s.
Proof. intros H. by rewrite matches_cons, bool_decide_eq_true_2, H. Qed.

Lemma matches_sep k shape s :
  k <> "0"%char -> matches_shape (k :: shape) (k :: s) = matches_shape shape s.
Proof. intros H. by rewrite matches_cons, bool_decide_eq_false_2, bool_decide_eq_true_2. Qed.

Lemma stamp_IsUtcSecond t :
  stamp_range t -> IsUtcSecond (stamp_text t) = true /\ stamp_fields (stamp_text t) = t.
Proof.
  destruct t as [y mo d h mi s]. unfold stamp_range, stamp_text. cbn [y4 mo2 d2 h2 mi2 s2].
  intros (Hy & Hmo & Hd & Hh & Hmi & Hs).
  rewrite pad4_digits, !two_digits by done. cbn [app txt String.list_ascii_of_string].
  assert (forall v, 0 <= v <= 99 -> 0 <= v / 10 <= 9 /\ 0 <= v mod 10 <= 9) as D by (intros; zdiv).
  split.
  - unfold IsUtcSecond, kShape. cbn [txt String.list_ascii_of_string].
    rewrite (proj2 (Z.eqb_eq _ _)) by done. cbn [negb].
    repeat first [rewrite matches_digit by (apply is_digit_char; first [zdiv|by apply D])|rewrite matches_sep by done].
    done.
  - unfold stamp_fields, number. simpl.
    change (fun value c => value * 10 + (ord c - 48)) with (fun value c => value * 10 + digit_value c).
    fold (digit_value (digit_char (y / 1000))).
    repeat match goal with |- context [ord (digit_char ?v) - 48] =>
      replace (ord (digit_char v) - 48) with v by (rewrite ord_digit_char by zdiv; lia) end.
    rewrite digit_value_char by zdiv. f_equal; zdiv.
Qed.

(** * Seconds to text and back *)

(** 0000-01-01T00:00:00Z and 9999-12-31T23:59:59Z. *)
Definition first_second : Z := -62167219200.
Definition last_second : Z := 253402300799.

Definition time_stamp (t : Z) : stamp :=
  let days := if 0 <=? t then Z.quot t 86400 else Z.quot (t - 86399) 86400 in
  let sod := t - days * 86400 in
  let date := CivilFromDays days in
  {| y4 := year date; mo2 := month date; d2 := day date; h2 := Z.quot sod 3600;
     mi2 := Z.rem (Z.quot sod 60) 60; s2 := Z.rem sod 60 |}.

Lemma FormatUtcSecond_stamp t : FormatUtcSecond t = stamp_text (time_stamp t).
Proof.
  unfold FormatUtcSecond, stamp_text, time_stamp. cbn [y4 mo2 d2 h2 mi2 s2]. reflexivity.
Qed.

Lemma floor_days t : (if 0 <=? t then Z.quot t 86400 else Z.quot (t - 86399) 86400) = t / 86400.
Proof. destruct (0 <=? t) eqn:E; bool_hyps; zdiv. Qed.

Lemma DaysInMonth_le y m : 1 <= m <= 12 -> 28 <= DaysInMonth y m <= 31.
Proof.
  intros H. unfold DaysInMonth. destruct (_ && _); [lia|].
  assert (m = 1 \/ m = 2 \/ m = 3 \/ m = 4 \/ m = 5 \/ m = 6 \/ m = 7 \/ m = 8 \/ m = 9 \/ m = 10 \/
    m = 11 \/ m = 12) as Hm by lia.
  repeat destruct Hm as [-> |Hm]; try subst m; by vm_compute.
Qed.

(** The years of a range of days. *)
Lemma CivilFromDays_year n : -719528 <= n <= 2932896 -> 0 <= year (CivilFromDays n) <= 9999.
Proof.
  intros Hn. destruct (CivilFromDays_compose n) as (era & yoe & mi & Hy & Hm & En & Em & Ey & H1 & H2 & H3 & H4).
  rewrite Ey. unfold compose in En. pose proof (before_year_range yoe Hy) as Hb.
  set (l := if month_of mi <=? 2 then 1 else 0).
  assert (0 <= l <= 1 /\ (mi <= 9 -> l = 0) /\ (10 <= mi -> l = 1)) as Hl.
  { unfold l, month_of. destruct (mi <? 10) eqn:E; bool_hyps; cases_if; lia. }
  assert (0 <= before_month mi /\ (10 <= mi -> 306 <= before_month mi) /\
    (mi <= 9 -> before_month (mi + 1) <= 306)) as Hbm by (unfold before_month; zdiv).
  assert (before_year (yoe + 1) + (yoe + 1) / 400 <= 146097) as Hub by (unfold before_year; zdiv).
  assert (yoe <= 398 -> before_year (yoe + 1) + (yoe + 1) / 400 <= 145731) as Hub' by (unfold before_year; zdiv).
  assert (yoe = 399 -> before_year yoe = 145731) as H399 by (intros ->; done).
  lia.
Qed.

(** The range of a date's days. *)
Lemma DaysFromCivil_range y m d :
  0 <= y <= 9999 -> 1 <= m <= 12 -> 1 <= d <= DaysInMonth y m ->
  -719528 <= DaysFromCivil y m d <= 2932896.
Proof.
  intros Hy Hm Hd. rewrite DaysFromCivil_compose by done. cbv zeta.
  pose proof (valid_date_bounds y m d Hm Hd) as [B1 B2]. cbv zeta in *.
  pose proof (DaysInMonth_le y m Hm). unfold compose, month_index, before_month, before_year in *.
  destruct (m <=? 2) eqn:E1; destruct (2 <? m) eqn:E2; bool_hyps; zdiv.
Qed.

Lemma time_stamp_range t :
  first_second <= t <= last_second -> stamp_range (time_stamp t).
Proof.
  unfold first_second, last_second. intros Ht. unfold time_stamp, stamp_range. rewrite floor_days.
  cbn [y4 mo2 d2 h2 mi2 s2]. pose proof (CivilFromDays_year (t / 86400) ltac:(zdiv)).
  destruct (CivilFromDays_valid (t / 86400)) as [Hm Hd].
  pose proof (DaysInMonth_le (year (CivilFromDays (t / 86400))) _ Hm).
  split_and!; try lia; zdiv.
Qed.

(** A second is read back from its text. *)
Lemma ParseUtcSecond_FormatUtcSecond t :
  first_second <= t <= last_second -> ParseUtcSecond (FormatUtcSecond t) = Some t.
Proof.
  intros Ht. rewrite FormatUtcSecond_stamp.
  pose proof (stamp_IsUtcSecond _ (time_stamp_range t Ht)) as [H1 H2].
  generalize dependent (stamp_text (time_stamp t)). intros s H1 H2.
  unfold ParseUtcSecond. rewrite H1. cbn [negb]. unfold stamp_fields, time_stamp in H2.
  rewrite floor_days in H2. cbv zeta in H2.
  pose proof (f_equal y4 H2) as Ey. pose proof (f_equal mo2 H2) as Emo. pose proof (f_equal d2 H2) as Ed.
  pose proof (f_equal h2 H2) as Eh. pose proof (f_equal mi2 H2) as Emi. pose proof (f_equal s2 H2) as Es.
  cbn [y4 mo2 d2 h2 mi2 s2] in *. rewrite Ey, Emo, Ed, Eh, Emi, Es. cbv zeta.
  destruct (CivilFromDays_valid (t / 86400)) as [Hm Hd].
  set (sod := t - t / 86400 * 86400). assert (0 <= sod < 86400) as Hsod by (unfold sod; zdiv).
  assert (Z.quot sod 3600 <= 23 /\ Z.rem (Z.quot sod 60) 60 <= 59 /\ Z.rem sod 60 <= 59) as (? & ? & ?)
    by (clearbody sod; zdiv).
  rewrite !(proj2 (Z.ltb_ge _ _)) by lia. cbn [orb].
  rewrite DaysFromCivil_CivilFromDays. f_equal. unfold sod in *. zdiv.
Qed.

(** The text a second is read from is the text of that second. *)
Lemma FormatUtcSecond_ParseUtcSecond s t :
  ParseUtcSecond s = Some t -> FormatUtcSecond t = s /\ first_second <= t <= last_second.
Proof.
  unfold ParseUtcSecond. destruct (IsUtcSecond s) eqn:Hs; [|done]. cbn [negb].
  apply IsUtcSecond_stamp in Hs as [Es Hr]. unfold stamp_range, stamp_fields in *. cbn [y4 mo2 d2 h2 mi2 s2] in *.
  set (y := number s 0 4) in *. set (mo := number s 5 2) in *. set (d := number s 8 2) in *.
  set (h := number s 11 2) in *. set (mi := number s 14 2) in *. set (sec := number s 17 2) in *.
  clearbody y mo d h mi sec. destruct (_ || _) eqn:E1; [done|]. destruct (_ <? d) eqn:E2; [done|].
  intros [= <-]. bool_hyps.
  pose proof (DaysFromCivil_range y mo d ltac:(lia) ltac:(lia) ltac:(lia)) as Hd.
  split; [|unfold first_second, last_second; lia].
  rewrite FormatUtcSecond_stamp, Es. f_equal. unfold time_stamp. rewrite floor_days. cbv zeta.
  set (n := DaysFromCivil y mo d) in *.
  replace ((n * 86400 + h * 3600 + mi * 60 + sec) / 86400) with n by zdiv.
  replace (n * 86400 + h * 3600 + mi * 60 + sec - n * 86400) with (h * 3600 + mi * 60 + sec) by lia.
  unfold n. rewrite CivilFromDays_DaysFromCivil by lia. cbn [year month day]. f_equal; zdiv.
Qed.

(** * Properties *)

(** [FormatUtcSecond] and [ParseUtcSecond] are inverse of each other.  Every
    second from 0000-01-01 to the end of 9999 is read back from the text written
    for it, and the only texts read as a second are the ones written for it, so a
    publication time names one instant and an instant has one text. *)
Theorem utc_second_roundtrip s t :
  ParseUtcSecond s = Some t <-> (first_second <= t <= last_second /\ FormatUtcSecond t = s).
Proof.
  split.
  - intros H. apply FormatUtcSecond_ParseUtcSecond in H as [? ?]. done.
  - intros [Ht <-]. by apply ParseUtcSecond_FormatUtcSecond.
Qed.

Example read_release_time : ParseUtcSecond (txt "2026-10-01T14:51:17Z") = Some 1790866277.
Proof. vm_compute. reflexivity. Qed.
Example no_february_31 : ParseUtcSecond (txt "2026-02-31T00:00:00Z") = None.
Proof. vm_compute. reflexivity. Qed.
