(* ===== verification/UpdateFormats.v ===== *)
(** The small string formats of the updater (Common/UpdateFormats.h): the digest of
    a release asset, the names a swap may touch, and the names its clean-up may
    delete. *)

From S2P Require Import Prelude.
From S2P Require Import CxxText.

(** * The code *)

Definition IsHexDigit (c : ascii) : bool :=
  ((48 <=? ord c) && (ord c <=? 57)) || ((97 <=? ord c) && (ord c <=? 102)) ||
  ((65 <=? ord c) && (ord c <=? 70)).

Definition AsciiLower (c : ascii) : ascii :=
  if (65 <=? ord c) && (ord c <=? 90) then chr (ord c - 65 + 97) else c.

Fixpoint folded_equal (a b : text) : bool :=
  match a, b with
  | x :: a', y :: b' =>
      if negb (bool_decide (AsciiLower x = AsciiLower y)) then false else folded_equal a' b'
  | _, _ => true
  end.

Definition EqualsAsciiCaseless (a b : text) : bool :=
  if negb (size a =? size b) then false else folded_equal a b.

(** The loop over the hex characters: [None] is the early [return {}]. *)
Fixpoint lower_hex (s : text) : option text :=
  match s with
  | [] => Some []
  | c :: s' => if negb (IsHexDigit c) then None else (AsciiLower c ::.) <$> lower_hex s'
  end.

Definition kDigestPrefix : text := txt "sha256:".

Definition DigestHexFromAssetDigest (digest : text) : text :=
  if negb (size digest =? size kDigestPrefix + 64) then [] else
  if negb (has_prefix kDigestPrefix digest) then [] else
  default [] (lower_hex (drop (length kDigestPrefix) digest)).

(** '/', '\' and ':'. *)
Definition is_separator (c : ascii) : bool := (ord c =? 47) || (ord c =? 92) || (ord c =? 58).

Definition IsAllowedPayloadName (name : text) : bool :=
  if bool_decide (name = []) || teqb name (txt ".") || teqb name (txt "..") then false else
  if existsb is_separator name then false else
  match rfind (txt ".") name with
  | None => false
  | Some dot =>
      if bool_decide (dot = 0%nat) then false else
      let ext := drop dot name in
      EqualsAsciiCaseless ext (txt ".exe") || EqualsAsciiCaseless ext (txt ".dll") ||
      EqualsAsciiCaseless ext (txt ".pri")
  end.

Definition IsStaleRenamedName (name : text) : bool :=
  match rfind (txt ".old") name with
  | None => false
  | Some pos =>
      if bool_decide (pos = 0%nat) then false else
      let tail := drop (pos + 4) name in
      match tail with
      | [] => true
      | c :: rest =>
          if bool_decide (length tail < 2)%nat || negb (bool_decide (c = "-"%char)) then false
          else forallb (fun d => (48 <=? ord d) && (ord d <=? 57)) rest
      end
  end.

(** * Facts *)

Lemma AsciiLower_idemp c : AsciiLower (AsciiLower c) = AsciiLower c.
Proof.
  unfold AsciiLower at 2 3. destruct ((65 <=? ord c) && (ord c <=? 90)) eqn:E.
  - bool_hyps. unfold AsciiLower. rewrite ord_chr by lia.
    rewrite (proj2 (andb_false_iff _ _)); [done|right; apply Z.leb_gt; lia].
  - unfold AsciiLower. by rewrite E.
Qed.

(** Equality up to ASCII case is equality of the folded texts. *)
Lemma EqualsAsciiCaseless_spec a b :
  EqualsAsciiCaseless a b = true <-> map AsciiLower a = map AsciiLower b.
Proof.
  unfold EqualsAsciiCaseless. split.
  - destruct (size a =? size b) eqn:E; [|done]. cbn [negb]. bool_hyps. unfold size in E.
    revert b E. induction a as [|x a IH]; intros [|y b] E H; simpl in *; try done; try lia.
    destruct (bool_decide _) eqn:Ex; [|done]. bool_hyps. f_equal; [done|]. apply IH; [lia|done].
  - intros H. assert (length a = length b) as Hl by (apply (f_equal length) in H; by rewrite !length_map in H).
    unfold size. rewrite Hl, Z.eqb_refl. cbn [negb]. clear Hl. revert b H.
    induction a as [|x a IH]; intros [|y b] H; simpl in *; try done.
    injection H as Hx H. rewrite bool_decide_eq_true_2 by done. cbn [negb]. by apply IH.
Qed.

Lemma EqualsAsciiCaseless_length a b : EqualsAsciiCaseless a b = true -> length a = length b.
Proof. intros H%EqualsAsciiCaseless_spec%(f_equal length). by rewrite !length_map in H. Qed.

Lemma lower_hex_spec s t :
  lower_hex s = Some t <-> Forall (fun c => IsHexDigit c = true) s /\ t = map AsciiLower s.
Proof.
  revert t. induction s as [|c s IH]; intros t; cbn [lower_hex map].
  - naive_solver.
  - destruct (IsHexDigit c) eqn:E; cbn [negb].
    + split.
      * intros (u & H & ->)%fmap_Some. apply IH in H as [H ->]. split; [by constructor|done].
      * intros [H ->]. apply Forall_cons in H as [_ H]. by rewrite (proj2 (IH _) (conj H eq_refl)).
    + split; [done|]. intros [H _]. apply Forall_cons in H as [H _]. congruence.
Qed.

Lemma lower_hex_length s t : lower_hex s = Some t -> length t = length s.
Proof. intros [_ ->]%lower_hex_spec. apply length_map. Qed.

(** A digest is extracted from exactly the values [sha256:] and 64 hex digits. *)
Lemma DigestHex_spec digest :
  DigestHexFromAssetDigest digest <> [] ->
  exists hex, digest = kDigestPrefix ++ hex /\ length hex = 64%nat /\
    Forall (fun c => IsHexDigit c = true) hex /\
    DigestHexFromAssetDigest digest = map AsciiLower hex.
Proof.
  unfold DigestHexFromAssetDigest. destruct (size digest =? _) eqn:E1; [|done]. cbn [negb].
  destruct (has_prefix kDigestPrefix digest) eqn:E2; [|done]. cbn [negb].
  apply has_prefix_spec in E2 as [hex ->]. rewrite drop_app_length.
  destruct (lower_hex hex) as [t|] eqn:E3; cbn [default]; [|done]. intros _.
  apply lower_hex_spec in E3 as [H ->]. exists hex. bool_hyps. unfold size in E1.
  rewrite length_app in E1. cbn in E1. split_and!; try done. cbn. lia.
Qed.

Lemma DigestHex_complete hex :
  length hex = 64%nat -> Forall (fun c => IsHexDigit c = true) hex ->
  DigestHexFromAssetDigest (kDigestPrefix ++ hex) = map AsciiLower hex.
Proof.
  intros Hl Hh. unfold DigestHexFromAssetDigest, size. rewrite length_app, Hl.
  rewrite (proj2 (Z.eqb_eq _ _)) by (cbn; lia). cbn [negb].
  rewrite (proj2 (has_prefix_spec _ _)) by eauto. cbn [negb]. rewrite drop_app_length.
  by rewrite (proj2 (lower_hex_spec hex _) (conj Hh eq_refl)).
Qed.

Lemma DigestHex_length digest :
  DigestHexFromAssetDigest digest <> [] -> length (DigestHexFromAssetDigest digest) = 64%nat.
Proof. intros (hex & _ & Hl & _ & ->)%DigestHex_spec. by rewrite length_map. Qed.

(** What ends a swap leftover: nothing, or a dash and digits. *)
Definition minted_tail (tail : text) : Prop :=
  tail = [] \/ exists ds, tail = txt "-" ++ ds /\ ds <> [] /\ all_digits ds.

Lemma minted_tail_no_dot tail : minted_tail tail -> "."%char ∉ tail.
Proof.
  intros [-> |(ds & -> & _ & H)]; [set_solver|]. cbn. rewrite not_elem_of_cons. split; [done|].
  intros Hin. unfold all_digits in H. rewrite Forall_forall in H. specialize (H _ Hin). done.
Qed.

Lemma forallb_digits s : forallb (fun d => (48 <=? ord d) && (ord d <=? 57)) s = true <-> all_digits s.
Proof. rewrite forallb_forall. unfold all_digits. rewrite Forall_forall. setoid_rewrite list_elem_of_In. done. Qed.

Lemma existsb_separator s : existsb is_separator s = false <-> Forall (fun c => is_separator c = false) s.
Proof.
  induction s as [|c s IH]; cbn; [by split|]. rewrite orb_false_iff, IH. split.
  - intros [? ?]. by constructor.
  - by intros [? ?]%Forall_cons.
Qed.

(** * Properties *)

(** The start-up clean-up deletes a file only when its whole name is a non-empty
    stem followed by [.old], or by [.old-] and digits to the end: the names the
    swap mints for its own leftovers, and no other name. *)
Theorem stale_renamed_name_shape name :
  IsStaleRenamedName name = true <->
  exists stem tail, name = stem ++ txt ".old" ++ tail /\ stem <> [] /\ minted_tail tail.
Proof.
  unfold IsStaleRenamedName. split.
  - destruct (rfind (txt ".old") name) as [pos|] eqn:E; [|done].
    pose proof (rfind_take _ _ _ _ E) as Hl. apply rfind_Some in E.
    destruct (bool_decide (pos = 0%nat)) eqn:E0; [done|]. bool_hyps. intros H.
    exists (take pos name), (drop (pos + 4) name). split; [done|].
    split; [intros He; rewrite He in Hl; simpl in Hl; lia|]. unfold minted_tail.
    destruct (drop (pos + 4) name) as [|c rest]; [by left|]. right.
    destruct (_ || _) eqn:E1; [done|]. bool_hyps. subst. exists rest. split; [done|].
    split; [destruct rest; [simpl in *; lia|done]|]. by apply forallb_digits.
  - intros (stem & tail & -> & Hs & Ht). pose proof (minted_tail_no_dot tail Ht) as Hd.
    cbn [txt String.list_ascii_of_string]. rewrite rfind_app by set_solver.
    rewrite bool_decide_eq_false_2 by (destruct stem; [done|simpl; lia]).
    rewrite <- drop_drop, drop_app_length. cbn [app drop].
    destruct Ht as [-> |(ds & -> & Hn & Hd')]; [done|]. cbn [txt String.list_ascii_of_string app].
    rewrite bool_decide_eq_false_2 by (destruct ds; [done|simpl; lia]).
    rewrite ?bool_decide_eq_true_2 by done. by apply forallb_digits.
Qed.

(** A name the swap may replace is one path component, with no separator and no
    drive colon, that is a non-empty stem and the extension [exe], [dll] or [pri] in
    any case.  So no extracted archive member with a path in its name is a target. *)
Theorem allowed_payload_name_shape name :
  IsAllowedPayloadName name = true <->
  Forall (fun c => is_separator c = false) name /\
  exists stem ext, name = stem ++ ext /\ stem <> [] /\
    (map AsciiLower ext = txt ".exe" \/ map AsciiLower ext = txt ".dll" \/ map AsciiLower ext = txt ".pri").
Proof.
  unfold IsAllowedPayloadName. split.
  - destruct (_ || teqb name (txt "..")) eqn:E1; [done|]. destruct (existsb _ _) eqn:E2; [done|].
    apply existsb_separator in E2. intros H. split; [done|].
    destruct (rfind (txt ".") name) as [dot|] eqn:E; [|done].
    pose proof (rfind_take _ _ _ _ E) as Hl.
    destruct (bool_decide (dot = 0%nat)) eqn:E0; [done|]. bool_hyps.
    exists (take dot name), (drop dot name). rewrite take_drop. split; [done|].
    split; [intros He; rewrite He in Hl; simpl in Hl; lia|].
    rewrite !orb_true_iff in H. rewrite !EqualsAsciiCaseless_spec in H. cbn in H. tauto.
  - intros [Hs (stem & ext & -> & Hn & He)].
    assert (exists e, ext = "."%char :: e /\ "."%char ∉ e) as (e & -> & Hd).
    { assert (length ext = 4%nat) as Hl
        by (rewrite <- (length_map AsciiLower); by destruct He as [-> |[-> | ->]]).
      destruct ext as [|c e]; [done|].
      assert (forall d, AsciiLower d = "."%char -> d = "."%char) as Hdot.
      { intros d H. unfold AsciiLower in H. destruct (_ && _) eqn:Ed; [|done].
        bool_hyps. apply (f_equal ord) in H. rewrite ord_chr in H by lia.
        change (ord "."%char) with 46 in H. lia. }
      assert (AsciiLower c = "."%char) as Hc by (destruct He as [He|[He|He]]; by injection He).
      exists e. split; [f_equal; by apply Hdot|]. intros Hin.
      assert ("."%char ∈ map AsciiLower e) as Hm.
      { apply list_elem_of_In, in_map_iff. exists "."%char. split; [done|]. by apply list_elem_of_In. }
      cbn in He. destruct He as [He|[He|He]]; injection He as _ He; rewrite He in Hm; set_solver. }
    assert (2 < length (stem ++ "."%char :: e))%nat as Hlen.
    { assert (length ("."%char :: e) = 4%nat) as Hl
        by (rewrite <- (length_map AsciiLower); by destruct He as [-> |[-> | ->]]).
      rewrite length_app. destruct stem; [done|]. simpl in *. lia. }
    assert (forall t, (length t <= 2)%nat -> teqb (stem ++ "."%char :: e) t = false) as Ht.
    { intros t Ht. unfold teqb. apply bool_decide_eq_false_2. intros <-. lia. }
    rewrite (bool_decide_eq_false_2 (stem ++ _ = [])) by (by destruct stem).
    rewrite !Ht by (simpl; lia). cbn [orb]. rewrite (proj2 (existsb_separator _)) by done.
    change (stem ++ "."%char :: e) with (stem ++ txt "." ++ e). cbn [txt String.list_ascii_of_string].
    rewrite rfind_app by done. rewrite bool_decide_eq_false_2 by (destruct stem; [done|simpl; lia]).
    rewrite drop_app_length, !orb_true_iff, !EqualsAsciiCaseless_spec. cbn in *. tauto.
Qed.

Example stale_old : IsStaleRenamedName (txt "URnetwork.exe.old-1060587890") = true.
Proof. vm_compute. reflexivity. Qed.
Example stale_user_file : IsStaleRenamedName (txt "report.old-2024.xlsx") = false.
Proof. vm_compute. reflexivity. Qed.
