(* ===== verification/ReleaseSelection.v ===== *)
(** Which published release is offered (Common/ReleaseSelection.h): the feeds, the
    soak, [SelectRelease] itself, the download URLs, and the MSI version a release
    code derives. *)

From S2P Require Import Prelude.
From S2P Require Import CxxText.
From S2P Require Import Version.
From S2P Require Import Calendar.
From S2P Require Import UpdateFormats.

(** * Feeds *)

Record Feed := mkFeed {
  id : text;
  numericRepoId : Z;
  owner : text;
  repo : text;
  acceptBetaPrereleases : bool;
  requireImmutable : bool;
  soakSeconds : Z;
  tagPrefix : text;
  acceptAnyPrerelease : bool;
}.

Definition kOfficialFeed : Feed :=
  {| id := txt "official"; numericRepoId := 936244679; owner := txt "urnetwork"; repo := txt "build";
     acceptBetaPrereleases := false; requireImmutable := true; soakSeconds := 24 * 60 * 60;
     tagPrefix := []; acceptAnyPrerelease := false |}.

Definition kFeeds : list Feed := [kOfficialFeed].

Definition FeedById (name : text) : option Feed :=
  find (fun feed => teqb (id feed) name) kFeeds.

Definition kReleaseListPageSize : Z := 30.

Definition ReleaseListUrl (feed : Feed) : text :=
  txt "https://api.github.com/repositories/" ++ to_string (numericRepoId feed) ++
  txt "/releases?per_page=" ++ to_string kReleaseListPageSize.

Definition kFutureCodeLimitSeconds : Z := 48 * 60 * 60.
Definition kCodeEpochUnixSeconds : Z := 1684800000.

Definition CodeUnixSeconds (code : Z) : Z := kCodeEpochUnixSeconds + code / 10.

(** * The soak *)

Record SoakStart := mkSoakStart { unixSeconds : option Z; problem : text }.

Definition SoakStartOf (code : Z) (publishedAt updatedAt assetUpdatedAt : text) : SoakStart :=
  match ParseUtcSecond publishedAt with
  | None => {| unixSeconds := None; problem := txt "has no publication time to judge its soak by" |}
  | Some published =>
      if published <? CodeUnixSeconds code - kFutureCodeLimitSeconds then
        {| unixSeconds := None; problem := txt "has a publication time before its own code's" |}
      else
      match ParseUtcSecond updatedAt with
      | None => {| unixSeconds := None; problem := txt "has no time of its last change to judge its soak by" |}
      | Some changed =>
          match ParseUtcSecond assetUpdatedAt with
          | None => {| unixSeconds := None;
                       problem := txt "has no upload time of its package to judge its soak by" |}
          | Some uploaded =>
              {| unixSeconds := Some (Z.max (Z.max published changed) uploaded); problem := [] |}
          end
      end
  end.

Definition HasSoaked (feed : Feed) (sinceUnixSeconds : option Z) (serverUnixSeconds : Z) : bool :=
  if soakSeconds feed <=? 0 then true else
  match sinceUnixSeconds with
  | None => false
  | Some since =>
      if serverUnixSeconds <=? 0 then false
      else since + soakSeconds feed <=? UtcDayStart serverUnixSeconds
  end.

Definition SoakEndUnixSeconds (feed : Feed) (sinceUnixSeconds : Z) : Z :=
  if soakSeconds feed <=? 0 then sinceUnixSeconds else
  let soaked := sinceUnixSeconds + soakSeconds feed in
  let day := UtcDayStart soaked in
  if day =? soaked then soaked else day + kSecondsPerDay.

Definition kOfferFreshSeconds : Z := 5 * 60.

Definition OfferMayHaveChanged (feed : Feed) (serverUnixSecondsAtCheck secondsSince : Z) : bool :=
  if (secondsSince <? 0) || (kOfferFreshSeconds <? secondsSince) then true else
  if (soakSeconds feed <=? 0) || (serverUnixSecondsAtCheck <=? 0) then false else
  negb (UtcDayStart (serverUnixSecondsAtCheck + secondsSince) =? UtcDayStart serverUnixSecondsAtCheck).

(** * Releases and the selection *)

Record ReleaseAsset := mkReleaseAsset {
  asset_name : text; url : text; digest : text; asset_updatedAt : text }.

Record Release := mkRelease {
  tag : text;
  draft : bool;
  prerelease : bool;
  immutable : bool;
  publishedAt : text;
  updatedAt : text;
  assets : list ReleaseAsset;
}.

Record Skip := mkSkip { skip_tag : text; reason : text; soaking : bool }.

Record Selection := mkSelection {
  newestCode : Z;
  newestVersion : text;
  waitingCode : Z;
  waitingVersion : text;
  waitingFromUnixSeconds : Z;
  code : Z;
  version : text;
  sel_tag : text;
  assetName : text;
  assetUrl : text;
  digestHex : text;
  skipped : list Skip;
}.

Definition empty_selection : Selection := mkSelection 0 [] 0 [] 0 0 [] [] [] [] [] [].

Definition InstallerAssetName (version arch : text) : text :=
  txt "URnetwork-" ++ version ++ txt "-" ++ arch ++ txt ".msi".

Record FeedTag := mkFeedTag { tag_version : text; tag_code : Z }.

Definition ParseFeedTag (feed : Feed) (t : text) : option FeedTag :=
  if negb (has_prefix (tagPrefix feed) t) then None else
  let t := drop (length (tagPrefix feed)) t in
  let code := ParseReleaseCode t in
  if code =? 0 then None else
  let t := if front_is "v"%char t then drop 1 t else t in
  Some {| tag_version := t; tag_code := code |}.

Definition FeedAssetUrl (feed : Feed) (t asset : text) : text :=
  txt "https://github.com/" ++ owner feed ++ txt "/" ++ repo feed ++ txt "/releases/download/" ++
  t ++ txt "/" ++ asset.

Definition IsFeedAssetUrl (feed : Feed) (t asset u : text) : bool := teqb u (FeedAssetUrl feed t asset).

Definition EndsWith (s suffix : text) : bool := has_suffix suffix s.

(** The last asset of the name, as the loop over the assets leaves it. *)
Definition match_asset (name : text) (l : list ReleaseAsset) : option ReleaseAsset :=
  foldl (fun m a => if teqb (asset_name a) name then Some a else m) None l.

Definition push_skip (s : Selection) (k : Skip) : Selection :=
  mkSelection (newestCode s) (newestVersion s) (waitingCode s) (waitingVersion s)
    (waitingFromUnixSeconds s) (code s) (version s) (sel_tag s) (assetName s) (assetUrl s)
    (digestHex s) (skipped s ++ [k]).

Definition set_waiting (s : Selection) (c : Z) (v : text) (from : Z) : Selection :=
  mkSelection (newestCode s) (newestVersion s) c v from (code s) (version s) (sel_tag s)
    (assetName s) (assetUrl s) (digestHex s) (skipped s).

Definition set_newest (s : Selection) (c : Z) (v : text) : Selection :=
  mkSelection c v (waitingCode s) (waitingVersion s) (waitingFromUnixSeconds s) (code s)
    (version s) (sel_tag s) (assetName s) (assetUrl s) (digestHex s) (skipped s).

Definition set_offer (s : Selection) (c : Z) (v t n u d : text) : Selection :=
  mkSelection (newestCode s) (newestVersion s) (waitingCode s) (waitingVersion s)
    (waitingFromUnixSeconds s) c v t n u d (skipped s).

(** The body of the loop over the releases; each [continue] returns. *)
Definition consider (arch : text) (feed : Feed) (server : Z) (s : Selection) (rel : Release) : Selection :=
  if draft rel then s else
  if prerelease rel && negb (acceptAnyPrerelease feed) &&
     negb (acceptBetaPrereleases feed && EndsWith (tag rel) (txt "-beta")) then s else
  match ParseFeedTag feed (tag rel) with
  | None => s
  | Some t =>
      if requireImmutable feed && negb (immutable rel) then
        push_skip s (mkSkip (tag rel) (txt "is not an immutable release") false) else
      if server + kFutureCodeLimitSeconds <? CodeUnixSeconds (tag_code t) then
        push_skip s (mkSkip (tag rel)
          (txt "has a future code (more than 48 h after the server's date)") false) else
      let name := InstallerAssetName (tag_version t) arch in
      match match_asset name (assets rel) with
      | None => push_skip s (mkSkip (tag rel) (txt "lacks " ++ name) false)
      | Some m =>
          if bool_decide (url m = []) then push_skip s (mkSkip (tag rel) (txt "lacks " ++ name) false) else
          let since := SoakStartOf (tag_code t) (publishedAt rel) (updatedAt rel) (asset_updatedAt m) in
          if negb (HasSoaked feed (unixSeconds since) server) then
            match unixSeconds since with
            | None => push_skip s (mkSkip (tag rel) (problem since) false)
            | Some at_ =>
                let s := push_skip s (mkSkip (tag rel)
                  (txt "had not been out, unchanged, for " ++ to_string (Z.quot (soakSeconds feed) 3600) ++
                   txt " h when the server's day began") true) in
                if waitingCode s <? tag_code t then
                  set_waiting s (tag_code t) (tag_version t) (SoakEndUnixSeconds feed at_)
                else s
            end
          else
          let s := if newestCode s <? tag_code t then set_newest s (tag_code t) (tag_version t) else s in
          if tag_code t <=? code s then s else
          let digestHex := DigestHexFromAssetDigest (digest m) in
          if bool_decide (digestHex = []) then
            push_skip s (mkSkip (tag rel) (txt "lacks a usable digest for " ++ name) false)
          else
            set_offer s (tag_code t) (tag_version t) (tag rel) name (url m) digestHex
      end
  end.

Definition SelectRelease (releases : list Release) (arch : text) (feed : Feed) (server : Z) : Selection :=
  foldl (consider arch feed server) empty_selection releases.

(** * Redirects *)

Definition kAssetRedirectHosts : list text :=
  [txt "release-assets.githubusercontent.com"; txt "objects.githubusercontent.com"].

(** The characters refused: controls, spaces, bytes from 0x7f, and the six that a
    URL parser may treat as separators. *)
Definition refused_char (c : ascii) : bool :=
  (ord c <=? 32) || (127 <=? ord c) || (ord c =? 92) || (ord c =? 34) || (ord c =? 60) ||
  (ord c =? 62) || (ord c =? 96).

Definition kScheme : text := txt "https://".

Definition IsAllowedAssetRedirect (u : text) : bool :=
  if negb (has_prefix kScheme u) then false else
  if existsb refused_char u then false else
  let rest := drop (length kScheme) u in
  match find_first_of (txt "/?#") rest with
  | None => false
  | Some authorityEnd =>
      if negb (bool_decide (rest !! authorityEnd = Some "/"%char)) then false else
      let authority := take authorityEnd rest in
      match find_char "@"%char authority with
      | Some _ => false
      | None =>
          match find_char ":"%char authority with
          | Some colon =>
              if negb (teqb (drop (colon + 1) authority) (txt "443")) then false
              else existsb (EqualsAsciiCaseless (take colon authority)) kAssetRedirectHosts
          | None => existsb (EqualsAsciiCaseless authority) kAssetRedirectHosts
          end
      end
  end.

(** * The MSI version *)

Definition UrMsiVersion (code : Z) : text :=
  if code =? 0 then [] else
  let seconds := CodeUnixSeconds code in
  let days := Z.quot seconds 86400 in
  let secondOfDay := Z.rem seconds 86400 in
  let date := CivilFromDays days in
  let major := year date - 2000 in
  if (major <? 0) || (255 <? major) then [] else
  let patch := (day date - 1) * 2048 + Z.quot (secondOfDay * 2048) 86400 in
  to_string major ++ txt "." ++ to_string (month date) ++ txt "." ++ to_string patch.

(** * What a release must be to count, stated on its own *)

Section Counting.
Context (arch : text) (feed : Feed).

(** A prerelease the feed takes. *)
Definition prerelease_ok (rel : Release) : bool :=
  negb (prerelease rel) || acceptAnyPrerelease feed ||
  (acceptBetaPrereleases feed && has_suffix (txt "-beta") (tag rel)).

(** The release's tag and this product's package for this architecture. *)
Definition package (rel : Release) : option (FeedTag * ReleaseAsset) :=
  if draft rel then None else
  if negb (prerelease_ok rel) then None else
  match ParseFeedTag feed (tag rel) with
  | None => None
  | Some t =>
      if requireImmutable feed && negb (immutable rel) then None else
      match match_asset (InstallerAssetName (tag_version t) arch) (assets rel) with
      | Some m => if bool_decide (url m = []) then None else Some (t, m)
      | None => None
      end
  end.

(** The package of a release that counts in a list dated [server]: one that is not
    in the list's future and has soaked. *)
Definition counted (server : Z) (rel : Release) : option (FeedTag * ReleaseAsset) :=
  match package rel with
  | Some (t, m) =>
      if CodeUnixSeconds (tag_code t) <=? server + kFutureCodeLimitSeconds then
        if HasSoaked feed
             (unixSeconds (SoakStartOf (tag_code t) (publishedAt rel) (updatedAt rel) (asset_updatedAt m)))
             server
        then Some (t, m) else None
      else None
  | None => None
  end.

(** A counted release whose package can be verified. *)
Definition offerable (server : Z) (rel : Release) : option (FeedTag * ReleaseAsset) :=
  match counted server rel with
  | Some (t, m) => if bool_decide (DigestHexFromAssetDigest (digest m) = []) then None else Some (t, m)
  | None => None
  end.

(** The part of a selection a release that counts decides. *)
Record Offer := mkOffer { o_newest : Z; o_newestVersion : text; o_code : Z; o_version : text;
  o_tag : text; o_name : text; o_url : text; o_digest : text }.

Definition offer_of (s : Selection) : Offer :=
  mkOffer (newestCode s) (newestVersion s) (code s) (version s) (sel_tag s) (assetName s)
    (assetUrl s) (digestHex s).

Definition raise_newest (o : Offer) (t : FeedTag) : Offer :=
  if o_newest o <? tag_code t then
    mkOffer (tag_code t) (tag_version t) (o_code o) (o_version o) (o_tag o) (o_name o) (o_url o) (o_digest o)
  else o.

(** The abstract step: a maximum over the counted releases. *)
Definition count_step (server : Z) (o : Offer) (rel : Release) : Offer :=
  match counted server rel with
  | None => o
  | Some (t, m) =>
      let o := raise_newest o t in
      if tag_code t <=? o_code o then o else
      match offerable server rel with
      | None => o
      | Some _ =>
          mkOffer (o_newest o) (o_newestVersion o) (tag_code t) (tag_version t) (tag rel)
            (InstallerAssetName (tag_version t) arch) (url m) (DigestHexFromAssetDigest (digest m))
      end
  end.

(** ** The loop refines the maximum *)

Lemma consider_offer server s rel :
  offer_of (consider arch feed server s rel) = count_step server (offer_of s) rel.
Proof.
  unfold consider, count_step, offerable, counted, package, prerelease_ok, EndsWith.
  destruct (draft rel); [done|].
  destruct (prerelease rel), (acceptAnyPrerelease feed),
    (acceptBetaPrereleases feed && has_suffix (txt "-beta") (tag rel)); cbn [andb orb negb]; try done;
  (destruct (ParseFeedTag feed (tag rel)) as [t|]; [|done];
   destruct (requireImmutable feed && negb (immutable rel)); [done|];
   rewrite (Z.ltb_antisym (CodeUnixSeconds (tag_code t)));
   destruct (match_asset _ _) as [m|]; [destruct (bool_decide (url m = []))|];
   destruct (CodeUnixSeconds (tag_code t) <=? _) eqn:Ec; cbn [negb]; rewrite ?Ec; try done;
   destruct (HasSoaked feed _ server); cbn [negb];
     [|destruct (unixSeconds _); [by (cbn [push_skip waitingCode]; destruct (waitingCode s <? tag_code t))|done]];
   unfold raise_newest; cbn [offer_of o_newest];
   destruct (newestCode s <? tag_code t); cbn [offer_of o_code code set_newest];
   (destruct (tag_code t <=? code s); [done|];
    by destruct (bool_decide (DigestHexFromAssetDigest (digest m) = [])))).
Qed.

Lemma SelectRelease_offer server releases :
  offer_of (SelectRelease releases arch feed server) =
  foldl (count_step server) (offer_of empty_selection) releases.
Proof.
  unfold SelectRelease. generalize empty_selection. induction releases as [|r l IH]; intros s; [done|].
  cbn [foldl]. by rewrite IH, consider_offer.
Qed.

Lemma offerable_counted server rel p : offerable server rel = Some p -> counted server rel = Some p.
Proof. unfold offerable. destruct (counted server rel) as [[t m]|]; [|done]. by case_bool_decide. Qed.

(** What the selection holds after a list of releases. *)
Record good_offer (server : Z) (l : list Release) (o : Offer) : Prop := {
  newest_upper : forall rel t m, rel ∈ l -> counted server rel = Some (t, m) -> tag_code t <= o_newest o;
  newest_attained : o_newest o = 0 \/
    exists rel t m, rel ∈ l /\ counted server rel = Some (t, m) /\
      o_newest o = tag_code t /\ o_newestVersion o = tag_version t;
  offer_upper : forall rel t m, rel ∈ l -> offerable server rel = Some (t, m) -> tag_code t <= o_code o;
  offer_attained : (o_code o = 0 /\ o_tag o = []) \/
    exists rel t m, rel ∈ l /\ offerable server rel = Some (t, m) /\
      o_code o = tag_code t /\ o_version o = tag_version t /\ o_tag o = tag rel /\
      o_name o = InstallerAssetName (tag_version t) arch /\ o_url o = url m /\
      o_digest o = DigestHexFromAssetDigest (digest m);
  offer_below : o_code o <= o_newest o
}.

Lemma raise_newest_code o t : o_code (raise_newest o t) = o_code o.
Proof. unfold raise_newest. by destruct (_ <? _). Qed.

Lemma raise_newest_max o t : o_newest (raise_newest o t) = Z.max (o_newest o) (tag_code t).
Proof. unfold raise_newest. destruct (_ <? _) eqn:E; bool_hyps; cbn [o_newest]; lia. Qed.
End Counting.

Lemma ParseFeedTag_positive feed s t : ParseFeedTag feed s = Some t -> 0 < tag_code t < 10 ^ 18.
Proof.
  unfold ParseFeedTag. destruct (negb _); [done|]. set (u := drop _ s).
  pose proof (ParseReleaseCode_bound u). destruct (_ =? 0) eqn:E; [done|]. intros [= <-].
  bool_hyps. cbn [tag_code]. lia.
Qed.

Section Counted.
Context (arch : text) (feed : Feed) (server : Z).

Lemma counted_inv rel t m :
  counted arch feed server rel = Some (t, m) ->
  package arch feed rel = Some (t, m) /\
  CodeUnixSeconds (tag_code t) <= server + kFutureCodeLimitSeconds /\
  HasSoaked feed (unixSeconds (SoakStartOf (tag_code t) (publishedAt rel) (updatedAt rel) (asset_updatedAt m)))
    server = true.
Proof.
  unfold counted. destruct (package arch feed rel) as [[t' m']|]; [|done].
  destruct (_ <=? _) eqn:E1; [|done]. destruct (HasSoaked _ _ _) eqn:E2; [|done].
  intros [= <- <-]. bool_hyps. done.
Qed.

Lemma package_inv rel t m :
  package arch feed rel = Some (t, m) ->
  draft rel = false /\ prerelease_ok feed rel = true /\ ParseFeedTag feed (tag rel) = Some t /\
  (requireImmutable feed = true -> immutable rel = true) /\
  match_asset (InstallerAssetName (tag_version t) arch) (assets rel) = Some m /\ url m <> [].
Proof.
  unfold package. destruct (draft rel); [done|]. destruct (prerelease_ok feed rel); [|done]. cbn [negb].
  destruct (ParseFeedTag feed (tag rel)) as [t'|]; [|done].
  destruct (_ && negb (immutable rel)) eqn:Ei; [done|].
  destruct (match_asset _ _) as [m'|] eqn:Em; [|done]. case_bool_decide; [done|].
  intros [= <- <-]. split_and!; try done. intros Hr. rewrite Hr in Ei. cbn in Ei. by bool_hyps.
Qed.

Lemma counted_positive rel t m : counted arch feed server rel = Some (t, m) -> 0 < tag_code t.
Proof.
  intros (H & _ & _)%counted_inv. apply package_inv in H as (_ & _ & H & _).
  apply ParseFeedTag_positive in H. lia.
Qed.

(** A bound and an element that reaches it, one release later. *)
Lemma upper_snoc (f : Release -> option (FeedTag * ReleaseAsset)) l rel b b' :
  (forall r t m, r ∈ l -> f r = Some (t, m) -> tag_code t <= b) -> b <= b' ->
  (forall t m, f rel = Some (t, m) -> tag_code t <= b') ->
  forall r t m, r ∈ l ++ [rel] -> f r = Some (t, m) -> tag_code t <= b'.
Proof.
  intros U Hb Hr r t m [Hin|Hin]%elem_of_app H; [specialize (U _ _ _ Hin H); lia|].
  apply list_elem_of_singleton in Hin as ->. by eapply Hr.
Qed.

Lemma attained_snoc (P : Release -> FeedTag -> ReleaseAsset -> Prop) (Q : Prop) l rel :
  Q \/ (exists r t m, r ∈ l /\ P r t m) -> Q \/ (exists r t m, r ∈ l ++ [rel] /\ P r t m).
Proof. intros [H|(r & t & m & Hin & H)]; [by left|]. right. exists r, t, m. set_solver. Qed.

Lemma attained_last (P : Release -> FeedTag -> ReleaseAsset -> Prop) (Q : Prop) l rel t m :
  P rel t m -> Q \/ (exists r t m, r ∈ l ++ [rel] /\ P r t m).
Proof. intros H. right. exists rel, t, m. set_solver. Qed.

(** The newest release that counts, one release later. *)
Lemma raise_newest_snoc l rel o t m :
  good_offer arch feed server l o -> counted arch feed server rel = Some (t, m) ->
  let o' := raise_newest o t in
  (forall r t m, r ∈ l ++ [rel] -> counted arch feed server r = Some (t, m) -> tag_code t <= o_newest o') /\
  (o_newest o' = 0 \/ exists r t m, r ∈ l ++ [rel] /\ counted arch feed server r = Some (t, m) /\
     o_newest o' = tag_code t /\ o_newestVersion o' = tag_version t).
Proof.
  intros [U A _ _ _] Ec. cbv zeta. rewrite raise_newest_max. split.
  - eapply upper_snoc; [exact U|lia|]. rewrite Ec. intros t' m' [= <- <-]. lia.
  - unfold raise_newest. destruct (o_newest o <? tag_code t) eqn:E; bool_hyps.
    + apply attained_last with t m. cbn [o_newest o_newestVersion]. split_and!; try done. lia.
    + rewrite Z.max_l by lia. by apply attained_snoc.
Qed.

(** One release after the others keeps the maxima. *)
Lemma good_offer_snoc l rel o :
  good_offer arch feed server l o ->
  good_offer arch feed server (l ++ [rel]) (count_step arch feed server o rel).
Proof.
  intros G. unfold count_step. destruct (counted arch feed server rel) as [[t m]|] eqn:Ec.
  - destruct (raise_newest_snoc _ _ _ _ _ G Ec) as [N1 N2]. destruct G as [_ _ U2 A2 B].
    pose proof (raise_newest_max o t) as Hmax. pose proof (raise_newest_code o t) as Hcode.
    assert (forall t' m', offerable arch feed server rel = Some (t', m') -> t' = t /\ m' = m) as Ho.
    { intros t' m' H%offerable_counted. rewrite Ec in H. by injection H. }
    destruct (tag_code t <=? o_code (raise_newest o t)) eqn:Et; bool_hyps;
      [|destruct (offerable arch feed server rel) as [[t' m']|] eqn:Eo].
    + split; [done|done| | |lia].
      * eapply upper_snoc; [exact U2|lia|]. intros t' m' [-> _]%Ho. done.
      * unfold raise_newest. destruct (_ <? _); by apply attained_snoc.
    + destruct (Ho _ _ eq_refl) as [-> ->].
      split; cbn [o_newest o_newestVersion o_code o_version o_tag o_name o_url o_digest]; [done|done| | |lia].
      * eapply upper_snoc; [exact U2|lia|]. rewrite Eo. intros t' m' [= <- <-]. done.
      * by apply attained_last with t m.
    + split; [done|done| | |lia].
      * eapply upper_snoc; [exact U2|lia|]. rewrite Eo. done.
      * unfold raise_newest. destruct (_ <? _); by apply attained_snoc.
  - destruct G as [U1 A1 U2 A2 B]. split; [| | | |done].
    + eapply upper_snoc; [exact U1|done|]. by rewrite Ec.
    + by apply attained_snoc.
    + eapply upper_snoc; [exact U2|done|]. intros t m H%offerable_counted. by rewrite Ec in H.
    + by apply attained_snoc.
Qed.

Lemma good_offer_SelectRelease releases :
  good_offer arch feed server releases (offer_of (SelectRelease releases arch feed server)).
Proof.
  rewrite SelectRelease_offer. induction releases as [|rel l IH] using rev_ind.
  - split; cbn; set_solver.
  - rewrite foldl_app. cbn [foldl]. by apply good_offer_snoc.
Qed.
End Counted.

(** The asset a release is matched by is one of its own, of the name asked for. *)
Lemma match_asset_In name l m : match_asset name l = Some m -> m ∈ l /\ asset_name m = name.
Proof.
  unfold match_asset. induction l as [|a l IH] using rev_ind; [done|].
  rewrite foldl_app. cbn [foldl]. destruct (teqb _ _) eqn:E.
  - intros [= <-]. apply teqb_eq in E. split; [set_solver|done].
  - intros H. destruct (IH H). split; [set_solver|done].
Qed.

Lemma ParseFeedTag_official s t :
  ParseFeedTag kOfficialFeed s = Some t -> ParseReleaseCode s = tag_code t.
Proof.
  unfold ParseFeedTag. cbn [tagPrefix kOfficialFeed length drop]. destruct (negb _); [done|].
  destruct (_ =? 0); [done|]. by intros [= <-].
Qed.

(** ** The day decides *)

Lemma SoakStartOf_bounds c p u a since :
  unixSeconds (SoakStartOf c p u a) = Some since ->
  exists published changed uploaded,
    ParseUtcSecond p = Some published /\ ParseUtcSecond u = Some changed /\ ParseUtcSecond a = Some uploaded /\
    CodeUnixSeconds c - kFutureCodeLimitSeconds <= published /\
    since = Z.max (Z.max published changed) uploaded.
Proof.
  unfold SoakStartOf. destruct (ParseUtcSecond p) as [pb|]; [|done].
  destruct (pb <? _) eqn:E; [done|]. destruct (ParseUtcSecond u) as [ch|]; [|done].
  destruct (ParseUtcSecond a) as [up|]; [|done]. intros [= <-]. bool_hyps.
  exists pb, ch, up. done.
Qed.

Lemma HasSoaked_iff feed since server :
  0 < soakSeconds feed ->
  HasSoaked feed since server = true <->
  exists at_, since = Some at_ /\ 0 < server /\ at_ + soakSeconds feed <= UtcDayStart server.
Proof.
  intros Hs. unfold HasSoaked. rewrite (proj2 (Z.leb_gt _ _)) by done.
  destruct since as [at_|]; [|naive_solver].
  destruct (server <=? 0) eqn:E; bool_hyps.
  - split; [done|]. intros (a & _ & H & _). lia.
  - rewrite Z.leb_le. naive_solver.
Qed.

(** On a feed that soaks, a release that has soaked is not in the list's future, so
    whether it counts depends on the day of the list alone. *)
Lemma counted_same_day arch feed rel s1 s2 :
  0 < soakSeconds feed -> 0 < s1 -> 0 < s2 -> UtcDayStart s1 = UtcDayStart s2 ->
  counted arch feed s1 rel = counted arch feed s2 rel.
Proof.
  intros Hf H1 H2 Hd. unfold counted. destruct (package arch feed rel) as [[t m]|]; [|done].
  set (since := unixSeconds _).
  assert (HasSoaked feed since s1 = HasSoaked feed since s2) as Hsoak.
  { apply eq_true_iff_eq. rewrite !HasSoaked_iff by done. rewrite Hd. naive_solver. }
  rewrite Hsoak. destruct (HasSoaked feed since s2) eqn:E.
  - apply HasSoaked_iff in E as (at_ & Ea & _ & Hle); [|done].
    apply SoakStartOf_bounds in Ea as (pb & ch & up & _ & _ & _ & Hpb & ->).
    pose proof (UtcDayStart_le s1). pose proof (UtcDayStart_le s2).
    rewrite !(proj2 (Z.leb_le _ _)) by lia. done.
  - by destruct (_ <=? s1 + _), (_ <=? s2 + _).
Qed.

Lemma count_step_ext arch feed s1 s2 o rel :
  counted arch feed s1 rel = counted arch feed s2 rel ->
  count_step arch feed s1 o rel = count_step arch feed s2 o rel.
Proof. intros H. unfold count_step, offerable. by rewrite H. Qed.

(** * Redirect shapes *)

Lemma existsb_refused s : existsb refused_char s = false <-> Forall (fun c => refused_char c = false) s.
Proof.
  induction s as [|c s IH]; cbn; [by split|]. rewrite orb_false_iff, IH. split.
  - intros [? ?]. by constructor.
  - by intros [? ?]%Forall_cons.
Qed.

Lemma existsb_host a :
  existsb (EqualsAsciiCaseless a) kAssetRedirectHosts = true <->
  exists host, host ∈ kAssetRedirectHosts /\ map AsciiLower a = map AsciiLower host.
Proof.
  rewrite existsb_exists. setoid_rewrite EqualsAsciiCaseless_spec. setoid_rewrite list_elem_of_In. done.
Qed.

(** The characters of a host, folded: none of them ends an authority. *)
Lemma host_chars a host c :
  host ∈ kAssetRedirectHosts -> map AsciiLower a = map AsciiLower host ->
  c ∈ a -> c ∈ txt "/?#@:" -> False.
Proof.
  intros Hh Ha Hc Hs.
  assert (AsciiLower c ∈ map AsciiLower host) as Hin.
  { rewrite <- Ha. apply list_elem_of_In, in_map_iff. exists c. split; [done|]. by apply list_elem_of_In. }
  assert (forallb (fun d => forallb (fun x => negb (bool_decide (AsciiLower x = d))) (txt "/?#@:"))
    (map AsciiLower host) = true) as Hf by (unfold kAssetRedirectHosts in Hh; set_unfold in Hh;
      destruct Hh as [-> | [-> | []]]; vm_compute; done).
  rewrite forallb_forall in Hf. apply list_elem_of_In in Hin. specialize (Hf _ Hin).
  rewrite forallb_forall in Hf. apply list_elem_of_In in Hs. specialize (Hf _ Hs). by bool_hyps.
Qed.

(** * The MSI version *)

(** The three fields of a ProductVersion. *)
Definition msi_fields (c : Z) : Z * Z * Z :=
  let seconds := CodeUnixSeconds c in
  let date := CivilFromDays (seconds / 86400) in
  (year date - 2000, month date, (day date - 1) * 2048 + seconds mod 86400 * 2048 / 86400).

Definition msi_text (f : Z * Z * Z) : text :=
  to_string f.1.1 ++ txt "." ++ to_string f.1.2 ++ txt "." ++ to_string f.2.

(** The order Windows Installer compares versions in. *)
Definition msi_lt (a b : Z * Z * Z) : Prop :=
  a.1.1 < b.1.1 \/ (a.1.1 = b.1.1 /\ (a.1.2 < b.1.2 \/ (a.1.2 = b.1.2 /\ a.2 < b.2))).

Lemma CodeUnixSeconds_pos c : 0 <= c -> 0 < CodeUnixSeconds c.
Proof. intros H. unfold CodeUnixSeconds, kCodeEpochUnixSeconds. zdiv. Qed.

Lemma UrMsiVersion_fields c :
  0 < c ->
  UrMsiVersion c =
  if (0 <=? (msi_fields c).1.1) && ((msi_fields c).1.1 <=? 255) then msi_text (msi_fields c) else [].
Proof.
  intros Hc. pose proof (CodeUnixSeconds_pos c ltac:(lia)) as Hs. unfold UrMsiVersion.
  rewrite (proj2 (Z.eqb_neq c 0)) by lia. unfold msi_fields, msi_text. cbn [fst snd].
  set (sec := CodeUnixSeconds c) in *. clearbody sec.
  rewrite (Z.quot_div_nonneg sec 86400), (Z.rem_mod_nonneg sec 86400) by lia.
  assert (0 <= sec mod 86400 < 86400) by (apply Z.mod_pos_bound; lia).
  rewrite (Z.quot_div_nonneg (sec mod 86400 * 2048)) by lia.
  generalize (CivilFromDays (sec / 86400)). intros date.
  rewrite (Z.leb_antisym 255), Z.leb_antisym.
  destruct (year date - 2000 <? 0), (255 <? year date - 2000); reflexivity.
Qed.

(** The patch field orders the day of the month and the second of the day. *)
Lemma patch_range d sod :
  1 <= d <= 31 -> 0 <= sod < 86400 ->
  (d - 1) * 2048 <= (d - 1) * 2048 + sod * 2048 / 86400 < d * 2048.
Proof. intros Hd Hs. zdiv. Qed.

Lemma msi_fields_bounds c : 1 <= (msi_fields c).1.2 <= 12 /\ 0 <= (msi_fields c).2 < 2 ^ 16.
Proof.
  unfold msi_fields. cbn [fst snd]. set (s := CodeUnixSeconds c). clearbody s.
  pose proof (CivilFromDays_valid (s / 86400)) as [Hm Hd].
  set (d := CivilFromDays (s / 86400)) in *. clearbody d.
  pose proof (DaysInMonth_le (year d) (month d) Hm).
  pose proof (patch_range (day d) (s mod 86400) ltac:(lia) ltac:(zdiv)). lia.
Qed.

(** Codes 43 seconds apart have increasing versions. *)
Lemma msi_fields_lt a b : 0 < a -> a + 430 <= b -> msi_lt (msi_fields a) (msi_fields b).
Proof.
  intros Ha Hab.
  unfold msi_fields, msi_lt. cbn [fst snd].
  assert (0 < CodeUnixSeconds a /\ CodeUnixSeconds a + 43 <= CodeUnixSeconds b) as [Hp Hs].
  { split; [apply CodeUnixSeconds_pos; lia|]. unfold CodeUnixSeconds. zdiv. }
  set (s := CodeUnixSeconds a) in *. set (t := CodeUnixSeconds b) in *. clearbody s t.
  pose proof (CivilFromDays_mono (s / 86400) (t / 86400) ltac:(zdiv)) as Hm.
  pose proof (CivilFromDays_valid (s / 86400)) as [_ Hd1]. pose proof (CivilFromDays_valid (t / 86400)) as [Hm2 Hd2].
  assert (s / 86400 = t / 86400 \/ s / 86400 < t / 86400) as [Hd|Hd] by zdiv.
  + rewrite Hd. right. split; [done|]. right. split; [done|]. zdiv.
  + pose proof (CivilFromDays_inj (s / 86400) (t / 86400)) as Hinj.
    set (d1 := CivilFromDays (s / 86400)) in *. set (d2 := CivilFromDays (t / 86400)) in *. clearbody d1 d2.
    pose proof (patch_range (day d1) (s mod 86400)) as P1. pose proof (patch_range (day d2) (t mod 86400)) as P2.
    pose proof (DaysInMonth_le (year d1) (month d1)). pose proof (DaysInMonth_le (year d2) (month d2)).
    assert (day d1 <> day d2 \/ year d1 <> year d2 \/ month d1 <> month d2).
    { destruct d1 as [y1 m1 e1], d2 as [y2 m2 e2]. cbn [year month day] in *.
      destruct (decide (e1 = e2)), (decide (y1 = y2)), (decide (m1 = m2)); subst; auto.
      specialize (Hinj eq_refl). lia. }
    assert (0 <= s mod 86400 < 86400 /\ 0 <= t mod 86400 < 86400) as [] by zdiv.
    unfold date_le in Hm. lia.
Qed.

Lemma to_string_dot_inj a b r q :
  0 <= a -> 0 <= b -> to_string a ++ "."%char :: r = to_string b ++ "."%char :: q -> a = b /\ r = q.
Proof.
  intros Ha Hb H. destruct (to_string_nonneg a Ha) as (A1 & A2 & _), (to_string_nonneg b Hb) as (B1 & B2 & _).
  pose proof (span_unique is_digit (to_string a) ("."%char :: r) A1) as Sa.
  pose proof (span_unique is_digit (to_string b) ("."%char :: q) B1) as Sb.
  rewrite H in Sa. rewrite Sb in Sa by (by intros x [= <-]).
  specialize (Sa ltac:(by intros x [= <-])). injection Sa as E1 E2. split; [|done].
  by rewrite <- A2, <- B2, E1.
Qed.

(** The text of a version determines its fields. *)
Lemma msi_text_inj x y :
  0 <= x.1.1 -> 0 <= x.1.2 -> 0 <= x.2 -> 0 <= y.1.1 -> 0 <= y.1.2 -> 0 <= y.2 ->
  msi_text x = msi_text y -> x = y.
Proof.
  destruct x as [[x1 x2] x3], y as [[y1 y2] y3]. unfold msi_text. cbn [fst snd].
  intros ?????? H. apply to_string_dot_inj in H as [-> H]; [|done..].
  apply to_string_dot_inj in H as [-> H]; [|done..]. f_equal.
  destruct (to_string_nonneg x3) as (_ & A2 & _), (to_string_nonneg y3) as (_ & B2 & _); try done.
  by rewrite <- A2, <- B2, H.
Qed.

(** * Properties *)

(** C19: for every list of releases, [SelectRelease] names as newest the counted
    release of the greatest code, and offers the counted release of the greatest
    code among those whose package has a usable digest: the offer carries that
    release's tag, the name and URL of its own package for this architecture and
    the digest of that same asset; nothing is offered exactly when no release of
    the list can be.  The offer is never above the newest. *)
Theorem select_release_max releases arch feed server :
  good_offer arch feed server releases (offer_of (SelectRelease releases arch feed server)).
Proof. apply good_offer_SelectRelease. Qed.

(** On a feed that soaks, every list of one UTC day names the same newest release
    and makes the same offer, whoever fetched it and when.  The future-code limit,
    which reads the second and not the day, cannot make a difference: a release that
    has soaked is never in the list's future. *)
Theorem select_release_same_day releases arch feed s1 s2 :
  0 < soakSeconds feed -> 0 < s1 -> 0 < s2 -> UtcDayStart s1 = UtcDayStart s2 ->
  offer_of (SelectRelease releases arch feed s1) = offer_of (SelectRelease releases arch feed s2).
Proof.
  intros Hf H1 H2 Hd. rewrite !SelectRelease_offer. generalize (offer_of empty_selection).
  induction releases as [|r l IH]; intros o; [done|]. cbn [foldl].
  rewrite (count_step_ext arch feed s1 s2) by (by apply counted_same_day). apply IH.
Qed.

Lemma select_release_same_day_witness :
  let rel := mkRelease (txt "v2026.10.1-1060587890") false false true (txt "2026-10-01T14:51:17Z")
               (txt "2026-10-01T14:51:17Z")
               [mkReleaseAsset (txt "URnetwork-2026.10.1-1060587890-x64.msi") (txt "https://x/") [] (txt "2026-10-01T14:07:24Z")] in
  offer_of (SelectRelease [rel] (txt "x64") kOfficialFeed 1791072001) =
  offer_of (SelectRelease [rel] (txt "x64") kOfficialFeed 1791158399).
Proof. intros rel. apply select_release_same_day; reflexivity. Defined.

(** What the official feed offers has been out, unchanged, for a day when the
    list's UTC day began: the release is published, not a prerelease and immutable,
    its publication, last change and package upload are real UTC seconds at least
    24 hours before that day's start, its publication is not more than 48 hours
    before its code's instant, and the digest has 64 characters. *)
Theorem official_offer_soaked releases arch server s :
  s = SelectRelease releases arch kOfficialFeed server -> code s <> 0 ->
  exists rel m published changed uploaded,
    rel ∈ releases /\ m ∈ assets rel /\
    draft rel = false /\ prerelease rel = false /\ immutable rel = true /\
    sel_tag s = tag rel /\ assetUrl s = url m /\ assetName s = asset_name m /\
    ParseReleaseCode (tag rel) = code s /\ length (digestHex s) = 64%nat /\
    ParseUtcSecond (publishedAt rel) = Some published /\
    ParseUtcSecond (updatedAt rel) = Some changed /\
    ParseUtcSecond (asset_updatedAt m) = Some uploaded /\
    Z.max (Z.max published changed) uploaded + 86400 <= UtcDayStart server /\
    CodeUnixSeconds (code s) - 172800 <= published.
Proof.
  intros -> Hc. set (s := SelectRelease _ _ _ _) in *.
  destruct (good_offer_SelectRelease arch kOfficialFeed server releases) as [_ _ _ A _]. fold s in A.
  destruct A as [[A _]|(rel & t & m & Hin & Ho & E1 & E2 & E3 & E4 & E5 & E6)]; [done|].
  cbn [offer_of o_code o_version o_tag o_name o_url o_digest] in *.
  assert (DigestHexFromAssetDigest (digest m) <> []) as Hd.
  { unfold offerable in Ho. destruct (counted _ _ _ _) as [[t' m']|]; [|done].
    case_bool_decide as Hd; [done|]. by injection Ho as -> ->. }
  apply offerable_counted, counted_inv in Ho as (Hp & _ & Hs).
  apply package_inv in Hp as (Hdr & Hpr & Ht & Him & Hm & Hu).
  apply match_asset_In in Hm as [Hm Hname].
  apply HasSoaked_iff in Hs as (at_ & Hs & _ & Hday); [|done].
  apply SoakStartOf_bounds in Hs as (pb & ch & up & Hpb & Hch & Hup & Hlo & ->).
  exists rel, m, pb, ch, up. rewrite E1, E3, E4, E5, E6. split_and!; try done.
  - unfold prerelease_ok in Hpr. cbn in Hpr. rewrite orb_false_r, orb_false_r in Hpr. by bool_hyps.
  - by apply Him.
  - by apply ParseFeedTag_official.
  - by apply DigestHex_length.
Qed.

Lemma official_offer_soaked_witness :
  let hex := replicate 64 "a"%char in
  let rel := mkRelease (txt "v2026.10.1-1060587890") false false true (txt "2026-10-01T14:51:17Z")
               (txt "2026-10-01T14:51:17Z")
               [mkReleaseAsset (txt "URnetwork-2026.10.1-1060587890-x64.msi") (txt "https://x/")
                  (kDigestPrefix ++ hex) (txt "2026-10-01T14:07:24Z")] in
  code (SelectRelease [rel] (txt "x64") kOfficialFeed 1791072001) = 1060587890 /\
  exists rel' m published changed uploaded,
    rel' ∈ [rel] /\ m ∈ assets rel' /\
    draft rel' = false /\ prerelease rel' = false /\ immutable rel' = true /\
    sel_tag (SelectRelease [rel] (txt "x64") kOfficialFeed 1791072001) = tag rel' /\
    assetUrl (SelectRelease [rel] (txt "x64") kOfficialFeed 1791072001) = url m /\
    assetName (SelectRelease [rel] (txt "x64") kOfficialFeed 1791072001) = asset_name m /\
    ParseReleaseCode (tag rel') = code (SelectRelease [rel] (txt "x64") kOfficialFeed 1791072001) /\
    length (digestHex (SelectRelease [rel] (txt "x64") kOfficialFeed 1791072001)) = 64%nat /\
    ParseUtcSecond (publishedAt rel') = Some published /\
    ParseUtcSecond (updatedAt rel') = Some changed /\
    ParseUtcSecond (asset_updatedAt m) = Some uploaded /\
    Z.max (Z.max published changed) uploaded + 86400 <= UtcDayStart 1791072001 /\
    CodeUnixSeconds (code (SelectRelease [rel] (txt "x64") kOfficialFeed 1791072001)) - 172800 <= published.
Proof.
  intros hex rel. assert (code (SelectRelease [rel] (txt "x64") kOfficialFeed 1791072001) = 1060587890) as Hc
    by (vm_compute; reflexivity).
  split; [exact Hc|]. apply (official_offer_soaked [rel] (txt "x64") 1791072001 _ eq_refl). by rewrite Hc.
Defined.

(** The first second a waiting release counts from is exactly the one
    [SoakEndUnixSeconds] names: a list dated then or later counts it, one dated
    earlier does not, and that second starts a UTC day. *)
Theorem soak_end_is_first_second feed since server :
  0 < soakSeconds feed -> 0 <= since -> 0 < server ->
  (HasSoaked feed (Some since) server = true <-> SoakEndUnixSeconds feed since <= server) /\
  UtcDayStart (SoakEndUnixSeconds feed since) = SoakEndUnixSeconds feed since.
Proof.
  intros Hf Hs Hv. rewrite HasSoaked_iff by done. unfold SoakEndUnixSeconds.
  rewrite (proj2 (Z.leb_gt _ _)) by done. set (x := since + soakSeconds feed).
  assert ((exists at_, Some since = Some at_ /\ 0 < server /\ at_ + soakSeconds feed <= UtcDayStart server)
          <-> x <= UtcDayStart server) as -> by naive_solver.
  rewrite !UtcDayStart_floor. unfold kSecondsPerDay. clearbody x.
  destruct (_ =? x) eqn:E; bool_hyps; split; zdiv.
Qed.

Lemma soak_end_is_first_second_witness :
  (HasSoaked kOfficialFeed (Some 1790866277) 1791072000 = true <->
   SoakEndUnixSeconds kOfficialFeed 1790866277 <= 1791072000) /\
  UtcDayStart (SoakEndUnixSeconds kOfficialFeed 1790866277) = SoakEndUnixSeconds kOfficialFeed 1790866277.
Proof. apply soak_end_is_first_second; vm_compute; congruence. Defined.

(** A location on one of the release hosts: the scheme, a host in any case, at most
    the default port, then a path. *)
Definition release_location (u : text) : Prop :=
  exists authority port path host,
    u = kScheme ++ authority ++ port ++ "/"%char :: path /\
    (port = [] \/ port = txt ":443") /\
    host ∈ kAssetRedirectHosts /\ map AsciiLower authority = map AsciiLower host.

(** A redirect is followed exactly when it names a release host over https, on
    the default port and with a path, and has no character a lenient URL parser
    could read as a separator: nothing else, however spelled, is followed. *)
Theorem redirect_allowed_iff u :
  IsAllowedAssetRedirect u = true <->
  Forall (fun c => refused_char c = false) u /\ release_location u.
Proof.
  unfold IsAllowedAssetRedirect, release_location. split.
  - destruct (has_prefix kScheme u) eqn:Ep; [|done]. cbn [negb].
    apply has_prefix_drop in Ep. set (rest := drop _ u) in *.
    destruct (existsb refused_char u) eqn:Er; [done|]. apply existsb_refused in Er.
    destruct (find_first_of _ rest) as [n|]; [|done].
    case_bool_decide as Hc; [|done]. cbn [negb]. apply take_drop_middle in Hc. symmetry in Hc.
    destruct (find_char "@"%char _); [done|].
    destruct (find_char ":"%char _) as [k|] eqn:Ek.
    + destruct (teqb _ _) eqn:Et; [|done]. cbn [negb]. apply teqb_eq in Et.
      apply find_char_Some in Ek as [Ek _]. rewrite existsb_host. intros (host & Hh & Hm). split; [done|].
      exists (take k (take n rest)), (txt ":443"), (drop (S n) rest), host. split_and!; try done; [|by right].
      rewrite Ep. f_equal. rewrite Hc at 1. rewrite Ek at 1. rewrite <- app_assoc. f_equal.
      replace (k + 1)%nat with (S k) in Et by lia. by rewrite Et.
    + rewrite existsb_host. intros (host & Hh & Hm). split; [done|].
      exists (take n rest), [], (drop (S n) rest), host. split_and!; try done; [|by left].
      rewrite Ep. f_equal. by rewrite Hc at 1.
  - intros (Hr & a & port & path & host & -> & Hp & Hh & Ha).
    rewrite (proj2 (has_prefix_spec _ _)) by (by eexists). cbn [negb].
    rewrite (proj2 (existsb_refused _) Hr). rewrite drop_app_length.
    assert (forall c, c ∈ txt "/?#@:" -> c ∉ a) as Hc by (intros c Hc Hin; by eapply host_chars).
    assert (Forall (fun d => d ∉ txt "/?#") (a ++ port)) as Hf.
    { rewrite Forall_app. split.
      - rewrite Forall_forall. intros x Hx Hin. apply (Hc x); [|done].
        cbn in Hin |- *. set_solver.
      - destruct Hp as [-> | ->]; [constructor|]. cbn. repeat constructor; set_solver. }
    rewrite app_assoc, (find_first_of_app _ (a ++ port)) by (done || (cbn; set_solver)).
    rewrite list_lookup_middle, bool_decide_eq_true_2, take_app_length by done. cbn [negb].
    rewrite (proj2 (find_char_None "@"%char _)).
    + destruct Hp as [-> | ->].
      * rewrite app_nil_r, (proj2 (find_char_None _ _)) by (apply Hc; cbn; set_solver).
        apply existsb_host. by exists host.
      * change (txt ":443") with (":"%char :: txt "443").
        rewrite find_char_app by (apply Hc; cbn; set_solver).
        rewrite drop_app_add, take_app_length. cbn [negb].
        change (teqb _ _) with true. cbn [negb]. apply existsb_host. by exists host.
    + destruct Hp as [-> | ->]; intros [H|H]%elem_of_app; try (by eapply Hc; [|exact H]; cbn; set_solver);
        cbn in H; set_solver.
Qed.

(** The MSI version of a release code fits Windows Installer's fields (8, 8 and
    16 bits), and releases at least 43 seconds apart have increasing versions, so
    an update never looks like a downgrade to the installer. *)
Theorem msi_version_increases a b :
  0 < a -> a + 430 <= b -> UrMsiVersion b <> [] ->
  UrMsiVersion a <> [] -> 
  UrMsiVersion a = msi_text (msi_fields a) /\ UrMsiVersion b = msi_text (msi_fields b) /\
  msi_lt (msi_fields a) (msi_fields b) /\
  0 <= (msi_fields b).1.1 <= 255 /\ 1 <= (msi_fields b).1.2 <= 12 /\ 0 <= (msi_fields b).2 < 2 ^ 16.
Proof.
  intros Ha Hab Hb Hna. rewrite UrMsiVersion_fields in Hb by lia. rewrite UrMsiVersion_fields in Hna by lia.
  rewrite !UrMsiVersion_fields by lia.
  destruct (_ && _) eqn:Eb in Hb; [|done]. destruct (_ && _) eqn:Ea in Hna; [|done]. clear Hb Hna.
  rewrite Ea, Eb. split_and!; [done|done| | | | | | |]; bool_hyps; try done.
  - by apply msi_fields_lt.
  - apply msi_fields_bounds.
  - apply msi_fields_bounds.
  - apply msi_fields_bounds.
  - apply msi_fields_bounds.
Qed.

Lemma msi_version_increases_witness :
  UrMsiVersion 1060587890 = msi_text (msi_fields 1060587890) /\
  UrMsiVersion 1060588320 = msi_text (msi_fields 1060588320) /\
  msi_lt (msi_fields 1060587890) (msi_fields 1060588320) /\
  0 <= (msi_fields 1060588320).1.1 <= 255 /\ 1 <= (msi_fields 1060588320).1.2 <= 12 /\
  0 <= (msi_fields 1060588320).2 < 2 ^ 16.
Proof. apply msi_version_increases; vm_compute; congruence. Defined.
