(* ===== verification/UpdateReport.v ===== *)
(** The update helper's report (UpdateResult.h), the checks' schedule and a click on
    the banner (UpdateSchedule.h), and what the helper may install (UpdateApply.h). *)

From S2P Require Import Prelude.
From S2P Require Import CxxText.
From S2P Require Import Version.
From S2P Require Import Calendar.
From S2P Require Import UpdateFormats.
From S2P Require Import ReleaseSelection.

(** * The helper's exit code *)

Inductive Refusal :=
  | NotElevated | NotInstalled | DevBuild | BadArguments | Busy | ReleaseListUnread | NotOffered
  | Download | Digest | Package | Staging | InstallerNotStarted | RateLimited.

(** The enumerators' values, in the source's order from 0x20000001. *)
Definition refusal_code (r : Refusal) : Z :=
  match r with
  | NotElevated => 0x20000001
  | NotInstalled => 0x20000002
  | DevBuild => 0x20000003
  | BadArguments => 0x20000004
  | Busy => 0x20000005
  | ReleaseListUnread => 0x20000006
  | NotOffered => 0x20000007
  | Download => 0x20000008
  | Digest => 0x20000009
  | Package => 0x2000000A
  | Staging => 0x2000000B
  | InstallerNotStarted => 0x2000000C
  | RateLimited => 0x2000000D
  end.

Definition kRefusalBit : Z := 0x20000000.

Definition IsRefusal (exitCode : Z) : bool :=
  (0 <? exitCode) && (exitCode <=? 0xFFFFFFFF) && negb (Z.land exitCode kRefusalBit =? 0).

Definition kRebootInitiated : Z := 1641.
Definition kRebootRequired : Z := 3010.

Inductive Outcome := Installed | RestartRequired | Failed | Refused.
#[export] Instance Outcome_eq_dec : EqDecision Outcome.
Proof. solve_decision. Defined.

Definition OutcomeOf (exitCode : Z) : Outcome :=
  if exitCode =? 0 then Installed else
  if (exitCode =? kRebootRequired) || (exitCode =? kRebootInitiated) then RestartRequired else
  if IsRefusal exitCode then Refused else
  Failed.

Definition KeepsPackage (exitCode : Z) : bool :=
  let outcome := OutcomeOf exitCode in
  bool_decide (outcome = Installed) || bool_decide (outcome = RestartRequired).

(** * The report *)

Record UpdateResult := mkUpdateResult {
  result_tag : text; result_code : Z; exitCode : Z; finishedUtc : text }.

Definition IsWellFormed (result : UpdateResult) (tagPrefix : text) : bool :=
  if negb (has_prefix tagPrefix (result_tag result)) then false else
  let t := drop (length tagPrefix) (result_tag result) in
  negb (result_code result =? 0) && (ParseReleaseCode t =? result_code result) &&
  (0 <=? exitCode result) && (exitCode result <=? 0xFFFFFFFF) && IsUtcSecond (finishedUtc result).

Definition kReportClockSlackSeconds : Z := 120.

Definition IsReportOfRun (report : UpdateResult) (t : text) (exit startedUnixSeconds : Z) : bool :=
  let finished := ParseUtcSecond (finishedUtc report) in
  teqb (result_tag report) t && (exitCode report =? exit) &&
  match finished with
  | Some f => startedUnixSeconds - kReportClockSlackSeconds <=? f
  | None => false
  end.

Inductive ReportView := Hidden | ViewInstalled | RestartApp | RestartWindows | ViewNotInstalled.
#[export] Instance ReportView_eq_dec : EqDecision ReportView.
Proof. solve_decision. Defined.

Definition ViewOfReport (report : UpdateResult) (ownCode : Z) (live restartedSince : bool) : ReportView :=
  match OutcomeOf (exitCode report) with
  | Installed =>
      if ownCode =? result_code report then ViewInstalled
      else if live && (ownCode <? result_code report) then RestartApp else Hidden
  | RestartRequired =>
      if result_code report <? ownCode then Hidden
      else if negb restartedSince then RestartWindows
      else if ownCode =? result_code report then ViewInstalled else Hidden
  | Failed | Refused =>
      if ownCode <? result_code report then ViewNotInstalled else Hidden
  end.

(** * The schedule *)

Definition kStaleAfterSeconds : Z := 72 * 60 * 60.
Definition kMaxBackoffSeconds : Z := 24 * 60 * 60.

Record RateLimit := mkRateLimit {
  retryAfterSeconds : Z; resetUnixSeconds : Z; exhausted : bool; serverUnixSeconds : Z }.

Definition NextCheckDelaySeconds (cadenceSeconds : Z) (limit : RateLimit) : Z :=
  let wait := if 0 <? retryAfterSeconds limit then retryAfterSeconds limit else 0 in
  let wait :=
    if exhausted limit && (0 <? resetUnixSeconds limit) && (0 <? serverUnixSeconds limit)
    then Z.max wait (resetUnixSeconds limit - serverUnixSeconds limit) else wait in
  let wait := Z.min wait kMaxBackoffSeconds in
  Z.max cadenceSeconds wait.

Definition CheckIsStale (nowUnixSeconds lastSuccessUnixSeconds : Z) (checking : bool) : bool :=
  checking && (0 <? lastSuccessUnixSeconds) &&
  (kStaleAfterSeconds <? nowUnixSeconds - lastSuccessUnixSeconds).

Definition HiddenByLater (laterCode offeredCode : Z) : bool :=
  negb (laterCode =? 0) && (offeredCode =? laterCode).

Inductive ClickStep := Proceed | Replaced | Withdrawn | Unconfirmed | Dropped.

Record ClickAfterCheck := mkClickAfterCheck {
  clickedCode : Z; sameFeed : bool; checked : bool; offeredCode : Z; bannerHolds : bool;
  laterCode : Z; viaHelper : bool }.

Definition StepAfterCheck (click : ClickAfterCheck) : ClickStep :=
  if negb (sameFeed click) || (clickedCode click =? 0) then Dropped else
  if checked click && (offeredCode click =? 0) then Withdrawn else
  if checked click && negb (offeredCode click =? clickedCode click) then Replaced else
  if negb (bannerHolds click) || HiddenByLater (laterCode click) (clickedCode click) then Dropped else
  if negb (checked click) && negb (viaHelper click) then Unconfirmed else
  Proceed.

(** * What the helper may install *)

Definition kUpgradeCode : text := txt "{A7C1E2D3-4B5F-6081-9C2D-3E4F50617283}".
Definition kMaxTagLength : Z := 96.

Definition plain_char (c : ascii) : bool :=
  in_range 48 57 c || in_range 97 122 c || in_range 65 90 c || (ord c =? 46) || (ord c =? 45).

Definition IsTagArgument (feed : Feed) (t : text) : bool :=
  if bool_decide (t = []) || (kMaxTagLength <? size t) then false else
  if negb (forallb plain_char t) then false else
  if front_is "."%char t || front_is "-"%char t then false else
  bool_decide (is_Some (ParseFeedTag feed t)).

Definition SelectionOffers (selection : Selection) (t : text) (ownCode : Z) : bool :=
  negb (code selection =? 0) && teqb (sel_tag selection) t && (ownCode <? code selection) &&
  negb (bool_decide (assetUrl selection = [])) && negb (bool_decide (assetName selection = [])) &&
  (size (digestHex selection) =? 64).

Definition PackageMatches (upgradeCode productVersion : text) (code : Z) : bool :=
  let want := UrMsiVersion code in
  EqualsAsciiCaseless upgradeCode kUpgradeCode && negb (bool_decide (want = [])) &&
  teqb productVersion want.

(** The command line is built of UTF-16 units. *)
Definition MsiexecCommandLine (msiexec package log : wtext) : wtext :=
  [34] ++ msiexec ++ [34] ++ wtxt " /i " ++ [34] ++ package ++ [34] ++
  wtxt " /passive /norestart /l*v " ++ [34] ++ log ++ [34] ++ wtxt " UPDATE_RELAUNCH=1".

Definition wchar_upper (c : Z) : Z := if (97 <=? c) && (c <=? 122) then c - 97 + 65 else c.

Definition kOverridePrefix : wtext := wtxt "URNETWORK_".

(** The loop over the prefix, a unit at a time. *)
Fixpoint folded_prefix (prefix name : wtext) : bool :=
  match prefix, name with
  | [], _ => true
  | p :: prefix, c :: name => if wchar_upper c =? p then folded_prefix prefix name else false
  | _ :: _, [] => false
  end.

Definition IsAppOverrideName (name : wtext) : bool :=
  if (Z.of_nat (length name) <? Z.of_nat (length kOverridePrefix)) then false
  else folded_prefix kOverridePrefix name.

Inductive HelperWait := Ended | AppExiting.
#[export] Instance HelperWait_eq_dec : EqDecision HelperWait.
Proof. solve_decision. Defined.

(** The wait on the helper: [ended n] and [exiting n] are what the callbacks return
    in the [n]-th round of the loop, which starts at [n]. *)
Fixpoint AwaitHelper (fuel : nat) (ended exiting : nat -> bool) (n : nat) : option HelperWait :=
  match fuel with
  | O => None
  | S fuel =>
      if ended n then Some Ended else
      if exiting n then Some AppExiting else
      AwaitHelper fuel ended exiting (S n)
  end.

(** * Exit codes *)

Lemma land_single_bit a k : 0 <= k -> (Z.land a (2 ^ k) =? 0) = negb (Z.testbit a k).
Proof.
  intros Hk. apply eq_true_iff_eq. rewrite Z.eqb_eq, negb_true_iff. split.
  - intros H. apply (f_equal (fun x => Z.testbit x k)) in H.
    by rewrite Z.land_spec, Z.pow2_bits_true, andb_true_r, Z.bits_0 in H.
  - intros H. apply Z.bits_inj'. intros n Hn. rewrite Z.land_spec, Z.bits_0.
    destruct (decide (n = k)) as [->|]; [by rewrite H|].
    by rewrite Z.pow2_bits_false, andb_false_r by done.
Qed.

Lemma IsRefusal_iff e : IsRefusal e = true <-> 0 < e < 2 ^ 32 /\ Z.testbit e 29 = true.
Proof.
  unfold IsRefusal, kRefusalBit. change 0x20000000 with (2 ^ 29). rewrite land_single_bit by done.
  rewrite negb_involutive, !andb_true_iff, Z.ltb_lt, Z.leb_le.
  assert (e <= 0xFFFFFFFF <-> e < 2 ^ 32) by lia. tauto.
Qed.

Lemma KeepsPackage_iff e : KeepsPackage e = true <-> e = 0 \/ e = kRebootRequired \/ e = kRebootInitiated.
Proof.
  unfold KeepsPackage, OutcomeOf. rewrite orb_true_iff, !bool_decide_eq_true.
  destruct (e =? 0) eqn:E0; bool_hyps; [naive_solver|].
  destruct (e =? kRebootRequired) eqn:E1; bool_hyps; [naive_solver|].
  destruct (e =? kRebootInitiated) eqn:E2; bool_hyps; [naive_solver|]. cbn [orb].
  destruct (IsRefusal e); naive_solver.
Qed.

Lemma OutcomeOf_refused e : OutcomeOf e = Refused <-> 0 < e < 2 ^ 32 /\ Z.testbit e 29 = true.
Proof.
  rewrite <- IsRefusal_iff. unfold OutcomeOf.
  destruct (e =? 0) eqn:E0; bool_hyps; [by subst|].
  destruct (_ || _) eqn:E1; [|by destruct (IsRefusal e)].
  split; [done|]. apply orb_true_iff in E1. rewrite !Z.eqb_eq in E1. by destruct E1 as [-> | ->].
Qed.

Lemma OutcomeOf_refusal r : OutcomeOf (refusal_code r) = Refused.
Proof. by destruct r. Qed.

(** * The package is the release's *)

Lemma msi_lt_irrefl x : ~ msi_lt x x.
Proof. unfold msi_lt. lia. Qed.

Lemma PackageMatches_spec u v c :
  0 < c -> PackageMatches u v c = true ->
  v = msi_text (msi_fields c) /\ 0 <= (msi_fields c).1.1 <= 255 /\ map AsciiLower u = map AsciiLower kUpgradeCode.
Proof.
  intros Hc. unfold PackageMatches. rewrite !andb_true_iff, EqualsAsciiCaseless_spec, teqb_eq.
  rewrite negb_true_iff, bool_decide_eq_false. rewrite UrMsiVersion_fields by done.
  destruct (_ && _) eqn:E; [|intros [[_ H] _]; by destruct H]. bool_hyps. intros [[Hu _] ->]. done.
Qed.

(** A package that passes for one code passes for no code 43 seconds away. *)
Lemma PackageMatches_unique u1 u2 v a b :
  0 < a -> a + 430 <= b -> PackageMatches u1 v a = true -> PackageMatches u2 v b = true -> False.
Proof.
  intros Ha Hab H1 H2. apply PackageMatches_spec in H1 as (E1 & B1 & _); [|done].
  apply PackageMatches_spec in H2 as (E2 & B2 & _); [|lia]. rewrite E1 in E2.
  pose proof (msi_fields_bounds a) as [? ?]. pose proof (msi_fields_bounds b) as [? ?].
  apply msi_text_inj in E2; [|lia..]. apply (msi_lt_irrefl (msi_fields a)).
  rewrite E2 at 2. by apply msi_fields_lt.
Qed.

Lemma SelectionOffers_iff s t own :
  SelectionOffers s t own = true <->
  code s <> 0 /\ sel_tag s = t /\ own < code s /\ assetUrl s <> [] /\ assetName s <> [] /\ size (digestHex s) = 64.
Proof.
  unfold SelectionOffers. rewrite !andb_true_iff, !negb_true_iff, !bool_decide_eq_false, teqb_eq.
  rewrite Z.eqb_neq, Z.ltb_lt, Z.eqb_eq. tauto.
Qed.

(** * The wait *)

Lemma AwaitHelper_runs ended exiting k : forall n fuel,
  (forall i, (n <= i < n + k)%nat -> ended i = false /\ exiting i = false) ->
  AwaitHelper (k + fuel) ended exiting n = AwaitHelper fuel ended exiting (n + k).
Proof.
  induction k as [|k IH]; intros n fuel H; [by rewrite Nat.add_0_r|].
  cbn [Nat.add AwaitHelper]. destruct (H n ltac:(lia)) as [-> ->].
  rewrite IH by (intros; apply H; lia). f_equal. lia.
Qed.

(** The wait ends in the first round in which either happened, and with the helper's
    end when both did. *)
Lemma AwaitHelper_ends ended exiting k :
  (forall i, (i < k)%nat -> ended i = false /\ exiting i = false) -> ended k || exiting k = true ->
  forall fuel, (k < fuel)%nat ->
  AwaitHelper fuel ended exiting 0 = Some (if ended k then Ended else AppExiting).
Proof.
  intros H Hk fuel Hf. replace fuel with (k + S (fuel - S k))%nat by lia.
  rewrite AwaitHelper_runs by (intros; apply H; lia). cbn. destruct (ended k); [done|].
  cbn in Hk. by rewrite Hk.
Qed.

(** * Overrides *)

Lemma folded_prefix_spec p name :
  folded_prefix p name = true <-> map wchar_upper (take (length p) name) = p.
Proof.
  revert name. induction p as [|x p IH]; intros name; [by destruct name|].
  destruct name as [|c name]; cbn; [done|]. destruct (_ =? x) eqn:E; bool_hyps.
  - rewrite IH, E. split; [by intros ->|by intros [= ->]].
  - split; [done|]. intros [= ? _]. done.
Qed.

Lemma IsAppOverrideName_spec name :
  IsAppOverrideName name = true <-> map wchar_upper (take 10 name) = kOverridePrefix.
Proof.
  unfold IsAppOverrideName. destruct (_ <? _) eqn:E; [|apply folded_prefix_spec]. bool_hyps.
  split; [done|]. intros H%(f_equal length). rewrite length_map, length_take in H.
  change (length kOverridePrefix) with 10%nat in *. lia.
Qed.

(** * The delay after a refused request *)

Lemma NextCheckDelay_bounds cadence limit :
  let d := NextCheckDelaySeconds cadence limit in
  cadence <= d <= Z.max cadence kMaxBackoffSeconds /\ Z.min (retryAfterSeconds limit) kMaxBackoffSeconds <= d \/
  retryAfterSeconds limit <= 0 /\ cadence <= d <= Z.max cadence kMaxBackoffSeconds.
Proof.
  cbv zeta. unfold NextCheckDelaySeconds, kMaxBackoffSeconds.
  destruct (0 <? retryAfterSeconds limit) eqn:E; bool_hyps;
    destruct (_ && _); lia.
Qed.

(** * Properties *)

(** What the helper installs for an offer is that offer's package and nothing
    older: a package it accepts carries the version of the offered code, which is
    above the code of the build the helper is; the same package is refused for every
    code 43 seconds or more away from it, so an old package re-uploaded under a newer
    tag never passes, whatever UpgradeCode it claims; and to Windows Installer it is
    an upgrade of every such older release. *)
Theorem package_not_replayed u v own s t :
  0 <= own -> SelectionOffers s t own = true -> PackageMatches u v (code s) = true ->
  sel_tag s = t /\ own < code s /\ v = msi_text (msi_fields (code s)) /\
  (forall u' old, 0 < old -> old + 430 <= code s ->
     PackageMatches u' v old = false /\ msi_lt (msi_fields old) (msi_fields (code s))) /\
  (forall u' newer, code s + 430 <= newer -> PackageMatches u' v newer = false).
Proof.
  intros Ho (_ & Ht & Hc & _)%SelectionOffers_iff Hp. split_and!; [done|done| | |].
  - by apply PackageMatches_spec in Hp as [-> _]; [|lia].
  - intros u' old H0 Hold. split; [|by apply msi_fields_lt].
    destruct (PackageMatches u' v old) eqn:E; [|done]. destruct (PackageMatches_unique _ _ _ _ _ H0 Hold E Hp).
  - intros u' newer Hn. destruct (PackageMatches u' v newer) eqn:E; [|done].
    assert (0 < code s) as H0 by lia.
    destruct (PackageMatches_unique _ _ _ _ _ H0 Hn Hp E).
Qed.

Lemma package_not_replayed_witness :
  let s := mkSelection 1060587890 [] 0 [] 0 1060587890 (txt "2026.10.1-1060587890") (txt "v2026.10.1-1060587890")
             (txt "p.msi") (txt "https://x/") (replicate 64 "a"%char) [] in
  let v := txt "26.10.1090" in
  sel_tag s = txt "v2026.10.1-1060587890" /\ 1060000000 < code s /\ v = msi_text (msi_fields (code s)) /\
  (forall u' old, 0 < old -> old + 430 <= code s ->
     PackageMatches u' v old = false /\ msi_lt (msi_fields old) (msi_fields (code s))) /\
  (forall u' newer, code s + 430 <= newer -> PackageMatches u' v newer = false).
Proof.
  apply (package_not_replayed (txt "{a7c1e2d3-4b5f-6081-9c2d-3e4f50617283}") (txt "26.10.1090") 1060000000
           (mkSelection 1060587890 [] 0 [] 0 1060587890 (txt "2026.10.1-1060587890") (txt "v2026.10.1-1060587890")
             (txt "p.msi") (txt "https://x/") (replicate 64 "a"%char) []));
    vm_compute; congruence.
Defined.

(** What the app says of a report is true of the build that says it: a report of
    an older release than the build is never shown, the build is said to be
    installed only when it is the report's release and the installer took it, a
    failure is shown only while the build is older than the release that failed,
    and a restart of Windows is asked for only before there has been one. *)
Theorem report_view_true report own live restarted :
  match ViewOfReport report own live restarted with
  | ViewInstalled => own = result_code report /\ KeepsPackage (exitCode report) = true
  | RestartApp => live = true /\ own < result_code report /\ exitCode report = 0
  | RestartWindows => restarted = false /\ own <= result_code report /\
      OutcomeOf (exitCode report) = RestartRequired
  | ViewNotInstalled => own < result_code report /\ KeepsPackage (exitCode report) = false
  | Hidden => result_code report < own \/
      (KeepsPackage (exitCode report) = false /\ own = result_code report) \/
      (exitCode report = 0 /\ live = false /\ own < result_code report) \/
      (OutcomeOf (exitCode report) = RestartRequired /\ restarted = true /\ own < result_code report)
  end.
Proof.
  assert (OutcomeOf (exitCode report) = Installed -> exitCode report = 0) as H0.
  { unfold OutcomeOf. destruct (_ =? 0) eqn:E; bool_hyps; [done|]. destruct (_ || _); [done|].
    by destruct (IsRefusal (exitCode report)). }
  unfold ViewOfReport, KeepsPackage. destruct (OutcomeOf (exitCode report)) eqn:Eo; cbn;
    try specialize (H0 eq_refl).
  - destruct (own =? result_code report) eqn:E1; bool_hyps; [done|].
    destruct live, (own <? result_code report) eqn:E2; bool_hyps; cbn; auto; try (split_and!; done || lia); try (left; lia).
    right. right. left. split_and!; done || lia.
  - destruct (result_code report <? own) eqn:E1; bool_hyps; [auto|].
    destruct restarted; cbn; [|done]. destruct (own =? result_code report) eqn:E2; bool_hyps; [done|].
    right. right. right. split_and!; auto; lia.
  - destruct (own <? result_code report) eqn:E1; bool_hyps; [done|]. destruct (decide (own = result_code report)); [auto|left; lia].
  - destruct (own <? result_code report) eqn:E1; bool_hyps; [done|]. destruct (decide (own = result_code report)); [auto|left; lia].
Qed.

(** A click goes on only for the release it was on: the feed and the banner are
    still the click's, Later does not hide the release, and either a check has just
    found the feed offering exactly it, or no check could be made and the helper,
    which asks by itself, does the installing.  Every other click stops, and the
    answer says why. *)
Theorem step_after_check_meaning click :
  let fresh := checked click = true /\ offeredCode click = clickedCode click in
  let stands := sameFeed click = true /\ clickedCode click <> 0 /\ bannerHolds click = true /\
                laterCode click <> clickedCode click in
  (StepAfterCheck click = Proceed <->
   stands /\ (fresh \/ (checked click = false /\ viaHelper click = true))) /\
  (StepAfterCheck click = Unconfirmed <-> stands /\ checked click = false /\ viaHelper click = false) /\
  (StepAfterCheck click = Withdrawn <->
   sameFeed click = true /\ clickedCode click <> 0 /\ checked click = true /\ offeredCode click = 0) /\
  (StepAfterCheck click = Replaced <->
   sameFeed click = true /\ clickedCode click <> 0 /\ checked click = true /\ offeredCode click <> 0 /\
   offeredCode click <> clickedCode click).
Proof.
  destruct click as [clicked same chk offered banner later via]. unfold StepAfterCheck, HiddenByLater.
  cbn [clickedCode sameFeed checked offeredCode bannerHolds laterCode viaHelper].
  destruct same, chk, banner, via; cbn [negb orb andb];
    destruct (clicked =? 0) eqn:E1; cbn [negb orb andb]; bool_hyps;
    try destruct (offered =? 0) eqn:E2; cbn [negb orb andb]; bool_hyps;
    try destruct (offered =? clicked) eqn:E3; cbn [negb orb andb]; bool_hyps;
    try destruct (clicked =? later) eqn:E4; try destruct (later =? 0) eqn:E5; cbn [negb orb andb]; bool_hyps;
    naive_solver lia.
Qed.
