(* ===== verification/UpdateMarker.v ===== *)
(** The marker that refuses launches while an update's installer runs, and the note of
    the VPN it carries (UpdateMarker.h). *)

From S2P Require Import Prelude.
From S2P Require Import CxxText.

(** * The record *)

Definition kUpdateMarkerLifetime : Z := 20 * 60.
Definition kUpdateMarkerClockSkew : Z := 5 * 60.

Inductive VpnAtStart := VpnUnknown | NotConnected | Connected.
#[export] Instance VpnAtStart_eq_dec : EqDecision VpnAtStart.
Proof. solve_decision. Defined.

Record UpdateMarker := mkUpdateMarker {
  installerProcessId : Z; installerCreationTime : Z; writtenAt : Z; vpn : VpnAtStart }.

Definition newline : ascii := chr 10.

Definition FormatUpdateMarker (marker : UpdateMarker) : text :=
  to_string (installerProcessId marker) ++ txt " " ++ to_string (installerCreationTime marker) ++ txt " " ++
  to_string (writtenAt marker) ++
  match vpn marker with Connected => txt " 1" | NotConnected => txt " 0" | VpnUnknown => [] end ++
  [newline].

(** [text.remove_suffix(1)] when the last character is a newline. *)
Definition drop_newline (t : text) : text :=
  if has_suffix [newline] t then take (length t - 1) t else t.

(** The lambda [field] for a field that is not the last: a number and a space. *)
Definition field (parse : text -> option (Z * text)) (t : text) : option (Z * text) :=
  match parse t with
  | Some (value, c :: rest) => if bool_decide (c = " "%char) then Some (value, rest) else None
  | _ => None
  end.

(** The last number, with the VPN's field after it when it is not the end. *)
Definition last_fields (t : text) : option (Z * VpnAtStart) :=
  match from_chars_int64 t with
  | None => None
  | Some (w, []) => Some (w, VpnUnknown)
  | Some (w, [sp; c]) =>
      if negb (bool_decide (sp = " "%char)) then None else
      if bool_decide (c = "1"%char) then Some (w, Connected) else
      if bool_decide (c = "0"%char) then Some (w, NotConnected) else None
  | Some (_, _) => None
  end.

Definition ParseUpdateMarker (t : text) : option UpdateMarker :=
  match field (from_chars_unsigned 32) (drop_newline t) with
  | None => None
  | Some (pid, t) =>
      match field (from_chars_unsigned 64) t with
      | None => None
      | Some (created, t) =>
          match last_fields t with
          | None => None
          | Some (w, v) =>
              if (pid =? 0) || (created =? 0) then None
              else Some (mkUpdateMarker pid created w v)
          end
      end
  end.

(** * What the report says of the VPN *)

Definition VpnOfReport (record : option UpdateMarker) (finished : option Z) : option VpnAtStart :=
  match record with
  | None => None
  | Some r =>
      match finished with
      | None => Some VpnUnknown
      | Some f => if f <? writtenAt r then Some VpnUnknown else Some (vpn r)
      end
  end.

Definition SaysVpnDisconnected (v : option VpnAtStart) : bool :=
  match v with Some v => negb (bool_decide (v = NotConnected)) | None => false end.

(** * The app's note *)

Inductive VpnSource := Pushed | Answered | SourceUnknown.

Record VpnNote := mkVpnNote { pushed : option bool; source : VpnSource; upSinceHandOff : bool }.

Definition empty_note : VpnNote := mkVpnNote None SourceUnknown false.

Definition StatusPushed (n : VpnNote) (up : bool) : VpnNote :=
  mkVpnNote (Some up) (source n) (upSinceHandOff n || up).

Definition HandOff (n : VpnNote) (answered : option bool) : VpnNote :=
  let src := match pushed n with
             | Some _ => Pushed
             | None => match answered with Some _ => Answered | None => SourceUnknown end
             end in
  let state := match pushed n with Some _ => pushed n | None => answered end in
  mkVpnNote (pushed n) src (default false state).

Definition Note (n : VpnNote) : VpnAtStart :=
  if upSinceHandOff n then Connected else
  match source n with SourceUnknown => VpnUnknown | _ => NotConnected end.

(** * The verdict on a launch *)

Inductive InstallerState := Running | InstallerEnded | InstallerUnknown.
#[export] Instance InstallerState_eq_dec : EqDecision InstallerState.
Proof. solve_decision. Defined.

Inductive Verdict := NoMarker | Updating | Stale.
#[export] Instance Verdict_eq_dec : EqDecision Verdict.
Proof. solve_decision. Defined.

(** A 64-bit signed subtraction that wraps.  The marker's time is whatever the file
    says, so the exact difference may not fit. *)
Definition sub_int64 (a b : Z) : Z := (a - b + 2 ^ 63) mod 2 ^ 64 - 2 ^ 63.

Definition Judge (marker : UpdateMarker) (installer : InstallerState) (now : Z) : Verdict :=
  let age := sub_int64 now (writtenAt marker) in
  if (kUpdateMarkerLifetime <? age) || (age <? - kUpdateMarkerClockSkew) then Stale else
  if bool_decide (installer = InstallerEnded) then Stale else Updating.

Definition CheckMarker (t : option text) (probe : UpdateMarker -> InstallerState) (now : Z) : Verdict :=
  match t with
  | None => NoMarker
  | Some t =>
      match ParseUpdateMarker t with
      | None => Stale
      | Some marker => Judge marker (probe marker) now
      end
  end.

(** * Formatting and parsing *)

(** A marker an app can have written of a process that exists. *)
Definition marker_ok (m : UpdateMarker) : Prop :=
  0 < installerProcessId m < 2 ^ 32 /\ 0 < installerCreationTime m < 2 ^ 64 /\
  int64_min <= writtenAt m <= int64_max.

Lemma drop_newline_app t : drop_newline (t ++ [newline]) = t.
Proof.
  unfold drop_newline. rewrite (proj2 (has_suffix_spec _ _)) by (by exists t).
  rewrite length_app. cbn [length]. rewrite Nat.add_sub. by rewrite take_app_length.
Qed.

Lemma from_chars_unsigned_range w t v rest :
  from_chars_unsigned w t = Some (v, rest) -> 0 <= v < 2 ^ w.
Proof.
  unfold from_chars_unsigned. pose proof (span_Forall is_digit t) as H.
  destruct (span is_digit t) as [d r]. cbn [fst] in H. case_bool_decide; [done|].
  destruct (_ <? _) eqn:E; [|done]. intros [= <- <-]. bool_hyps.
  pose proof (digits_value_bound d H). lia.
Qed.

Lemma from_chars_int64_range t v rest :
  from_chars_int64 t = Some (v, rest) -> int64_min <= v <= int64_max.
Proof.
  unfold from_chars_int64. destruct t as [|c t]; [done|]. case_bool_decide.
  - pose proof (span_Forall is_digit t) as H'. destruct (span is_digit t) as [d r]. cbn [fst] in H'.
    case_bool_decide; [done|]. destruct (_ <=? _) eqn:E; [|done]. intros [= <- <-]. bool_hyps.
    pose proof (digits_value_bound d H'). unfold int64_max. lia.
  - pose proof (span_Forall is_digit (c :: t)) as H'. destruct (span is_digit (c :: t)) as [d r]. cbn [fst] in H'.
    case_bool_decide; [done|]. destruct (_ <=? _) eqn:E; [|done]. intros [= <- <-]. bool_hyps.
    pose proof (digits_value_bound d H'). unfold int64_min. lia.
Qed.

Lemma field_range w t v rest :
  field (from_chars_unsigned w) t = Some (v, rest) -> 0 <= v < 2 ^ w.
Proof.
  unfold field. destruct (from_chars_unsigned w t) as [[u [|c r]]|] eqn:E; [done| |done].
  case_bool_decide; [|done]. intros [= <- <-]. by eapply from_chars_unsigned_range.
Qed.

Lemma last_fields_range t w v : last_fields t = Some (w, v) -> int64_min <= w <= int64_max.
Proof.
  unfold last_fields. destruct (from_chars_int64 t) as [[u r]|] eqn:E; [|done].
  apply from_chars_int64_range in E. destruct r as [|sp [|c [|]]]; try done; [by intros [= <- <-]|].
  repeat (case_bool_decide; cbn [negb]; try done); by intros [= <- <-].
Qed.

Lemma ParseUpdateMarker_ok t m : ParseUpdateMarker t = Some m -> marker_ok m.
Proof.
  unfold ParseUpdateMarker. destruct (field _ (drop_newline t)) as [[pid t1]|] eqn:E1; [|done].
  destruct (field _ t1) as [[created t2]|] eqn:E2; [|done].
  destruct (last_fields t2) as [[w v]|] eqn:E3; [|done].
  destruct (_ || _) eqn:E; [done|]. intros [= <-]. bool_hyps.
  apply field_range in E1, E2. apply last_fields_range in E3. unfold marker_ok. cbn. lia.
Qed.

Lemma field_to_string w n rest :
  0 <= n < 2 ^ w -> field (from_chars_unsigned w) (to_string n ++ txt " " ++ rest) = Some (n, rest).
Proof.
  intros Hn. unfold field. rewrite from_chars_unsigned_to_string by (done || by intros x [= <-]).
  cbn. by rewrite bool_decide_eq_true_2.
Qed.

Lemma last_fields_to_string n v :
  int64_min <= n <= int64_max ->
  last_fields (to_string n ++ match v with Connected => txt " 1" | NotConnected => txt " 0" | VpnUnknown => [] end)
  = Some (n, v).
Proof.
  intros Hn. unfold last_fields.
  rewrite from_chars_int64_to_string by (done || by (destruct v; intros x [= <-])). by destruct v.
Qed.

Lemma ParseUpdateMarker_Format m : marker_ok m -> ParseUpdateMarker (FormatUpdateMarker m) = Some m.
Proof.
  destruct m as [pid created w v]. intros (H1 & H2 & H3). cbn in *.
  unfold ParseUpdateMarker, FormatUpdateMarker. cbn [installerProcessId installerCreationTime writtenAt vpn].
  rewrite !(app_assoc _ _ [newline]), drop_newline_app, field_to_string, field_to_string, last_fields_to_string by lia.
  by rewrite !(proj2 (Z.eqb_neq _ _)) by lia.
Qed.

(** * The verdict *)

(** With the clock of this machine, a difference that wraps is as stale as the exact
    one. *)
Lemma sub_int64_verdict now w :
  0 <= now <= int64_max - kUpdateMarkerClockSkew -> int64_min <= w <= int64_max ->
  (- kUpdateMarkerClockSkew <= sub_int64 now w <= kUpdateMarkerLifetime) <->
  (- kUpdateMarkerClockSkew <= now - w <= kUpdateMarkerLifetime).
Proof.
  unfold sub_int64, int64_min, int64_max, kUpdateMarkerClockSkew, kUpdateMarkerLifetime. intros Hn Hw.
  destruct (decide (now - w + 2 ^ 63 < 2 ^ 64)).
  - rewrite Z.mod_small by lia. lia.
  - replace (now - w + 2 ^ 63) with (now - w + 2 ^ 63 - 2 ^ 64 + 1 * 2 ^ 64) by lia.
    rewrite Z.mod_add, Z.mod_small by lia. lia.
Qed.

Lemma Judge_Updating m st now :
  0 <= now <= int64_max - kUpdateMarkerClockSkew -> int64_min <= writtenAt m <= int64_max ->
  Judge m st now = Updating <->
  (- kUpdateMarkerClockSkew <= now - writtenAt m <= kUpdateMarkerLifetime) /\ st <> InstallerEnded.
Proof.
  intros Hn Hw. rewrite <- (sub_int64_verdict now) by done. unfold Judge.
  destruct (_ || _) eqn:E.
  - split; [done|]. intros [H _]. apply orb_true_iff in E. rewrite !Z.ltb_lt in E. lia.
  - bool_hyps. case_bool_decide; naive_solver.
Qed.

(** * The note *)

Lemma StatusPushed_foldl l n :
  upSinceHandOff (foldl StatusPushed n l) = upSinceHandOff n || existsb (fun up => up) l /\
  source (foldl StatusPushed n l) = source n /\
  pushed (foldl StatusPushed n l) = match last l with Some up => Some up | None => pushed n end.
Proof.
  revert n. induction l as [|up l IH]; intros n; cbn [foldl existsb]; [by rewrite orb_false_r|].
  destruct (IH (StatusPushed n up)) as (-> & -> & ->). cbn [upSinceHandOff source pushed StatusPushed].
  rewrite orb_assoc. split; [done|]. split; [done|]. destruct l as [|u l]; [done|].
  rewrite last_cons_cons. destruct (last (u :: l)) eqn:E; [done|]. by apply last_None in E.
Qed.

(** * Properties *)

(** A marker is read back exactly as it was written, VPN field included, and
    [ParseUpdateMarker] reads no marker that names no process or does not fit its
    fields: a marker survives the file exactly when it names a process id and a
    creation time. *)
Theorem update_marker_roundtrip m :
  ParseUpdateMarker (FormatUpdateMarker m) = Some m <-> marker_ok m.
Proof. split; [apply ParseUpdateMarker_ok|apply ParseUpdateMarker_Format]. Qed.

Lemma old_marker_does_not_say pid created w :
  marker_ok (mkUpdateMarker pid created w VpnUnknown) ->
  ParseUpdateMarker (to_string pid ++ txt " " ++ to_string created ++ txt " " ++ to_string w) =
  Some (mkUpdateMarker pid created w VpnUnknown).
Proof.
  intros H. rewrite <- (ParseUpdateMarker_Format _ H). unfold ParseUpdateMarker at 1 2, FormatUpdateMarker.
  cbn [installerProcessId installerCreationTime writtenAt vpn].
  rewrite !(app_assoc _ _ [newline]), drop_newline_app.
  unfold drop_newline. destruct (has_suffix _ _) eqn:E; [|done]. exfalso.
  apply has_suffix_spec in E as [t E].
  destruct H as (_ & _ & Hw). cbn in Hw.
  assert (exists u d, to_string w = u ++ [d] /\ is_digit d = true) as (u & d & Hd & Hdd).
  { destruct (decide (0 <= w)) as [H0|H0].
    - destruct (to_string_nonneg w H0) as (D & _ & N). destruct (exists_last N) as (u & d & Eu).
      rewrite Eu in D. apply Forall_app in D as [_ D]. apply Forall_cons_1 in D as [D _]. exists u, d. split; [exact Eu|exact D].
    - destruct (to_string_neg w ltac:(lia)) as (s & -> & D & _ & N). destruct (exists_last N) as (u & d & ->).
      apply Forall_app in D as [_ D]. apply Forall_cons_1 in D as [D _]. exists (chr 45 :: u), d. split; [done|exact D]. }
  rewrite Hd, !app_assoc in E. apply app_inj_tail in E as [_ ->]. done.
Qed.

(** A launch is turned away exactly while there is a marker that reads, was
    written at most 20 minutes ago (or up to 5 minutes in the future), and whose
    installer is not known to have ended.  So whatever the installer does, and
    whatever the file holds, no launch is refused 20 minutes after the marker was
    written: the wrap-around of the file's time cannot extend it. *)
Theorem launch_refused_iff t probe now :
  0 <= now <= int64_max - kUpdateMarkerClockSkew ->
  CheckMarker t probe now = Updating <->
  exists s m, t = Some s /\ ParseUpdateMarker s = Some m /\
    writtenAt m - kUpdateMarkerClockSkew <= now <= writtenAt m + kUpdateMarkerLifetime /\
    probe m <> InstallerEnded.
Proof.
  intros Hn. unfold CheckMarker. destruct t as [s|]; [|naive_solver].
  destruct (ParseUpdateMarker s) as [m|] eqn:E; [|naive_solver].
  destruct (ParseUpdateMarker_ok _ _ E) as (_ & _ & Hw). rewrite Judge_Updating by done. split.
  - intros [H1 H2]. exists s, m. split_and!; try done; lia.
  - intros (s' & m' & [= <-] & Hm & H1 & H2). rewrite E in Hm. injection Hm as <-. split; [lia|done].
Qed.

Lemma launch_refused_iff_witness :
  CheckMarker (Some (txt "4242 133000000000000000 1790866277 1")) (fun _ => Running) 1790866300 = Updating <->
  exists s m, Some (txt "4242 133000000000000000 1790866277 1") = Some s /\ ParseUpdateMarker s = Some m /\
    writtenAt m - kUpdateMarkerClockSkew <= 1790866300 <= writtenAt m + kUpdateMarkerLifetime /\
    Running <> InstallerEnded.
Proof.
  apply (launch_refused_iff (Some (txt "4242 133000000000000000 1790866277 1")) (fun _ => Running)).
  vm_compute. split; congruence.
Defined.

(** The note of the VPN is right about the whole time since the hand-off.  With
    [state] the tunnel's state at the hand-off (the last status pushed before it,
    else what the service answered), the note says connected when the VPN was up
    then or in any status since, not connected only when the state was known and
    never up, and unknown otherwise. *)
Theorem vpn_note_since_hand_off before answered since :
  let n := foldl StatusPushed (HandOff (foldl StatusPushed empty_note before) answered) since in
  let state := match last before with Some up => Some up | None => answered end in
  (Note n = Connected <-> state = Some true \/ true ∈ since) /\
  (Note n = NotConnected <-> state = Some false /\ true ∉ since) /\
  (Note n = VpnUnknown <-> state = None /\ true ∉ since).
Proof.
  cbv zeta. destruct (StatusPushed_foldl before empty_note) as (_ & _ & Hp). cbn [pushed empty_note] in Hp.
  set (n0 := foldl StatusPushed empty_note before) in *.
  destruct (StatusPushed_foldl since (HandOff n0 answered)) as (Hu & Hs & _).
  unfold Note. rewrite Hu, Hs. unfold HandOff. cbn [upSinceHandOff source]. rewrite Hp.
  assert (existsb (fun up => up) since = true <-> true ∈ since) as He.
  { rewrite existsb_exists. setoid_rewrite list_elem_of_In. naive_solver. }
  destruct (existsb _ since); [|assert (true ∉ since) by naive_solver];
    destruct (last before) as [[]|], answered as [[]|]; cbn; naive_solver.
Qed.
