(* ===== verification/DeadTunnel.v ===== *)
(** The dead-tunnel failsafe's decision (DeadTunnelVerdict.h), under the thresholds of
    TunnelWatchdogSettings.h: the balance hold, the verdict, and the trackers of the
    packet counters and of the destination's generation. *)

From S2P Require Import Prelude.
From S2P Require Import CxxText.

(** * The thresholds *)

Record DeadTunnelSettings := mkDeadTunnelSettings {
  deadFastMillis : Z;
  deadFastOutboundPackets : Z;
  deadSlowMillis : Z;
  sdkUnresponsiveMillis : Z;
  sdkUnresponsiveArmMillis : Z;
  failsafeNoticeMillis : Z;
}.

Definition default_settings : DeadTunnelSettings :=
  mkDeadTunnelSettings 20000 8 90000 30000 10000 30000.

Definition StampInSession (stampMillis sessionStartMillis : Z) : Z :=
  if sessionStartMillis <=? stampMillis then stampMillis else -1.

(** * The balance hold *)

Record BalanceReading := mkBalanceReading {
  sampled : bool;
  insufficientBalance : bool;
  noPermission : bool;
  reading_generation : Z;
  providerAddedCount : Z;
}.

Inductive BalanceStep := StepNone | Entered | Released.

Record OutOfBalanceHold := mkHold { held_ : bool; refusedGeneration_ : Z }.

Definition new_hold : OutOfBalanceHold := mkHold false 0.

Definition HoldObserve (h : OutOfBalanceHold) (reading : BalanceReading) : OutOfBalanceHold * BalanceStep :=
  if negb (sampled reading) then (h, StepNone) else
  if insufficientBalance reading then
    let h' := mkHold (held_ h) (reading_generation reading) in
    if held_ h' then (h', StepNone) else (mkHold true (refusedGeneration_ h'), Entered)
  else
  if negb (held_ h) || noPermission reading then (h, StepNone) else
  let granted := (reading_generation reading <=? refusedGeneration_ h) || (0 <? providerAddedCount reading) in
  if negb granted then (h, StepNone) else
  (mkHold false (refusedGeneration_ h), Released).

Definition observe_all (h : OutOfBalanceHold) (l : list BalanceReading) : OutOfBalanceHold :=
  foldl (fun h r => (HoldObserve h r).1) h l.

(** * The verdict *)

Inductive DeadTunnelReason := ReasonNone | NoExit | NoInbound | SdkUnresponsive.
#[export] Instance DeadTunnelReason_eq_dec : EqDecision DeadTunnelReason.
Proof. solve_decision. Defined.

Definition kStopReasonUser : text := txt "user".

Definition StopReasonOf (r : DeadTunnelReason) : text :=
  match r with
  | ReasonNone => []
  | NoExit => txt "failsafe_no_exit"
  | NoInbound => txt "failsafe_no_inbound"
  | SdkUnresponsive => txt "failsafe_sdk_unresponsive"
  end.

Definition DescribeDeadTunnel (r : DeadTunnelReason) : text :=
  match r with
  | ReasonNone => txt "the tunnel is carrying traffic"
  | NoExit => txt "no provider was ever proven, or every proven provider has been gone continuously"
  | NoInbound => txt "this machine kept sending into the tunnel and NOTHING came back"
  | SdkUnresponsive => txt "the sdk stopped answering, so nothing can be said about the " ++
      txt "tunnel except that it is not being managed"
  end.

Definition FailsafeFinalDisarm (killSwitchOn : bool) : bool := negb killSwitchOn.

Record DeadTunnelSignals := mkSignals {
  tunnelUp : bool;
  routesInstalled : bool;
  upSinceMillis : Z;
  trafficStartMillis : Z;
  providerWindowReady : bool;
  provenCount : Z;
  lastProvenMillis : Z;
  lastSampleMillis : Z;
  lastInboundMillis : Z;
  outboundSinceInbound : Z;
  outOfBalance : bool;
}.

Record DeadTunnelVerdict := mkVerdict { reason : DeadTunnelReason; armed : bool; millisToFailsafe : Z }.

Definition no_verdict : DeadTunnelVerdict := mkVerdict ReasonNone false 0.

Definition AgeSince (stampMillis upSinceMillis nowMillis : Z) : Z :=
  nowMillis - (if stampMillis <? 0 then upSinceMillis else stampMillis).

(** The lambda [consider] of the countdown. *)
Definition consider (soonest remaining : Z) : Z :=
  let remaining := if remaining <? 0 then 0 else remaining in
  if (soonest <? 0) || (remaining <? soonest) then remaining else soonest.

Definition Evaluate (s : DeadTunnelSignals) (now : Z) (settings : DeadTunnelSettings) : DeadTunnelVerdict :=
  if negb (tunnelUp s) || negb (routesInstalled s) || (upSinceMillis s <=? 0) then no_verdict else
  let sampleAge := AgeSince (lastSampleMillis s) (upSinceMillis s) now in
  let provenAge := AgeSince (lastProvenMillis s) (upSinceMillis s) now in
  let trafficStart := if 0 <? trafficStartMillis s then trafficStartMillis s else upSinceMillis s in
  let inboundAge := AgeSince (lastInboundMillis s) trafficStart now in
  if (0 <=? lastInboundMillis s) && (inboundAge <? deadFastMillis settings) then no_verdict else
  if sdkUnresponsiveMillis settings <=? sampleAge then mkVerdict SdkUnresponsive false 0 else
  let fastApplies := negb (outOfBalance s) && providerWindowReady s && (provenCount s =? 0) &&
                     (deadFastOutboundPackets settings <=? outboundSinceInbound s) in
  if fastApplies && (deadFastMillis settings <=? inboundAge) && (deadFastMillis settings <=? provenAge)
  then mkVerdict NoInbound false 0 else
  let slowApplies := negb (outOfBalance s) && (provenCount s =? 0) && (0 <=? lastSampleMillis s) in
  if slowApplies && (deadSlowMillis settings <=? provenAge) then mkVerdict NoExit false 0 else
  let soonest := -1 in
  let soonest := if sdkUnresponsiveArmMillis settings <=? sampleAge
                 then consider soonest (sdkUnresponsiveMillis settings - sampleAge) else soonest in
  let soonest := if fastApplies
                 then consider soonest (deadFastMillis settings -
                                        (if inboundAge <? provenAge then inboundAge else provenAge))
                 else soonest in
  let soonest := if slowApplies then consider soonest (deadSlowMillis settings - provenAge) else soonest in
  if (0 <=? soonest) && (soonest <=? failsafeNoticeMillis settings)
  then mkVerdict ReasonNone true soonest else no_verdict.

(** * The packet counters *)

Record TrafficTracker := mkTracker {
  lastOutbound_ : Z; lastInbound_ : Z; outboundAtLastInbound_ : Z; lastInboundMillis_ : Z }.

Definition TrafficReset (outbound inbound : Z) : TrafficTracker :=
  mkTracker outbound inbound outbound (-1).

Definition TrafficObserve (t : TrafficTracker) (outbound inbound now : Z) : TrafficTracker :=
  let t := if lastInbound_ t <? inbound
           then mkTracker (lastOutbound_ t) inbound outbound now else t in
  if lastOutbound_ t <? outbound
  then mkTracker outbound (lastInbound_ t) (outboundAtLastInbound_ t) (lastInboundMillis_ t) else t.

Definition tracker_outboundSinceInbound (t : TrafficTracker) : Z :=
  if outboundAtLastInbound_ t <? lastOutbound_ t then lastOutbound_ t - outboundAtLastInbound_ t else 0.

(** * The destination's generation *)

Record ConnectionEpochUpdate := mkUpdate { verdictClockReset : bool; trafficClockReset : bool }.

Record ConnectionEpochTracker := mkEpoch {
  initialized_ : bool; forming_ : bool; connectionGeneration_ : Z }.

Definition new_epoch : ConnectionEpochTracker := mkEpoch false false 0.

Definition EpochObserve (e : ConnectionEpochTracker) (generation : Z) (minSatisfied : bool) :
    ConnectionEpochTracker * ConnectionEpochUpdate :=
  if negb (initialized_ e) then
    (mkEpoch true (negb minSatisfied) generation, mkUpdate false false) else
  if generation <? connectionGeneration_ e then (e, mkUpdate false false) else
  if connectionGeneration_ e <? generation then
    (mkEpoch (initialized_ e) (negb minSatisfied) generation, mkUpdate true true) else
  if forming_ e && minSatisfied then
    (mkEpoch (initialized_ e) false (connectionGeneration_ e), mkUpdate false true)
  else (e, mkUpdate false false).

Definition FastVerdictEligible (e : ConnectionEpochTracker) : bool := initialized_ e && negb (forming_ e).

Definition epoch_all (e : ConnectionEpochTracker) (l : list (Z * bool)) : ConnectionEpochTracker :=
  foldl (fun e o => (EpochObserve e o.1 o.2).1) e l.

(** * What the verdict is about *)

Section Rules.
Context (settings : DeadTunnelSettings) (s : DeadTunnelSignals) (now : Z).

(** This machine is pointed at a tunnel. *)
Definition judged : Prop := tunnelUp s = true /\ routesInstalled s = true /\ 0 < upSinceMillis s.

(** A packet came back out of the tun within the fast window. *)
Definition carrying : Prop := 0 <= lastInboundMillis s /\ now - lastInboundMillis s < deadFastMillis settings.

Definition sample_age : Z := AgeSince (lastSampleMillis s) (upSinceMillis s) now.
Definition proven_age : Z := AgeSince (lastProvenMillis s) (upSinceMillis s) now.
Definition inbound_age : Z :=
  AgeSince (lastInboundMillis s)
    (if 0 <? trafficStartMillis s then trafficStartMillis s else upSinceMillis s) now.

Definition fast_applies : Prop :=
  outOfBalance s = false /\ providerWindowReady s = true /\ provenCount s = 0 /\
  deadFastOutboundPackets settings <= outboundSinceInbound s.

Definition slow_applies : Prop := outOfBalance s = false /\ provenCount s = 0 /\ 0 <= lastSampleMillis s.

Lemma judged_guard :
  negb (tunnelUp s) || negb (routesInstalled s) || (upSinceMillis s <=? 0) = false <-> judged.
Proof.
  unfold judged. rewrite !orb_false_iff, !negb_false_iff, Z.leb_gt. tauto.
Qed.

Lemma inbound_age_seen : 0 <= lastInboundMillis s -> inbound_age = now - lastInboundMillis s.
Proof. intros H. unfold inbound_age, AgeSince. by rewrite (proj2 (Z.ltb_ge _ _)) by done. Qed.

Lemma carrying_guard :
  (0 <=? lastInboundMillis s) && (inbound_age <? deadFastMillis settings) = true <-> carrying.
Proof.
  unfold carrying. rewrite andb_true_iff, Z.leb_le, Z.ltb_lt. split.
  - intros [H1 H2]. rewrite inbound_age_seen in H2 by done. done.
  - intros [H1 H2]. rewrite inbound_age_seen by done. done.
Qed.

Lemma fast_guard :
  negb (outOfBalance s) && providerWindowReady s && (provenCount s =? 0) &&
    (deadFastOutboundPackets settings <=? outboundSinceInbound s) = true <-> fast_applies.
Proof. unfold fast_applies. rewrite !andb_true_iff, negb_true_iff, Z.eqb_eq, Z.leb_le. tauto. Qed.

Lemma slow_guard :
  negb (outOfBalance s) && (provenCount s =? 0) && (0 <=? lastSampleMillis s) = true <-> slow_applies.
Proof. unfold slow_applies. rewrite !andb_true_iff, negb_true_iff, Z.eqb_eq, Z.leb_le. tauto. Qed.

(** The rules of the verdict, as propositions in the order they are asked. *)
Definition rules (r : DeadTunnelReason) : Prop :=
  judged /\ ~ carrying /\
  match r with
  | ReasonNone => False
  | SdkUnresponsive => sdkUnresponsiveMillis settings <= sample_age
  | NoInbound =>
      sample_age < sdkUnresponsiveMillis settings /\ fast_applies /\
      deadFastMillis settings <= inbound_age /\ deadFastMillis settings <= proven_age
  | NoExit =>
      sample_age < sdkUnresponsiveMillis settings /\ slow_applies /\ deadSlowMillis settings <= proven_age /\
      ~ (fast_applies /\ deadFastMillis settings <= inbound_age /\ deadFastMillis settings <= proven_age)
  end.

Lemma Evaluate_cases :
  match reason (Evaluate s now settings) with
  | ReasonNone => forall r, ~ rules r
  | r => rules r /\ armed (Evaluate s now settings) = false
  end.
Proof.
  unfold Evaluate, rules. fold sample_age proven_age inbound_age. cbv zeta.
  destruct (_ || _) eqn:Ej.
  { intros r [Hj _]. apply judged_guard in Hj. congruence. }
  apply judged_guard in Ej.
  destruct ((0 <=? lastInboundMillis s) && _) eqn:Ec.
  { apply carrying_guard in Ec. intros r (_ & Hc & _). done. }
  assert (~ carrying) as Hc by (rewrite <- carrying_guard; congruence).
  destruct (_ <=? sample_age) eqn:Eu; bool_hyps; [done|].
  pose proof fast_guard as Hf. destruct (negb (outOfBalance s) && providerWindowReady s && _ && _) eqn:Ef;
  pose proof slow_guard as Hs; destruct (negb (outOfBalance s) && (provenCount s =? 0) && _) eqn:Es;
  cbn [andb]; repeat match goal with
    | |- context [if ((?a <=? ?b) && (?c <=? ?d)) then mkVerdict NoInbound _ _ else _] =>
        destruct (Z.leb_spec a b), (Z.leb_spec c d); cbn [andb]
    | |- context [if (?a <=? ?b) then mkVerdict NoExit _ _ else _] => destruct (Z.leb_spec a b)
    end; cbn [reason armed]; repeat match goal with
    | |- context [reason (if ?b then _ else _)] => destruct b; cbn [reason]
    end; try (intros [| | |] (_ & _ & H'); naive_solver lia); naive_solver lia.
Qed.

Lemma Evaluate_reason r : r <> ReasonNone -> reason (Evaluate s now settings) = r <-> rules r.
Proof.
  intros Hr. pose proof Evaluate_cases as H. split.
  - intros E. rewrite E in H. destruct r; [done|apply H..].
  - intros Hrule. destruct (reason (Evaluate s now settings)); [by destruct (H r)|..];
      destruct r; try done; exfalso; destruct H as [H _]; unfold rules in *; naive_solver lia.
Qed.
End Rules.

(** * The hold *)

(** A reading that says the balance falls short. *)
Definition refuses (r : BalanceReading) : Prop := sampled r = true /\ insufficientBalance r = true.

(** A reading that says contracts go through again, after a refusal under [g]. *)
Definition grants (g : Z) (r : BalanceReading) : Prop :=
  sampled r = true /\ insufficientBalance r = false /\ noPermission r = false /\
  (reading_generation r <= g \/ 0 < providerAddedCount r).

(** The last refusal of a session, with nothing granted since. *)
Definition refused_since (l : list BalanceReading) (g : Z) : Prop :=
  exists pre r post, l = pre ++ r :: post /\ refuses r /\ g = reading_generation r /\
    Forall (fun x => ~ refuses x /\ ~ grants g x) post.

Lemma HoldObserve_cases h r :
  (refuses r /\ (HoldObserve h r).1 = mkHold true (reading_generation r)) \/
  (~ refuses r /\ held_ h = true /\ grants (refusedGeneration_ h) r /\ held_ (HoldObserve h r).1 = false) \/
  (~ refuses r /\ ~ (held_ h = true /\ grants (refusedGeneration_ h) r) /\ (HoldObserve h r).1 = h).
Proof.
  unfold HoldObserve, refuses, grants. destruct (sampled r); cbn [negb]; [|right; right; naive_solver].
  destruct (insufficientBalance r); [left; destruct h as [[] ?]; naive_solver|].
  destruct h as [[] g]; cbn; [|right; right; naive_solver].
  destruct (noPermission r); cbn; [right; right; naive_solver|].
  destruct (Z.leb_spec (reading_generation r) g), (Z.ltb_spec 0 (providerAddedCount r)); cbn;
    [right; left|right; left|right; left|right; right]; naive_solver lia.
Qed.

Lemma refused_since_snoc l r g :
  refused_since (l ++ [r]) g <->
  (refuses r /\ g = reading_generation r) \/ (refused_since l g /\ ~ refuses r /\ ~ grants g r).
Proof.
  split.
  - intros (pre & x & post & E & Hx & Hg & Hp). destruct post as [|y post _] using rev_ind.
    + apply app_inj_tail in E as [-> ->]. by left.
    + rewrite app_comm_cons, app_assoc in E. apply app_inj_tail in E as [-> ->].
      apply Forall_app in Hp as [Hp [Hy _]%Forall_cons]. right. split; [|done]. by exists pre, x, post.
  - intros [[Hr ->]|[(pre & x & post & -> & Hx & -> & Hp) Hn]].
    + by exists l, r, [].
    + exists pre, x, (post ++ [r]). rewrite <- app_assoc. split_and!; try done.
      apply Forall_app. split; [done|]. by constructor.
Qed.

Lemma observe_all_spec l :
  let h := observe_all new_hold l in
  forall g, (held_ h = true /\ refusedGeneration_ h = g) <-> refused_since l g.
Proof.
  induction l as [|r l IH] using rev_ind; cbn zeta.
  - intros g. split; [by intros [? _]|]. intros (pre & x & post & E & _). by destruct pre.
  - intros g. unfold observe_all in *. rewrite foldl_app. cbn [foldl].
    set (h := foldl _ new_hold l) in *. cbn zeta in IH. rewrite refused_since_snoc, <- IH.
    destruct (HoldObserve_cases h r) as [[Hr ->]|[(Hn & Hh & Hg & ->)|(Hn & Hg & ->)]]; cbn; naive_solver.
Qed.

(** * The generation *)

Definition newest_generation (l : list (Z * bool)) (g : Z) : Prop :=
  (exists m, (g, m) ∈ l) /\ forall g' m, (g', m) ∈ l -> g' <= g.

Lemma newest_generation_unique l g g' : newest_generation l g -> newest_generation l g' -> g = g'.
Proof. intros [[m H] U] [[m' H'] U']. apply U' in H. apply U in H'. lia. Qed.

Lemma newest_generation_snoc l g g0 m :
  newest_generation l g0 -> newest_generation (l ++ [(g, m)]) (Z.max g g0).
Proof.
  intros [[m0 H0] U]. split.
  - destruct (Z.max_spec g g0) as [[_ ->]|[_ ->]]; [exists m0|exists m]; set_solver.
  - intros g' m' [H|H]%elem_of_app; [apply U in H; lia|].
    apply list_elem_of_singleton in H as [= -> ->]. lia.
Qed.

Lemma epoch_all_spec l :
  l <> [] ->
  let e := epoch_all new_epoch l in
  initialized_ e = true /\ newest_generation l (connectionGeneration_ e) /\
  (forming_ e = false <-> (connectionGeneration_ e, true) ∈ l).
Proof.
  induction l as [|[g m] l IH] using rev_ind; [done|]. intros _. cbn zeta.
  unfold epoch_all in *. rewrite foldl_app. cbn [foldl].
  destruct (decide (l = [])) as [-> | Hl].
  - cbn. unfold newest_generation. split; [done|]. split; [split|].
    + exists m. set_solver.
    + intros g' m' [= -> ->]%list_elem_of_singleton. lia.
    + rewrite list_elem_of_singleton. destruct m; naive_solver.
  - destruct (IH Hl) as (Hi & Hn & Hf). clear IH. set (e := foldl _ new_epoch l) in *. clearbody e.
    pose proof (newest_generation_snoc l g _ m Hn) as Hn'.
    assert (forall g' m', (g', m') ∈ l -> g' <= connectionGeneration_ e) as U by apply Hn.
    unfold EpochObserve. rewrite Hi. cbn [negb fst snd]. rewrite elem_of_app, list_elem_of_singleton.
    destruct (g <? connectionGeneration_ e) eqn:E1; bool_hyps; [|destruct (connectionGeneration_ e <? g) eqn:E2; bool_hyps].
    + cbn [fst]. rewrite Z.max_r in Hn' by lia. split; [done|]. split; [done|]. rewrite Hf. split; [by left|].
      intros [?|[= ? _]]; [done|lia].
    + cbn. rewrite Z.max_l in Hn' by lia. split; [done|]. split; [done|]. destruct m; cbn.
      * split; [by right|done].
      * split; [done|]. intros [H%U|[=]]. lia.
    + assert (g = connectionGeneration_ e) as -> by lia. rewrite Z.max_id in Hn'.
      destruct (forming_ e) eqn:Ef, m; cbn; rewrite ?Ef; (split; [done|]; split; [done|]); naive_solver.
Qed.

Lemma EpochObserve_resets e g m :
  initialized_ e = true ->
  (verdictClockReset (EpochObserve e g m).2 = true <-> connectionGeneration_ e < g) /\
  (trafficClockReset (EpochObserve e g m).2 = true <->
   connectionGeneration_ e < g \/
   (connectionGeneration_ e = g /\ FastVerdictEligible e = false /\ FastVerdictEligible (EpochObserve e g m).1 = true)).
Proof.
  intros Hi. unfold EpochObserve, FastVerdictEligible. rewrite Hi. cbn [negb].
  destruct (Z.ltb_spec g (connectionGeneration_ e)); cbn; rewrite ?Hi; cbn.
  { split; [split; [done|lia]|]. split; [done|]. intros [?|(_ & E1 & E2)]; [lia|congruence]. }
  destruct (Z.ltb_spec (connectionGeneration_ e) g); cbn; [naive_solver|].
  destruct (forming_ e) eqn:Ef, m; cbn; rewrite ?Hi, ?Ef; cbn; naive_solver lia.
Qed.

(** * The counters *)

(** A packet back in this reading restarts the clock and the count of packets out. *)
Lemma TrafficObserve_inbound t o i now :
  lastInbound_ t < i -> lastOutbound_ t <= o ->
  let t' := TrafficObserve t o i now in
  lastInboundMillis_ t' = now /\ lastInbound_ t' = i /\ tracker_outboundSinceInbound t' = 0.
Proof.
  intros Hi Ho. unfold TrafficObserve, tracker_outboundSinceInbound.
  rewrite (proj2 (Z.ltb_lt _ _) Hi). cbn.
  destruct (Z.ltb_spec (lastOutbound_ t) o); cbn; cases_if; split_and!; lia.
Qed.

(** Without one, the clock stays and the count is of the packets out since. *)
Lemma TrafficObserve_silent t o i now :
  i <= lastInbound_ t ->
  let t' := TrafficObserve t o i now in
  lastInboundMillis_ t' = lastInboundMillis_ t /\
  tracker_outboundSinceInbound t' = Z.max 0 (Z.max (lastOutbound_ t) o - outboundAtLastInbound_ t).
Proof.
  intros Hi. unfold TrafficObserve, tracker_outboundSinceInbound.
  rewrite (proj2 (Z.ltb_ge _ _) Hi). destruct (Z.ltb_spec (lastOutbound_ t) o); cbn; cases_if; split; lia.
Qed.

(** * Properties *)

(** C33: no verdict against signals that show a tunnel carrying, nor against one the failsafe
    has no business judging: a verdict means that, by the signals it was given, this
    machine is pointed at a tunnel and no packet came back within the fast window; one about traffic, besides, means the account is in
    balance, the SDK is answering and no exit is proven, so an account out of
    balance is stopped only for a hung SDK. *)
Theorem failsafe_fires_only_on_dead_tunnel settings s now r :
  reason (Evaluate s now settings) = r -> r <> ReasonNone ->
  judged s /\ ~ carrying settings s now /\
  (r = SdkUnresponsive /\ sdkUnresponsiveMillis settings <= sample_age s now \/
   (r = NoInbound \/ r = NoExit) /\ outOfBalance s = false /\ provenCount s = 0 /\
   sample_age s now < sdkUnresponsiveMillis settings /\
   (r = NoInbound -> providerWindowReady s = true /\ deadFastOutboundPackets settings <= outboundSinceInbound s /\
      deadFastMillis settings <= proven_age s now) /\
   (r = NoExit -> 0 <= lastSampleMillis s /\ deadSlowMillis settings <= proven_age s now)).
Proof.
  intros E Hr. apply Evaluate_reason in E as (Hj & Hc & H); [|done]. split_and!; [done|done|].
  destruct r; [done|..]; unfold fast_applies, slow_applies in H; naive_solver.
Qed.

Lemma failsafe_fires_only_on_dead_tunnel_witness :
  let s := mkSignals true true 1000 0 true 0 1000 24000 1500 20 false in
  judged s /\ ~ carrying default_settings s 25000 /\
  (NoInbound = SdkUnresponsive /\ sdkUnresponsiveMillis default_settings <= sample_age s 25000 \/
   (NoInbound = NoInbound \/ NoInbound = NoExit) /\ outOfBalance s = false /\ provenCount s = 0 /\
   sample_age s 25000 < sdkUnresponsiveMillis default_settings /\
   (NoInbound = NoInbound -> providerWindowReady s = true /\
      deadFastOutboundPackets default_settings <= outboundSinceInbound s /\
      deadFastMillis default_settings <= proven_age s 25000) /\
   (NoInbound = NoExit -> 0 <= lastSampleMillis s /\ deadSlowMillis default_settings <= proven_age s 25000)).
Proof. intros s. apply (failsafe_fires_only_on_dead_tunnel default_settings s 25000 NoInbound); done. Defined.

(** A dead tunnel is stopped within a bounded time.  For an account in balance with
    no proven exit, once nothing has come back for the fast window and no exit has
    been proven for the slow one, there is a verdict, whether or not the SDK still
    answers; and an SDK that has not answered for its window is a verdict whatever
    the balance.  (The stamps are of this session: never, or since it began.) *)
Theorem dead_tunnel_is_stopped settings s now :
  judged s -> ~ carrying settings s now ->
  (lastProvenMillis s = -1 \/ upSinceMillis s <= lastProvenMillis s) ->
  sdkUnresponsiveMillis settings <= deadSlowMillis settings ->
  (sdkUnresponsiveMillis settings <= sample_age s now -> reason (Evaluate s now settings) = SdkUnresponsive) /\
  (outOfBalance s = false -> provenCount s = 0 -> deadSlowMillis settings <= proven_age s now ->
   reason (Evaluate s now settings) <> ReasonNone).
Proof.
  intros Hj Hc Hp Hu. split.
  - intros H. by apply Evaluate_reason.
  - intros Hb Hn Ha E. pose proof (Evaluate_cases settings s now) as H. rewrite E in H.
    assert (sample_age s now < sdkUnresponsiveMillis settings).
    { destruct (Z.lt_ge_cases (sample_age s now) (sdkUnresponsiveMillis settings)) as [?|Hl]; [done|].
      by destruct (H SdkUnresponsive). }
    assert (0 <= lastSampleMillis s).
    { unfold sample_age, proven_age, AgeSince in *. destruct (Z.ltb_spec (lastSampleMillis s) 0); [|done].
      destruct Hp as [Hp|Hp]; [rewrite Hp in Ha; cbn in Ha; lia|].
      destruct (lastProvenMillis s <? 0); lia. }
    destruct (decide (deadFastOutboundPackets settings <= outboundSinceInbound s /\ providerWindowReady s = true /\
      deadFastMillis settings <= inbound_age s now /\ deadFastMillis settings <= proven_age s now)) as [Hf|Hf].
    + apply (H NoInbound). unfold rules, fast_applies. naive_solver.
    + apply (H NoExit). unfold rules, fast_applies, slow_applies. naive_solver.
Qed.

Lemma dead_tunnel_is_stopped_witness :
  let s := mkSignals true true 1000 0 true 0 (-1) 90500 (-1) 0 false in
  (sdkUnresponsiveMillis default_settings <= sample_age s 91000 ->
   reason (Evaluate s 91000 default_settings) = SdkUnresponsive) /\
  (outOfBalance s = false -> provenCount s = 0 -> deadSlowMillis default_settings <= proven_age s 91000 ->
   reason (Evaluate s 91000 default_settings) <> ReasonNone).
Proof.
  intros s. apply dead_tunnel_is_stopped; [done|intros [H _]; cbv in H; congruence|by left|by vm_compute].
Defined.

(** The session is held out of balance exactly while the last refusal it read has
    not been followed by a grant: a grant is a readable status with no refusal and
    no permission result, under the refused generation or an older one, or under a
    newer one whose window admitted a provider.  A reading that cannot tell keeps
    the hold, a reset of the destination does not release it, and while it is held
    no traffic rule stops the session. *)
Theorem balance_hold_spec l settings s now :
  let h := observe_all new_hold l in
  (held_ h = true <-> exists g, refused_since l g) /\
  (held_ h = true -> outOfBalance s = held_ h ->
   reason (Evaluate s now settings) = ReasonNone \/ reason (Evaluate s now settings) = SdkUnresponsive).
Proof.
  intros h. split.
  - pose proof (observe_all_spec l) as H. cbn zeta in H. fold h in H. split.
    + intros Hh. exists (refusedGeneration_ h). by apply H.
    + intros [g Hg]. by apply H in Hg as [? _].
  - intros Hh Hs. pose proof (Evaluate_cases settings s now) as H.
    destruct (reason (Evaluate s now settings)); auto;
      destruct H as [(_ & _ & H) _]; unfold fast_applies, slow_applies in H; naive_solver congruence.
Qed.

(** After any sequence of window observations, late callbacks of retired windows
    included, the tracker's generation is the newest one seen, and the fast rule is
    eligible exactly when some observation of that generation had its minimum
    satisfied.  So readiness is one-way inside a generation. *)
Theorem epoch_tracker_spec l :
  l <> [] ->
  let e := epoch_all new_epoch l in
  newest_generation l (connectionGeneration_ e) /\
  (FastVerdictEligible e = true <-> (connectionGeneration_ e, true) ∈ l) /\
  (forall g m, trafficClockReset (EpochObserve e g m).2 = true ->
     connectionGeneration_ e < g \/ (connectionGeneration_ e = g /\ FastVerdictEligible e = false)).
Proof.
  intros Hl e. destruct (epoch_all_spec l Hl) as (Hi & Hn & Hf). fold e in Hi, Hn, Hf.
  split; [done|]. split.
  - unfold FastVerdictEligible. rewrite Hi, <- Hf. cbn. apply negb_true_iff.
  - intros g m H. apply EpochObserve_resets in H; [|done]. naive_solver.
Qed.

Lemma epoch_tracker_spec_witness :
  let l := [(1, false); (2, false); (1, true); (2, true); (2, false)] in
  let e := epoch_all new_epoch l in
  newest_generation l (connectionGeneration_ e) /\
  (FastVerdictEligible e = true <-> (connectionGeneration_ e, true) ∈ l) /\
  (forall g m, trafficClockReset (EpochObserve e g m).2 = true ->
     connectionGeneration_ e < g \/ (connectionGeneration_ e = g /\ FastVerdictEligible e = false)).
Proof. apply epoch_tracker_spec. discriminate. Defined.

(** The fast rule gives no notice once a packet has come back in the session: until
    the window has passed the carrying veto also keeps the countdown off, and the
    first evaluation after it stops the tunnel. *)
Theorem fast_teardown_unannounced settings s now :
  judged s -> fast_applies settings s -> 0 <= lastInboundMillis s ->
  sample_age s now < sdkUnresponsiveMillis settings -> deadFastMillis settings <= proven_age s now ->
  Evaluate s now settings =
  if now - lastInboundMillis s <? deadFastMillis settings then no_verdict else mkVerdict NoInbound false 0.
Proof.
  intros Hj Hf Hi Hs Hp. pose proof (inbound_age_seen s now Hi) as Ha.
  unfold Evaluate. rewrite (proj2 (judged_guard s) Hj). cbv zeta.
  fold (sample_age s now) (proven_age s now) (inbound_age s now).
  rewrite (proj2 (fast_guard settings s) Hf), Ha.
  rewrite (proj2 (Z.leb_le 0 _) Hi), (proj2 (Z.leb_gt _ _) Hs), (proj2 (Z.leb_le _ _) Hp). cbn [andb].
  destruct (Z.ltb_spec (now - lastInboundMillis s) (deadFastMillis settings)); [done|].
  by rewrite (proj2 (Z.leb_le _ _)) by done.
Qed.

(** With the default settings: silent until the window's last millisecond, then stopped. *)
Lemma fast_teardown_unannounced_witness :
  let s := mkSignals true true 1000 0 true 0 2000 40000 20000 50 false in
  Evaluate s 39999 default_settings = no_verdict /\ Evaluate s 40000 default_settings = mkVerdict NoInbound false 0.
Proof.
  intros s. split.
  - rewrite (fast_teardown_unannounced default_settings s 39999); done.
  - rewrite (fast_teardown_unannounced default_settings s 40000); done.
Defined.
