(* ===== verification/StopBudget.v ===== *)
(** What a stop may cost (StopBudget.h): the escalation ladder, the bounded wait on a
    teardown that might not return, the abandoned workers that may still hold the
    session's device, and the latches of how this process must leave. *)

From S2P Require Import Prelude.
From S2P Require Import CxxText.

(** * The budgets, in milliseconds *)

Definition kStopLockBudget : Z := 1000.
Definition kSdkTeardownBudget : Z := 6000.
Definition kServiceStopWaitHintMillis : Z := 12000.
Definition kForcedTeardownBudget : Z := 250.
Definition kBudgetPollInterval : Z := 50.
Definition kConsoleForceGrace : Z := 1500.
Definition kForcedStopExitCode : Z := 0xC000013A.
Definition kSelfRestartExitCode : Z := 0xE0555201.
Definition kSelfRestartGrace : Z := 1000.

(** * The ladder *)

Inductive ConsoleStopAction := Graceful | Force | Terminate.

Definition DecideConsoleStop (press : Z) : ConsoleStopAction :=
  if press <=? 1 then Graceful else
  if press =? 2 then Force else
  Terminate.

(** * The process's flags *)

(** A gate is named by a number; its [done] flag is in the store, where the worker
    publishes it and the sweep reads it. *)
Record Budget := mkBudget {
  g_forcedStop : bool;
  g_teardownAbandoned : bool;
  done : gmap nat bool;
  g_heldDevices : list nat;
  g_selfRestart : option (text -> bool);
  g_selfRestartPending : bool;
}.

Definition new_budget : Budget := mkBudget false false ∅ [] None false.

Definition set_done (b : Budget) (g : nat) (d : bool) : Budget :=
  mkBudget (g_forcedStop b) (g_teardownAbandoned b) (<[g := d]> (done b)) (g_heldDevices b)
    (g_selfRestart b) (g_selfRestartPending b).

Definition set_held (b : Budget) (l : list nat) : Budget :=
  mkBudget (g_forcedStop b) (g_teardownAbandoned b) (done b) l (g_selfRestart b) (g_selfRestartPending b).

Definition RequestForcedStop (b : Budget) : Budget :=
  mkBudget true (g_teardownAbandoned b) (done b) (g_heldDevices b) (g_selfRestart b) (g_selfRestartPending b).
Definition ForcedStopRequested (b : Budget) : bool := g_forcedStop b.

Definition NoteTeardownAbandoned (b : Budget) : Budget :=
  mkBudget (g_forcedStop b) true (done b) (g_heldDevices b) (g_selfRestart b) (g_selfRestartPending b).
Definition TeardownAbandoned (b : Budget) : bool := g_teardownAbandoned b.

Inductive AbandonHazard := ProcessExitOnly | HoldsSessionDevice.
#[export] Instance AbandonHazard_eq_dec : EqDecision AbandonHazard.
Proof. solve_decision. Defined.

(** A null gate is not registered. *)
Definition NoteSessionDeviceAbandoned (b : Budget) (gate : option nat) : Budget :=
  match gate with
  | None => b
  | Some g => set_held b (g_heldDevices b ++ [g])
  end.

(** The gate's flag as the sweep reads it, under the gate's lock. *)
Definition gate_done (b : Budget) (g : nat) : bool := default false (done b !! g).

Record AbandonedTeardownSweep := mkSweep { outstanding : nat; completed_late : nat }.

Definition SweepAbandonedTeardowns (b : Budget) : Budget * AbandonedTeardownSweep :=
  let before := length (g_heldDevices b) in
  let b := set_held b (List.filter (fun g => negb (gate_done b g)) (g_heldDevices b)) in
  let outstanding := length (g_heldDevices b) in
  (b, mkSweep outstanding (before - outstanding)).

Definition SetSelfRestartHandler (b : Budget) (handler : option (text -> bool)) : Budget :=
  mkBudget (g_forcedStop b) (g_teardownAbandoned b) (done b) (g_heldDevices b) handler (g_selfRestartPending b).
Definition SelfRestartPending (b : Budget) : bool := g_selfRestartPending b.

Definition RequestSelfRestart (b : Budget) (why : text) : Budget * bool :=
  match g_selfRestart b with
  | None => (b, false)
  | Some handler =>
      let restarting := handler why in
      let b := if restarting
               then mkBudget (g_forcedStop b) (g_teardownAbandoned b) (done b) (g_heldDevices b)
                      (g_selfRestart b) true
               else b in
      (b, restarting)
  end.

Definition ResetStopBudgetForTest (b : Budget) : Budget :=
  mkBudget false false (done b) [] (g_selfRestart b) false.

(** * The bounded wait *)

(** What one round of the wait reads, under the gate's lock: the flag, whether the
    operator has escalated, and the clock. *)
Record Round := mkRound { rd_done : bool; rd_forced : bool; rd_now : Z }.

Definition effective (budget : Z) (forced : bool) : Z :=
  if forced then Z.min budget kForcedTeardownBudget else budget.

(** When the condition variable's wait of a round ends at the latest. *)
Definition wake_at (budget start : Z) (r : Round) : Z :=
  Z.min (start + effective budget (rd_forced r)) (rd_now r + kBudgetPollInterval).

(** The loop: the round it ended in, and the flag as it stood there.  The lock is held
    from a round's reading of the flag to the reading after the loop, so the two are
    one. *)
Fixpoint WaitBounded (fuel : nat) (budget start : Z) (env : nat -> Round) (n : nat) : option (nat * bool) :=
  match fuel with
  | O => None
  | S fuel =>
      let r := env n in
      if rd_done r then Some (n, true) else
      if start + effective budget (rd_forced r) <=? rd_now r then Some (n, rd_done r) else
      WaitBounded fuel budget start env (S n)
  end.

(** After the wait: what an abandonment records. *)
Definition EndBounded (b : Budget) (gate : nat) (hazard : AbandonHazard) (d : bool) : Budget :=
  if d then b else
  let b := NoteTeardownAbandoned b in
  if bool_decide (hazard = HoldsSessionDevice) then NoteSessionDeviceAbandoned b (Some gate) else b.

Definition RunBounded (fuel : nat) (budget start : Z) (env : nat -> Round) (hazard : AbandonHazard)
    (gate : nat) (b : Budget) : option (bool * Budget) :=
  match WaitBounded fuel budget start env 0 with
  | None => None
  | Some (_, d) => Some (d, EndBounded b gate hazard d)
  end.

(** ** The wait ends *)

Section Wait.
Context (budget start : Z) (env : nat -> Round).

(** The round ends the wait. *)
Definition ends (r : Round) : bool := rd_done r || (start + effective budget (rd_forced r) <=? rd_now r).

Lemma WaitBounded_skip k : forall fuel n,
  (forall i, (n <= i < n + k)%nat -> ends (env i) = false) ->
  WaitBounded (k + fuel) budget start env n = WaitBounded fuel budget start env (n + k).
Proof.
  induction k as [|k IH]; intros fuel n H; [by rewrite Nat.add_0_r|].
  cbn [Nat.add WaitBounded]. pose proof (H n ltac:(lia)) as Hn. unfold ends in Hn. bool_hyps.
  destruct (rd_done (env n)); [done|].
  rewrite (proj2 (Z.leb_gt _ _)) by done. rewrite IH by (intros; apply H; lia). f_equal. lia.
Qed.

Lemma WaitBounded_first k fuel :
  (forall i, (i < k)%nat -> ends (env i) = false) -> ends (env k) = true -> (k < fuel)%nat ->
  WaitBounded fuel budget start env 0 = Some (k, rd_done (env k)).
Proof.
  intros H Hk Hf. replace fuel with (k + S (fuel - S k))%nat by lia.
  rewrite WaitBounded_skip by (intros; apply H; lia). cbn [Nat.add WaitBounded]. unfold ends in Hk.
  destruct (rd_done (env k)) eqn:E; [done|]. cbn in Hk. by rewrite Hk.
Qed.

(** The first round that ends the wait, among those up to [n]. *)
Lemma first_end n : ends (env n) = true ->
  exists k, (k <= n)%nat /\ ends (env k) = true /\ forall i, (i < k)%nat -> ends (env i) = false.
Proof.
  intros Hn. destruct (list_find (fun i => ends (env i) = true) (seq 0 (S n))) as [[k x]|] eqn:E.
  - apply list_find_Some in E as (Hl & Hx & Hall). apply lookup_seq in Hl as [-> Hk]. rewrite Nat.add_0_l in Hx.
    exists k. split_and!; [lia|done|]. intros i Hi. apply not_true_is_false.
    apply (Hall i i); [apply lookup_seq; lia|done].
  - apply list_find_None in E. rewrite Forall_forall in E. exfalso. apply (E n); [|done].
    apply elem_of_seq. lia.
Qed.

Lemma WaitBounded_sound fuel k d :
  WaitBounded fuel budget start env 0 = Some (k, d) ->
  d = rd_done (env k) /\ (d = false -> start + effective budget (rd_forced (env k)) <= rd_now (env k)) /\
  forall i, (i < k)%nat -> ends (env i) = false.
Proof.
  assert (forall fuel n, WaitBounded fuel budget start env n = Some (k, d) -> 
    d = rd_done (env k) /\ (d = false -> start + effective budget (rd_forced (env k)) <= rd_now (env k)) /\
    forall i, (n <= i < k)%nat -> ends (env i) = false) as G.
  { induction fuel0 as [|f IH]; intros n; cbn; [done|].
    destruct (rd_done (env n)) eqn:E.
    - intros [= <- <-]. rewrite E. split_and!; [done|done|]. lia.
    - destruct (_ <=? _) eqn:El; bool_hyps.
      + intros [= <- <-]. rewrite E. split_and!; [done|done|]. lia.
      + intros H. destruct (IH _ H) as (A & B & C). split_and!; [done|done|]. intros i Hi.
        destruct (decide (i = n)) as [->|]; [|apply C; lia]. unfold ends. rewrite E. by apply Z.leb_gt. }
  intros H. destruct (G _ _ H) as (A & B & C). split_and!; [done|done|]. intros i Hi. apply C. lia.
Qed.
End Wait.

(** * The process as a machine

    A wait, its worker, the sweeps and the operator run on threads of their own; each
    step is one of them between two of its locked regions. *)

Inductive Phase :=
  | Waiting (hazard : AbandonHazard)
  | Expired (hazard : AbandonHazard)
  | Noted (hazard : AbandonHazard)
  | Returned (hazard : AbandonHazard) (abandoned : bool).

Record Proc := mkProc {
  bud : Budget;
  phase : gmap nat Phase;
  registrations : nat;
  reported_late : nat;
}.

Definition new_proc : Proc := mkProc new_budget ∅ 0 0.

Definition with_bud (p : Proc) (b : Budget) : Proc := mkProc b (phase p) (registrations p) (reported_late p).
Definition with_phase (p : Proc) (g : nat) (x : Phase) : Proc :=
  mkProc (bud p) (<[g := x]> (phase p)) (registrations p) (reported_late p).

Inductive step : Proc -> Proc -> Prop :=
| step_start p g hz :
    phase p !! g = None -> step p (with_phase (with_bud p (set_done (bud p) g false)) g (Waiting hz))
| step_worker p g :
    done (bud p) !! g = Some false -> step p (with_bud p (set_done (bud p) g true))
| step_finished p g hz :
    phase p !! g = Some (Waiting hz) -> done (bud p) !! g = Some true ->
    step p (with_phase p g (Returned hz false))
| step_expired p g hz :
    phase p !! g = Some (Waiting hz) -> done (bud p) !! g = Some false ->
    step p (with_phase p g (Expired hz))
| step_noted p g hz :
    phase p !! g = Some (Expired hz) ->
    step p (with_phase (with_bud p (NoteTeardownAbandoned (bud p))) g (Noted hz))
| step_registered p g :
    phase p !! g = Some (Noted HoldsSessionDevice) ->
    step p (mkProc (NoteSessionDeviceAbandoned (bud p) (Some g))
              (<[g := Returned HoldsSessionDevice true]> (phase p)) (S (registrations p)) (reported_late p))
| step_unregistered p g :
    phase p !! g = Some (Noted ProcessExitOnly) -> step p (with_phase p g (Returned ProcessExitOnly true))
| step_sweep p :
    step p (mkProc (SweepAbandonedTeardowns (bud p)).1 (phase p) (registrations p)
              (reported_late p + completed_late (SweepAbandonedTeardowns (bud p)).2))
| step_force p : step p (with_bud p (RequestForcedStop (bud p)))
| step_handler p h : step p (with_bud p (SetSelfRestartHandler (bud p) h))
| step_restart p why : step p (with_bud p (RequestSelfRestart (bud p) why).1).

(** The worker of [g] was abandoned with the session's device. *)
Definition abandoned_holder (p : Proc) (g : nat) : Prop :=
  phase p !! g = Some (Returned HoldsSessionDevice true).

Record proc_inv (p : Proc) : Prop := {
  inv_known : forall g, is_Some (phase p !! g) -> is_Some (done (bud p) !! g);
  inv_nodup : NoDup (g_heldDevices (bud p));
  inv_held : forall g, g ∈ g_heldDevices (bud p) -> abandoned_holder p g;
  inv_kept : forall g, abandoned_holder p g -> done (bud p) !! g = Some false -> g ∈ g_heldDevices (bud p);
  inv_latch : forall g hz, phase p !! g = Some (Noted hz) \/ phase p !! g = Some (Returned hz true) ->
    g_teardownAbandoned (bud p) = true;
  inv_count : registrations p = (reported_late p + length (g_heldDevices (bud p)))%nat;
}.

Lemma new_proc_inv : proc_inv new_proc.
Proof.
  split; unfold abandoned_holder, new_proc; cbn [phase bud registrations reported_late]; try done.
  - intros g [x H]. by rewrite lookup_empty in H.
  - constructor.
  - intros g H. by apply elem_of_nil in H.
  - intros g hz [H|H]; by rewrite lookup_empty in H.
Qed.

Lemma filter_length_le {A} (f : A -> bool) l : (length (List.filter f l) <= length l)%nat.
Proof. induction l as [|x l IH]; cbn; [lia|]. destruct (f x); cbn; lia. Qed.

Lemma elem_of_list_filter_bool {A} (f : A -> bool) l x : x ∈ List.filter f l <-> x ∈ l /\ f x = true.
Proof. rewrite !list_elem_of_In. apply filter_In. Qed.

Lemma RequestSelfRestart_keeps b why :
  let b' := (RequestSelfRestart b why).1 in
  done b' = done b /\ g_heldDevices b' = g_heldDevices b /\ g_teardownAbandoned b' = g_teardownAbandoned b /\
  g_forcedStop b' = g_forcedStop b /\ (g_selfRestartPending b = true -> g_selfRestartPending b' = true).
Proof. unfold RequestSelfRestart. destruct (g_selfRestart b) as [h|]; [destruct (h why)|]; cbn; done. Qed.

Lemma gate_done_false b g :
  is_Some (done b !! g) -> gate_done b g = false <-> done b !! g = Some false.
Proof. intros [d H]. unfold gate_done. rewrite H. cbn. naive_solver. Qed.

(** A step that leaves the flags, the list and the abandoned waits as they are. *)
Lemma proc_inv_same p q :
  proc_inv p ->
  g_heldDevices (bud q) = g_heldDevices (bud p) -> g_teardownAbandoned (bud q) = g_teardownAbandoned (bud p) ->
  registrations q = registrations p -> reported_late q = reported_late p ->
  (forall g, is_Some (phase q !! g) -> is_Some (done (bud q) !! g)) ->
  (forall g, abandoned_holder q g <-> abandoned_holder p g) ->
  (forall g, abandoned_holder q g -> done (bud q) !! g = Some false -> done (bud p) !! g = Some false) ->
  (forall g hz, phase q !! g = Some (Noted hz) \/ phase q !! g = Some (Returned hz true) ->
     g_teardownAbandoned (bud p) = true) ->
  proc_inv q.
Proof.
  intros [H1 H2 H3 H4 H5 H6] E1 E2 E3 E4 K1 K2 K3 K4. split; rewrite ?E1, ?E2, ?E3, ?E4; try done.
  - intros g Hg. by apply K2, H3.
  - intros g Hg Hd. apply H4; [by apply K2|by apply K3].
Qed.

Ltac phases :=
  unfold abandoned_holder in *; cbn in *;
  repeat match goal with
    | H : context [<[?g := _]> _ !! ?g'] |- _ => destruct (decide (g = g')) as [<-|];
        [rewrite ?lookup_insert_eq in *|rewrite ?lookup_insert_ne in * by done]
    | |- context [<[?g := _]> _ !! ?g'] => destruct (decide (g = g')) as [<-|];
        [rewrite ?lookup_insert_eq in *|rewrite ?lookup_insert_ne in * by done]
    end.

Lemma step_inv p q : proc_inv p -> step p q -> proc_inv q.
Proof.
  intros I S. destruct S.
  - apply (proc_inv_same p); [done|done..| | | |]; destruct I; intros g'; phases; naive_solver.
  - apply (proc_inv_same p); [done|done..| | | |]; destruct I; intros g'; phases; naive_solver.
  - apply (proc_inv_same p); [done|done..| | | |]; destruct I; intros g'; phases; naive_solver.
  - apply (proc_inv_same p); [done|done..| | | |]; destruct I; intros g'; phases; naive_solver.
  - destruct I as [H1 H2 H3 H4 H5 H6]. split; cbn; try done; intros g'; phases; naive_solver.
  - destruct I as [H1 H2 H3 H4 H5 H6]. split; cbn.
    + intros g'. phases; eauto.
    + apply NoDup_app. split_and!; [done| |apply NoDup_singleton].
      intros x Hx ->%list_elem_of_singleton. apply H3 in Hx. unfold abandoned_holder in Hx. congruence.
    + intros g' [Hg|Hg]%elem_of_app; phases; [done|by apply H3|done|].
      apply list_elem_of_singleton in Hg. congruence.
    + intros g'. phases; intros; apply elem_of_app; [right; by apply list_elem_of_singleton|left; auto].
    + intros g' hz _. eapply (H5 g). by left.
    + rewrite length_app, H6. cbn. lia.
  - apply (proc_inv_same p); [done|done..| | | |]; destruct I; intros g'; phases; naive_solver.
  - destruct I as [H1 H2 H3 H4 H5 H6]. split; cbn; try done.
    + apply NoDup_ListNoDup, List.NoDup_filter, NoDup_ListNoDup. done.
    + intros g [Hg _]%elem_of_list_filter_bool. by apply H3.
    + intros g Hg Hd. apply elem_of_list_filter_bool. split; [by apply H4|].
      unfold gate_done. by rewrite Hd.
    + pose proof (filter_length_le (fun g => negb (gate_done (bud p) g)) (g_heldDevices (bud p))). lia.
  - apply (proc_inv_same p); [done|done..| | | |]; destruct I; intros g'; phases; naive_solver.
  - apply (proc_inv_same p); [done|done..| | | |]; destruct I; intros g'; phases; naive_solver.
  - destruct (RequestSelfRestart_keeps (bud p) why) as (E1 & E2 & E3 & _).
    destruct I as [H1 H2 H3 H4 H5 H6]. split; cbn [bud with_bud phase registrations reported_late];
      rewrite ?E1, ?E2, ?E3; done.
Qed.

(** * Properties *)

(** The question a start asks is answered about the present.  In every state the
    service can reach, whatever the interleaving of waits, workers, sweeps and the
    operator, a sweep counts exactly the abandoned workers that hold the session's
    device and have not finished: none is lost, none that finished still refuses a
    start, and a worker that holds no device never does; each abandoned holder is
    either outstanding or has been reported late exactly once. *)
Theorem sweep_counts_held_devices p :
  star step new_proc p ->
  let '(b, sweep) := SweepAbandonedTeardowns (bud p) in
  NoDup (g_heldDevices b) /\ outstanding sweep = length (g_heldDevices b) /\
  (forall g, g ∈ g_heldDevices b <-> abandoned_holder p g /\ done (bud p) !! g = Some false) /\
  (outstanding sweep = 0%nat <-> forall g, abandoned_holder p g -> done (bud p) !! g = Some true) /\
  registrations p = (reported_late p + completed_late sweep + outstanding sweep)%nat.
Proof.
  intros S. apply (star_invariant step proc_inv) in S; [|apply step_inv|apply new_proc_inv].
  destruct S as [H1 H2 H3 H4 H5 H6]. unfold SweepAbandonedTeardowns.
  set (l := List.filter _ _). cbn [set_held g_heldDevices outstanding completed_late].
  assert (forall g, g ∈ l <-> abandoned_holder p g /\ done (bud p) !! g = Some false) as Hl.
  { intros g. unfold l. rewrite elem_of_list_filter_bool, negb_true_iff. split.
    - intros [Hg Hd]. pose proof (H3 g Hg) as Ha. split; [done|]. apply gate_done_false; [|done].
      apply H1. unfold abandoned_holder in Ha. by rewrite Ha.
    - intros [Ha Hd]. split; [by apply H4|]. unfold gate_done. by rewrite Hd. }
  split; [|split; [done|split; [done|split]]].
  - by apply NoDup_ListNoDup, List.NoDup_filter, NoDup_ListNoDup.
  - rewrite length_zero_iff_nil. split.
    + intros E g Ha. assert (is_Some (done (bud p) !! g)) as [[] Hd].
      { apply H1. unfold abandoned_holder in Ha. by rewrite Ha. }
      * done.
      * assert (g ∈ l) as Hin by (by apply Hl). rewrite E in Hin. by apply elem_of_nil in Hin.
    + intros H. apply elem_of_nil_inv. intros g [Ha Hd]%Hl. apply H in Ha. congruence.
  - pose proof (filter_length_le (fun g => negb (gate_done (bud p) g)) (g_heldDevices (bud p))). fold l in H. lia.
Qed.

(** A service that has abandoned one teardown which still runs. *)
Definition stuck_proc : Proc :=
  mkProc (mkBudget false true {[0%nat := false]} [0%nat] None false)
    {[0%nat := Returned HoldsSessionDevice true]} 1 0.

Lemma stuck_reachable : star step new_proc stuck_proc.
Proof.
  eapply star_step; [apply (step_start _ 0 HoldsSessionDevice); reflexivity|].
  eapply star_step; [apply (step_expired _ 0 HoldsSessionDevice); reflexivity|].
  eapply star_step; [apply (step_noted _ 0 HoldsSessionDevice); reflexivity|].
  eapply star_step; [apply (step_registered _ 0); reflexivity|].
  apply star_refl.
Qed.

Lemma sweep_counts_held_devices_witness :
  outstanding (SweepAbandonedTeardowns (bud stuck_proc)).2 = 1%nat /\
  let '(b, sweep) := SweepAbandonedTeardowns (bud stuck_proc) in
  NoDup (g_heldDevices b) /\ outstanding sweep = length (g_heldDevices b) /\
  (forall g, g ∈ g_heldDevices b <-> abandoned_holder stuck_proc g /\ done (bud stuck_proc) !! g = Some false) /\
  (outstanding sweep = 0%nat <-> forall g, abandoned_holder stuck_proc g -> done (bud stuck_proc) !! g = Some true) /\
  registrations stuck_proc = (reported_late stuck_proc + completed_late sweep + outstanding sweep)%nat.
Proof. split; [reflexivity|]. apply (sweep_counts_held_devices stuck_proc). exact stuck_reachable. Defined.

(** How the process must leave is decided once.  An abandoned worker of any kind
    sets the latch before the wait that abandoned it returns, and no later step
    clears it, nor the operator's escalation, nor an accepted self-restart. *)
Theorem leaving_is_latched p q :
  star step new_proc p -> star step p q ->
  (forall g hz, phase p !! g = Some (Returned hz true) -> TeardownAbandoned (bud q) = true) /\
  (TeardownAbandoned (bud p) = true -> TeardownAbandoned (bud q) = true) /\
  (ForcedStopRequested (bud p) = true -> ForcedStopRequested (bud q) = true) /\
  (SelfRestartPending (bud p) = true -> SelfRestartPending (bud q) = true).
Proof.
  intros S T. apply (star_invariant step proc_inv) in S; [|apply step_inv|apply new_proc_inv].
  unfold TeardownAbandoned, ForcedStopRequested, SelfRestartPending.
  assert ((g_teardownAbandoned (bud p) = true -> g_teardownAbandoned (bud q) = true) /\
    (g_forcedStop (bud p) = true -> g_forcedStop (bud q) = true) /\
    (g_selfRestartPending (bud p) = true -> g_selfRestartPending (bud q) = true)) as (A & B & C).
  { clear S. induction T as [|p p' q S T (A & B & C)]; [done|]. split_and!; intros H; [apply A|apply B|apply C];
      destruct S; cbn; try done; pose proof (RequestSelfRestart_keeps (bud p) why); naive_solver congruence. }
  split_and!; [|done..]. intros g hz H. apply A. eapply (inv_latch p S g hz). by right.
Qed.

Lemma leaving_is_latched_witness :
  let q := with_bud stuck_proc (set_done (bud stuck_proc) 0 true) in
  (forall g hz, phase stuck_proc !! g = Some (Returned hz true) -> TeardownAbandoned (bud q) = true) /\
  (TeardownAbandoned (bud stuck_proc) = true -> TeardownAbandoned (bud q) = true) /\
  (ForcedStopRequested (bud stuck_proc) = true -> ForcedStopRequested (bud q) = true) /\
  (SelfRestartPending (bud stuck_proc) = true -> SelfRestartPending (bud q) = true).
Proof.
  apply (leaving_is_latched stuck_proc); [exact stuck_reachable|].
  eapply star_step; [apply (step_worker stuck_proc 0); reflexivity|apply star_refl].
Defined.

(** A bounded wait returns.  Once the clock of some round [n] is past the budget,
    the wait has ended by that round whatever the worker does; it reports finished
    exactly when the worker was; it never abandons before the budget in force has
    passed; and with each wake at most [late] after the time it was asked for, it
    ends at most that long after the budget, or, when the operator escalates before
    round [j], after the forced budget or the round that noticed. *)
Theorem bounded_wait_returns budget start late env n :
  0 <= late -> 0 <= budget -> rd_now (env 0%nat) <= start + late ->
  (forall i, rd_now (env (S i)) <= wake_at budget start (env i) + late) ->
  start + budget <= rd_now (env n) ->
  exists k d, (k <= n)%nat /\
    (forall fuel, (n < fuel)%nat -> WaitBounded fuel budget start env 0 = Some (k, d)) /\
    d = rd_done (env k) /\
    (d = false -> start + effective budget (rd_forced (env k)) <= rd_now (env k)) /\
    rd_now (env k) <= start + budget + late /\
    (forall j, (j <= k)%nat -> (forall i, (j <= i)%nat -> rd_forced (env i) = true) ->
       rd_now (env k) <= Z.max (start + kForcedTeardownBudget) (rd_now (env j)) + late).
Proof.
  intros Hl Hb H0 Hw Hn.
  assert (forall f, effective budget f <= budget) as He by (intros []; unfold effective; lia).
  assert (ends budget start (env n) = true) as En.
  { unfold ends. rewrite (proj2 (Z.leb_le _ _)); [apply orb_true_r|]. specialize (He (rd_forced (env n))). lia. }
  destruct (first_end budget start env n En) as (k & Hk & Ek & Hfirst).
  exists k, (rd_done (env k)). split; [done|]. split.
  { intros fuel Hf. apply WaitBounded_first; [done|done|lia]. }
  split; [done|]. split.
  { intros Hd. unfold ends in Ek. rewrite Hd in Ek. cbn in Ek. by apply Z.leb_le. }
  split.
  - destruct k as [|k]; [lia|]. specialize (Hw k). unfold wake_at in Hw. specialize (He (rd_forced (env k))). lia.
  - intros j Hj Hforced. destruct (decide (j = k)) as [->|]; [lia|].
    destruct k as [|k]; [lia|]. specialize (Hw k). unfold wake_at, effective in Hw.
    rewrite Hforced in Hw by lia. lia.
Qed.

Lemma bounded_wait_returns_witness :
  let env := fun i : nat => mkRound false false (Z.min 6100 (100 + 50 * Z.of_nat i)) in
  exists k d, (k <= 120)%nat /\
    (forall fuel, (120 < fuel)%nat -> WaitBounded fuel kSdkTeardownBudget 100 env 0 = Some (k, d)) /\
    d = rd_done (env k) /\
    (d = false -> 100 + effective kSdkTeardownBudget (rd_forced (env k)) <= rd_now (env k)) /\
    rd_now (env k) <= 100 + kSdkTeardownBudget + 0 /\
    (forall j, (j <= k)%nat -> (forall i, (j <= i)%nat -> rd_forced (env i) = true) ->
       rd_now (env k) <= Z.max (100 + kForcedTeardownBudget) (rd_now (env j)) + 0).
Proof.
  intros env. apply (bounded_wait_returns kSdkTeardownBudget 100 0 env 120).
  - lia.
  - vm_compute. congruence.
  - vm_compute. congruence.
  - intros i. unfold wake_at, effective, env, kSdkTeardownBudget, kForcedTeardownBudget, kBudgetPollInterval.
    cbn [rd_now rd_forced]. lia.
  - vm_compute. congruence.
Defined.
