(* ===== verification/NetworkNotify.v ===== *)
(** "The network moved", told to a device at most once per burst
    (NetworkChangeNotify.h): the coalescer, the sampler's sleep, the freeze bars, the
    filter of egress readings, and the notifier's thread with its sinks. *)

From S2P Require Import Prelude.
From S2P Require Import CxxText.

(** * The coalescer *)

Record NetworkNotifySettings := mkNotifySettings { windowMillis : Z }.
Definition default_notify_settings : NetworkNotifySettings := mkNotifySettings 750.

Record NotifyCoalescer := mkCoalescer {
  windowMillis_ : Z; pending_ : bool; deadlineMillis_ : Z; coalesced_ : Z; lastBurstSize_ : Z }.

Definition new_coalescer (settings : NetworkNotifySettings) : NotifyCoalescer :=
  mkCoalescer (windowMillis settings) false 0 0 0.

Definition CoalescerObserve (c : NotifyCoalescer) (now : Z) : NotifyCoalescer :=
  let c := mkCoalescer (windowMillis_ c) (pending_ c) (deadlineMillis_ c) (coalesced_ c + 1) (lastBurstSize_ c) in
  if pending_ c then c
  else mkCoalescer (windowMillis_ c) true (now + windowMillis_ c) (coalesced_ c) (lastBurstSize_ c).

Definition TakeDue (c : NotifyCoalescer) (now : Z) : NotifyCoalescer * bool :=
  if negb (pending_ c) || (now <? deadlineMillis_ c) then (c, false) else
  (mkCoalescer (windowMillis_ c) false (deadlineMillis_ c) 0 (coalesced_ c), true).

(** * The sampler's sleep *)

Record SamplerSleep := mkSleep { waitMillis : Z; networkPending : bool; qualityPending : bool }.

Definition PlanSamplerSleep (now nextSample : Z) (network quality : NotifyCoalescer) : SamplerSleep :=
  let wait := nextSample - now in
  let wait := if pending_ network && (deadlineMillis_ network - now <? wait)
              then deadlineMillis_ network - now else wait in
  let wait := if pending_ quality && (deadlineMillis_ quality - now <? wait)
              then deadlineMillis_ quality - now else wait in
  mkSleep wait (pending_ network) (pending_ quality).

Definition SamplerSleepInterrupted (plan : SamplerSleep) (network quality : NotifyCoalescer) : bool :=
  (negb (networkPending plan) && pending_ network) || (negb (qualityPending plan) && pending_ quality).

(** * A freeze *)

Record FreezeResponse := mkFreeze { rebase : bool; freeze_networkChanged : bool }.

Definition FreezeResponseFor (tickGap frozen networkChange : Z) : FreezeResponse :=
  let r := frozen <=? tickGap in
  mkFreeze r (r && (networkChange <=? tickGap)).

(** * Egress readings *)

(** An address is its 16 bytes. *)
Record EgressFamilySignature := mkFamily {
  ifIndex : Z; usable : bool; source : list Z; network : list Z; gateway : list Z }.
Record EgressSignature := mkSignature { v4 : EgressFamilySignature; v6 : EgressFamilySignature }.
Record EgressChange := mkChange { change_network : bool; change_binding : bool }.
Record EgressChangeFilter := mkFilter { last_ : EgressSignature; seeded_ : bool }.

Definition empty_family : EgressFamilySignature :=
  mkFamily 0 false (replicate 16 0) (replicate 16 0) (replicate 16 0).
Definition new_filter : EgressChangeFilter := mkFilter (mkSignature empty_family empty_family) false.

Definition NetworkMoved (before after : EgressFamilySignature) : bool :=
  negb (ifIndex before =? ifIndex after) || negb (bool_decide (usable before = usable after)) ||
  negb (bool_decide (network before = network after)) || negb (bool_decide (gateway before = gateway after)).

Definition BindingMoved (before after : EgressFamilySignature) : bool :=
  negb (ifIndex before =? ifIndex after) || negb (bool_decide (source before = source after)).

Definition Seed (f : EgressChangeFilter) (signature : EgressSignature) : EgressChangeFilter :=
  mkFilter signature true.

Definition FilterObserve (f : EgressChangeFilter) (signature : EgressSignature) :
    EgressChangeFilter * EgressChange :=
  let change :=
    if negb (seeded_ f) then mkChange true true
    else mkChange
      (NetworkMoved (v4 (last_ f)) (v4 signature) || NetworkMoved (v6 (last_ f)) (v6 signature))
      (BindingMoved (v4 (last_ f)) (v4 signature) || BindingMoved (v6 (last_ f)) (v6 signature)) in
  (Seed f signature, change).

(** * The notifier *)

Inductive Call := NetworkChanged | NetworkQualityChanged.
#[export] Instance Call_eq_dec : EqDecision Call.
Proof. solve_decision. Defined.

(** Where the notifier's thread is.  Asleep carries the time its sleep ends at the
    latest, if it has one; Calling what was due, outside the lock. *)
Inductive Thread :=
  | Checking
  | Asleep (until : option Z)
  | Calling (networkDue qualityDue : bool)
  | Exited.

(** The shared block, the thread, the clock, the wakes still to be sent (each sink and
    the destructor wake the thread after they have let go of the lock), the calls
    made, and how many bursts of each kind the thread has taken. *)
Record Channel := mkChannel {
  cancelled : bool;
  chan_network : NotifyCoalescer;
  chan_quality : NotifyCoalescer;
  thread : Thread;
  clock : Z;
  to_wake : nat;
  calls : list Call;
  network_bursts : nat;
  quality_bursts : nat;
  both_bursts : nat;
}.

Definition new_channel (settings : NetworkNotifySettings) (now : Z) : Channel :=
  mkChannel false (new_coalescer settings) (new_coalescer settings) Checking now 0 [] 0 0 0.

(** A sink's locked region: a cancelled channel records nothing and wakes nobody. *)
Definition sink_network (c : Channel) : Channel :=
  if cancelled c then c else
  mkChannel (cancelled c) (CoalescerObserve (chan_network c) (clock c)) (chan_quality c) (thread c) (clock c)
    (S (to_wake c)) (calls c) (network_bursts c) (quality_bursts c) (both_bursts c).

Definition sink_quality (c : Channel) : Channel :=
  if cancelled c then c else
  mkChannel (cancelled c) (chan_network c) (CoalescerObserve (chan_quality c) (clock c)) (thread c) (clock c)
    (S (to_wake c)) (calls c) (network_bursts c) (quality_bursts c) (both_bursts c).

(** The destructor's locked region. *)
Definition cancel (c : Channel) : Channel :=
  mkChannel true (chan_network c) (chan_quality c) (thread c) (clock c) (S (to_wake c)) (calls c)
    (network_bursts c) (quality_bursts c) (both_bursts c).

Definition set_thread (c : Channel) (t : Thread) : Channel :=
  mkChannel (cancelled c) (chan_network c) (chan_quality c) t (clock c) (to_wake c) (calls c)
    (network_bursts c) (quality_bursts c) (both_bursts c).

(** [WakeThread]: the notification ends a sleep and does nothing to a thread that is
    not asleep. *)
Definition wake_thread (c : Channel) : Channel :=
  let c := mkChannel (cancelled c) (chan_network c) (chan_quality c) (thread c) (clock c) (pred (to_wake c))
             (calls c) (network_bursts c) (quality_bursts c) (both_bursts c) in
  match thread c with Asleep _ => set_thread c Checking | _ => c end.

(** The wait until the earliest window closes, as the thread computes it; -1 for none. *)
Definition wait_until (network quality : NotifyCoalescer) (now : Z) : Z :=
  let w := if pending_ network then deadlineMillis_ network - now else -1 in
  if pending_ quality then
    let untilQuality := deadlineMillis_ quality - now in
    if (w <? 0) || (untilQuality <? w) then untilQuality else w
  else w.

(** One pass of the thread under the lock: it ends, takes what is due, or sleeps. *)
Definition check_channel (c : Channel) : Channel :=
  if cancelled c then set_thread c Exited else
  let '(n, networkDue) := TakeDue (chan_network c) (clock c) in
  let '(q, qualityDue) := TakeDue (chan_quality c) (clock c) in
  let t := if networkDue || qualityDue then Calling networkDue qualityDue else
           let w := wait_until n q (clock c) in
           Asleep (if w <? 0 then None else Some (clock c + w)) in
  mkChannel (cancelled c) n q t (clock c) (to_wake c) (calls c)
    (network_bursts c + Nat.b2n networkDue) (quality_bursts c + Nat.b2n qualityDue)
    (both_bursts c + Nat.b2n (networkDue && qualityDue)).

(** The calls of a pass, outside the lock.  Both callbacks are set, and one that throws
    ends like one that returns. *)
Definition due_calls (networkDue qualityDue : bool) : list Call :=
  (if networkDue then [NetworkChanged] else []) ++
  (if qualityDue && negb networkDue then [NetworkQualityChanged] else []).

Definition make_calls (c : Channel) : Channel :=
  match thread c with
  | Calling nd qd =>
      mkChannel (cancelled c) (chan_network c) (chan_quality c) Checking (clock c) (to_wake c)
        (calls c ++ due_calls nd qd) (network_bursts c) (quality_bursts c) (both_bursts c)
  | _ => c
  end.

Inductive notify_step : Channel -> Channel -> Prop :=
| ns_tick c t : clock c <= t ->
    notify_step c (mkChannel (cancelled c) (chan_network c) (chan_quality c) (thread c) t (to_wake c) (calls c)
                     (network_bursts c) (quality_bursts c) (both_bursts c))
| ns_network c : notify_step c (sink_network c)
| ns_quality c : notify_step c (sink_quality c)
| ns_cancel c : notify_step c (cancel c)
| ns_wake c : (0 < to_wake c)%nat -> notify_step c (wake_thread c)
| ns_timeout c u : thread c = Asleep u -> notify_step c (set_thread c Checking)
| ns_check c : thread c = Checking -> notify_step c (check_channel c)
| ns_call c nd qd : thread c = Calling nd qd -> notify_step c (make_calls c).

(** * The coalescer's bursts *)

Inductive Event := EObserve (now : Z) | ETake (now : Z).

(** A run of the coalescer, with the sizes of the bursts it let through. *)
Definition coalesce (c : NotifyCoalescer) (e : Event) : NotifyCoalescer * list Z :=
  match e with
  | EObserve now => (CoalescerObserve c now, [])
  | ETake now => let '(c, due) := TakeDue c now in (c, if due then [lastBurstSize_ c] else [])
  end.

Fixpoint run_coalescer (c : NotifyCoalescer) (l : list Event) : NotifyCoalescer * list Z :=
  match l with
  | [] => (c, [])
  | e :: l => let '(c, b) := coalesce c e in let '(c, bs) := run_coalescer c l in (c, b ++ bs)
  end.

Definition observations (l : list Event) : Z :=
  Z.of_nat (length (List.filter (fun e => match e with EObserve _ => true | _ => false end) l)).

Definition sum (l : list Z) : Z := foldr Z.add 0 l.

Lemma sum_app a b : sum (a ++ b) = sum a + sum b.
Proof. unfold sum. induction a as [|x a IH]; cbn; [done|]. rewrite IH. lia. Qed.

Definition coalescer_ok (c : NotifyCoalescer) : Prop :=
  0 <= coalesced_ c /\ (pending_ c = true <-> 0 < coalesced_ c).

Lemma coalesce_step c e c' b :
  coalescer_ok c -> coalesce c e = (c', b) ->
  coalescer_ok c' /\ windowMillis_ c' = windowMillis_ c /\ Forall (fun n => 0 < n) b /\
  coalesced_ c + observations [e] = sum b + coalesced_ c'.
Proof.
  intros [H1 H2]. destruct e as [now|now]; cbn [coalesce].
  - intros [= <- <-]. unfold CoalescerObserve, coalescer_ok. destruct (pending_ c) eqn:E; cbn;
      rewrite ?E; split_and!; try done; try lia; naive_solver lia.
  - unfold TakeDue. destruct (_ || _) eqn:E; intros [= <- <-]; unfold observations, sum; cbn.
    + split; [by split|]. split; [done|]. split; [constructor|lia].
    + bool_hyps. assert (0 < coalesced_ c) by naive_solver. unfold coalescer_ok. cbn.
      split; [split; [lia|]; split; [done|lia]|]. split; [done|]. split; [by repeat constructor|lia].
Qed.

Lemma observations_cons e l : observations (e :: l) = observations [e] + observations l.
Proof. unfold observations. destruct e; cbn; lia. Qed.

Lemma run_coalescer_spec l : forall c,
  coalescer_ok c ->
  let '(c', bs) := run_coalescer c l in
  coalescer_ok c' /\ windowMillis_ c' = windowMillis_ c /\ Forall (fun n => 0 < n) bs /\
  coalesced_ c + observations l = sum bs + coalesced_ c'.
Proof.
  induction l as [|e l IH]; intros c Hc; cbn.
  - split_and!; try done; [apply Hc..|]. unfold observations. cbn. lia.
  - destruct (coalesce c e) as [c1 b] eqn:E. destruct (coalesce_step _ _ _ _ Hc E) as (Hc1 & W1 & F1 & S1).
    specialize (IH c1 Hc1). destruct (run_coalescer c1 l) as [c2 bs]. destruct IH as (Hc2 & W2 & F2 & S2).
    rewrite observations_cons, sum_app. split_and!; try done; [apply Hc2..|congruence| |lia].
    by apply Forall_app.
Qed.

(** The deadline of an open window is the one of its first observation. *)
Lemma observe_all_deadline c l :
  pending_ c = true ->
  let c' := foldl CoalescerObserve c l in pending_ c' = true /\ deadlineMillis_ c' = deadlineMillis_ c.
Proof.
  revert c. induction l as [|t l IH]; intros c Hc; cbn [foldl]; [done|].
  destruct (IH (CoalescerObserve c t)) as [E1 E2]; unfold CoalescerObserve in *; cbn [pending_] in *; rewrite Hc in *; done.
Qed.

Lemma plan_wait now nextSample network quality :
  waitMillis (PlanSamplerSleep now nextSample network quality) =
  let w := if pending_ network then Z.min (nextSample - now) (deadlineMillis_ network - now) else nextSample - now in
  if pending_ quality then Z.min w (deadlineMillis_ quality - now) else w.
Proof.
  unfold PlanSamplerSleep. cbn [waitMillis]. destruct (pending_ network), (pending_ quality); cbn [andb];
    cases_if; lia.
Qed.

(** * The notifier's invariant *)

Definition is_call (k x : Call) : bool :=
  match k, x with NetworkChanged, NetworkChanged | NetworkQualityChanged, NetworkQualityChanged => true | _, _ => false end.

Definition count_calls (k : Call) (l : list Call) : nat := length (List.filter (is_call k) l).

Lemma count_calls_app k a b : count_calls k (a ++ b) = (count_calls k a + count_calls k b)%nat.
Proof. unfold count_calls. by rewrite List.filter_app, length_app. Qed.

(** A sleep that ends by the close of the coalescer's open window. *)
Definition covers (u : option Z) (c : NotifyCoalescer) : Prop :=
  pending_ c = true -> exists d, u = Some d /\ d <= deadlineMillis_ c.

(** One burst in each window's time since [start]. *)
Definition paced (start now : Z) (c : NotifyCoalescer) (bursts : nat) : Prop :=
  if pending_ c then (Z.of_nat bursts + 1) * windowMillis_ c <= deadlineMillis_ c - start
  else Z.of_nat bursts * windowMillis_ c <= now - start.

Lemma paced_tick start now t c b : now <= t -> paced start now c b -> paced start t c b.
Proof. unfold paced. destruct (pending_ c); lia. Qed.

Lemma paced_observe start now c b : paced start now c b -> paced start now (CoalescerObserve c now) b.
Proof. unfold paced, CoalescerObserve. cbn. destruct (pending_ c) eqn:E; cbn; rewrite ?E; lia. Qed.

Lemma paced_take start now c b :
  paced start now c b ->
  paced start now (TakeDue c now).1 (b + Nat.b2n (TakeDue c now).2).
Proof.
  unfold paced, TakeDue. destruct (pending_ c) eqn:E; cbn.
  - destruct (Z.ltb_spec now (deadlineMillis_ c)); cbn; rewrite ?E; lia.
  - rewrite E. lia.
Qed.

(** What is still to be called of the bursts taken. *)
Definition owed (k : Call) (t : Thread) : nat :=
  match t with Calling nd qd => count_calls k (due_calls nd qd) | _ => 0 end.

Record channel_inv (window start : Z) (c : Channel) : Prop := {
  ci_window : windowMillis_ (chan_network c) = window /\ windowMillis_ (chan_quality c) = window;
  ci_network : network_bursts c = (count_calls NetworkChanged (calls c) + owed NetworkChanged (thread c))%nat;
  ci_quality : quality_bursts c =
    (count_calls NetworkQualityChanged (calls c) + owed NetworkQualityChanged (thread c) + both_bursts c)%nat;
  ci_sleep : forall u, thread c = Asleep u ->
    (0 < to_wake c)%nat \/ (cancelled c = false /\ covers u (chan_network c) /\ covers u (chan_quality c));
  ci_exit : thread c = Exited -> cancelled c = true;
  ci_paced : paced start (clock c) (chan_network c) (network_bursts c) /\
             paced start (clock c) (chan_quality c) (quality_bursts c);
}.

Lemma CoalescerObserve_window c t : windowMillis_ (CoalescerObserve c t) = windowMillis_ c.
Proof. unfold CoalescerObserve. cbn. by destruct (pending_ c). Qed.

Lemma TakeDue_window c t : windowMillis_ (TakeDue c t).1 = windowMillis_ c.
Proof. unfold TakeDue. by destruct (_ || _). Qed.

Lemma TakeDue_not_due c t :
  (TakeDue c t).2 = false -> (TakeDue c t).1 = c /\ (pending_ c = true -> t < deadlineMillis_ c).
Proof.
  unfold TakeDue. destruct (_ || _) eqn:E; cbn; [|done]. intros _. split; [done|]. intros Hp.
  rewrite Hp in E. cbn in E. by apply Z.ltb_lt.
Qed.

Lemma wait_until_covers n q t :
  (pending_ n = true -> t < deadlineMillis_ n) -> (pending_ q = true -> t < deadlineMillis_ q) ->
  let w := wait_until n q t in
  let u := if w <? 0 then None else Some (t + w) in
  covers u n /\ covers u q.
Proof.
  intros Hn Hq. unfold wait_until, covers.
  destruct (pending_ n), (pending_ q); try specialize (Hn eq_refl); try specialize (Hq eq_refl);
    cbv zeta; cases_if; repeat match goal with H : (_ || _) = true |- _ => apply orb_true_iff in H as [H|H] end;
    bool_hyps; split; intros; try done; try (exfalso; lia); eexists; (split; [reflexivity|lia]).
Qed.

Lemma check_channel_inv window start c :
  thread c = Checking -> channel_inv window start c -> channel_inv window start (check_channel c).
Proof.
  intros Ht [[W1 W2] HN HQ HS HE [P1 P2]]. rewrite Ht in *. cbn [owed] in *. unfold check_channel.
  destruct (cancelled c) eqn:Ec; [split; cbn; done|].
  pose proof (TakeDue_window (chan_network c) (clock c)) as Wn.
  pose proof (TakeDue_window (chan_quality c) (clock c)) as Wq.
  pose proof (paced_take _ _ _ _ P1) as Pn. pose proof (paced_take _ _ _ _ P2) as Pq.
  pose proof (TakeDue_not_due (chan_network c) (clock c)) as Nn.
  pose proof (TakeDue_not_due (chan_quality c) (clock c)) as Nq.
  destruct (TakeDue (chan_network c) (clock c)) as [n nd], (TakeDue (chan_quality c) (clock c)) as [q qd].
  cbn [fst snd] in *. split; cbn [chan_network chan_quality network_bursts quality_bursts both_bursts calls
    thread to_wake cancelled clock].
  - split; congruence.
  - rewrite HN. generalize (count_calls NetworkChanged (calls c)). intros k. destruct nd, qd; cbn; lia.
  - rewrite HQ. generalize (count_calls NetworkQualityChanged (calls c)). intros k. destruct nd, qd; cbn; lia.
  - destruct nd, qd; cbn; try done. intros u [= <-]. right. split; [done|].
    destruct (Nn eq_refl) as [-> ?], (Nq eq_refl) as [-> ?]. by apply wait_until_covers.
  - by destruct nd, qd.
  - done.
Qed.

Lemma notify_step_inv window start c c' :
  channel_inv window start c -> notify_step c c' -> channel_inv window start c'.
Proof.
  intros I S. pose proof I as [[W1 W2] HN HQ HS HE [P1 P2]]. destruct S.
  - split; cbn; try done. split; by eapply paced_tick.
  - unfold sink_network. destruct (cancelled c) eqn:Ec; [done|].
    split; cbn; rewrite ?CoalescerObserve_window; try done; [by left; lia|]. split; [by apply paced_observe|done].
  - unfold sink_quality. destruct (cancelled c) eqn:Ec; [done|].
    split; cbn; rewrite ?CoalescerObserve_window; try done; [by left; lia|]. split; [done|by apply paced_observe].
  - split; cbn; try done. by left; lia.
  - unfold wake_thread. cbn [thread]. destruct (thread c) eqn:Et; (split; cbn; rewrite ?Et; done).
  - split; cbn; try done; rewrite H in *; done.
  - by apply check_channel_inv.
  - unfold make_calls. rewrite H in *. cbn [owed] in *.
    split; cbn [chan_network chan_quality network_bursts quality_bursts both_bursts calls thread to_wake
      cancelled clock]; try done; rewrite count_calls_app; cbn [owed]; lia.
Qed.

Lemma new_channel_inv settings t : channel_inv (windowMillis settings) t (new_channel settings t).
Proof. split; cbn; try done. unfold paced. cbn. lia. Qed.

(** * Egress readings *)

(** What the SDK's sockets ride, and what is pinned to the interface. *)
Definition rides (s : EgressSignature) :=
  ((ifIndex (v4 s), usable (v4 s), network (v4 s), gateway (v4 s)),
   (ifIndex (v6 s), usable (v6 s), network (v6 s), gateway (v6 s))).
Definition pinned (s : EgressSignature) :=
  ((ifIndex (v4 s), source (v4 s)), (ifIndex (v6 s), source (v6 s))).

Lemma NetworkMoved_false a b :
  NetworkMoved a b = false <->
  ifIndex a = ifIndex b /\ usable a = usable b /\ network a = network b /\ gateway a = gateway b.
Proof.
  unfold NetworkMoved. rewrite !orb_false_iff, !negb_false_iff, !bool_decide_eq_true, Z.eqb_eq. tauto.
Qed.

Lemma BindingMoved_false a b : BindingMoved a b = false <-> ifIndex a = ifIndex b /\ source a = source b.
Proof. unfold BindingMoved. rewrite !orb_false_iff, !negb_false_iff, !bool_decide_eq_true, Z.eqb_eq. tauto. Qed.

Lemma FilterObserve_seeded f s :
  seeded_ f = true ->
  (change_network (FilterObserve f s).2 = false <-> rides (last_ f) = rides s) /\
  (change_binding (FilterObserve f s).2 = false <-> pinned (last_ f) = pinned s) /\
  last_ (FilterObserve f s).1 = s /\ seeded_ (FilterObserve f s).1 = true.
Proof.
  intros H. unfold FilterObserve. rewrite H. cbn. unfold rides, pinned.
  rewrite !orb_false_iff, !NetworkMoved_false, !BindingMoved_false.
  split; [|split; [|done]]; (split; [intros; destruct_and!; congruence|intros E; injection E; tauto]).
Qed.

(** The changes a filter reports over a list of readings. *)
Fixpoint filter_run (f : EgressChangeFilter) (l : list EgressSignature) : list EgressChange :=
  match l with
  | [] => []
  | s :: l => let '(f, change) := FilterObserve f s in change :: filter_run f l
  end.

(** * Properties *)

(** A burst is one notification and none is lost or starved.  Whatever the order of
    observations and polls, the observations are exactly those the notifications
    folded together plus those of the open window; every notification folded at
    least one; and once a window is open, a poll at its first observation's time plus
    the window notifies however many observations came since. *)
Theorem coalescer_conserves_bursts settings l t more :
  let '(c, bursts) := run_coalescer (new_coalescer settings) l in
  observations l = sum bursts + coalesced_ c /\ Forall (fun n => 0 < n) bursts /\
  (pending_ c = true <-> 0 < coalesced_ c) /\
  (pending_ c = false ->
   (TakeDue (foldl CoalescerObserve (CoalescerObserve c t) more) (t + windowMillis settings)).2 = true).
Proof.
  pose proof (run_coalescer_spec l (new_coalescer settings)) as H.
  destruct (run_coalescer (new_coalescer settings) l) as [c bs].
  destruct H as ([H1 H2] & W & F & S); [split; cbn; [done|]; split; [done|lia]|]. cbn in S.
  split; [lia|]. split; [done|]. split; [done|]. intros Hp.
  destruct (observe_all_deadline (CoalescerObserve c t) more) as [E1 E2].
  - unfold CoalescerObserve. cbn. by rewrite Hp.
  - unfold TakeDue. rewrite E1, E2. unfold CoalescerObserve. cbn. rewrite Hp. cbn. rewrite W. cbn.
    by rewrite Z.ltb_irrefl.
Qed.

(** The notifier calls the device once per burst, no faster than one network call a
    window, and never sleeps through one: in every state of its thread, the sinks and
    the destructor, each network burst taken has been called or is about to be, each
    quality burst too unless a network call of the same pass covered it; and a
    sleeping thread either has a wake coming or is not cancelled and wakes by the
    close of every open window. *)
Theorem notifier_once_per_burst settings t c :
  star notify_step (new_channel settings t) c ->
  network_bursts c = (count_calls NetworkChanged (calls c) + owed NetworkChanged (thread c))%nat /\
  quality_bursts c =
    (count_calls NetworkQualityChanged (calls c) + owed NetworkQualityChanged (thread c) + both_bursts c)%nat /\
  (0 <= windowMillis settings -> pending_ (chan_network c) = false ->
   Z.of_nat (count_calls NetworkChanged (calls c)) * windowMillis settings <= clock c - t) /\
  (forall u, thread c = Asleep u ->
    (0 < to_wake c)%nat \/ (cancelled c = false /\ covers u (chan_network c) /\ covers u (chan_quality c))).
Proof.
  intros S. apply (star_invariant notify_step (channel_inv (windowMillis settings) t)) in S;
    [|intros ??; apply notify_step_inv|apply new_channel_inv].
  destruct S as [[W1 W2] HN HQ HS HE [P1 P2]]. split_and!; [done|done| |done].
  intros Hw Hp. unfold paced in P1. rewrite Hp, W1, HN in P1. nia.
Qed.

Lemma notifier_once_per_burst_witness :
  let c := make_calls (check_channel (mkChannel false
             (CoalescerObserve (new_coalescer default_notify_settings) 100) (new_coalescer default_notify_settings)
             Checking 850 1 [] 0 0 0)) in
  calls c = [NetworkChanged] /\
  network_bursts c = (count_calls NetworkChanged (calls c) + owed NetworkChanged (thread c))%nat /\
  quality_bursts c =
    (count_calls NetworkQualityChanged (calls c) + owed NetworkQualityChanged (thread c) + both_bursts c)%nat /\
  (0 <= windowMillis default_notify_settings -> pending_ (chan_network c) = false ->
   Z.of_nat (count_calls NetworkChanged (calls c)) * windowMillis default_notify_settings <= clock c - 100) /\
  (forall u, thread c = Asleep u ->
    (0 < to_wake c)%nat \/ (cancelled c = false /\ covers u (chan_network c) /\ covers u (chan_quality c))).
Proof.
  intros c. split; [reflexivity|]. apply (notifier_once_per_burst default_notify_settings 100 c).
  eapply star_step; [apply ns_network|].
  eapply star_step; [apply (ns_tick _ 850); vm_compute; congruence|].
  eapply star_step; [apply ns_check; reflexivity|].
  eapply star_step; [apply (ns_call _ true false); reflexivity|].
  apply star_refl.
Defined.

(** Once the destructor has joined the thread, the device is never called again,
    whatever the sinks still record. *)
Theorem no_call_after_join settings t c c' :
  star notify_step (new_channel settings t) c -> thread c = Exited -> star notify_step c c' ->
  calls c' = calls c /\ thread c' = Exited /\ chan_network c' = chan_network c /\ chan_quality c' = chan_quality c.
Proof.
  intros S Ht T. apply (star_invariant notify_step (channel_inv (windowMillis settings) t)) in S;
    [|intros ??; apply notify_step_inv|apply new_channel_inv].
  assert (cancelled c = true) as Hc by (by apply (ci_exit _ _ _ S)). clear S.
  induction T as [|c c1 c' S T IH]; [done|].
  assert (calls c1 = calls c /\ thread c1 = Exited /\ cancelled c1 = true /\
    chan_network c1 = chan_network c /\ chan_quality c1 = chan_quality c) as (E1 & E2 & E3 & E4 & E5).
  { destruct S; unfold sink_network, sink_quality, wake_thread; rewrite ?Hc; cbn [thread]; rewrite ?Ht; try done;
      congruence. }
  destruct (IH E2 E3) as (F1 & F2 & F3 & F4). split_and!; congruence.
Qed.

Lemma no_call_after_join_witness :
  let c0 := new_channel default_notify_settings 0 in
  let c := check_channel (cancel c0) in
  calls (sink_network c) = calls c /\ thread (sink_network c) = Exited /\
  chan_network (sink_network c) = chan_network c /\ chan_quality (sink_network c) = chan_quality c.
Proof.
  intros c0 c. apply (no_call_after_join default_notify_settings 0 c); [|reflexivity|].
  - eapply star_step; [apply ns_cancel|]. eapply star_step; [apply ns_check; reflexivity|]. apply star_refl.
  - eapply star_step; [apply ns_network|]. apply star_refl.
Defined.

(** The sampler never sleeps through a window.  After any observations that came
    during a planned sleep, unless it is interrupted, the planned sleep ends by the
    close of every open window and by the next sample. *)
Theorem sampler_never_oversleeps now nextSample network quality seen_network seen_quality :
  let plan := PlanSamplerSleep now nextSample network quality in
  let network' := foldl CoalescerObserve network seen_network in
  let quality' := foldl CoalescerObserve quality seen_quality in
  SamplerSleepInterrupted plan network' quality' = false ->
  now + waitMillis plan <= nextSample /\
  (pending_ network' = true -> now + waitMillis plan <= deadlineMillis_ network') /\
  (pending_ quality' = true -> now + waitMillis plan <= deadlineMillis_ quality').
Proof.
  intros plan network' quality' Hi. unfold SamplerSleepInterrupted in Hi.
  apply orb_false_iff in Hi as [Hn Hq]. cbn [networkPending qualityPending plan PlanSamplerSleep] in Hn, Hq.
  assert (forall c l, negb (pending_ c) && pending_ (foldl CoalescerObserve c l) = false ->
    pending_ (foldl CoalescerObserve c l) = true ->
    pending_ c = true /\ deadlineMillis_ (foldl CoalescerObserve c l) = deadlineMillis_ c) as G.
  { intros c l H1 H2. rewrite H2, andb_true_r in H1. apply negb_false_iff in H1. split; [done|].
    by apply observe_all_deadline. }
  unfold plan. rewrite plan_wait. cbv zeta. split_and!.
  - destruct (pending_ network), (pending_ quality); lia.
  - intros Hp. destruct (G _ _ Hn Hp) as [Hp' Hd]. unfold network'. rewrite Hd, Hp'.
    destruct (pending_ quality); lia.
  - intros Hp. destruct (G _ _ Hq Hp) as [Hp' Hd]. unfold quality'. rewrite Hd, Hp'. lia.
Qed.

Lemma sampler_never_oversleeps_witness :
  let network := CoalescerObserve (new_coalescer default_notify_settings) 1000 in
  let quality := new_coalescer default_notify_settings in
  let plan := PlanSamplerSleep 1100 3000 network quality in
  waitMillis plan = 650 /\
  1100 + waitMillis plan <= 3000 /\
  (pending_ (CoalescerObserve network 1200) = true -> 1100 + waitMillis plan <= deadlineMillis_ (CoalescerObserve network 1200)) /\
  (pending_ quality = true -> 1100 + waitMillis plan <= deadlineMillis_ quality).
Proof.
  intros network quality plan. split; [reflexivity|].
  apply (sampler_never_oversleeps 1100 3000 network quality [1200] []). reflexivity.
Defined.

(** The egress filter reports the network as moved exactly when a reading differs
    from the one before it in what the SDK's sockets ride, and the binding exactly
    when it differs in what is pinned to the interface.  So a run with no change
    reported rides the seeded network to its last reading: no move is lost between
    readings. *)
Theorem egress_filter_spec seed l :
  let changes := filter_run (Seed new_filter seed) l in
  length changes = length l /\
  (forall i before after change, (seed :: l) !! i = Some before -> l !! i = Some after ->
     changes !! i = Some change ->
     (change_network change = true <-> rides before <> rides after) /\
     (change_binding change = true <-> pinned before <> pinned after)) /\
  (Forall (fun c => change_network c = false) changes <-> Forall (fun s => rides s = rides seed) l).
Proof.
  cbv zeta. assert (seeded_ (Seed new_filter seed) = true /\ last_ (Seed new_filter seed) = seed) as [Hs Hl] by done.
  generalize dependent (Seed new_filter seed). revert seed.
  induction l as [|s l IH]; intros seed f Hs Hl; cbn [filter_run].
  { split_and!; try done; constructor; intros; constructor. }
  destruct (FilterObserve_seeded f s Hs) as (Hn & Hb & Hl' & Hs').
  destruct (FilterObserve f s) as [f' change]. cbn [fst snd] in *. rewrite Hl in Hn, Hb.
  destruct (IH s f' Hs' Hl') as (L & P & Q). split_and!; [cbn; lia| |].
  - intros [|i] before after c0; cbn.
    + intros [= <-] [= <-] [= <-]. rewrite <- !not_false_iff_true. naive_solver.
    + intros H1 H2 H3. by apply (P i).
  - rewrite !Forall_cons, Q, Hn. split; intros [E F]; (split; [congruence|]);
      (eapply Forall_impl; [exact F|]); cbn; intros x Hx; congruence.
Qed.
