(* ===== verification/Capture.v ===== *)
(** Session-local evidence and the capture transaction (CaptureReadiness.h): which
    exits count as proof after a network change, the readiness object with its
    revisions and tickets, and the staged transaction with its rollback. *)

From S2P Require Import Prelude.
From S2P Require Import CxxText.

(** * Data *)

Record CaptureWindow := mkWindow { generation : Z; added : Z }.
Record CaptureTicket := mkTicket { t_revision : Z; t_generation : Z; t_sampledMillis : Z }.
Record CaptureSample := mkSample { s_revision : Z; s_proofSinceMillis : Z; startedMillis : Z }.
Record CaptureNetworkEpoch := mkEpoch { e_revision : Z; millis : Z }.

Record CaptureReadinessSettings := mkCaptureSettings {
  probeAgeResolutionMillis : Z; freshnessMillis : Z; sampleStallMillis : Z }.
Definition default_capture_settings : CaptureReadinessSettings := mkCaptureSettings 1000 8000 30000.

(** * Proof and diagnostics *)

Definition CaptureProofAfterNetworkChange (ageSeconds sampleMillis changedMillis : Z)
    (settings : CaptureReadinessSettings) : bool :=
  if changedMillis <? 0 then true else
  let resolution := if 0 <? probeAgeResolutionMillis settings then probeAgeResolutionMillis settings else 0 in
  let elapsed := sampleMillis - changedMillis in
  (0 <=? ageSeconds) && (resolution <=? elapsed) && (ageSeconds <=? Z.quot (elapsed - resolution) 1000).

Record CaptureExit := mkExit {
  exit_proven : bool; exit_done : bool; quarantined : bool; warning : bool; probeAgeSeconds : Z }.

Definition CaptureExitIsUsable (exit : CaptureExit) (sampleMillis changedMillis : Z)
    (settings : CaptureReadinessSettings) : bool :=
  exit_proven exit && negb (exit_done exit) && negb (quarantined exit) && negb (warning exit) &&
  (0 <=? probeAgeSeconds exit) &&
  CaptureProofAfterNetworkChange (probeAgeSeconds exit) sampleMillis changedMillis settings.

Definition CaptureWaitReason (window : CaptureWindow) (usableProven : Z) (stallReason : text) : text :=
  if generation window =? 0 then txt "waiting-selection" else
  if (0 <? usableProven) && (0 <? added window) then txt "qualified" else
  if teqb stallReason (txt "platform-unreachable") then txt "platform-unreachable" else
  if teqb stallReason (txt "providers-unresponsive") then txt "providers-unresponsive" else
  if teqb stallReason (txt "auth-failing") then txt "auth-failing" else
  if teqb stallReason (txt "rate-limited") then txt "rate-limited" else
  if 0 <? added window then txt "qualification-pending" else txt "discovery-pending".

Definition CaptureSampleStalled (started sampled now : Z) (settings : CaptureReadinessSettings) : bool :=
  let last := if started <=? sampled then sampled else started in
  sampleStallMillis settings <=? now - last.

(** * The readiness object

    Its clock is the [now] each operation is run at; each operation holds the lock from
    its first line to its last. *)

Record CaptureReadiness := mkReadiness {
  revision_ : Z;
  generation_ : Z;
  proofSinceMillis_ : Z;
  networkRevision_ : Z;
  handledNetworkRevision_ : Z;
  sampledMillis_ : Z;
  settings_ : CaptureReadinessSettings;
  proven_ : bool;
  cancelled_ : bool;
  active_ : bool;
}.

Definition new_readiness (settings : CaptureReadinessSettings) : CaptureReadiness :=
  mkReadiness 0 0 (-1) 0 0 0 settings false false false.

Definition FreshWithLock (r : CaptureReadiness) (now sampledMillis : Z) : bool :=
  let age := now - sampledMillis in
  (0 <=? age) && (age <=? freshnessMillis (settings_ r)).

Definition CurrentWithLock (r : CaptureReadiness) (now : Z) (ticket : CaptureTicket) : bool :=
  negb (cancelled_ r) && negb (active_ r) && proven_ r && (t_revision ticket =? revision_ r) &&
  (t_generation ticket =? generation_ r) && FreshWithLock r now (t_sampledMillis ticket).

Definition Invalidate (r : CaptureReadiness) (g : Z) : CaptureReadiness :=
  if g <? generation_ r then r else
  mkReadiness (u64 (revision_ r + 1)) g (proofSinceMillis_ r) (networkRevision_ r) (handledNetworkRevision_ r)
    (sampledMillis_ r) (settings_ r) false (cancelled_ r) (active_ r).

Definition NetworkChanged (r : CaptureReadiness) (nowMillis : Z) : CaptureReadiness :=
  let since := if proofSinceMillis_ r <? nowMillis then nowMillis else proofSinceMillis_ r in
  mkReadiness (u64 (revision_ r + 1)) (generation_ r) since (u64 (networkRevision_ r + 1))
    (handledNetworkRevision_ r) (sampledMillis_ r) (settings_ r) false (cancelled_ r) (active_ r).

Definition ProofBarrier (r : CaptureReadiness) (nowMillis : Z) : CaptureReadiness :=
  let since := if proofSinceMillis_ r <? nowMillis then nowMillis else proofSinceMillis_ r in
  mkReadiness (u64 (revision_ r + 1)) (generation_ r) since (networkRevision_ r)
    (handledNetworkRevision_ r) (sampledMillis_ r) (settings_ r) false (cancelled_ r) (active_ r).

Definition PendingNetworkEvent (r : CaptureReadiness) : option CaptureNetworkEpoch :=
  if cancelled_ r || (networkRevision_ r =? handledNetworkRevision_ r) then None
  else Some (mkEpoch (networkRevision_ r) (proofSinceMillis_ r)).

Definition NetworkEventHandled (r : CaptureReadiness) (event : CaptureNetworkEpoch) : CaptureReadiness :=
  if (handledNetworkRevision_ r <? e_revision event) && (e_revision event <=? networkRevision_ r) then
    mkReadiness (revision_ r) (generation_ r) (proofSinceMillis_ r) (networkRevision_ r) (e_revision event)
      (sampledMillis_ r) (settings_ r) (proven_ r) (cancelled_ r) (active_ r)
  else r.

Definition BeginSample (r : CaptureReadiness) (now : Z) : CaptureSample :=
  mkSample (revision_ r) (proofSinceMillis_ r) now.

Definition CompleteSample (r : CaptureReadiness) (now : Z) (sample : CaptureSample)
    (before after : CaptureWindow) (usableProven : Z) : CaptureReadiness :=
  if cancelled_ r || active_ r || negb (s_revision sample =? revision_ r) then r else
  let proven := (generation before =? generation after) && (generation_ r <=? generation after) &&
                (0 <? generation after) && (0 <? added before) && (0 <? added after) && (0 <? usableProven) &&
                FreshWithLock r now (startedMillis sample) in
  let rev := if negb (generation_ r =? generation after) || negb (bool_decide (proven_ r = proven))
             then u64 (revision_ r + 1) else revision_ r in
  let g := if generation_ r <? generation before then generation before else generation_ r in
  let g := if g <? generation after then generation after else g in
  mkReadiness rev g (proofSinceMillis_ r) (networkRevision_ r) (handledNetworkRevision_ r)
    (startedMillis sample) (settings_ r) proven (cancelled_ r) (active_ r).

Definition Ready (r : CaptureReadiness) (now : Z) : option CaptureTicket :=
  if cancelled_ r || active_ r || negb (proven_ r) || negb (FreshWithLock r now (sampledMillis_ r)) then None
  else Some (mkTicket (revision_ r) (generation_ r) (sampledMillis_ r)).

Definition Current (r : CaptureReadiness) (now : Z) (ticket : CaptureTicket) : bool := CurrentWithLock r now ticket.

Definition Commit (r : CaptureReadiness) (now : Z) (ticket : CaptureTicket) : CaptureReadiness * bool :=
  if negb (CurrentWithLock r now ticket) then (r, false) else
  (mkReadiness (revision_ r) (generation_ r) (proofSinceMillis_ r) (networkRevision_ r)
     (handledNetworkRevision_ r) (sampledMillis_ r) (settings_ r) (proven_ r) (cancelled_ r) true, true).

Definition Cancel (r : CaptureReadiness) : CaptureReadiness :=
  mkReadiness (u64 (revision_ r + 1)) (generation_ r) (proofSinceMillis_ r) (networkRevision_ r)
    (handledNetworkRevision_ r) (sampledMillis_ r) (settings_ r) false true (active_ r).

(** The egress callback of a session: [notified] is what it hands its listener. *)
Definition CaptureNetworkEventHandler (session : option CaptureReadiness) (clock : Z) :
    option CaptureReadiness * option Z :=
  match session with
  | None => (session, None)
  | Some r => if cancelled_ r then (session, None) else (Some (NetworkChanged r clock), Some clock)
  end.

(** What a listener is told when it attaches. *)
Definition ReplayCaptureNetworkEvent (session : option CaptureReadiness) : option Z :=
  match session with
  | None => None
  | Some r => if cancelled_ r then None else millis <$> PendingNetworkEvent r
  end.

(** Sessions are shared pointers: two of them name one object exactly when they are
    equal. *)
Definition CaptureNetworkEventMatchesSession (heap : nat -> CaptureReadiness)
    (listenerSession eventSession : option nat) : bool :=
  match listenerSession with
  | None => false
  | Some l => bool_decide (eventSession = Some l) && negb (cancelled_ (heap l))
  end.

(** * The transaction *)

Inductive CaptureStage := Prepare | Firewall | NetworkStage | ConnectedStage.
#[export] Instance CaptureStage_eq_dec : EqDecision CaptureStage.
Proof. solve_decision. Defined.

(** [Threw] is the exception the transaction lets through after its rollback. *)
Inductive CaptureResult := Waiting | Active | Halted | Threw.
#[export] Instance CaptureResult_eq_dec : EqDecision CaptureResult.
Proof. solve_decision. Defined.

Inductive Effect := Attempted (stage : CaptureStage) | RolledBack.
#[export] Instance Effect_eq_dec : EqDecision Effect.
Proof. solve_decision. Defined.

(** An operation another thread runs on the readiness object. *)
Inductive Op :=
  | OpInvalidate (g : Z)
  | OpNetworkChanged (t : Z)
  | OpProofBarrier (t : Z)
  | OpHandled (event : CaptureNetworkEpoch)
  | OpComplete (now : Z) (sample : CaptureSample) (before after : CaptureWindow) (usableProven : Z)
  | OpCommit (now : Z) (ticket : CaptureTicket)
  | OpCancel.

Definition run_op (r : CaptureReadiness) (op : Op) : CaptureReadiness :=
  match op with
  | OpInvalidate g => Invalidate r g
  | OpNetworkChanged t => NetworkChanged r t
  | OpProofBarrier t => ProofBarrier r t
  | OpHandled e => NetworkEventHandled r e
  | OpComplete now s b a u => CompleteSample r now s b a u
  | OpCommit now t => (Commit r now t).1
  | OpCancel => Cancel r
  end.

Definition run_ops (r : CaptureReadiness) (l : list Op) : CaptureReadiness := foldl run_op r l.

(** The loop over the stages.  [apply stage] is the external step's answer, [None] when
    it throws; [others stage] is what the other threads did to the readiness object
    since the last look at it, and [clock stage] the time of the look before the
    stage. *)
Fixpoint apply_stages (stages : list CaptureStage) (clock : CaptureStage -> Z)
    (apply : CaptureStage -> option bool) (others : CaptureStage -> list Op)
    (ticket : CaptureTicket) (r : CaptureReadiness) (trace : list Effect) :
    CaptureReadiness * list Effect * option CaptureResult :=
  match stages with
  | [] => (r, trace, None)
  | stage :: stages =>
      let r := run_ops r (others stage) in
      if negb (Current r (clock stage) ticket) then (r, trace ++ [RolledBack], Some Waiting) else
      match apply stage with
      | None => (r, trace ++ [Attempted stage; RolledBack], Some Threw)
      | Some false => (r, trace ++ [Attempted stage; RolledBack], Some Halted)
      | Some true => apply_stages stages clock apply others ticket r (trace ++ [Attempted stage])
      end
  end.

Definition stages_in_order : list CaptureStage := [Prepare; Firewall; NetworkStage; ConnectedStage].

(** [start] is the time of the first look, [finish] that of the commit and [last] what
    the other threads did before it. *)
Definition ApplyCapture (start finish : Z) (clock : CaptureStage -> Z) (apply : CaptureStage -> option bool)
    (others : CaptureStage -> list Op) (last : list Op) (ticket : CaptureTicket) (r : CaptureReadiness) :
    CaptureReadiness * list Effect * CaptureResult :=
  if negb (Current r start ticket) then (r, [], Waiting) else
  match apply_stages stages_in_order clock apply others ticket r [] with
  | (r, trace, Some result) => (r, trace, result)
  | (r, trace, None) =>
      let '(r, committed) := Commit (run_ops r last) finish ticket in
      if committed then (r, trace, Active) else (r, trace ++ [RolledBack], Waiting)
  end.

(** * Revisions *)

(** The operations that make every earlier ticket and every sample under way stale. *)
Definition invalidates (r : CaptureReadiness) (op : Op) : Prop :=
  match op with
  | OpInvalidate g => generation_ r <= g
  | OpNetworkChanged _ | OpProofBarrier _ | OpCancel => True
  | _ => False
  end.

(** One operation moves the revision by at most one, and an invalidation by one. *)
Lemma run_op_revision r op :
  exists k, 0 <= k <= 1 /\ (revision_ (run_op r op) = revision_ r /\ k = 0 \/
                            revision_ (run_op r op) = u64 (revision_ r + k) /\ k = 1) /\
    (invalidates r op -> k = 1).
Proof.
  destruct op; cbn.
  - unfold Invalidate. destruct (Z.ltb_spec g (generation_ r)); [exists 0|exists 1]; cbn; split_and!; try lia; auto; lia.
  - exists 1. cbn. split_and!; try lia; auto.
  - exists 1. cbn. split_and!; try lia; auto.
  - exists 0. unfold NetworkEventHandled. destruct (_ && _); cbn; split_and!; try lia; auto; done.
  - unfold CompleteSample. destruct (_ || _ || _); [exists 0; cbn; split_and!; try lia; auto; done|].
    cbn zeta. cbn [revision_]. destruct (_ || negb (bool_decide _)); [exists 1|exists 0]; split_and!; try lia; auto; done.
  - exists 0. unfold Commit. destruct (negb _); cbn; split_and!; try lia; auto; done.
  - exists 1. cbn. split_and!; try lia; auto.
Qed.

Lemma run_ops_revision l : forall r,
  0 <= revision_ r < 2 ^ 64 ->
  exists k, 0 <= k <= Z.of_nat (length l) /\ revision_ (run_ops r l) = u64 (revision_ r + k) /\
    ((exists pre op post, l = pre ++ op :: post /\ invalidates (run_ops r pre) op) -> 1 <= k).
Proof.
  unfold run_ops. induction l as [|op l IH]; intros r Hr; cbn [foldl length].
  - exists 0. rewrite Z.add_0_r, wrap_small by lia. split; [lia|]. split; [done|].
    intros (pre & op & post & E & _). by destruct pre.
  - destruct (run_op_revision r op) as (k1 & Hk1 & Hrev & Hinv).
    assert (0 <= revision_ (run_op r op) < 2 ^ 64 /\ revision_ (run_op r op) = u64 (revision_ r + k1)) as [Hr1 E1].
    { destruct Hrev as [[-> ->]|[-> ->]]; [rewrite Z.add_0_r, wrap_small by lia; done|].
      split; [apply wrap_range; lia|done]. }
    destruct (IH _ Hr1) as (k2 & Hk2 & E2 & Hinv2). exists (k1 + k2). split; [lia|]. split.
    + rewrite E2, E1, wrap_add_l. f_equal. lia.
    + intros (pre & op' & post & E & H). destruct pre as [|x pre].
      * cbn in E. injection E as <- <-. specialize (Hinv H). lia.
      * cbn in E. injection E as <- ->. cbn [foldl] in H. enough (1 <= k2) by lia.
        apply Hinv2. by exists pre, op', post.
Qed.

(** After an invalidation, no revision of before comes back. *)
Lemma invalidated_revision r pre op post :
  0 <= revision_ r < 2 ^ 64 -> Z.of_nat (length (pre ++ op :: post)) < 2 ^ 64 ->
  invalidates (run_ops r pre) op -> revision_ (run_ops r (pre ++ op :: post)) <> revision_ r.
Proof.
  intros Hr Hl Hi. destruct (run_ops_revision (pre ++ op :: post) r Hr) as (k & Hk & E & Hinv).
  assert (1 <= k) as H1 by (apply Hinv; by exists pre, op, post). rewrite E. unfold wrap. intros C.
  destruct (Z.lt_ge_cases (revision_ r + k) (2 ^ 64)).
  - rewrite Z.mod_small in C by lia. lia.
  - replace (revision_ r + k) with (revision_ r + k - 2 ^ 64 + 1 * 2 ^ 64) in C by lia.
    rewrite Z.mod_add, Z.mod_small in C by lia. lia.
Qed.

Lemma Current_revision r now t : Current r now t = true -> t_revision t = revision_ r.
Proof. unfold Current, CurrentWithLock. intros. bool_hyps. done. Qed.

Lemma CompleteSample_stale r now s b a u : s_revision s <> revision_ r -> CompleteSample r now s b a u = r.
Proof.
  intros H. unfold CompleteSample. rewrite (proj2 (Z.eqb_neq _ _) H). cbn [negb]. by rewrite orb_true_r.
Qed.

(** ** Cancellation is permanent *)

Lemma run_op_cancelled r op : cancelled_ r = true -> cancelled_ (run_op r op) = true /\ active_ (run_op r op) = active_ r.
Proof.
  intros H. destruct op; cbn; try done; unfold Invalidate, NetworkEventHandled, CompleteSample, Commit, CurrentWithLock;
    rewrite ?H; cbn; try done; cases_if; done.
Qed.

Lemma run_ops_cancelled l r : cancelled_ r = true -> cancelled_ (run_ops r l) = true /\ active_ (run_ops r l) = active_ r.
Proof.
  unfold run_ops. revert r. induction l as [|op l IH]; intros r H; cbn [foldl]; [done|].
  destruct (run_op_cancelled r op H) as [H1 H2]. destruct (IH _ H1) as [H3 H4]. split; [done|congruence].
Qed.

(** ** The transaction *)

(** The trace of the stages is a prefix of them in order, a failed one with its
    rollback at the end. *)
Lemma apply_stages_spec stages clock apply others ticket : forall r trace,
  match apply_stages stages clock apply others ticket r trace with
  | (r', trace', None) => trace' = trace ++ map Attempted stages
  | (r', trace', Some result) =>
      result <> Active /\ exists k, trace' = trace ++ map Attempted (take k stages) ++ [RolledBack]
  end.
Proof.
  induction stages as [|stage stages IH]; intros r trace; cbn [apply_stages]; [by rewrite app_nil_r|].
  destruct (negb _); [split; [done|]; by exists 0%nat|].
  destruct (apply stage) as [[]|].
  - specialize (IH (run_ops r (others stage)) (trace ++ [Attempted stage])).
    destruct (apply_stages _ _ _ _ _ _ _) as [[r' trace'] [result|]].
    + destruct IH as [Hr [k ->]]. split; [done|]. exists (S k). by rewrite <- app_assoc.
    + rewrite IH, <- app_assoc. done.
  - split; [done|]. by exists 1%nat.
  - split; [done|]. by exists 1%nat.
Qed.

(** * Properties *)

(** C18: the capture transaction is all or nothing.  Whatever other threads do to the
    readiness object during it, and whether an external step fails or throws, it is
    Active exactly when all four stages were attempted in order, nothing was rolled
    back and the commit found the ticket current; otherwise either nothing was
    touched, or a prefix of the stages was attempted and one rollback came last; and
    a session cancelled before the commit is never made active. *)
Theorem capture_transaction_atomic start finish clock apply others last ticket r :
  match ApplyCapture start finish clock apply others last ticket r with
  | (r', trace, result) =>
      (result = Active ->
         trace = map Attempted stages_in_order /\ active_ r' = true /\ cancelled_ r' = false /\ proven_ r' = true /\
         revision_ r' = t_revision ticket /\ generation_ r' = t_generation ticket /\
         0 <= finish - t_sampledMillis ticket <= freshnessMillis (settings_ r')) /\
      (result <> Active ->
         (trace = [] /\ r' = r) \/ exists k, trace = map Attempted (take k stages_in_order) ++ [RolledBack])
  end.
Proof.
  unfold ApplyCapture. destruct (negb (Current r start ticket)); [split; [done|by left]|].
  pose proof (apply_stages_spec stages_in_order clock apply others ticket r []) as H.
  destruct (apply_stages _ _ _ _ _ _ _) as [[r1 trace] [result|]]; cbn [app] in H.
  - destruct H as [Hr [k ->]]. split; [done|]. intros _. right. by exists k.
  - subst trace. unfold Commit. destruct (CurrentWithLock _ finish ticket) eqn:E; cbn [negb].
    + split; [intros _|done]. unfold CurrentWithLock, FreshWithLock in E. bool_hyps. cbn. by split_and!.
    + split; [done|]. intros _. right. by exists 4%nat.
Qed.

(** An invalidation reaches everything taken before it.  After a network change, a
    proof barrier, a cancellation or an invalidation of the current generation,
    whatever else the threads do, no ticket issued before it is current or commits,
    and no sample begun before it changes anything when it completes. *)
Theorem invalidation_kills_tickets r pre op post now ticket sample b a u :
  0 <= revision_ r < 2 ^ 64 -> Z.of_nat (length (pre ++ op :: post)) < 2 ^ 64 ->
  invalidates (run_ops r pre) op ->
  t_revision ticket = revision_ r -> s_revision sample = revision_ r ->
  let r' := run_ops r (pre ++ op :: post) in
  Current r' now ticket = false /\ Commit r' now ticket = (r', false) /\ CompleteSample r' now sample b a u = r'.
Proof.
  intros Hr Hl Hi Ht Hs r'. pose proof (invalidated_revision r pre op post Hr Hl Hi) as Hn. fold r' in Hn.
  assert (Current r' now ticket = false) as Hc.
  { destruct (Current r' now ticket) eqn:E; [|done]. apply Current_revision in E. congruence. }
  split; [done|]. split.
  - unfold Commit. unfold Current in Hc. by rewrite Hc.
  - apply CompleteSample_stale. congruence.
Qed.

Lemma invalidation_kills_tickets_witness :
  let r := mkReadiness 7 3 (-1) 0 0 1000 default_capture_settings true false false in
  let ticket := mkTicket 7 3 1000 in
  Current r 1500 ticket = true /\
  let r' := run_ops r [OpNetworkChanged 1400] in
  Current r' 1500 ticket = false /\ Commit r' 1500 ticket = (r', false) /\
  CompleteSample r' 1500 (mkSample 7 (-1) 900) (mkWindow 3 1) (mkWindow 3 1) 1 = r'.
Proof.
  intros r ticket. split; [reflexivity|].
  apply (invalidation_kills_tickets r [] (OpNetworkChanged 1400) [] 1500 ticket (mkSample 7 (-1) 900)); cbn; done || lia.
Defined.

(** Cancellation is permanent: after it, whatever arrives late, the session issues no
    ticket, commits none, replays no network event and does not become active. *)
Theorem cancelled_session_is_dead r l now ticket :
  let r' := run_ops (Cancel r) l in
  Ready r' now = None /\ (Commit r' now ticket).2 = false /\ PendingNetworkEvent r' = None /\
  ReplayCaptureNetworkEvent (Some r') = None /\ active_ r' = active_ r.
Proof.
  intros r'. destruct (run_ops_cancelled l (Cancel r) eq_refl) as [Hc Ha]. fold r' in Hc, Ha.
  unfold Ready, Commit, CurrentWithLock, PendingNetworkEvent, ReplayCaptureNetworkEvent. rewrite Hc. cbn. done.
Qed.

(** An exit's proof qualifies only if its probe followed the network change.  The
    SDK gives the probe's age in whole seconds, truncated: when [probe] is the
    probe's true time, a proof accepted at [sample] was probed after the change, and
    every probe a second or more after the change is accepted. *)
Theorem proof_postdates_change probe sample changed :
  0 <= changed -> probe <= sample ->
  let age := (sample - probe) / 1000 in
  (CaptureProofAfterNetworkChange age sample changed default_capture_settings = true -> changed < probe) /\
  (changed + 1000 <= probe -> CaptureProofAfterNetworkChange age sample changed default_capture_settings = true).
Proof.
  intros Hc Hp age. unfold CaptureProofAfterNetworkChange. rewrite (proj2 (Z.ltb_ge _ _) Hc).
  cbn [probeAgeResolutionMillis default_capture_settings]. change (0 <? 1000) with true. cbv zeta iota.
  assert (0 <= sample - probe - 1000 * age < 1000 /\ 0 <= age) as [Ha Ha0].
  { unfold age. pose proof (Z.mod_pos_bound (sample - probe) 1000). pose proof (Z.div_mod (sample - probe) 1000).
    pose proof (Z.div_pos (sample - probe) 1000). lia. }
  clearbody age. rewrite !andb_true_iff, !Z.leb_le. split.
  - intros [[_ He] H]. rewrite Z.quot_div_nonneg in H by lia.
    pose proof (Z.mul_div_le (sample - changed - 1000) 1000). lia.
  - intros H. split; [lia|]. rewrite Z.quot_div_nonneg by lia. apply Z.div_le_lower_bound; lia.
Qed.

Lemma proof_postdates_change_witness :
  let age := (9000 - 6100) / 1000 in
  (CaptureProofAfterNetworkChange age 9000 5000 default_capture_settings = true -> 5000 < 6100) /\
  (5000 + 1000 <= 6100 -> CaptureProofAfterNetworkChange age 9000 5000 default_capture_settings = true).
Proof. apply (proof_postdates_change 6100 9000 5000); lia. Defined.

(** A network change is never lost between listeners.  A change that comes after an
    event was read, even in the same millisecond, is still pending once that event
    has been handled, until the session is cancelled. *)
Theorem later_network_change_stays_pending r r1 event t l :
  r1 = run_ops r l ->
  0 <= networkRevision_ r -> handledNetworkRevision_ r <= networkRevision_ r ->
  networkRevision_ r + Z.of_nat (length l) + 1 < 2 ^ 64 ->
  PendingNetworkEvent r = Some event -> cancelled_ r1 = false ->
  exists event', PendingNetworkEvent (NetworkEventHandled (NetworkChanged r1 t) event) = Some event' /\
    e_revision event < e_revision event' /\ t <= millis event'.
Proof.
  intros -> H0 Hh Hw He Hc.
  assert (e_revision event = networkRevision_ r) as Ee.
  { unfold PendingNetworkEvent in He. destruct (_ || _); [done|]. by injection He as <-. }
  assert (forall l q, 0 <= networkRevision_ q -> handledNetworkRevision_ q <= networkRevision_ q ->
    networkRevision_ q + Z.of_nat (length l) + 1 < 2 ^ 64 ->
    networkRevision_ q <= networkRevision_ (run_ops q l) <= networkRevision_ q + Z.of_nat (length l) /\
    handledNetworkRevision_ (run_ops q l) <= networkRevision_ (run_ops q l)) as G.
  { clear. induction l as [|op l IH]; intros q Hq Hh Hl; cbn [length run_ops foldl] in *; [lia|].
    assert (networkRevision_ q <= networkRevision_ (run_op q op) <= networkRevision_ q + 1 /\
      handledNetworkRevision_ (run_op q op) <= networkRevision_ (run_op q op)) as [B1 B2].
    { destruct op; cbn; unfold Invalidate, NetworkEventHandled, CompleteSample, Commit; cbn;
        try (rewrite wrap_small by lia; lia);
        repeat match goal with |- context [if ?b then _ else _] => destruct b eqn:? end; bool_hyps; cbn; lia. }
    specialize (IH (run_op q op)). unfold run_ops in IH. lia. }
  destruct (G l r H0 Hh Hw) as [B1 B2]. set (q := run_ops r l) in *.
  unfold NetworkEventHandled, PendingNetworkEvent. cbn [handledNetworkRevision_ networkRevision_ NetworkChanged cancelled_].
  rewrite wrap_small by lia. rewrite Ee.
  destruct ((_ <? networkRevision_ r) && _) eqn:E; cbn [cancelled_ networkRevision_ handledNetworkRevision_ proofSinceMillis_ NetworkChanged];
    rewrite ?wrap_small by lia; rewrite Hc, (proj2 (Z.eqb_neq _ _)) by lia; cbn [orb];
    eexists; (split; [reflexivity|]); cbn [e_revision millis];
    destruct (Z.ltb_spec (proofSinceMillis_ q) t); lia.
Qed.

Lemma later_network_change_stays_pending_witness :
  let r := NetworkChanged (new_readiness default_capture_settings) 500 in
  exists event', PendingNetworkEvent (NetworkEventHandled (NetworkChanged r 500) (mkEpoch 1 500)) = Some event' /\
    e_revision (mkEpoch 1 500) < e_revision event' /\ 500 <= millis event'.
Proof.
  intros r. apply (later_network_change_stays_pending r r (mkEpoch 1 500) 500 []); vm_compute; congruence.
Defined.
