(* ===== verification/NetPolicy.v ===== *)
(** The table of prefixes that bypass the tunnel and the capture set derived from it,
    for IPv4 and IPv6 (NetPolicy.h).  The prefix subtraction is proved once, against
    an interface that both families implement. *)

From Stdlib Require Import Sorted.
From S2P Require Import Prelude.

(** * The interface

    What the subtraction needs of an address family: the block of addresses a prefix
    names, whether one prefix contains another, and its halves. *)

Class PrefixFamily (P : Type) := {
  width : Z;
  in_width : P -> Prop;  (* the fields fit their machine words *)
  base : P -> Z;
  len : P -> Z;
  contains : P -> P -> bool;
  low_half : P -> P;
  high_half : P -> P;
}.

(** The bits of an address under a prefix. *)
Definition low_bits {P} `{PrefixFamily P} (p : P) : Z := width - len p.

(** [a] is in the block of [p]. *)
Definition member {P} `{PrefixFamily P} (a : Z) (p : P) : Prop :=
  a / 2 ^ low_bits p = base p / 2 ^ low_bits p.

Record wf {P} `{PrefixFamily P} (p : P) : Prop := {
  wf_words : in_width p;
  wf_len : 0 <= len p <= width;
  wf_base : 0 <= base p < 2 ^ width;
  wf_aligned : base p mod 2 ^ low_bits p = 0;
}.

Class PrefixLaws (P : Type) `{PrefixFamily P} := {
  contains_spec (o i : P) : wf o -> wf i ->
    contains o i = true <-> len o <= len i /\ base i / 2 ^ low_bits o = base o / 2 ^ low_bits o;
  halves_spec (p : P) : wf p -> len p < width ->
    len (low_half p) = len p + 1 /\ base (low_half p) = base p /\
    len (high_half p) = len p + 1 /\ base (high_half p) = base p + 2 ^ (low_bits p - 1) /\
    in_width (low_half p) /\ in_width (high_half p);
}.

(** * The subtraction *)

Section Complement.
Context {P : Type} `{PrefixLaws P}.

(** The loop over the table for a candidate: whether some entry covers it, which ends
    the loop, and whether it contains some entry. *)
Fixpoint scan (table : list P) (cur : P) (straddles : bool) : bool * bool :=
  match table with
  | [] => (false, straddles)
  | b :: table =>
      if contains b cur then (true, straddles) else
      scan table cur (straddles || contains cur b)
  end.

(** The explicit stack, its top first; [None] when the fuel runs out or a push would
    leave the array of [cap] entries. *)
Fixpoint complement (cap fuel : nat) (table stack out : list P) : option (list P) :=
  match fuel with
  | O => None
  | S fuel =>
      match stack with
      | [] => Some out
      | cur :: stack =>
          let '(covered, straddles) := scan table cur false in
          if covered then complement cap fuel table stack out else
          if negb straddles then complement cap fuel table stack (out ++ [cur]) else
          if (cap <? length stack + 2)%nat then None else
          complement cap fuel table (low_half cur :: high_half cur :: stack) out
      end
  end.

(** ** Blocks *)

Lemma low_bits_range (p : P) : wf p -> 0 <= low_bits p <= width.
Proof. intros [_ [? ?] _ _]. unfold low_bits. lia. Qed.

Lemma div_div a k j : 0 <= k -> 0 <= j -> a / 2 ^ (k + j) = a / 2 ^ k / 2 ^ j.
Proof. intros. rewrite Z.pow_add_r, Z.div_div by lia. done. Qed.

Lemma pow2_div_mod a k : 0 <= k ->
  0 < 2 ^ k /\ a = a / 2 ^ k * 2 ^ k + a mod 2 ^ k /\ 0 <= a mod 2 ^ k < 2 ^ k.
Proof.
  intros Hk. assert (0 < 2 ^ k) as Hp by (apply Z.pow_pos_nonneg; lia). split_and!; [done| |apply Z.mod_pos_bound, Hp..].
  rewrite Z.mul_comm. apply Z.div_mod. intros E. by rewrite E in Hp.
Qed.

Lemma member_coarser (o i : P) a :
  wf o -> wf i -> len o <= len i -> base i / 2 ^ low_bits o = base o / 2 ^ low_bits o -> member a i -> member a o.
Proof.
  intros Ho Hi Hl Hb Hm. unfold member in *. pose proof (low_bits_range o Ho). pose proof (low_bits_range i Hi).
  assert (low_bits o = low_bits i + (low_bits o - low_bits i)) as E by lia.
  rewrite <- Hb, E, !div_div by (unfold low_bits in *; lia). by rewrite Hm.
Qed.

Lemma contains_member (o i : P) a : wf o -> wf i -> contains o i = true -> member a i -> member a o.
Proof. intros Ho Hi [Hl Hb]%contains_spec; [|done..]. by apply member_coarser. Qed.

(** Two blocks are nested or disjoint. *)
Lemma member_laminar (p q : P) a :
  wf p -> wf q -> member a p -> member a q -> contains p q = true \/ contains q p = true.
Proof.
  intros Hp Hq Mp Mq. destruct (Z.le_ge_cases (len p) (len q)).
  - left. apply contains_spec; [done..|]. split; [done|].
    assert (member (base q) p) as M; [|exact M]. unfold member in *.
    pose proof (low_bits_range p Hp). pose proof (low_bits_range q Hq).
    rewrite <- Mp. assert (low_bits p = low_bits q + (low_bits p - low_bits q)) as E by lia.
    rewrite E, !div_div by (unfold low_bits in *; lia). by rewrite Mq.
  - right. apply contains_spec; [done..|]. split; [lia|].
    assert (member (base p) q) as M; [|exact M]. unfold member in *.
    pose proof (low_bits_range p Hp). pose proof (low_bits_range q Hq).
    rewrite <- Mq. assert (low_bits q = low_bits p + (low_bits q - low_bits p)) as E by lia.
    rewrite E, !div_div by (unfold low_bits in *; lia). by rewrite Mp.
Qed.

Lemma halves_bits (p : P) : wf p -> len p < width ->
  low_bits (low_half p) = low_bits p - 1 /\ low_bits (high_half p) = low_bits p - 1 /\ 0 < low_bits p.
Proof. intros Hp Hl. destruct (halves_spec p Hp Hl) as (E1 & _ & E2 & _ & _). unfold low_bits in *. lia. Qed.

Lemma aligned_split (p : P) : wf p -> 0 < low_bits p ->
  base p = base p / 2 ^ low_bits p * 2 * 2 ^ (low_bits p - 1).
Proof.
  intros [_ _ _ Ha] Hb. destruct (pow2_div_mod (base p) (low_bits p)) as (_ & E & _); [lia|].
  rewrite Ha, Z.add_0_r in E. rewrite <- Z.mul_assoc, <- Z.pow_succ_r by lia.
  by replace (Z.succ (low_bits p - 1)) with (low_bits p) by lia.
Qed.

Lemma halves_wf (p : P) : wf p -> len p < width -> wf (low_half p) /\ wf (high_half p).
Proof.
  intros Hp Hl. pose proof (halves_bits p Hp Hl) as (B1 & B2 & B3).
  destruct (halves_spec p Hp Hl) as (L1 & E1 & L2 & E2 & I1 & I2). pose proof Hp as [_ W1 W2 W3].
  pose proof (aligned_split p Hp B3) as Es. set (k := low_bits p) in *.
  assert (0 < 2 ^ (k - 1)) by (apply Z.pow_pos_nonneg; lia).
  assert (base p + 2 ^ k <= 2 ^ width) as Hend.
  { assert (2 ^ width = 2 ^ (width - k) * 2 ^ k) as Ew
      by (rewrite <- Z.pow_add_r by (unfold k, low_bits; lia); f_equal; lia).
    destruct (pow2_div_mod (base p) k) as (Hk & E & _); [lia|]. fold k in W3. rewrite W3 in E.
    assert (base p / 2 ^ k < 2 ^ (width - k)) by (apply Z.div_lt_upper_bound; lia). nia. }
  assert (2 ^ k = 2 * 2 ^ (k - 1)) as Ek.
  { rewrite <- Z.pow_succ_r by lia. f_equal. lia. }
  split; (split; [done|..]); rewrite ?L1, ?L2, ?E1, ?E2, ?B1, ?B2; try lia.
  - rewrite Es. by apply Z.mod_mul; lia.
  - rewrite Es. replace (_ + 2 ^ (k - 1)) with ((base p / 2 ^ k * 2 + 1) * 2 ^ (k - 1)) by lia.
    by apply Z.mod_mul; lia.
Qed.

(** A block is the disjoint union of its halves. *)
Lemma halves_member (p : P) a : wf p -> len p < width ->
  (member a p <-> member a (low_half p) \/ member a (high_half p)) /\
  ~ (member a (low_half p) /\ member a (high_half p)).
Proof.
  intros Hp Hl. pose proof (halves_bits p Hp Hl) as (B1 & B2 & B3).
  destruct (halves_spec p Hp Hl) as (_ & E1 & _ & E2 & _). pose proof (aligned_split p Hp B3) as Es.
  unfold member. rewrite B1, B2, E1, E2. set (k := low_bits p) in *.
  assert (0 < 2 ^ (k - 1)) by (apply Z.pow_pos_nonneg; lia).
  set (q := base p / 2 ^ k) in *. rewrite Es.
  replace (q * 2 * 2 ^ (k - 1) + 2 ^ (k - 1)) with ((q * 2 + 1) * 2 ^ (k - 1)) by lia.
  rewrite !Z.div_mul by lia.
  replace k with (k - 1 + 1) at 1 by lia. rewrite div_div by lia. change (2 ^ 1) with 2.
  set (x := a / 2 ^ (k - 1)). split; [|lia].
  pose proof (Z.div_mod x 2 ltac:(lia)). pose proof (Z.mod_pos_bound x 2 ltac:(lia)). lia.
Qed.

(** ** The loop *)

Lemma scan_spec table cur s :
  (fst (scan table cur s) = true <-> exists b, b ∈ table /\ contains b cur = true) /\
  (fst (scan table cur s) = false ->
   (snd (scan table cur s) = true <-> s = true \/ exists b, b ∈ table /\ contains cur b = true)).
Proof.
  revert s. induction table as [|b table IH]; intros s; cbn [scan].
  - cbn. split; [split; [done|]|intros _; split; [by left|]]; [|intros [?|(b & Hb & _)]; [done|]];
      [intros (b & Hb & _)|]; by apply elem_of_nil in Hb.
  - destruct (contains b cur) eqn:E; cbn.
    + split; [|done]. split; [|done]. intros _. exists b. set_solver.
    + destruct (IH (s || contains cur b)) as [I1 I2]. rewrite I1. split.
      * setoid_rewrite elem_of_cons. split; [intros (x & ? & ?); eauto|]. intros (x & [-> | ?] & ?); [congruence|eauto].
      * intros Hf. rewrite (I2 Hf), orb_true_iff. setoid_rewrite elem_of_cons. naive_solver.
Qed.

(** [p] lies wholly before [q]. *)
Definition before (p q : P) : Prop := base p + 2 ^ low_bits p <= base q.

Definition uncovered (table : list P) (a : Z) : Prop := forall b, b ∈ table -> ~ member a b.

Lemma StronglySorted_mid (l1 l2 : list P) (x : P) (ys : list P) :
  (forall z, before z x -> Forall (before z) ys) ->
  (forall z, before x z -> Forall (fun y => before y z) ys) ->
  StronglySorted before ys ->
  StronglySorted before (l1 ++ x :: l2) -> StronglySorted before (l1 ++ ys ++ l2).
Proof.
  intros Hl Hr Hys. induction l1 as [|z l1 IH]; cbn; intros S; apply StronglySorted_inv in S as [S F].
  - clear Hl. induction Hys as [|y ys Hy IHy Fy]; cbn; [done|]. constructor.
    + apply IHy. intros z Hz. specialize (Hr z Hz). by inversion Hr.
    + apply Forall_app. split; [done|]. eapply Forall_impl; [exact F|]. intros z Hz.
      specialize (Hr z Hz). by inversion Hr.
  - constructor; [by apply IH|]. apply Forall_app in F as [F1 F2]. apply Forall_cons in F2 as [Fx F2].
    apply Forall_app. split; [done|]. apply Forall_app. split; [by apply Hl|done].
Qed.

Lemma complement_spec cap fuel table : forall stack out res,
  Forall wf table -> Forall wf stack -> Forall wf out -> StronglySorted before (out ++ stack) ->
  complement cap fuel table stack out = Some res ->
  Forall wf res /\ StronglySorted before res /\
  forall a, (exists p, p ∈ res /\ member a p) <->
    (exists p, p ∈ out /\ member a p) \/ (uncovered table a /\ exists p, p ∈ stack /\ member a p).
Proof.
  induction fuel as [|fuel IH]; intros stack out res Ht Hst Ho Hs; cbn [complement]; [done|].
  destruct stack as [|cur stack].
  { intros [= <-]. rewrite app_nil_r in Hs. split_and!; [done|done|]. intros a. split; [by left|].
    intros [?|(_ & p & Hp & _)]; [done|]. by apply elem_of_nil in Hp. }
  apply Forall_cons in Hst as [Hcur Hst]. pose proof (scan_spec table cur false) as [Hc Hx].
  destruct (scan table cur false) as [covered straddles]. cbn [fst snd] in *.
  assert (forall b, b ∈ table -> wf b) as Hwf by (by apply Forall_forall).
  setoid_rewrite elem_of_cons. destruct covered; [|destruct straddles; cbn [negb]].
  - intros E. apply (IH stack out res) in E as (R1 & R2 & R3); try done.
    + split_and!; [done|done|]. intros a. rewrite R3. destruct (proj1 Hc eq_refl) as (b & Hb & Hbc).
      split; intros [?|(Hu & p & Hp & Hm)]; [by left|right; split; [done|]; exists p; auto|by left|].
      destruct Hp as [-> | Hp]; [|right; eauto].
      destruct (Hu b Hb). by apply (contains_member b cur); auto.
    + apply (StronglySorted_mid out stack cur []); [done..|constructor|done].
  - destruct (_ <? _)%nat; [done|]. intros E.
    destruct (proj1 (Hx eq_refl) eq_refl) as [?|(b & Hb & Hcb)]; [done|].
    assert (len cur < width) as Hl.
    { apply contains_spec in Hcb as Hcb'; [|done|auto]. destruct Hcb' as [Hle Hba].
      destruct (wf_len b (Hwf b Hb)). destruct (Z.eq_dec (len cur) (len b)); [|lia].
      exfalso. assert (contains b cur = true) as Hbc; [|assert (false = true) by (apply Hc; eauto); done].
      apply contains_spec; [auto|done|]. split; [lia|]. unfold low_bits in *. rewrite <- e. done. }
    pose proof (halves_wf cur Hcur Hl) as [Wl Wh]. pose proof (halves_bits cur Hcur Hl) as (B1 & B2 & B3).
    destruct (halves_spec cur Hcur Hl) as (_ & E1 & _ & E2 & _).
    assert (2 ^ low_bits cur = 2 * 2 ^ (low_bits cur - 1)) as Ek.
    { rewrite <- Z.pow_succ_r by lia. f_equal. lia. }
    assert (0 < 2 ^ (low_bits cur - 1)) by (apply Z.pow_pos_nonneg; lia).
    apply (IH (low_half cur :: high_half cur :: stack) out res) in E as (R1 & R2 & R3); try done.
    + split_and!; [done|done|]. intros a. rewrite R3.
      destruct (halves_member cur a Hcur Hl) as [Hm _].
      split; (intros [?|(Hu & p & Hp & M)]; [by left|right; split; [done|]]).
      * apply elem_of_cons in Hp as [-> | [-> | Hp]%elem_of_cons]; [exists cur|exists cur|exists p];
          (split; [auto|]); [apply Hm; by left|apply Hm; by right|done].
      * destruct Hp as [-> | Hp]; [apply Hm in M as [M|M]|]; eexists; (split; [|exact M]); set_solver.
    + constructor; [done|]. by constructor.
    + change (low_half cur :: high_half cur :: stack) with ([low_half cur; high_half cur] ++ stack).
      eapply StronglySorted_mid; [| | |exact Hs]; unfold before; intros; rewrite ?B1, ?B2, ?E1, ?E2 in *.
      * repeat constructor; unfold before; rewrite ?E1, ?E2; lia.
      * repeat constructor; unfold before; rewrite ?B1, ?B2, ?E1, ?E2; lia.
      * repeat constructor; unfold before; rewrite ?B1, ?B2, ?E1, ?E2; lia.
  - intros E. apply (IH stack (out ++ [cur]) res) in E as (R1 & R2 & R3); try done.
    + split_and!; [done|done|]. intros a. rewrite R3. setoid_rewrite elem_of_app.
      setoid_rewrite list_elem_of_singleton. split.
      2: { intros [(p & Hp & Hm)|(Hu & p & [-> | Hp] & Hm)]; [left; eauto|left; eauto|right; eauto]. }
      intros [(p & [Hp | ->] & Hm)|(Hu & p & Hp & Hm)]; [left; eauto| |right; eauto].
      right. split; [|eauto]. intros b Hb Hmb.
      destruct (member_laminar b cur a (Hwf b Hb) Hcur Hmb Hm) as [Hbc|Hcb].
      * assert (false = true) by (apply Hc; eauto). done.
      * assert (false = true) by (apply (Hx eq_refl); eauto). done.
    + apply Forall_app. split; [done|]. by constructor.
    + by rewrite <- app_assoc.
Qed.

(** The blocks of a sorted list are disjoint. *)
Lemma sorted_disjoint (l : list P) a p q :
  Forall wf l -> StronglySorted before l -> p ∈ l -> q ∈ l -> member a p -> member a q -> p = q.
Proof.
  assert (forall x, wf x -> member a x -> base x <= a < base x + 2 ^ low_bits x) as Hin.
  { intros x Hx Hm. unfold member in Hm. pose proof (low_bits_range x Hx). destruct Hx as [_ _ _ Ha].
    set (k := low_bits x) in *. destruct (pow2_div_mod (base x) k) as (_ & Ex & _); [lia|].
    destruct (pow2_div_mod a k) as (_ & Ea & Hr); [lia|]. rewrite Ha in Ex. rewrite Hm in Ea. lia. }
  intros Hw Hs. rewrite Forall_forall in Hw. induction Hs as [|x l Hs IH F]; intros Hp Hq Mp Mq;
    [by apply elem_of_nil in Hp|]. rewrite Forall_forall in F.
  assert (forall y, y ∈ l -> member a y -> member a x -> False) as Hxy.
  { intros y Hy My Mx. specialize (F y Hy). unfold before in F.
    pose proof (Hin x (Hw x ltac:(set_solver)) Mx). pose proof (Hin y (Hw y ltac:(set_solver)) My). lia. }
  apply elem_of_cons in Hp as [-> | Hp], Hq as [-> | Hq]; [done|by destruct (Hxy q)|by destruct (Hxy p)|].
  apply IH; try done. intros y Hy. apply Hw. set_solver.
Qed.
End Complement.

(** * IPv4 *)

Record V4Prefix := mkV4 { network : Z; prefix : Z }.

Definition kLocalBypassV4 : list V4Prefix :=
  [mkV4 0x0A000000 8; mkV4 0xAC100000 12; mkV4 0xC0A80000 16].

Definition PrefixMask (p : Z) : Z := if p =? 0 then 0 else u32 (Z.shiftl 0xFFFFFFFF (32 - p)).

Definition ContainsV4 (outer inner : V4Prefix) : bool :=
  if prefix inner <? prefix outer then false
  else Z.land (network inner) (PrefixMask (prefix outer)) =? network outer.

(** The two halves the straddling candidate is replaced by. *)
Definition low_half_v4 (cur : V4Prefix) : V4Prefix := mkV4 (network cur) (u8 (prefix cur + 1)).
Definition high_half_v4 (cur : V4Prefix) : V4Prefix :=
  let half := u8 (prefix cur + 1) in
  let step := Z.shiftl 1 (32 - half) in
  mkV4 (u32 (network cur + step)) half.

#[export] Instance V4Family : PrefixFamily V4Prefix := {
  width := 32;
  in_width p := 0 <= network p < 2 ^ 32;
  base := network;
  len := prefix;
  contains := ContainsV4;
  low_half := low_half_v4;
  high_half := high_half_v4;
}.

Definition ComplementV4 : option (list V4Prefix) := complement 64 256 kLocalBypassV4 [mkV4 0 0] [].
Definition kTunCaptureV4 : list V4Prefix := default [] ComplementV4.
Definition kTunCaptureV4Count : nat := length kTunCaptureV4.

Definition IsLocalBypassV4 (hostOrderAddr : Z) : bool :=
  existsb (fun b => Z.land hostOrderAddr (PrefixMask (prefix b)) =? network b) kLocalBypassV4.

(** ** Masks *)

Lemma land_mask w a k :
  0 <= k <= w -> 0 <= a < 2 ^ w -> Z.land a (wrap w (Z.shiftl (2 ^ w - 1) k)) = a / 2 ^ k * 2 ^ k.
Proof.
  intros Hk Ha. rewrite <- Z.shiftr_div_pow2, <- Z.shiftl_mul_pow2 by lia.
  replace (2 ^ w - 1) with (Z.ones w) by (rewrite Z.ones_equiv; lia).
  apply Z.bits_inj'. intros n Hn. unfold wrap. rewrite Z.land_spec.
  destruct (Z.lt_ge_cases n w) as [Hw|Hw].
  - rewrite Z.mod_pow2_bits_low by lia. destruct (Z.lt_ge_cases n k) as [Hnk|Hnk].
    + by rewrite !Z.shiftl_spec_low, andb_false_r by lia.
    + rewrite !Z.shiftl_spec_high, Z.ones_spec_low, andb_true_r, Z.shiftr_spec by lia. f_equal. lia.
  - rewrite Z.mod_pow2_bits_high, andb_false_r by lia.
    rewrite Z.shiftl_spec_high, Z.shiftr_spec by lia. replace (n - k + k) with n by lia.
    destruct (Z.eq_dec a 0) as [-> | Hz]; [by rewrite Z.bits_0|].
    symmetry. apply Z.bits_above_log2; [lia|]. apply Z.lt_le_trans with w; [|done]. apply Z.log2_lt_pow2; lia.
Qed.

Lemma land_PrefixMask a p : 0 <= p <= 32 -> 0 <= a < 2 ^ 32 ->
  Z.land a (PrefixMask p) = a / 2 ^ (32 - p) * 2 ^ (32 - p).
Proof.
  intros Hp Ha. unfold PrefixMask. destruct (Z.eqb_spec p 0) as [-> |].
  - rewrite Z.land_0_r. change (32 - 0) with 32. by rewrite Z.div_small by lia.
  - change 0xFFFFFFFF with (2 ^ 32 - 1). by rewrite land_mask by lia.
Qed.

(** A multiple of a block's size equals another's rounding when the two are in one
    block. *)
Lemma round_eq a n k : 0 <= k -> n mod 2 ^ k = 0 -> a / 2 ^ k * 2 ^ k = n <-> a / 2 ^ k = n / 2 ^ k.
Proof.
  intros Hk Hn. assert (0 < 2 ^ k) as Hp by (apply Z.pow_pos_nonneg; lia).
  assert (n = n / 2 ^ k * 2 ^ k) as En.
  { destruct (pow2_div_mod n k Hk) as (_ & E & _). lia. }
  split; intros E.
  - rewrite <- E. by rewrite Z.div_mul by lia.
  - by rewrite E.
Qed.

#[export] Instance V4Laws : PrefixLaws V4Prefix.
Proof.
  split.
  - intros o i [Ro Lo Bo Ao] [Ri Li Bi Ai]. cbn in *. unfold low_bits in *. cbn in *. unfold ContainsV4.
    destruct (Z.ltb_spec (prefix i) (prefix o)); [split; [done|lia]|].
    rewrite Z.eqb_eq, land_PrefixMask, round_eq by lia. naive_solver.
  - intros p [Rp Lp Bp Ap] Hl. cbn in *. unfold low_bits in *. cbn in *.
    unfold low_half_v4, high_half_v4. cbn [prefix network].
    assert (u8 (prefix p + 1) = prefix p + 1) as -> by (apply wrap_small; lia).
    rewrite Z.shiftl_mul_pow2, Z.mul_1_l by lia. replace (32 - (prefix p + 1)) with (32 - prefix p - 1) by lia.
    set (k := 32 - prefix p) in *.
    assert (network p + 2 ^ k <= 2 ^ 32) as Hend.
    { destruct (pow2_div_mod (network p) k) as (Hk & E & _); [lia|]. rewrite Ap in E.
      assert (2 ^ 32 = 2 ^ (32 - k) * 2 ^ k) as Ew by (rewrite <- Z.pow_add_r by lia; f_equal; lia).
      assert (network p / 2 ^ k < 2 ^ (32 - k)) by (apply Z.div_lt_upper_bound; lia). nia. }
    assert (2 ^ k = 2 * 2 ^ (k - 1)) by (rewrite <- Z.pow_succ_r by lia; f_equal; lia).
    assert (0 < 2 ^ (k - 1)) by (apply Z.pow_pos_nonneg; lia).
    rewrite wrap_small by lia. split_and!; lia.
Qed.

(** * IPv6 *)

Record V6Prefix := mkV6 { hi : Z; lo : Z; prefix6 : Z }.

(** The network-order bytes of a half, most significant first. *)
Definition half_bytes (x : Z) : list Z :=
  map (fun i => u8 (Z.shiftr x (56 - 8 * i))) [0; 1; 2; 3; 4; 5; 6; 7].

Definition Bytes (p : V6Prefix) : list Z := half_bytes (hi p) ++ half_bytes (lo p).

(** [hi = (hi << 8) | b[i]] over eight bytes. *)
Definition from_half (b : list Z) : Z := foldl (fun x c => Z.lor (u64 (Z.shiftl x 8)) c) 0 b.

Definition FromBytes (b : list Z) (p : Z) : V6Prefix :=
  mkV6 (from_half (take 8 b)) (from_half (take 8 (drop 8 b))) p.

Definition kLocalBypassV6 : list V6Prefix :=
  [mkV6 0xFC00000000000000 0 7; mkV6 0xFE80000000000000 0 10; mkV6 0xFF00000000000000 0 8].

Definition MaskHi6 (p : Z) : Z :=
  if p =? 0 then 0 else
  if 64 <=? p then uint64_max else
  u64 (Z.shiftl uint64_max (64 - p)).

Definition MaskLo6 (p : Z) : Z :=
  if p <=? 64 then 0 else
  if 128 <=? p then uint64_max else
  u64 (Z.shiftl uint64_max (128 - p)).

Definition ContainsV6 (outer inner : V6Prefix) : bool :=
  if prefix6 inner <? prefix6 outer then false
  else (Z.land (hi inner) (MaskHi6 (prefix6 outer)) =? hi outer) &&
       (Z.land (lo inner) (MaskLo6 (prefix6 outer)) =? lo outer).

Definition low_half_v6 (cur : V6Prefix) : V6Prefix := mkV6 (hi cur) (lo cur) (u8 (prefix6 cur + 1)).
Definition high_half_v6 (cur : V6Prefix) : V6Prefix :=
  let half := u8 (prefix6 cur + 1) in
  if half <=? 64 then mkV6 (u64 (hi cur + Z.shiftl 1 (64 - half))) (lo cur) half
  else mkV6 (hi cur) (u64 (lo cur + Z.shiftl 1 (128 - half))) half.

(** The address two halves make. *)
Definition address6 (h l : Z) : Z := h * 2 ^ 64 + l.

#[export] Instance V6Family : PrefixFamily V6Prefix := {
  width := 128;
  in_width p := 0 <= hi p < 2 ^ 64 /\ 0 <= lo p < 2 ^ 64;
  base p := address6 (hi p) (lo p);
  len := prefix6;
  contains := ContainsV6;
  low_half := low_half_v6;
  high_half := high_half_v6;
}.

Definition ComplementV6 : option (list V6Prefix) := complement 260 256 kLocalBypassV6 [mkV6 0 0 0] [].
Definition kTunCaptureV6 : list V6Prefix := default [] ComplementV6.
Definition kTunCaptureV6Count : nat := length kTunCaptureV6.

Definition IsLocalBypassV6 (h l : Z) : bool :=
  if (h =? 0) && (l =? 1) then true else
  existsb (fun b => (Z.land h (MaskHi6 (prefix6 b)) =? hi b) && (Z.land l (MaskLo6 (prefix6 b)) =? lo b))
    kLocalBypassV6.

(** The overload for the 16 network-order bytes. *)
Definition IsLocalBypassV6_bytes (addr : list Z) : bool :=
  let p := FromBytes addr 128 in IsLocalBypassV6 (hi p) (lo p).

(** ** Masks *)

Lemma land_ones64 a : 0 <= a < 2 ^ 64 -> Z.land a uint64_max = a.
Proof.
  intros Ha. change uint64_max with (Z.ones 64). rewrite Z.land_ones by lia. by apply Z.mod_small.
Qed.

Lemma address6_div_high h l k : 0 <= l < 2 ^ 64 -> 0 <= k -> address6 h l / 2 ^ (64 + k) = h / 2 ^ k.
Proof.
  intros Hl Hk. unfold address6. rewrite Z.pow_add_r, <- Z.div_div by lia.
  rewrite Z.div_add_l, (Z.div_small l) by lia. by rewrite Z.add_0_r.
Qed.

Lemma address6_div_low h l k : 0 <= k <= 64 -> address6 h l / 2 ^ k = h * 2 ^ (64 - k) + l / 2 ^ k.
Proof.
  intros Hk. unfold address6. assert (0 < 2 ^ k) by (apply Z.pow_pos_nonneg; lia).
  replace (2 ^ 64) with (2 ^ (64 - k) * 2 ^ k) by (rewrite <- Z.pow_add_r by lia; f_equal; lia).
  rewrite Z.mul_assoc, Z.div_add_l by lia. done.
Qed.

(** The test both [ContainsV6] and [IsLocalBypassV6] make, as one on addresses. *)
Lemma mask6_spec h l (o : V6Prefix) :
  wf o -> 0 <= h < 2 ^ 64 -> 0 <= l < 2 ^ 64 ->
  (Z.land h (MaskHi6 (prefix6 o)) = hi o /\ Z.land l (MaskLo6 (prefix6 o)) = lo o) <->
  address6 h l / 2 ^ (128 - prefix6 o) = address6 (hi o) (lo o) / 2 ^ (128 - prefix6 o).
Proof.
  intros [[Rh Rl] Lo Bo Ao] Hh Hl. cbn in *. unfold low_bits in Ao. cbn in Ao.
  set (p := prefix6 o) in *. unfold MaskHi6, MaskLo6.
  destruct (Z.leb_spec p 64) as [Hp|Hp].
  - rewrite Z.land_0_r. set (k := 64 - p).
    assert (Z.land h (if p =? 0 then 0 else if 64 <=? p then uint64_max else u64 (Z.shiftl uint64_max k))
      = h / 2 ^ k * 2 ^ k) as ->.
    { destruct (Z.eqb_spec p 0) as [E|]; [|destruct (Z.leb_spec 64 p)].
      - rewrite Z.land_0_r. unfold k. rewrite E. change (64 - 0) with 64. by rewrite Z.div_small by lia.
      - rewrite land_ones64 by done. unfold k. replace (64 - p) with 0 by lia. by rewrite Z.div_1_r, Z.mul_1_r.
      - change uint64_max with (2 ^ 64 - 1). by rewrite land_mask by lia. }
    replace (128 - p) with (64 + k) in * by lia. rewrite !address6_div_high by lia.
    assert (lo o = 0 /\ hi o mod 2 ^ k = 0) as [E0 E1].
    { destruct (pow2_div_mod (address6 (hi o) (lo o)) (64 + k)) as (_ & E & _); [lia|]. rewrite Ao in E.
      rewrite address6_div_high, Z.pow_add_r, Z.add_0_r in E by lia. unfold address6 in E.
      destruct (pow2_div_mod (hi o) k) as (P1 & P2 & P3); [lia|]. lia. }
    rewrite (round_eq h (hi o) k) by lia. naive_solver.
  - rewrite (proj2 (Z.eqb_neq p 0)), (proj2 (Z.leb_le 64 p)) by lia. rewrite land_ones64 by done. set (k := 128 - p) in *.
    assert (Z.land l (if 128 <=? p then uint64_max else u64 (Z.shiftl uint64_max k)) = l / 2 ^ k * 2 ^ k) as ->.
    { destruct (Z.leb_spec 128 p).
      - rewrite land_ones64 by done. unfold k. replace (128 - p) with 0 by lia. by rewrite Z.div_1_r, Z.mul_1_r.
      - change uint64_max with (2 ^ 64 - 1). by rewrite land_mask by lia. }
    rewrite !address6_div_low by lia.
    assert (lo o mod 2 ^ k = 0) as E1.
    { rewrite <- Ao. unfold address6. symmetry.
      replace (2 ^ 64) with (2 ^ (64 - k) * 2 ^ k) by (rewrite <- Z.pow_add_r by lia; f_equal; lia).
      rewrite Z.mul_assoc, Z.add_comm. apply Z_mod_plus_full. }
    rewrite (round_eq l (lo o) k) by lia.
    assert (forall x, 0 <= x < 2 ^ 64 -> 0 <= x / 2 ^ k < 2 ^ (64 - k)) as Hx.
    { intros x Hx. assert (0 < 2 ^ k) by (apply Z.pow_pos_nonneg; lia). split; [apply Z.div_pos; lia|].
      apply Z.div_lt_upper_bound; [lia|]. rewrite <- Z.pow_add_r by lia. replace (k + (64 - k)) with 64 by lia. lia. }
    pose proof (Hx l Hl). pose proof (Hx (lo o) Rl). split; [intros [-> ->]; done|]. intros E.
    assert (h = hi o) by nia. subst h. split; [done|]. lia.
Qed.

#[export] Instance V6Laws : PrefixLaws V6Prefix.
Proof.
  split.
  - intros o i Ho [[Rh Rl] Li Bi Ai]. cbn in *. unfold ContainsV6, low_bits. cbn.
    destruct (Z.ltb_spec (prefix6 i) (prefix6 o)); [split; [done|lia]|].
    rewrite andb_true_iff, !Z.eqb_eq, (mask6_spec (hi i) (lo i) o Ho Rh Rl). naive_solver.
  - intros p Hp Hl. pose proof Hp as [[Rh Rl] Lp Bp Ap]. cbn in *. unfold low_bits in *. cbn in *.
    unfold low_half_v6, high_half_v6. cbn [prefix6 hi lo].
    assert (u8 (prefix6 p + 1) = prefix6 p + 1) as -> by (apply wrap_small; lia).
    set (k := 128 - prefix6 p) in *. split; [done|]. split; [done|].
    destruct (pow2_div_mod (address6 (hi p) (lo p)) k) as (_ & E & _); [lia|]. rewrite Ap, Z.add_0_r in E.
    assert (0 < 2 ^ (k - 1)) by (apply Z.pow_pos_nonneg; lia).
    destruct (Z.leb_spec (prefix6 p + 1) 64) as [Hh|Hh]; cbn [hi lo prefix6];
      rewrite Z.shiftl_mul_pow2, Z.mul_1_l by lia.
    + replace (64 - (prefix6 p + 1)) with (k - 65) by lia.
      replace k with (64 + (k - 64)) in E by lia. rewrite address6_div_high, Z.pow_add_r in E by lia.
      destruct (pow2_div_mod (hi p) (k - 64)) as (P1 & P2 & P3); [lia|].
      assert (2 ^ (k - 64) = 2 * 2 ^ (k - 65)) as Ek by (rewrite <- Z.pow_succ_r by lia; f_equal; lia).
      assert (0 < 2 ^ (k - 65)) by (apply Z.pow_pos_nonneg; lia).
      assert (hi p + 2 ^ (k - 64) <= 2 ^ 64) as Hend.
      { assert (hi p = hi p / 2 ^ (k - 64) * 2 ^ (k - 64)) by (unfold address6 in E; lia).
        assert (2 ^ 64 = 2 ^ (128 - k) * 2 ^ (k - 64)) as Ew by (rewrite <- Z.pow_add_r by lia; f_equal; lia).
        assert (hi p / 2 ^ (k - 64) < 2 ^ (128 - k)) by (apply Z.div_lt_upper_bound; lia). nia. }
      assert (2 ^ (k - 1) = 2 ^ (k - 65) * 2 ^ 64) as Ep by (rewrite <- Z.pow_add_r by lia; f_equal; lia).
      rewrite wrap_small by lia. unfold address6 in *. split_and!; lia.
    + replace (128 - (prefix6 p + 1)) with (k - 1) by lia.
      assert (2 ^ k = 2 * 2 ^ (k - 1)) as Ek by (rewrite <- Z.pow_succ_r by lia; f_equal; lia).
      assert (lo p + 2 ^ k <= 2 ^ 64) as Hend.
      { rewrite address6_div_low in E by lia. unfold address6 in E.
        assert (2 ^ 64 = 2 ^ (64 - k) * 2 ^ k) as Ew by (rewrite <- Z.pow_add_r by lia; f_equal; lia).
        assert (lo p = lo p / 2 ^ k * 2 ^ k) by nia.
        assert (lo p / 2 ^ k < 2 ^ (64 - k)) by (apply Z.div_lt_upper_bound; lia). nia. }
      rewrite wrap_small by lia. unfold address6 in *. split_and!; lia.
Qed.

(** * The tables *)

(** Two prefixes of a list that are the halves of one block could be merged. *)
Definition mergeable_v4 (p q : V4Prefix) : bool :=
  (prefix p =? prefix q) && (0 <? prefix p) &&
  (network p / 2 ^ (33 - prefix p) =? network q / 2 ^ (33 - prefix q)) && negb (network p =? network q).

Definition mergeable_v6 (p q : V6Prefix) : bool :=
  (prefix6 p =? prefix6 q) && (0 <? prefix6 p) &&
  (base p / 2 ^ (129 - prefix6 p) =? base q / 2 ^ (129 - prefix6 q)) && negb (base p =? base q).

Lemma table_v4_wf : Forall wf kLocalBypassV4.
Proof. repeat constructor; cbn; try lia. Qed.

Lemma table_v6_wf : Forall wf kLocalBypassV6.
Proof. repeat constructor; cbn; try lia; vm_compute; congruence. Qed.

Lemma root_v4_wf : wf (mkV4 0 0).
Proof. split; cbn; lia || done. Qed.

Lemma root_v6_wf : wf (mkV6 0 0 0).
Proof. split; cbn; lia || done. Qed.

Lemma root_v4_member a : 0 <= a < 2 ^ 32 -> member a (mkV4 0 0).
Proof. intros Ha. unfold member, low_bits. cbn [width V4Family len prefix base network]. by rewrite Z.div_small. Qed.

Lemma root_v6_member a : 0 <= a < 2 ^ 128 -> member a (mkV6 0 0 0).
Proof. intros Ha. unfold member, low_bits. cbn [width V6Family len prefix6 base hi lo]. by rewrite Z.div_small. Qed.

Lemma ComplementV4_Some : ComplementV4 = Some kTunCaptureV4.
Proof. vm_compute. reflexivity. Qed.

Lemma ComplementV6_Some : ComplementV6 = Some kTunCaptureV6.
Proof. vm_compute. reflexivity. Qed.

(** What the subtraction gives on a table, from the whole space. *)
Lemma complement_root {P} `{PrefixLaws P} cap fuel table (root : P) res :
  Forall wf table -> wf root -> complement cap fuel table [root] [] = Some res ->
  Forall wf res /\ StronglySorted before res /\
  (forall a, member a root -> (exists p, p ∈ res /\ member a p) <-> uncovered table a) /\
  (forall a p q, p ∈ res -> q ∈ res -> member a p -> member a q -> p = q).
Proof.
  intros Ht Hr E. destruct (complement_spec cap fuel table [root] [] res) as (R1 & R2 & R3); try done.
  - by constructor.
  - repeat constructor.
  - split_and!; [done|done| |].
    + intros a Ha. rewrite R3. split.
      * intros [(p & Hp & _)|[Hu _]]; [by apply elem_of_nil in Hp|done].
      * intros Hu. right. split; [done|]. exists root. split; [set_solver|done].
    + intros a p q. by apply sorted_disjoint.
Qed.

Lemma uncovered_iff {P} `{PrefixFamily P} (f : P -> bool) table a :
  (forall b, b ∈ table -> f b = true <-> member a b) -> uncovered table a <-> existsb f table = false.
Proof.
  intros Hf. unfold uncovered. rewrite <- not_true_iff_false, existsb_exists. split.
  - intros Hu (b & Hb%list_elem_of_In & E). apply (Hu b Hb). by apply Hf.
  - intros He b Hb Hm. apply He. exists b. split; [by apply list_elem_of_In|by apply Hf].
Qed.

Lemma bypass_v4_uncovered a : 0 <= a < 2 ^ 32 -> IsLocalBypassV4 a = false <-> uncovered kLocalBypassV4 a.
Proof.
  intros Ha. unfold IsLocalBypassV4. symmetry. apply uncovered_iff. intros b Hb.
  pose proof table_v4_wf as W. rewrite Forall_forall in W. destruct (W b Hb) as [R L B A].
  unfold member, low_bits in *. cbn in *. by rewrite Z.eqb_eq, land_PrefixMask, round_eq by lia.
Qed.

Lemma capture_v4_iff a :
  0 <= a < 2 ^ 32 -> (exists p, p ∈ kTunCaptureV4 /\ member a p) <-> IsLocalBypassV4 a = false.
Proof.
  intros Ha. destruct (complement_root 64 256 kLocalBypassV4 (mkV4 0 0) kTunCaptureV4 table_v4_wf root_v4_wf
    ComplementV4_Some) as (_ & _ & R & _).
  rewrite bypass_v4_uncovered by done. by apply R, root_v4_member.
Qed.

Lemma bypass_v6_uncovered h l : 0 <= h < 2 ^ 64 -> 0 <= l < 2 ^ 64 ->
  IsLocalBypassV6 h l = false <-> uncovered kLocalBypassV6 (address6 h l) /\ address6 h l <> 1.
Proof.
  intros Hh Hl.
  assert (uncovered kLocalBypassV6 (address6 h l) <->
    existsb (fun b => (Z.land h (MaskHi6 (prefix6 b)) =? hi b) && (Z.land l (MaskLo6 (prefix6 b)) =? lo b))
      kLocalBypassV6 = false) as Hu.
  { apply uncovered_iff. intros b Hb. pose proof table_v6_wf as W. rewrite Forall_forall in W. specialize (W b Hb).
    rewrite andb_true_iff, !Z.eqb_eq. by apply mask6_spec. }
  rewrite Hu. unfold IsLocalBypassV6, address6.
  destruct ((h =? 0) && (l =? 1)) eqn:E.
  - bool_hyps. subst. split; [done|]. intros [_ Hn]. by destruct Hn.
  - assert (h * 2 ^ 64 + l <> 1); [|tauto]. intros E1. assert (h = 0 /\ l = 1) as [-> ->] by lia. done.
Qed.

Lemma half_bytes_from x : 0 <= x < 2 ^ 64 -> from_half (half_bytes x) = x.
Proof.
  intros Hx. apply Z.bits_inj'. intros n Hn. unfold from_half, half_bytes. cbn [map foldl].
  assert (forall y c m, 0 <= m -> 0 <= c < 2 ^ 8 ->
    Z.testbit (Z.lor (u64 (Z.shiftl y 8)) c) m =
    if m <? 8 then Z.testbit c m else if m <? 64 then Z.testbit y (m - 8) else false) as Hb.
  { intros y c m Hm Hc. rewrite Z.lor_spec. unfold wrap.
    assert (8 <= m -> Z.testbit c m = false) as Hc8.
    { intros H8. rewrite <- (Z.mod_small c (2 ^ 8) Hc). apply Z.mod_pow2_bits_high. lia. }
    destruct (Z.ltb_spec m 8); [|destruct (Z.ltb_spec m 64)].
    - rewrite Z.mod_pow2_bits_low, Z.shiftl_spec_low by lia. done.
    - rewrite Z.mod_pow2_bits_low, Z.shiftl_spec by lia. by rewrite Hc8, orb_false_r by lia.
    - rewrite Z.mod_pow2_bits_high by lia. by rewrite Hc8 by lia. }
  assert (forall s, 0 <= u8 (Z.shiftr x s) < 2 ^ 8) as Hr by (intros s; apply wrap_range; lia).
  assert (forall s m, 0 <= s -> 0 <= m < 8 -> Z.testbit (u8 (Z.shiftr x s)) m = Z.testbit x (m + s)) as Ht.
  { intros s m Hs Hm. unfold wrap. rewrite Z.mod_pow2_bits_low, Z.shiftr_spec by lia. done. }
  destruct (Z.lt_ge_cases n 64) as [H64|H64].
  - repeat (rewrite Hb by (lia || apply Hr);
      match goal with |- context [?m <? 8] => destruct (Z.ltb_spec m 8) end; [rewrite Ht by lia; f_equal; lia|];
      rewrite (proj2 (Z.ltb_lt _ 64)) by lia).
    lia.
  - rewrite Hb by (lia || apply Hr). rewrite !(proj2 (Z.ltb_ge _ _)) by lia.
    rewrite <- (Z.mod_small x (2 ^ 64) Hx). symmetry. apply Z.mod_pow2_bits_high. lia.
Qed.

Lemma length_half_bytes x : length (half_bytes x) = 8%nat.
Proof. done. Qed.

(** * Properties *)

(** C10: the firewall's bypass set and the tunnel's IPv4 routes are one decision.  The 31
    prefixes the subtraction derives are well formed and sorted, each address is in
    at most one of them, and it is in one exactly when the bypass test is false: no
    address is both routed out of the physical adapter and captured, none is
    neither, and no two of the prefixes could be merged. *)
Theorem capture_v4_partition a :
  0 <= a < 2 ^ 32 ->
  ((exists p, p ∈ kTunCaptureV4 /\ member a p) <-> IsLocalBypassV4 a = false) /\
  (forall p q, p ∈ kTunCaptureV4 -> q ∈ kTunCaptureV4 -> member a p -> member a q -> p = q) /\
  StronglySorted before kTunCaptureV4 /\ kTunCaptureV4Count = 31%nat /\
  forallb (fun p => forallb (fun q => negb (mergeable_v4 p q)) kTunCaptureV4) kTunCaptureV4 = true.
Proof.
  intros Ha. destruct (complement_root 64 256 kLocalBypassV4 (mkV4 0 0) kTunCaptureV4 table_v4_wf root_v4_wf
    ComplementV4_Some) as (R1 & R2 & R3 & R4).
  split; [by apply capture_v4_iff|].
  split; [apply R4|]. split; [done|]. split; vm_compute; reflexivity.
Qed.

Lemma capture_v4_partition_witness :
  let a := 0x08080808 in
  ((exists p, p ∈ kTunCaptureV4 /\ member a p) <-> IsLocalBypassV4 a = false) /\
  (forall p q, p ∈ kTunCaptureV4 -> q ∈ kTunCaptureV4 -> member a p -> member a q -> p = q) /\
  StronglySorted before kTunCaptureV4 /\ kTunCaptureV4Count = 31%nat /\
  forallb (fun p => forallb (fun q => negb (mergeable_v4 p q)) kTunCaptureV4) kTunCaptureV4 = true.
Proof. apply capture_v4_partition. lia. Defined.

(** The same for IPv6 and its 8 derived prefixes.  The bypass test, besides, answers
    for loopback (::1), which the capture set covers and the stack's own route
    keeps. *)
Theorem capture_v6_partition h l :
  0 <= h < 2 ^ 64 -> 0 <= l < 2 ^ 64 ->
  (IsLocalBypassV6 h l = false <->
   (exists p, p ∈ kTunCaptureV6 /\ member (address6 h l) p) /\ address6 h l <> 1) /\
  (forall p q, p ∈ kTunCaptureV6 -> q ∈ kTunCaptureV6 ->
     member (address6 h l) p -> member (address6 h l) q -> p = q) /\
  StronglySorted before kTunCaptureV6 /\ kTunCaptureV6Count = 8%nat /\
  forallb (fun p => forallb (fun q => negb (mergeable_v6 p q)) kTunCaptureV6) kTunCaptureV6 = true.
Proof.
  intros Hh Hl. destruct (complement_root 260 256 kLocalBypassV6 (mkV6 0 0 0) kTunCaptureV6 table_v6_wf root_v6_wf
    ComplementV6_Some) as (R1 & R2 & R3 & R4).
  rewrite bypass_v6_uncovered by done. rewrite R3 by (apply root_v6_member; unfold address6; lia).
  split; [done|]. split; [apply R4|]. split; [done|]. split; vm_compute; reflexivity.
Qed.

Lemma capture_v6_partition_witness :
  (IsLocalBypassV6 0 1 = false <->
   (exists p, p ∈ kTunCaptureV6 /\ member (address6 0 1) p) /\ address6 0 1 <> 1) /\
  (forall p q, p ∈ kTunCaptureV6 -> q ∈ kTunCaptureV6 ->
     member (address6 0 1) p -> member (address6 0 1) q -> p = q) /\
  StronglySorted before kTunCaptureV6 /\ kTunCaptureV6Count = 8%nat /\
  forallb (fun p => forallb (fun q => negb (mergeable_v6 p q)) kTunCaptureV6) kTunCaptureV6 = true.
Proof. apply capture_v6_partition; lia. Defined.

(** An IPv6 prefix's network-order bytes read back as the prefix. *)
Theorem v6_bytes_roundtrip p :
  0 <= hi p < 2 ^ 64 -> 0 <= lo p < 2 ^ 64 ->
  FromBytes (Bytes p) (prefix6 p) = p /\ length (Bytes p) = 16%nat.
Proof.
  intros Hh Hl. split; [|done]. unfold FromBytes, Bytes.
  rewrite (take_app_length' (half_bytes (hi p))), (drop_app_length' (half_bytes (hi p))) by done.
  rewrite (take_ge (half_bytes (lo p))) by (by rewrite length_half_bytes). rewrite !half_bytes_from by done.
  by destruct p.
Qed.

Lemma v6_bytes_roundtrip_witness :
  let p := mkV6 0xFD0075726E650001 0x0123456789ABCDEF 64 in
  FromBytes (Bytes p) (prefix6 p) = p /\ length (Bytes p) = 16%nat.
Proof. apply v6_bytes_roundtrip; vm_compute; split; congruence. Defined.
