(* ===== verification/Wfp.v ===== *)
(** The leak-prevention firewall (WfpPolicy.h, WfpPolicy.cpp): the filter set of each
    state as the pure function [BuildFilterSet] computes it, the policy it stands for,
    said of connections, and the proof that they agree.  What Windows does with the
    filters is behind the interface [FilterEngine], with its documented arbitration as
    laws.  The object that installs a set is in [WfpPolicy]. *)

From Stdlib Require Import Btauto.
From S2P Require Import Prelude.
From S2P Require Import CxxText.
From S2P Require Import NetPolicy.

(** * States and configuration *)

Inductive WfpState := WOff | WArmed | WConnecting | WConnected.
#[export] Instance WfpState_eq_dec : EqDecision WfpState.
Proof. solve_decision. Defined.

Definition AttemptsConnection (s : WfpState) : bool :=
  bool_decide (s = WConnecting) || bool_decide (s = WConnected).

Definition wfp_name (s : WfpState) : text :=
  match s with
  | WOff => txt "off" | WArmed => txt "armed" | WConnecting => txt "connecting" | WConnected => txt "connected"
  end.

Record WfpConfig := mkWfpConfig {
  tun_luid : Z;
  tunnel_resolvers_v4 : list text;
  tunnel_resolvers_v6 : list text;
  tunnel_ipv6 : bool;
  host_resolvers_v4 : list text;
  allow_lan : bool;
  block_ipv6_when_disconnected : bool;
  block_local_name_resolution : bool;
  service_image_path : wtext;
  app_image_path : wtext;
}.

(** [inet_pton], of the platform: the address in host order, or its 16 bytes. *)
Class Winsock := { inet_pton_v4 : text -> option Z; inet_pton_v6 : text -> option (list Z) }.

(** * Filters *)

Inductive WfpLayer := ConnectV4 | ConnectV6 | RecvAcceptV4 | RecvAcceptV6.
#[export] Instance WfpLayer_eq_dec : EqDecision WfpLayer.
Proof. solve_decision. Defined.

Inductive WfpSublayer := Baseline | Dns | Persistent.
#[export] Instance WfpSublayer_eq_dec : EqDecision WfpSublayer.
Proof. solve_decision. Defined.

Inductive WfpField :=
  | AppId | Flags | LocalInterface | Protocol | LocalPort | RemotePort
  | LocalAddrV4 | RemoteAddrV4 | LocalAddrV6 | RemoteAddrV6.
#[export] Instance WfpField_eq_dec : EqDecision WfpField.
Proof. solve_decision. Defined.

Inductive WfpMatch := Equal | FlagsAllSet.
#[export] Instance WfpMatch_eq_dec : EqDecision WfpMatch.
Proof. solve_decision. Defined.

Record WfpCondition := mkCond {
  field : WfpField; cmatch : WfpMatch; number : Z;
  v4_addr : Z; v4_prefix : Z; v6_addr : list Z; v6_prefix : Z; app_path : wtext }.

Record WfpFilterSpec := mkSpec {
  name : text; layer : WfpLayer; sublayer : WfpSublayer; block : bool; weight : Z;
  conditions : list WfpCondition }.

Definition kProtoTcp : Z := 6.
Definition kProtoUdp : Z := 17.
Definition kProtoIcmpV6 : Z := 58.

Definition kPortDns : Z := 53.
Definition kPortDhcpServer : Z := 67.
Definition kPortDhcpClient : Z := 68.
Definition kPortNetbiosNs : Z := 137.
Definition kPortNetbiosDgm : Z := 138.
Definition kPortNetbiosSsn : Z := 139.
Definition kPortDhcpV6Client : Z := 546.
Definition kPortDhcpV6Server : Z := 547.
Definition kPortMdns : Z := 5353.
Definition kPortLlmnr : Z := 5355.
Definition kIcmpV6RouterSolicit : Z := 133.
Definition kIcmpV6RouterAdvert : Z := 134.
Definition kIcmpV6NeighborSolicit : Z := 135.
Definition kIcmpV6NeighborAdvert : Z := 136.

Definition kWeightMax : Z := 15.
Definition kWeightLoopback : Z := 13.
Definition kWeightExempt : Z := 12.
Definition kWeightMedium : Z := 7.
Definition kWeightMin : Z := 0.

(** [FWP_CONDITION_FLAG_IS_LOOPBACK]. *)
Definition FLAG_IS_LOOPBACK : Z := 1.

(** The members' defaults. *)
Definition cond_number (f : WfpField) (m : WfpMatch) (n : Z) : WfpCondition :=
  mkCond f m n 0 32 (replicate 16 0) 128 [].

Definition CondAppId (path : wtext) : WfpCondition := mkCond AppId Equal 0 0 32 (replicate 16 0) 128 path.
Definition CondLoopback : WfpCondition := cond_number Flags FlagsAllSet FLAG_IS_LOOPBACK.
Definition CondLocalInterface (luid : Z) : WfpCondition := cond_number LocalInterface Equal luid.
Definition CondProtocol (proto : Z) : WfpCondition := cond_number Protocol Equal proto.
Definition CondLocalPort (port : Z) : WfpCondition := cond_number LocalPort Equal port.
Definition CondRemotePort (port : Z) : WfpCondition := cond_number RemotePort Equal port.
Definition CondRemoteV4 (hostOrderAddr prefix : Z) : WfpCondition :=
  mkCond RemoteAddrV4 Equal 0 hostOrderAddr prefix (replicate 16 0) 128 [].
Definition CondV6 (f : WfpField) (addr : list Z) (prefix : Z) : WfpCondition :=
  mkCond f Equal 0 0 32 addr prefix [].
Definition CondRemoteV6Prefix (p : V6Prefix) : WfpCondition := CondV6 RemoteAddrV6 (Bytes p) (prefix6 p).

Definition kV6LinkLocal : list Z := [0xfe; 0x80] ++ replicate 14 0.
Definition kV6LinkLocalMcast : list Z := [0xff; 0x02] ++ replicate 14 0.
Definition kV6DhcpRelayAgentsAndServers : list Z := [0xff; 0x02] ++ replicate 11 0 ++ [1; 0; 2].
Definition kV6DhcpAllServers : list Z := [0xff; 0x05] ++ replicate 11 0 ++ [1; 0; 3].
Definition kV6AllRouters : list Z := [0xff; 0x02] ++ replicate 13 0 ++ [2].

Definition PushUdpTcp (out : list WfpCondition) : list WfpCondition :=
  out ++ [CondProtocol kProtoUdp; CondProtocol kProtoTcp].

(** * [BuildFilterSet] *)

Definition both_v4 (f : WfpLayer -> WfpFilterSpec) : list WfpFilterSpec := map f [ConnectV4; RecvAcceptV4].
Definition both_v6 (f : WfpLayer -> WfpFilterSpec) : list WfpFilterSpec := map f [ConnectV6; RecvAcceptV6].
Definition when (b : bool) {A} (l : list A) : list A := if b then l else [].

Section Filters.
Context `{Winsock}.

Definition connected (s : WfpState) : bool := bool_decide (s = WConnected).
Definition connecting (s : WfpState) : bool := bool_decide (s = WConnecting).
Definition tunnelV6 (s : WfpState) (cfg : WfpConfig) : bool :=
  connected s && tunnel_ipv6 cfg && negb (tun_luid cfg =? 0).
Definition blockV6 (s : WfpState) (cfg : WfpConfig) : bool :=
  (block_ipv6_when_disconnected cfg && negb (connected s)) || tunnelV6 s cfg.

(** Filters 1 to 3: the images, loopback and the tun. *)
Definition permit_image (n4 n6 : text) (path : wtext) : list WfpFilterSpec :=
  both_v4 (fun l => mkSpec n4 l Baseline false kWeightMax [CondAppId path]) ++
  both_v6 (fun l => mkSpec n6 l Baseline false kWeightMax [CondAppId path]).

Definition identity_filters (s : WfpState) (cfg : WfpConfig) : list WfpFilterSpec :=
  when (negb (bool_decide (service_image_path cfg = [])))
    (permit_image (txt "urnetwork-permit-service-v4") (txt "urnetwork-permit-service-v6") (service_image_path cfg)) ++
  when (AttemptsConnection s && negb (bool_decide (app_image_path cfg = [])))
    (permit_image (txt "urnetwork-permit-app-v4") (txt "urnetwork-permit-app-v6") (app_image_path cfg)) ++
  both_v4 (fun l => mkSpec (txt "urnetwork-permit-loopback-v4") l Baseline false kWeightLoopback [CondLoopback]) ++
  both_v6 (fun l => mkSpec (txt "urnetwork-permit-loopback-v6") l Baseline false kWeightLoopback [CondLoopback]) ++
  when (connected s && negb (tun_luid cfg =? 0))
    (both_v4 (fun l => mkSpec (txt "urnetwork-permit-tun-v4") l Baseline false kWeightExempt
                         [CondLocalInterface (tun_luid cfg)])) ++
  when (tunnelV6 s cfg)
    (both_v6 (fun l => mkSpec (txt "urnetwork-permit-tun-v6") l Baseline false kWeightExempt
                         [CondLocalInterface (tun_luid cfg)])).

(** Filter 4: the LAN, from the table the routes are derived from. *)
Definition lan_v4 : list WfpCondition := map (fun p => CondRemoteV4 (network p) (prefix p)) kLocalBypassV4.
Definition lan_v6 : list WfpCondition := map CondRemoteV6Prefix kLocalBypassV6.

Definition lan_filters (s : WfpState) (cfg : WfpConfig) : list WfpFilterSpec :=
  when (allow_lan cfg)
    [mkSpec (txt "urnetwork-permit-lan-out") ConnectV4 Baseline false kWeightExempt lan_v4;
     mkSpec (txt "urnetwork-permit-lan-in") RecvAcceptV4 Baseline false kWeightExempt lan_v4] ++
  when (allow_lan cfg && tunnelV6 s cfg)
    [mkSpec (txt "urnetwork-permit-lan-v6-out") ConnectV6 Baseline false kWeightExempt lan_v6;
     mkSpec (txt "urnetwork-permit-lan-v6-in") RecvAcceptV6 Baseline false kWeightExempt lan_v6].

(** Filters 5 and 6: DHCP and neighbour discovery. *)
Definition maintenance_filters : list WfpFilterSpec :=
  [mkSpec (txt "urnetwork-permit-dhcpv4-out") ConnectV4 Baseline false kWeightExempt
     [CondProtocol kProtoUdp; CondLocalPort kPortDhcpClient; CondRemotePort kPortDhcpServer;
      CondRemoteV4 0xFFFFFFFF 32];
   mkSpec (txt "urnetwork-permit-dhcpv4-in") RecvAcceptV4 Baseline false kWeightExempt
     [CondProtocol kProtoUdp; CondLocalPort kPortDhcpClient; CondRemotePort kPortDhcpServer];
   mkSpec (txt "urnetwork-permit-dhcpv6-out") ConnectV6 Baseline false kWeightExempt
     [CondProtocol kProtoUdp; CondV6 LocalAddrV6 kV6LinkLocal 10; CondLocalPort kPortDhcpV6Client;
      CondRemotePort kPortDhcpV6Server; CondV6 RemoteAddrV6 kV6DhcpRelayAgentsAndServers 128;
      CondV6 RemoteAddrV6 kV6DhcpAllServers 128];
   mkSpec (txt "urnetwork-permit-dhcpv6-in") RecvAcceptV6 Baseline false kWeightExempt
     [CondProtocol kProtoUdp; CondV6 LocalAddrV6 kV6LinkLocal 10; CondLocalPort kPortDhcpV6Client;
      CondV6 RemoteAddrV6 kV6LinkLocal 10; CondRemotePort kPortDhcpV6Server];
   mkSpec (txt "urnetwork-permit-ndp-rs-out") ConnectV6 Baseline false kWeightExempt
     [CondProtocol kProtoIcmpV6; CondLocalPort kIcmpV6RouterSolicit; CondV6 RemoteAddrV6 kV6AllRouters 128];
   mkSpec (txt "urnetwork-permit-ndp-ra-in") RecvAcceptV6 Baseline false kWeightExempt
     [CondProtocol kProtoIcmpV6; CondLocalPort kIcmpV6RouterAdvert; CondV6 RemoteAddrV6 kV6LinkLocal 10]] ++
  flat_map (fun type =>
      let n := if type =? kIcmpV6NeighborSolicit then txt "urnetwork-permit-ndp-ns" else txt "urnetwork-permit-ndp-na" in
      both_v6 (fun l => mkSpec n l Baseline false kWeightExempt
        [CondProtocol kProtoIcmpV6; CondLocalPort type; CondV6 RemoteAddrV6 kV6LinkLocal 10;
         CondV6 RemoteAddrV6 kV6LinkLocalMcast 16]))
    [kIcmpV6NeighborSolicit; kIcmpV6NeighborAdvert].

(** Conditions of a DNS query. *)
Definition dns_conditions : list WfpCondition := PushUdpTcp [] ++ [CondRemotePort kPortDns].

(** Filter 7, the DNS lift, and filter 8, the floor. *)
Definition lift_filters : list WfpFilterSpec :=
  [mkSpec (txt "urnetwork-lift-dns-v4") ConnectV4 Baseline false kWeightMedium dns_conditions;
   mkSpec (txt "urnetwork-lift-dns-v6") ConnectV6 Baseline false kWeightMedium dns_conditions].

Definition floor_filters (s : WfpState) (cfg : WfpConfig) : list WfpFilterSpec :=
  [mkSpec (txt "urnetwork-block-all-v4-out") ConnectV4 Baseline true kWeightMin [];
   mkSpec (txt "urnetwork-block-all-v4-in") RecvAcceptV4 Baseline true kWeightMin []] ++
  when (blockV6 s cfg)
    [mkSpec (txt "urnetwork-block-all-v6-out") ConnectV6 Baseline true kWeightMin [];
     mkSpec (txt "urnetwork-block-all-v6-in") RecvAcceptV6 Baseline true kWeightMin []].

(** Filters 9 and 9a: the images' own queries. *)
Definition permit_dns_image (n4 n6 : text) (path : wtext) : list WfpFilterSpec :=
  let c := dns_conditions ++ [CondAppId path] in
  [mkSpec n4 ConnectV4 Dns false kWeightMax c; mkSpec n6 ConnectV6 Dns false kWeightMax c].

Definition dns_identity_filters (s : WfpState) (cfg : WfpConfig) : list WfpFilterSpec :=
  when (negb (bool_decide (service_image_path cfg = [])))
    (permit_dns_image (txt "urnetwork-permit-service-dns-v4") (txt "urnetwork-permit-service-dns-v6")
       (service_image_path cfg)) ++
  when (AttemptsConnection s && negb (bool_decide (app_image_path cfg = [])))
    (permit_dns_image (txt "urnetwork-permit-app-dns-v4") (txt "urnetwork-permit-app-dns-v6") (app_image_path cfg)).

(** Filter 9b: the host's resolvers, all of them in one filter. *)
Definition host_addresses (cfg : WfpConfig) : list Z := omap inet_pton_v4 (host_resolvers_v4 cfg).

Definition host_resolver_filters (s : WfpState) (cfg : WfpConfig) : list WfpFilterSpec :=
  if connecting s && negb (bool_decide (host_resolvers_v4 cfg = [])) then
    if (0 <? length (host_addresses cfg))%nat then
      [mkSpec (txt "urnetwork-permit-dns-host-resolver") ConnectV4 Dns false kWeightMedium
         (dns_conditions ++ map (fun a => CondRemoteV4 a 32) (host_addresses cfg))]
    else []
  else [].

(** Filters 10 and 10b: the tunnel's resolvers, over the tun. *)
Definition tunnel_resolver_filters (s : WfpState) (cfg : WfpConfig) : list WfpFilterSpec :=
  when (connected s && negb (tun_luid cfg =? 0))
    (map (fun a => mkSpec (txt "urnetwork-permit-dns-tunnel-resolver") ConnectV4 Dns false kWeightMedium
                     (dns_conditions ++ [CondRemoteV4 a 32; CondLocalInterface (tun_luid cfg)]))
       (omap inet_pton_v4 (tunnel_resolvers_v4 cfg))) ++
  when (tunnelV6 s cfg)
    (map (fun a => mkSpec (txt "urnetwork-permit-dns-tunnel-resolver-v6") ConnectV6 Dns false kWeightMedium
                     (dns_conditions ++ [CondV6 RemoteAddrV6 a 128; CondLocalInterface (tun_luid cfg)]))
       (omap inet_pton_v6 (tunnel_resolvers_v6 cfg))).

(** Set by each of the filters 9b, 10 and 10b that is installed. *)
Definition sharedDnsPath (s : WfpState) (cfg : WfpConfig) : bool :=
  negb (bool_decide (host_resolver_filters s cfg = [])) || negb (bool_decide (tunnel_resolver_filters s cfg = [])).

(** Filter 11: local stub resolvers. *)
Definition dns_loopback_filters : list WfpFilterSpec :=
  let c := dns_conditions ++ [CondLoopback] in
  [mkSpec (txt "urnetwork-permit-dns-loopback-v4") ConnectV4 Dns false kWeightMedium c;
   mkSpec (txt "urnetwork-permit-dns-loopback-v6") ConnectV6 Dns false kWeightMedium c].

(** Filter 12: the hard block on port 53. *)
Definition dns_block_filters (s : WfpState) (cfg : WfpConfig) : list WfpFilterSpec :=
  when (negb (AttemptsConnection s) || sharedDnsPath s cfg)
    [mkSpec (txt "urnetwork-block-dns-v4") ConnectV4 Dns true kWeightMin dns_conditions;
     mkSpec (txt "urnetwork-block-dns-v6") ConnectV6 Dns true kWeightMin dns_conditions].

(** Filter 13: the other name-resolution channels. *)
Definition name_sets : list (text * list Z) :=
  [(txt "urnetwork-block-llmnr", [kPortLlmnr]); (txt "urnetwork-block-mdns", [kPortMdns]);
   (txt "urnetwork-block-netbios", [kPortNetbiosNs; kPortNetbiosDgm; kPortNetbiosSsn])].

Definition name_block_filters (cfg : WfpConfig) : list WfpFilterSpec :=
  when (block_local_name_resolution cfg)
    (flat_map (fun s : text * list Z =>
        let c := PushUdpTcp [] ++ map CondRemotePort s.2 in
        [mkSpec (s.1 ++ txt "-v4") ConnectV4 Dns true kWeightMin c;
         mkSpec (s.1 ++ txt "-v6") ConnectV6 Dns true kWeightMin c]) name_sets).

Definition BuildFilterSet (s : WfpState) (cfg : WfpConfig) : list WfpFilterSpec :=
  if bool_decide (s = WOff) then [] else
  identity_filters s cfg ++ lan_filters s cfg ++ maintenance_filters ++ lift_filters ++
  floor_filters s cfg ++
  dns_identity_filters s cfg ++ host_resolver_filters s cfg ++ tunnel_resolver_filters s cfg ++
  dns_loopback_filters ++ dns_block_filters s cfg ++ name_block_filters cfg.
End Filters.

(** * The two structural questions *)

Fixpoint machine_wide (port53 byAddress : bool) (l : list WfpCondition) : bool :=
  match l with
  | [] => port53 && byAddress
  | c :: l =>
      match field c with
      | RemotePort => machine_wide (port53 || (number c =? kPortDns)) byAddress l
      | RemoteAddrV4 | RemoteAddrV6 => machine_wide port53 true l
      | AppId | Flags | LocalInterface => false
      | _ => machine_wide port53 byAddress l
      end
  end.

Definition IsMachineWideDnsPermit (f : WfpFilterSpec) : bool :=
  if block f || negb (bool_decide (sublayer f = Dns)) then false
  else machine_wide false false (conditions f).

Definition IsDnsPort53Block (f : WfpFilterSpec) : bool :=
  if negb (block f) || negb (bool_decide (sublayer f = Dns)) then false
  else existsb (fun c => bool_decide (field c = RemotePort) && (number c =? kPortDns)) (conditions f).

(** The "armed across reboot" set, which nothing installs. *)
Definition BuildPersistentFilterSet : list WfpFilterSpec :=
  flat_map (fun l =>
    [mkSpec (txt "urnetwork-persistent-permit-loopback") l Persistent false kWeightMax [CondLoopback];
     mkSpec (txt "urnetwork-persistent-block-all") l Persistent true kWeightMax []])
    [ConnectV4; ConnectV6; RecvAcceptV4; RecvAcceptV6].

(** * What a filter matches *)

(** A connection as the ALE layers see it. *)
Record Flow := mkFlow {
  fl_layer : WfpLayer; fl_app : wtext; fl_flags : Z; fl_luid : Z; fl_protocol : Z;
  fl_local_port : Z; fl_remote_port : Z; fl_local4 : Z; fl_remote4 : Z; fl_local6 : list Z; fl_remote6 : list Z }.

Definition V4Mask (prefix : Z) : Z := if prefix =? 0 then 0 else u32 (Z.shiftl 0xFFFFFFFF (32 - prefix)).

Definition in_v4 (c : WfpCondition) (a : Z) : bool :=
  Z.land a (V4Mask (v4_prefix c)) =? Z.land (v4_addr c) (V4Mask (v4_prefix c)).

(** The leading bits of two addresses. *)
Definition in_v6 (c : WfpCondition) (a : list Z) : bool :=
  let x := FromBytes a 128 in
  let y := FromBytes (v6_addr c) 128 in
  (Z.land (hi x) (MaskHi6 (v6_prefix c)) =? Z.land (hi y) (MaskHi6 (v6_prefix c))) &&
  (Z.land (lo x) (MaskLo6 (v6_prefix c)) =? Z.land (lo y) (MaskLo6 (v6_prefix c))).

Definition numeric (c : WfpCondition) (n : Z) : bool :=
  match cmatch c with Equal => n =? number c | FlagsAllSet => Z.land n (number c) =? number c end.

(** The values [BuildConditions] gives a condition, compared with the connection's. *)
Definition holds (c : WfpCondition) (f : Flow) : bool :=
  match field c with
  | AppId => bool_decide (fl_app f = app_path c)
  | Flags => numeric c (fl_flags f)
  | LocalInterface => numeric c (fl_luid f)
  | Protocol => numeric c (fl_protocol f)
  | LocalPort => numeric c (fl_local_port f)
  | RemotePort => numeric c (fl_remote_port f)
  | LocalAddrV4 => in_v4 c (fl_local4 f)
  | RemoteAddrV4 => in_v4 c (fl_remote4 f)
  | LocalAddrV6 => in_v6 c (fl_local6 f)
  | RemoteAddrV6 => in_v6 c (fl_remote6 f)
  end.

(** The condition keys of Windows, where the address families share theirs. *)
Inductive FieldKey := ALE_APP_ID | FLAGS | IP_LOCAL_INTERFACE | IP_PROTOCOL | IP_LOCAL_PORT | IP_REMOTE_PORT
  | IP_LOCAL_ADDRESS | IP_REMOTE_ADDRESS.
#[export] Instance FieldKey_eq_dec : EqDecision FieldKey.
Proof. solve_decision. Defined.

Definition FieldGuid (f : WfpField) : FieldKey :=
  match f with
  | AppId => ALE_APP_ID | Flags => FLAGS | LocalInterface => IP_LOCAL_INTERFACE | Protocol => IP_PROTOCOL
  | LocalPort => IP_LOCAL_PORT | RemotePort => IP_REMOTE_PORT
  | LocalAddrV4 | LocalAddrV6 => IP_LOCAL_ADDRESS
  | RemoteAddrV4 | RemoteAddrV6 => IP_REMOTE_ADDRESS
  end.

(** Conditions on one key are alternatives, and different keys are joined. *)
Definition matches (s : WfpFilterSpec) (f : Flow) : bool :=
  bool_decide (fl_layer f = layer s) &&
  forallb (fun c => existsb (fun d => bool_decide (FieldGuid (field d) = FieldGuid (field c)) && holds d f)
                      (conditions s)) (conditions s).

(** * The filter engine *)

(** Windows' verdict on a connection, of the filters installed by this policy alone. *)
Class FilterEngine := lets_through : list WfpFilterSpec -> Flow -> bool.

(** The documented arbitration.  Within a sublayer the matching filter of the greatest
    weight decides, so a block that outweighs every matching permit of its sublayer ends
    the connection, whatever other sublayers say; and a connection passes when every
    matching block is outweighed by a matching permit of its own sublayer. *)
Class FilterEngineLaws `{FilterEngine} := {
  block_decides specs flow b :
    b ∈ specs -> block b = true -> matches b flow = true ->
    (forall p, p ∈ specs -> sublayer p = sublayer b -> block p = false -> matches p flow = true -> weight p < weight b) ->
    lets_through specs flow = false;
  permit_decides specs flow :
    (forall b, b ∈ specs -> block b = true -> matches b flow = true ->
      exists p, p ∈ specs /\ sublayer p = sublayer b /\ block p = false /\ matches p flow = true /\ weight b < weight p) ->
    lets_through specs flow = true;
}.

(** An engine that keeps the laws. *)
Definition reference_engine : FilterEngine := fun specs flow =>
  negb (existsb (fun b =>
    block b && matches b flow &&
    negb (existsb (fun p => bool_decide (sublayer p = sublayer b) && negb (block p) && matches p flow && (weight b <? weight p))
      specs)) specs).

Lemma reference_engine_laws : @FilterEngineLaws reference_engine.
Proof.
  split; unfold lets_through, reference_engine.
  - intros specs flow b Hb Hbl Hm Hp. apply negb_false_iff, existsb_exists. exists b. rewrite Hbl, Hm.
    split; [by apply list_elem_of_In|]. cbn [andb]. apply negb_true_iff, not_true_is_false.
    intros (p & Hin & E)%existsb_exists. bool_hyps. apply list_elem_of_In in Hin.
    specialize (Hp p Hin ltac:(done) ltac:(done) ltac:(done)). lia.
  - intros specs flow Hp. apply negb_true_iff, not_true_is_false. intros (b & Hin & E)%existsb_exists. bool_hyps.
    apply list_elem_of_In in Hin. destruct (Hp b Hin) as (p & P1 & P2 & P3 & P4 & P5); [done..|].
    match goal with H : existsb _ _ = false |- _ => apply not_true_iff_false in H; apply H end.
    apply existsb_exists. exists p. split; [by apply list_elem_of_In|].
    rewrite bool_decide_eq_true_2, P3, P4 by done. cbn [negb andb]. by apply Z.ltb_lt.
Qed.

(** * The policy a filter set stands for

    What each state means, said of the connection instead of the filters. *)

Definition is_connect (f : Flow) : bool := bool_decide (fl_layer f = ConnectV4) || bool_decide (fl_layer f = ConnectV6).
Definition is_v4 (f : Flow) : bool := bool_decide (fl_layer f = ConnectV4) || bool_decide (fl_layer f = RecvAcceptV4).

Definition is_image (path : wtext) (f : Flow) : bool :=
  negb (bool_decide (path = [])) && bool_decide (fl_app f = path).
Definition is_loopback (f : Flow) : bool := Z.land (fl_flags f) FLAG_IS_LOOPBACK =? FLAG_IS_LOOPBACK.
Definition udp_or_tcp (f : Flow) : bool := (fl_protocol f =? kProtoUdp) || (fl_protocol f =? kProtoTcp).

(** A query: outbound, to port 53. *)
Definition is_dns (f : Flow) : bool := is_connect f && udp_or_tcp f && (fl_remote_port f =? kPortDns).

(** The image of one of the product's processes that the state exempts. *)
Definition is_ours (s : WfpState) (cfg : WfpConfig) (f : Flow) : bool :=
  is_image (service_image_path cfg) f || (AttemptsConnection s && is_image (app_image_path cfg) f).

(** The tun of a connected session, for the families it carries. *)
Definition on_tun (s : WfpState) (cfg : WfpConfig) (f : Flow) : bool :=
  (if is_v4 f then connected s && negb (tun_luid cfg =? 0) else tunnelV6 s cfg) && (fl_luid f =? tun_luid cfg).

(** A remote address the routes leave to the physical adapter. *)
Definition on_lan (s : WfpState) (cfg : WfpConfig) (f : Flow) : bool :=
  allow_lan cfg &&
  (if is_v4 f then IsLocalBypassV4 (fl_remote4 f) else
   let a := FromBytes (fl_remote6 f) 128 in
   tunnelV6 s cfg && IsLocalBypassV6 (hi a) (lo a) && negb ((hi a =? 0) && (lo a =? 1))).

Definition remote_in6 (addr : list Z) (prefix : Z) (f : Flow) : bool := in_v6 (CondV6 RemoteAddrV6 addr prefix) (fl_remote6 f).

(** DHCP and neighbour discovery, to the addresses that stay on the link. *)
Definition is_maintenance (f : Flow) : bool :=
  let udp := fl_protocol f =? kProtoUdp in
  let nd t := (fl_protocol f =? kProtoIcmpV6) && (fl_local_port f =? t) in
  let neighbours := (nd kIcmpV6NeighborSolicit || nd kIcmpV6NeighborAdvert) &&
    (remote_in6 kV6LinkLocal 10 f || remote_in6 kV6LinkLocalMcast 16 f) in
  let dhcp4 := udp && (fl_local_port f =? kPortDhcpClient) && (fl_remote_port f =? kPortDhcpServer) in
  let dhcp6 := udp && in_v6 (CondV6 LocalAddrV6 kV6LinkLocal 10) (fl_local6 f) &&
    (fl_local_port f =? kPortDhcpV6Client) && (fl_remote_port f =? kPortDhcpV6Server) in
  match fl_layer f with
  | ConnectV4 => dhcp4 && (u32 (fl_remote4 f) =? 0xFFFFFFFF)
  | RecvAcceptV4 => dhcp4
  | ConnectV6 =>
      (dhcp6 && (remote_in6 kV6DhcpRelayAgentsAndServers 128 f || remote_in6 kV6DhcpAllServers 128 f)) ||
      (nd kIcmpV6RouterSolicit && remote_in6 kV6AllRouters 128 f) || neighbours
  | RecvAcceptV6 =>
      (dhcp6 && remote_in6 kV6LinkLocal 10 f) || (nd kIcmpV6RouterAdvert && remote_in6 kV6LinkLocal 10 f) || neighbours
  end.

Section Policy.
Context `{Winsock}.

(** The resolvers a query may reach: the host's during an attempt, the tunnel's, over the
    tun, once it is up. *)
Definition to_host_resolver (s : WfpState) (cfg : WfpConfig) (f : Flow) : bool :=
  connecting s && bool_decide (fl_layer f = ConnectV4) &&
  existsb (fun a => u32 (fl_remote4 f) =? u32 a) (host_addresses cfg).

Definition to_tunnel_resolver (s : WfpState) (cfg : WfpConfig) (f : Flow) : bool :=
  on_tun s cfg f &&
  (if is_v4 f then existsb (fun a => u32 (fl_remote4 f) =? u32 a) (omap inet_pton_v4 (tunnel_resolvers_v4 cfg))
   else existsb (fun a => remote_in6 a 128 f) (omap inet_pton_v6 (tunnel_resolvers_v6 cfg))).

Definition floor (s : WfpState) (cfg : WfpConfig) (f : Flow) : bool := is_v4 f || blockV6 s cfg.

Definition baseline_allows (s : WfpState) (cfg : WfpConfig) (f : Flow) : bool :=
  negb (floor s cfg f) || is_ours s cfg f || is_loopback f || on_tun s cfg f || on_lan s cfg f ||
  is_maintenance f || is_dns f.

Definition dns_blocked (s : WfpState) (cfg : WfpConfig) : bool := negb (AttemptsConnection s) || sharedDnsPath s cfg.

Definition name_ports : list Z := [kPortLlmnr; kPortMdns; kPortNetbiosNs; kPortNetbiosDgm; kPortNetbiosSsn].

(** LLMNR, mDNS or NetBIOS. *)
Definition is_name_channel (f : Flow) : bool :=
  is_connect f && udp_or_tcp f && existsb (Z.eqb (fl_remote_port f)) name_ports.

Definition dns_allows (s : WfpState) (cfg : WfpConfig) (f : Flow) : bool :=
  (negb (is_dns f && dns_blocked s cfg) ||
   is_ours s cfg f || is_loopback f || to_host_resolver s cfg f || to_tunnel_resolver s cfg f) &&
  negb (block_local_name_resolution cfg && is_name_channel f).

Definition policy_allows (s : WfpState) (cfg : WfpConfig) (f : Flow) : bool :=
  bool_decide (s = WOff) || (baseline_allows s cfg f && dns_allows s cfg f).
End Policy.

(** * The verdict of a set of floors and permits *)

(** A filter of one action in one sublayer that matches. *)
Definition hit (b : bool) (sub : WfpSublayer) (f : Flow) (s : WfpFilterSpec) : bool :=
  Bool.eqb (block s) b && bool_decide (sublayer s = sub) && matches s f.

Definition sublayer_allows (specs : list WfpFilterSpec) (f : Flow) (sub : WfpSublayer) : bool :=
  negb (existsb (hit true sub f) specs) || existsb (hit false sub f) specs.

(** Every block is a floor, below every permit. *)
Definition floors (specs : list WfpFilterSpec) : Prop :=
  Forall (fun s => if block s then weight s = kWeightMin else kWeightMin < weight s) specs.

Lemma hit_spec b sub f specs :
  existsb (hit b sub f) specs = true <->
  exists s, s ∈ specs /\ block s = b /\ sublayer s = sub /\ matches s f = true.
Proof.
  rewrite existsb_exists. unfold hit. setoid_rewrite <- list_elem_of_In. setoid_rewrite andb_true_iff.
  setoid_rewrite andb_true_iff. setoid_rewrite eqb_true_iff. setoid_rewrite bool_decide_eq_true. naive_solver.
Qed.

Lemma floors_verdict `{FilterEngineLaws} specs f :
  floors specs -> lets_through specs f = forallb (sublayer_allows specs f) [Baseline; Dns; Persistent].
Proof.
  intros Hf. unfold floors in Hf. rewrite Forall_forall in Hf. apply eq_bool_prop_intro.
  rewrite !Is_true_true. split.
  - intros Hl. apply forallb_forall. intros sub _. unfold sublayer_allows.
    destruct (existsb (hit false sub f) specs) eqn:Hp; [apply orb_true_r|].
    destruct (existsb (hit true sub f) specs) eqn:Hb; [|done]. apply hit_spec in Hb as (b & B1 & B2 & B3 & B4).
    rewrite (block_decides specs f b) in Hl; [done..|]. intros p P1 P2 P3 P4.
    apply not_true_iff_false in Hp. destruct Hp. apply hit_spec. exists p. by rewrite P2.
  - intros Hl. apply permit_decides. intros b B1 B2 B3.
    assert (sublayer_allows specs f (sublayer b) = true) as Hs.
    { rewrite forallb_forall in Hl. apply Hl. destruct (sublayer b); cbn; auto. }
    unfold sublayer_allows in Hs. rewrite (proj2 (hit_spec true (sublayer b) f specs)) in Hs by eauto.
    cbn in Hs. apply hit_spec in Hs as (p & P1 & P2 & P3 & P4). exists p. split_and!; [done..|].
    pose proof (Hf b B1) as Wb. pose proof (Hf p P1) as Wp. rewrite B2 in Wb. rewrite P2 in Wp. lia.
Qed.

(** * The filters, group by group *)

(** What the conditions on one key say. *)
Definition group (f : Flow) (k : FieldKey) (cs : list WfpCondition) : bool :=
  existsb (fun d => bool_decide (FieldGuid (field d) = k) && holds d f) cs.

Lemma group_app f k a b : group f k (a ++ b) = group f k a || group f k b.
Proof. apply existsb_app. Qed.

Lemma group_map {A} f k (F : A -> WfpCondition) k' l :
  (forall x, FieldGuid (field (F x)) = k') ->
  group f k (map F l) = bool_decide (k' = k) && existsb (fun x => holds (F x) f) l.
Proof.
  intros HF. induction l as [|x l IH]; cbn; [by rewrite andb_false_r|]. change (existsb _ (map F l)) with (group f k (map F l)).
  rewrite IH, HF. by destruct (bool_decide _).
Qed.

Lemma groups_map {A} (g : FieldKey -> bool) (F : A -> WfpCondition) k l :
  (forall x, FieldGuid (field (F x)) = k) ->
  forallb (fun c => g (FieldGuid (field c))) (map F l) = bool_decide (l = []) || g k.
Proof.
  intros HF. induction l as [|x l IH]; cbn; [done|]. rewrite IH, HF. destruct (g k); cbn; [by rewrite orb_true_r|].
  done.
Qed.

(** The addresses of a permit joined to a query's conditions. *)
Lemma dns_matches {A} n l b w (F : A -> WfpCondition) k xs f :
  (forall x, FieldGuid (field (F x)) = k) -> k <> IP_PROTOCOL -> k <> IP_REMOTE_PORT ->
  matches (mkSpec n l Dns b w (dns_conditions ++ map F xs)) f =
  bool_decide (fl_layer f = l) && udp_or_tcp f && (fl_remote_port f =? kPortDns) &&
  (bool_decide (xs = []) || existsb (fun x => holds (F x) f) xs).
Proof.
  intros HF H1 H2. unfold matches. cbn [layer conditions].
  set (g := fun k' => group f k' (dns_conditions ++ map F xs)).
  change (bool_decide (fl_layer f = l) &&
    forallb (fun c => g (FieldGuid (field c))) (dns_conditions ++ map F xs) = 
    bool_decide (fl_layer f = l) && udp_or_tcp f && (fl_remote_port f =? kPortDns) &&
    (bool_decide (xs = []) || existsb (fun x => holds (F x) f) xs)).
  rewrite forallb_app, (groups_map g F k) by done.
  change (forallb (fun c => g (FieldGuid (field c))) dns_conditions)
    with (g IP_PROTOCOL && (g IP_PROTOCOL && (g IP_REMOTE_PORT && true))).
  unfold g.
  rewrite !group_app, !(group_map _ _ F k) by done. rewrite (bool_decide_eq_false_2 (k = IP_PROTOCOL)) by done.
  rewrite (bool_decide_eq_false_2 (k = IP_REMOTE_PORT)), (bool_decide_eq_true_2 (k = k)) by done. cbn [andb].
  assert (bool_decide (xs = []) || (group f k dns_conditions || existsb (fun x => holds (F x) f) xs) =
    bool_decide (xs = []) || existsb (fun x => holds (F x) f) xs) as ->.
  { unfold group, dns_conditions. cbn. do 2 (rewrite (bool_decide_eq_false_2 (_ = k)) by congruence). done. }
  unfold group, dns_conditions, udp_or_tcp. cbn. rewrite ?orb_false_r, ?andb_true_r.
  destruct (bool_decide (fl_layer f = l)), (_ =? kProtoUdp), (_ =? kProtoTcp), (_ =? kPortDns); done.
Qed.

(** Decides the equations between constructors, and the cases of the tests. *)
Ltac decide_closed :=
  repeat match goal with
  | |- context [@bool_decide (?a = ?b) ?d] =>
      let r := eval vm_compute in (@bool_decide (a = b) d) in
      match r with
      | true => change (@bool_decide (a = b) d) with true
      | false => change (@bool_decide (a = b) d) with false
      end
  end.

Lemma existsb_when {A} (P : A -> bool) b l : existsb P (when b l) = b && existsb P l.
Proof. by destruct b. Qed.

Ltac hits :=
  rewrite ?existsb_app, ?existsb_when; unfold hit, matches;
  cbn [existsb forallb both_v4 both_v6 map block sublayer layer conditions app Bool.eqb field cmatch number
    holds numeric CondAppId CondLoopback CondLocalInterface CondProtocol CondLocalPort CondRemotePort cond_number
    CondRemoteV4 CondV6 app_path FieldGuid dns_conditions PushUdpTcp
    fl_layer fl_app fl_flags fl_luid fl_protocol fl_local_port fl_remote_port fl_local4 fl_remote4 fl_local6 fl_remote6];
  decide_closed; cbn [andb orb negb].


(** The addresses of a permit that has no other condition. *)
Lemma address_matches {A} n l sub b w (F : A -> WfpCondition) k xs f :
  (forall x, FieldGuid (field (F x)) = k) -> xs <> [] ->
  matches (mkSpec n l sub b w (map F xs)) f = bool_decide (fl_layer f = l) && existsb (fun x => holds (F x) f) xs.
Proof.
  intros HF Hx. unfold matches. cbn [layer conditions].
  change (forallb _ ?l) with (forallb (fun c => (fun k => group f k (map F xs)) (FieldGuid (field c))) (map F xs)).
  rewrite (groups_map _ F k), (group_map _ _ F k) by done.
  by rewrite (bool_decide_eq_true_2 (k = k)), (bool_decide_eq_false_2 (xs = [])).
Qed.

Lemma lan_v4_is_bypass a :
  existsb (fun p => in_v4 (CondRemoteV4 (network p) (prefix p)) a) kLocalBypassV4 = IsLocalBypassV4 a.
Proof. reflexivity. Qed.

Lemma lan_v6_is_bypass a :
  existsb (fun p => in_v6 (CondRemoteV6Prefix p) a) kLocalBypassV6 =
  let x := FromBytes a 128 in IsLocalBypassV6 (hi x) (lo x) && negb ((hi x =? 0) && (lo x =? 1)).
Proof.
  unfold in_v6. set (x := FromBytes a 128). unfold IsLocalBypassV6. cbn zeta.
  destruct ((hi x =? 0) && (lo x =? 1)) eqn:E; cbn [negb].
  - bool_hyps. replace (hi x) with 0 by lia. replace (lo x) with 1 by lia. reflexivity.
  - rewrite andb_true_r. reflexivity.
Qed.

Lemma in_v4_host a b : in_v4 (CondRemoteV4 b 32) a = (u32 a =? u32 b).
Proof.
  unfold in_v4. cbn [v4_prefix v4_addr CondRemoteV4]. change (V4Mask 32) with (Z.ones 32).
  by rewrite !Z.land_ones by lia.
Qed.

Lemma lan_v4_matches n l sub b w f :
  matches (mkSpec n l sub b w lan_v4) f = bool_decide (fl_layer f = l) && IsLocalBypassV4 (fl_remote4 f).
Proof. rewrite <- lan_v4_is_bypass.
  by apply (address_matches n l sub b w (fun p => CondRemoteV4 (network p) (prefix p)) IP_REMOTE_ADDRESS kLocalBypassV4 f). Qed.

Lemma lan_v6_matches n l sub b w f :
  matches (mkSpec n l sub b w lan_v6) f = bool_decide (fl_layer f = l) &&
    let x := FromBytes (fl_remote6 f) 128 in IsLocalBypassV6 (hi x) (lo x) && negb ((hi x =? 0) && (lo x =? 1)).
Proof. rewrite <- lan_v6_is_bypass.
  by apply (address_matches n l sub b w CondRemoteV6Prefix IP_REMOTE_ADDRESS kLocalBypassV6 f). Qed.

Section Groups.
Context `{Winsock}.
Variables (s : WfpState) (cfg : WfpConfig).

Lemma identity_hit f :
  existsb (hit false Baseline f) (identity_filters s cfg) = is_ours s cfg f || is_loopback f || on_tun s cfg f.
Proof.
  destruct f as [l ? ? ? ? ? ? ? ? ? ?].
  unfold identity_filters, permit_image, is_ours, is_image, is_loopback, on_tun, is_v4. hits.
  destruct l; decide_closed; cbn [andb orb negb]; btauto.
Qed.

Lemma lan_hit f : existsb (hit false Baseline f) (lan_filters s cfg) = on_lan s cfg f.
Proof.
  unfold lan_filters, on_lan, is_v4. rewrite existsb_app, !existsb_when. unfold hit.
  cbn [existsb block sublayer Bool.eqb]. decide_closed. rewrite !lan_v4_matches, !lan_v6_matches. cbv zeta.
  destruct (fl_layer f); decide_closed; cbn [andb orb negb]; btauto.
Qed.

Lemma maintenance_hit f : existsb (hit false Baseline f) maintenance_filters = is_maintenance f.
Proof.
  destruct f as [l ? ? ? ? ? ? ? r4 ? ?]. unfold maintenance_filters, is_maintenance, remote_in6.
  cbn [flat_map app]. change (kIcmpV6NeighborSolicit =? kIcmpV6NeighborSolicit) with true.
  change (kIcmpV6NeighborAdvert =? kIcmpV6NeighborSolicit) with false. hits.
  change (u32 r4 =? 4294967295) with (u32 r4 =? u32 4294967295). rewrite <- in_v4_host. unfold CondRemoteV4.
  destruct l; decide_closed; cbn [andb orb negb]; try btauto.
Qed.

Lemma lift_hit f : existsb (hit false Baseline f) lift_filters = is_dns f.
Proof.
  destruct f as [l ? ? ? ? ? ? ? ? ? ?]. unfold lift_filters, is_dns, is_connect, udp_or_tcp. hits.
  destruct l; decide_closed; cbn [andb orb negb]; btauto.
Qed.

Lemma floor_hit f : existsb (hit true Baseline f) (floor_filters s cfg) = floor s cfg f.
Proof.
  destruct f as [l ? ? ? ? ? ? ? ? ? ?]. unfold floor_filters, floor, is_v4. hits.
  destruct l; decide_closed; cbn [andb orb negb]; btauto.
Qed.

Lemma dns_identity_hit f : existsb (hit false Dns f) (dns_identity_filters s cfg) = is_dns f && is_ours s cfg f.
Proof.
  destruct f as [l ? ? ? ? ? ? ? ? ? ?].
  unfold dns_identity_filters, permit_dns_image, is_dns, is_connect, udp_or_tcp, is_ours, is_image. hits.
  destruct l; decide_closed; cbn [andb orb negb]; btauto.
Qed.

Lemma dns_loopback_hit f : existsb (hit false Dns f) dns_loopback_filters = is_dns f && is_loopback f.
Proof.
  destruct f as [l ? ? ? ? ? ? ? ? ? ?]. unfold dns_loopback_filters, is_dns, is_connect, udp_or_tcp, is_loopback. hits.
  destruct l; decide_closed; cbn [andb orb negb]; btauto.
Qed.

Lemma dns_block_hit f : existsb (hit true Dns f) (dns_block_filters s cfg) = is_dns f && dns_blocked s cfg.
Proof.
  destruct f as [l ? ? ? ? ? ? ? ? ? ?]. unfold dns_block_filters, dns_blocked, is_dns, is_connect, udp_or_tcp. hits.
  destruct l; decide_closed; cbn [andb orb negb]; btauto.
Qed.

Lemma name_block_hit f :
  existsb (hit true Dns f) (name_block_filters cfg) = block_local_name_resolution cfg && is_name_channel f.
Proof.
  destruct f as [l ? ? ? ? ? ? ? ? ? ?].
  unfold name_block_filters, is_name_channel, is_connect, udp_or_tcp, name_sets, name_ports.
  cbn [flat_map PushUdpTcp app map fst snd existsb]. hits.
  destruct l; decide_closed; cbn [andb orb negb]; btauto.
Qed.

Lemma existsb_map {A B} (P : B -> bool) (F : A -> B) l : existsb P (map F l) = existsb (fun x => P (F x)) l.
Proof. induction l as [|x l IH]; cbn; congruence. Qed.

Lemma existsb_ext {A} (P Q : A -> bool) l : (forall x, P x = Q x) -> existsb P l = existsb Q l.
Proof. intros HE. induction l as [|x l IH]; cbn; congruence. Qed.

Lemma existsb_and {A} b (P : A -> bool) l : existsb (fun x => b && P x) l = b && existsb P l.
Proof. induction l as [|x l IH]; cbn; [by rewrite andb_false_r|]. rewrite IH. by destruct b. Qed.

Lemma host_resolver_hit f :
  existsb (hit false Dns f) (host_resolver_filters s cfg) = is_dns f && to_host_resolver s cfg f.
Proof.
  assert (host_resolver_filters s cfg = when (connecting s && (0 <? length (host_addresses cfg))%nat)
    [mkSpec (txt "urnetwork-permit-dns-host-resolver") ConnectV4 Dns false kWeightMedium
         (dns_conditions ++ map (fun a => CondRemoteV4 a 32) (host_addresses cfg))]) as ->.
  { unfold host_resolver_filters. destruct (connecting s); [|done]. cbn [andb].
    unfold host_addresses. by destruct (host_resolvers_v4 cfg). }
  rewrite existsb_when. unfold hit. cbn [existsb block sublayer Bool.eqb]. decide_closed.
  rewrite (dns_matches _ _ _ _ _ IP_REMOTE_ADDRESS) by done.
  rewrite (existsb_ext _ (fun a => u32 (fl_remote4 f) =? u32 a)) by (intros; apply in_v4_host).
  unfold to_host_resolver, is_dns, is_connect. destruct (host_addresses cfg) as [|a l].
  { cbn. btauto. }
  change (0 <? length (a :: l))%nat with true. rewrite (bool_decide_eq_false_2 (a :: l = [])) by done.
  destruct (fl_layer f); decide_closed; cbn [andb orb negb]; btauto.
Qed.

Lemma resolver_matches n l luid c f :
  field c = RemoteAddrV4 \/ field c = RemoteAddrV6 ->
  matches (mkSpec n l Dns false kWeightMedium (dns_conditions ++ [c; CondLocalInterface luid])) f =
  bool_decide (fl_layer f = l) && udp_or_tcp f && (fl_remote_port f =? kPortDns) && (fl_luid f =? luid) && holds c f.
Proof.
  destruct f as [l' ? ? ? ? ? ? ? ? ? ?], c as [k ? ? ? ? ? ? ?]. cbn [field]. unfold udp_or_tcp.
  intros [-> | ->]; hits; destruct l, l'; decide_closed; cbn [andb orb negb]; btauto.
Qed.

Lemma tunnel_resolver_hit f :
  existsb (hit false Dns f) (tunnel_resolver_filters s cfg) = is_dns f && to_tunnel_resolver s cfg f.
Proof.
  unfold tunnel_resolver_filters. rewrite existsb_app, !existsb_when, !existsb_map.
  rewrite (existsb_ext _ (fun a => bool_decide (fl_layer f = ConnectV4) && udp_or_tcp f && (fl_remote_port f =? kPortDns) &&
    (fl_luid f =? tun_luid cfg) && (u32 (fl_remote4 f) =? u32 a)))
    by (intros a; unfold hit; rewrite resolver_matches by auto; cbn [holds field CondRemoteV4]; by rewrite <- in_v4_host).
  rewrite (existsb_ext (fun a => hit _ _ _ (mkSpec _ ConnectV6 _ _ _ _))
    (fun a => bool_decide (fl_layer f = ConnectV6) && udp_or_tcp f && (fl_remote_port f =? kPortDns) &&
    (fl_luid f =? tun_luid cfg) && remote_in6 a 128 f))
    by (intros a; unfold hit; rewrite resolver_matches by auto; done).
  rewrite !existsb_and. unfold to_tunnel_resolver, on_tun, is_dns, is_connect, is_v4.
  destruct (fl_layer f); decide_closed; cbn [andb orb negb]; btauto.
Qed.

(** ** Their kinds *)

Create HintDb wfp discriminated.

Definition kind (b : bool) (sub : WfpSublayer) (l : list WfpFilterSpec) : Prop :=
  Forall (fun x => block x = b /\ sublayer x = sub /\ if b then weight x = kWeightMin else kWeightMin < weight x) l.

Lemma kind_app b sub l l' : kind b sub l -> kind b sub l' -> kind b sub (l ++ l').
Proof. by apply Forall_app_2. Qed.

Lemma kind_when b sub c l : kind b sub l -> kind b sub (when c l).
Proof. destruct c; [done|constructor]. Qed.

Lemma kind_map {A} b sub (F : A -> WfpFilterSpec) l :
  (forall x, block (F x) = b /\ sublayer (F x) = sub /\ if b then weight (F x) = kWeightMin else kWeightMin < weight (F x)) ->
  kind b sub (map F l).
Proof. intros HF. induction l; constructor; auto. Qed.

Lemma kind_hit b sub b' sub' f l : kind b sub l -> (b, sub) <> (b', sub') -> existsb (hit b' sub' f) l = false.
Proof.
  intros Hk Hn. apply not_true_iff_false. intros (x & Hx & E1 & E2 & _)%hit_spec. unfold kind in Hk.
  rewrite Forall_forall in Hk. destruct (Hk x Hx) as (K1 & K2 & _). congruence.
Qed.

Lemma kind_floors b sub l : kind b sub l -> floors l.
Proof.
  intros Hk. eapply Forall_impl; [exact Hk|]. cbn. intros x (-> & _ & Hw). done.
Qed.

Ltac kinds := repeat first [apply kind_app | apply kind_when | apply kind_map; intros; by split_and!
  | apply List.Forall_cons; [by split_and!|] | apply List.Forall_nil].

Lemma kind_identity : kind false Baseline (identity_filters s cfg).
Proof. unfold identity_filters, permit_image, both_v4, both_v6. kinds. Qed.
Lemma kind_lan : kind false Baseline (lan_filters s cfg).
Proof. unfold lan_filters. kinds. Qed.
Lemma kind_maintenance : kind false Baseline maintenance_filters.
Proof. unfold maintenance_filters, both_v6. cbn [flat_map]. kinds. Qed.
Lemma kind_lift : kind false Baseline lift_filters.
Proof. unfold lift_filters. kinds. Qed.
Lemma kind_floor : kind true Baseline (floor_filters s cfg).
Proof. unfold floor_filters. kinds. Qed.
Lemma kind_dns_identity : kind false Dns (dns_identity_filters s cfg).
Proof. unfold dns_identity_filters, permit_dns_image. kinds. Qed.
Lemma kind_host_resolver : kind false Dns (host_resolver_filters s cfg).
Proof. unfold host_resolver_filters. repeat case_match; kinds. Qed.
Lemma kind_tunnel_resolver : kind false Dns (tunnel_resolver_filters s cfg).
Proof. unfold tunnel_resolver_filters. kinds. Qed.
Lemma kind_dns_loopback : kind false Dns dns_loopback_filters.
Proof. unfold dns_loopback_filters. kinds. Qed.
Lemma kind_dns_block : kind true Dns (dns_block_filters s cfg).
Proof. unfold dns_block_filters. kinds. Qed.
Lemma kind_name_block : kind true Dns (name_block_filters cfg).
Proof. unfold name_block_filters. cbn [flat_map name_sets]. kinds. Qed.

(** ** The verdict of the whole set *)

#[local] Hint Resolve kind_identity kind_lan kind_maintenance kind_lift kind_floor kind_dns_identity
  kind_host_resolver kind_tunnel_resolver kind_dns_loopback kind_dns_block kind_name_block : wfp.

Lemma filter_set_floors : floors (BuildFilterSet s cfg).
Proof.
  unfold BuildFilterSet. destruct (bool_decide _); [constructor|]. unfold floors.
  repeat (apply Forall_app_2; [eapply kind_floors; eauto with wfp nocore|]). eapply kind_floors. eauto with wfp nocore.
Qed.

Ltac no_hit :=
  repeat match goal with
  | |- context [existsb (hit ?b ?sub ?f) ?l] => erewrite (kind_hit _ _ b sub f l) by solve [eauto with wfp nocore | congruence]
  end.

Lemma baseline_verdict f :
  s <> WOff -> sublayer_allows (BuildFilterSet s cfg) f Baseline = baseline_allows s cfg f.
Proof.
  intros Hs. unfold BuildFilterSet, sublayer_allows. rewrite bool_decide_eq_false_2 by done.
  rewrite !existsb_app. no_hit. rewrite identity_hit, lan_hit, maintenance_hit, lift_hit, floor_hit.
  unfold baseline_allows. btauto.
Qed.

Lemma dns_not_name f : is_dns f = true -> is_name_channel f = false.
Proof.
  unfold is_dns, is_name_channel. intros Hd. bool_hyps.
  match goal with H : fl_remote_port f = _ |- _ => rewrite H end. cbn. apply andb_false_r.
Qed.

Lemma dns_verdict f : s <> WOff -> sublayer_allows (BuildFilterSet s cfg) f Dns = dns_allows s cfg f.
Proof.
  intros Hs. unfold BuildFilterSet, sublayer_allows. rewrite bool_decide_eq_false_2 by done.
  rewrite !existsb_app. no_hit.
  rewrite dns_identity_hit, host_resolver_hit, tunnel_resolver_hit, dns_loopback_hit, dns_block_hit, name_block_hit.
  unfold dns_allows. pose proof (dns_not_name f) as Hn. destruct (is_dns f); [rewrite Hn by done|clear Hn]; btauto.
Qed.

Lemma persistent_verdict f : sublayer_allows (BuildFilterSet s cfg) f Persistent = true.
Proof.
  unfold BuildFilterSet, sublayer_allows. destruct (bool_decide _); [done|]. rewrite !existsb_app. by no_hit.
Qed.

Lemma set_verdict `{FilterEngineLaws} f : lets_through (BuildFilterSet s cfg) f = policy_allows s cfg f.
Proof.
  rewrite floors_verdict by apply filter_set_floors. cbn [forallb]. rewrite persistent_verdict. unfold policy_allows.
  destruct (decide (s = WOff)) as [-> |Hs]; [reflexivity|].
  rewrite bool_decide_eq_false_2, baseline_verdict, dns_verdict by done. cbn [orb]. btauto.
Qed.
End Groups.

(** * Properties of the filter set *)

(** C2: the filter set is its policy.  Whatever the configuration, the state and the
    connection, the engine lets a connection through the set [BuildFilterSet] computes
    exactly when the policy of that state, said of the connection, allows it: above
    the floor of its address family only the exempt images, loopback, the tun, the
    local addresses, DHCP and neighbour discovery and outbound queries; a query, while
    the hard block is in force, only from an exempt image, over loopback, or to a
    resolver the state permits; and never LLMNR, mDNS or NetBIOS when those are
    blocked. *)
Theorem filter_set_refines_policy `{Winsock} `{FilterEngineLaws} s cfg f :
  lets_through (BuildFilterSet s cfg) f = policy_allows s cfg f.
Proof. exact (set_verdict s cfg f). Qed.

Definition demo_winsock : Winsock := {| inet_pton_v4 _ := Some 0x01010101; inet_pton_v6 _ := None |}.
Definition demo_config : WfpConfig :=
  mkWfpConfig 7 [txt "1.1.1.1"] [] false [txt "1.1.1.1"] true true true (wtxt "urnetworkd.exe") (wtxt "URnetwork.exe").
(** A query of another process, out of the physical adapter. *)
Definition demo_query (luid : Z) : Flow := mkFlow ConnectV4 (wtxt "svchost.exe") 0 luid kProtoUdp 50000 53 0 0x01010101 [] [].

Lemma filter_set_refines_policy_witness :
  @lets_through reference_engine (@BuildFilterSet demo_winsock WConnected demo_config) (demo_query 7) =
  @policy_allows demo_winsock WConnected demo_config (demo_query 7).
Proof. apply (@filter_set_refines_policy demo_winsock reference_engine reference_engine_laws). Defined.

(** The policy as a proposition, for a state of which the tests are known. *)
Lemma policy_allows_spec `{Winsock} s cfg f :
  s <> WOff -> policy_allows s cfg f = true ->
  (floor s cfg f = true ->
     is_ours s cfg f = true \/ is_loopback f = true \/ on_tun s cfg f = true \/ on_lan s cfg f = true \/
     is_maintenance f = true \/ is_dns f = true) /\
  (is_dns f = true -> dns_blocked s cfg = true ->
     is_ours s cfg f = true \/ is_loopback f = true \/ to_host_resolver s cfg f = true \/
     to_tunnel_resolver s cfg f = true) /\
  (block_local_name_resolution cfg = true -> is_name_channel f = false).
Proof.
  intros Hs. unfold policy_allows. rewrite bool_decide_eq_false_2 by done. unfold baseline_allows, dns_allows.
  rewrite orb_false_l, !andb_true_iff, negb_true_iff, andb_false_iff. intros (Hb & Hd & Hn). split_and!.
  - intros Hf. rewrite Hf in Hb. cbn [negb orb] in Hb. rewrite !orb_true_iff in Hb. tauto.
  - intros Q1 Q2. rewrite Q1, Q2 in Hd. cbn [negb andb orb] in Hd. rewrite !orb_true_iff in Hd. tauto.
  - intros Hx. destruct Hn; congruence.
Qed.

(** C35: armed, the machine is sealed.  A connection of a family the floor covers gets
    out only from the service's own image, over loopback, to a local address (IPv4, when
    the LAN is allowed) or for DHCP and neighbour discovery on the link; no query to port 53
    gets out but the service's own or over loopback, not even to a local resolver; and
    no LLMNR, mDNS or NetBIOS gets out at all. *)
Theorem armed_seals_the_machine `{Winsock} `{FilterEngineLaws} cfg f :
  lets_through (BuildFilterSet WArmed cfg) f = true ->
  (is_v4 f || block_ipv6_when_disconnected cfg = true ->
     is_image (service_image_path cfg) f = true \/ is_loopback f = true \/ is_maintenance f = true \/
     (allow_lan cfg = true /\ is_v4 f = true /\ IsLocalBypassV4 (fl_remote4 f) = true)) /\
  (is_dns f = true -> is_image (service_image_path cfg) f = true \/ is_loopback f = true) /\
  (block_local_name_resolution cfg = true -> is_name_channel f = false).
Proof.
  rewrite set_verdict by done. intros (Hb & Hd & Hn)%policy_allows_spec; [|done].
  assert (forall f, is_ours WArmed cfg f = is_image (service_image_path cfg) f) as Ho
    by (intros; apply orb_false_r).
  assert (on_tun WArmed cfg f = false) as Ht by (unfold on_tun; by case_match).
  unfold to_tunnel_resolver in Hd. unfold floor, blockV6, on_lan in Hb. rewrite Ht, Ho in Hb, Hd.
  change (connected WArmed) with false in Hb. change (tunnelV6 WArmed cfg) with false in Hb.
  change (to_host_resolver WArmed cfg f) with false in Hd. cbn in Hb, Hd. rewrite andb_true_r, orb_false_r in Hb.
  assert (is_dns f = true -> is_image (service_image_path cfg) f = true \/ is_loopback f = true) as Hq.
  { intros Hq. destruct (Hd Hq eq_refl) as [?|[?|[?|?]]]; auto; done. }
  split_and!; [|done|done]. intros F. destruct (Hb F) as [?|[?|[?|[Hx|[?|Hx]]]]]; auto; [done| |destruct (Hq Hx); auto].
  apply andb_true_iff in Hx as [? Hx]. destruct (is_v4 f); [by auto 10|done].
Qed.

Lemma armed_seals_the_machine_witness :
  let f := mkFlow ConnectV4 (wtxt "notepad.exe") 0 3 kProtoTcp 50000 445 0 0xC0A80001 [] [] in
  @lets_through reference_engine (@BuildFilterSet demo_winsock WArmed demo_config) f = true /\
  (is_v4 f || block_ipv6_when_disconnected demo_config = true ->
     is_image (service_image_path demo_config) f = true \/ is_loopback f = true \/ is_maintenance f = true \/
     (allow_lan demo_config = true /\ is_v4 f = true /\ IsLocalBypassV4 (fl_remote4 f) = true)) /\
  (is_dns f = true -> is_image (service_image_path demo_config) f = true \/ is_loopback f = true) /\
  (block_local_name_resolution demo_config = true -> is_name_channel f = false).
Proof.
  intros f. assert (@lets_through reference_engine (@BuildFilterSet demo_winsock WArmed demo_config) f = true) as Hl
    by (rewrite (@set_verdict demo_winsock _ _ reference_engine reference_engine_laws); vm_compute; reflexivity).
  split; [exact Hl|]. exact (@armed_seals_the_machine demo_winsock reference_engine reference_engine_laws demo_config f Hl).
Defined.

(** C9: connected, nothing leaves beside the tunnel but what the policy names.  With a tun
    in place, a connection of a family the tunnel carries gets out only over the tun,
    from an exempt image, over loopback, to an address the routes leave to the adapter, for
    DHCP and neighbour discovery, or as a query when no resolver is known; and once one
    is, a query gets out only from an exempt image, over loopback, or over the tun to a
    resolver of the tunnel. *)
Theorem connected_leaks_nothing `{Winsock} `{FilterEngineLaws} cfg f :
  tun_luid cfg <> 0 ->
  lets_through (BuildFilterSet WConnected cfg) f = true ->
  (is_v4 f || tunnel_ipv6 cfg = true ->
     fl_luid f = tun_luid cfg \/ is_ours WConnected cfg f = true \/ is_loopback f = true \/
     on_lan WConnected cfg f = true \/ is_maintenance f = true \/
     (is_dns f = true /\ sharedDnsPath WConnected cfg = false)) /\
  (is_dns f = true -> sharedDnsPath WConnected cfg = true ->
     is_ours WConnected cfg f = true \/ is_loopback f = true \/
     (fl_luid f = tun_luid cfg /\ to_tunnel_resolver WConnected cfg f = true)).
Proof.
  intros Ht. apply Z.eqb_neq in Ht. rewrite set_verdict by done. intros (Hb & Hd & _)%policy_allows_spec; [|done].
  assert (on_tun WConnected cfg f = true -> fl_luid f = tun_luid cfg) as Hl
    by (intros [_ E%Z.eqb_eq]%andb_true_iff; done).
  assert (floor WConnected cfg f = is_v4 f || tunnel_ipv6 cfg) as Hf.
  { unfold floor, blockV6, tunnelV6. change (connected WConnected) with true. rewrite Ht. btauto. }
  assert (is_dns f = true -> sharedDnsPath WConnected cfg = true ->
     is_ours WConnected cfg f = true \/ is_loopback f = true \/
     (fl_luid f = tun_luid cfg /\ to_tunnel_resolver WConnected cfg f = true)) as Hq.
  { intros Q1 Q2. destruct (Hd Q1 Q2) as [?|[?|[?|Hr]]]; [by auto..|done|]. right; right. split; [|done].
    apply Hl. by apply andb_true_iff in Hr as [? _]. }
  split; [|done]. rewrite <- Hf. intros F. destruct (Hb F) as [?|[?|[?|[?|[?|Hx]]]]]; auto 10.
  destruct (sharedDnsPath WConnected cfg); [|by auto 10]. destruct (Hq Hx eq_refl) as [?|[?|[? _]]]; auto 10.
Qed.

Lemma connected_leaks_nothing_witness :
  let f := demo_query 7 in
  tun_luid demo_config <> 0 /\ @lets_through reference_engine (@BuildFilterSet demo_winsock WConnected demo_config) f = true /\
  (is_v4 f || tunnel_ipv6 demo_config = true ->
     fl_luid f = tun_luid demo_config \/ is_ours WConnected demo_config f = true \/ is_loopback f = true \/
     on_lan WConnected demo_config f = true \/ is_maintenance f = true \/
     (is_dns f = true /\ @sharedDnsPath demo_winsock WConnected demo_config = false)) /\
  (is_dns f = true -> @sharedDnsPath demo_winsock WConnected demo_config = true ->
     is_ours WConnected demo_config f = true \/ is_loopback f = true \/
     (fl_luid f = tun_luid demo_config /\ @to_tunnel_resolver demo_winsock WConnected demo_config f = true)).
Proof.
  intros f. assert (tun_luid demo_config <> 0) as Ht by (vm_compute; congruence).
  assert (@lets_through reference_engine (@BuildFilterSet demo_winsock WConnected demo_config) f = true) as Hl
    by (rewrite (@set_verdict demo_winsock _ _ reference_engine reference_engine_laws); vm_compute; reflexivity).
  split; [exact Ht|]. split; [exact Hl|].
  exact (@connected_leaks_nothing demo_winsock reference_engine reference_engine_laws demo_config f Ht Hl).
Defined.

(** The firewall and the routes are one decision.  In a connected session that allows
    the LAN, an ordinary IPv4 connection that leaves by another adapter than the tun,
    of a process that is not exempt, gets out exactly when no route of the tun covers its
    address: no address is both captured and reachable beside the tunnel, and none is
    routed beside it only to be blocked. *)
Theorem firewall_agrees_with_routes `{Winsock} `{FilterEngineLaws} cfg f :
  allow_lan cfg = true -> is_v4 f = true -> 0 <= fl_remote4 f < 2 ^ 32 ->
  fl_luid f <> tun_luid cfg -> is_ours WConnected cfg f = false -> is_loopback f = false ->
  is_maintenance f = false -> is_dns f = false -> is_name_channel f = false ->
  lets_through (BuildFilterSet WConnected cfg) f = true <->
  ~ exists p, p ∈ kTunCaptureV4 /\ member (fl_remote4 f) p.
Proof.
  intros Hlan H4 Ha Hl Ho Hlo Hm Hd Hn. apply Z.eqb_neq in Hl. rewrite set_verdict by done.
  rewrite capture_v4_iff by done. unfold policy_allows, baseline_allows, dns_allows, floor, on_tun, on_lan.
  rewrite Hlan, H4, Hl, Ho, Hlo, Hm, Hd, Hn. decide_closed. rewrite ?andb_false_r.
  by destruct (IsLocalBypassV4 _).
Qed.

Lemma firewall_agrees_with_routes_witness :
  let f := mkFlow ConnectV4 (wtxt "notepad.exe") 0 3 kProtoTcp 50000 443 0 0x08080808 [] [] in
  @lets_through reference_engine (@BuildFilterSet demo_winsock WConnected demo_config) f = true <->
  ~ exists p, p ∈ kTunCaptureV4 /\ member (fl_remote4 f) p.
Proof.
  intros f. apply (@firewall_agrees_with_routes demo_winsock reference_engine reference_engine_laws demo_config f);
    try (vm_compute; reflexivity); [cbn; lia|vm_compute; congruence].
Defined.

(** A query whose resolver is permitted, or that nothing blocks, gets out. *)
Lemma policy_query `{Winsock} s cfg f :
  s <> WOff -> is_dns f = true ->
  dns_blocked s cfg = false \/ to_host_resolver s cfg f = true \/ to_tunnel_resolver s cfg f = true ->
  policy_allows s cfg f = true.
Proof.
  intros Hs Hq Hr. unfold policy_allows, baseline_allows, dns_allows. rewrite bool_decide_eq_false_2 by done.
  rewrite (dns_not_name f Hq), Hq, !orb_true_r, andb_false_r. cbn.
  destruct Hr as [-> |[-> | ->]]; rewrite ?orb_true_r; done.
Qed.

(** A query of a process over UDP. *)
Definition query (l : WfpLayer) (image : wtext) (luid remote4 : Z) (remote6 : list Z) : Flow :=
  mkFlow l image 0 luid kProtoUdp 0 kPortDns 0 remote4 [] remote6.

(** An attempt can resolve.  In every state that attempts a connection, whatever
    resolvers are configured and however many of them parse, any process at all has a
    query it can get out: the policy never leaves the machine to attempt a connection it
    could not look up. *)
Theorem attempt_can_resolve `{Winsock} `{FilterEngineLaws} s cfg image :
  AttemptsConnection s = true ->
  exists f, fl_app f = image /\ is_dns f = true /\ lets_through (BuildFilterSet s cfg) f = true.
Proof.
  intros Hs. assert (s <> WOff) as Hoff by (intros ->; done). setoid_rewrite set_verdict; [|done].
  assert (forall l luid r4 r6, l = ConnectV4 \/ l = ConnectV6 ->
    dns_blocked s cfg = false \/ to_host_resolver s cfg (query l image luid r4 r6) = true \/
      to_tunnel_resolver s cfg (query l image luid r4 r6) = true ->
    exists f, fl_app f = image /\ is_dns f = true /\ policy_allows s cfg f = true) as Hex.
  { intros l luid r4 r6 Hl Hr. exists (query l image luid r4 r6).
    assert (is_dns (query l image luid r4 r6) = true) by (by destruct Hl as [-> | ->]).
    split_and!; [done..|]. by apply policy_query. }
  destruct (sharedDnsPath s cfg) eqn:Ep.
  2: { apply (Hex ConnectV4 0 0 []); [by left|left]. unfold dns_blocked. by rewrite Hs, Ep. }
  unfold sharedDnsPath in Ep. apply orb_true_iff in Ep as [Ep|Ep]; apply negb_true_iff, bool_decide_eq_false in Ep.
  - unfold host_resolver_filters in Ep. destruct (connecting s) eqn:Ec; [|done]. cbn [andb] in Ep.
    destruct (host_addresses cfg) as [|a l] eqn:Ea; [destruct (negb _) in Ep; done|].
    apply (Hex ConnectV4 0 a []); [by left|right; left]. unfold to_host_resolver. rewrite Ec, Ea. cbn.
    by rewrite Z.eqb_refl.
  - unfold tunnel_resolver_filters in Ep. destruct (connected s && negb (tun_luid cfg =? 0)) eqn:Ec; cbn [when app] in Ep.
    + destruct (omap inet_pton_v4 (tunnel_resolvers_v4 cfg)) as [|a l] eqn:Ea; cbn [map app] in Ep.
      * destruct (tunnelV6 s cfg) eqn:E6; [|done]. cbn [when] in Ep.
        destruct (omap inet_pton_v6 (tunnel_resolvers_v6 cfg)) as [|b l] eqn:Eb; [done|].
        apply (Hex ConnectV6 (tun_luid cfg) 0 b); [by right|right; right]. unfold to_tunnel_resolver, on_tun.
        change (is_v4 _) with false. cbn [fl_luid query]. rewrite E6, Eb, Z.eqb_refl. cbn. unfold remote_in6, in_v6.
        cbn. by rewrite !Z.eqb_refl.
      * apply (Hex ConnectV4 (tun_luid cfg) a []); [by left|right; right]. unfold to_tunnel_resolver, on_tun.
        change (is_v4 _) with true. cbn [fl_luid query]. rewrite Ec, Ea, Z.eqb_refl. cbn. by rewrite Z.eqb_refl.
    + assert (tunnelV6 s cfg = false) as E6 by (unfold tunnelV6; destruct (connected s), (tun_luid cfg =? 0); cbn in *; try done; apply andb_false_r).
      by rewrite E6 in Ep.
Qed.

Lemma attempt_can_resolve_witness :
  AttemptsConnection WConnecting = true /\
  exists f, fl_app f = wtxt "svchost.exe" /\ is_dns f = true /\
    @lets_through reference_engine (@BuildFilterSet demo_winsock WConnecting demo_config) f = true.
Proof.
  split; [reflexivity|].
  exact (@attempt_can_resolve demo_winsock reference_engine reference_engine_laws WConnecting demo_config
    (wtxt "svchost.exe") eq_refl).
Defined.

(** A condition that narrows a permit to less than the machine. *)
Lemma machine_wide_scoped n l b w c luid :
  IsMachineWideDnsPermit (mkSpec n l Dns b w (dns_conditions ++ [c; CondLocalInterface luid])) = false.
Proof.
  unfold IsMachineWideDnsPermit. cbn [block sublayer conditions]. destruct (b || _); [done|]. cbn.
  by destruct (field c).
Qed.

Lemma machine_wide_addresses p b xs :
  machine_wide p b (map (fun a => CondRemoteV4 a 32) xs) = p && (b || negb (bool_decide (xs = []))).
Proof.
  revert b. induction xs as [|x xs IH]; intros b; [cbn; by rewrite orb_false_r|]. cbn. rewrite IH.
  by rewrite orb_true_r.
Qed.

(** The two structural questions the log asks are answered right.  A filter set opens
    port 53 to every process of the machine exactly while connecting with a host
    resolver that parses, and holds the hard block exactly when it is not off and
    either attempts no connection or has a resolver to reach. *)
Theorem dns_window_is_disclosed `{Winsock} s cfg :
  existsb IsMachineWideDnsPermit (BuildFilterSet s cfg) =
    bool_decide (s = WConnecting) && negb (bool_decide (host_addresses cfg = [])) /\
  existsb IsDnsPort53Block (BuildFilterSet s cfg) =
    negb (bool_decide (s = WOff)) && (negb (AttemptsConnection s) || sharedDnsPath s cfg).
Proof.
  assert (forall b l, kind b Baseline l -> existsb IsMachineWideDnsPermit l = false /\ existsb IsDnsPort53Block l = false) as Hbase.
  { intros b l Hk. unfold kind in Hk. rewrite Forall_forall in Hk.
    split; apply not_true_iff_false; intros (x & Hx%list_elem_of_In & E)%existsb_exists;
      destruct (Hk x Hx) as (_ & Ex & _); unfold IsMachineWideDnsPermit, IsDnsPort53Block in E; rewrite Ex in E;
      revert E; decide_closed; by rewrite orb_true_r. }
  assert (forall l, kind false Dns l -> existsb IsDnsPort53Block l = false) as Hpermit.
  { intros l Hk. unfold kind in Hk. rewrite Forall_forall in Hk. apply not_true_iff_false.
    intros (x & Hx%list_elem_of_In & E)%existsb_exists. destruct (Hk x Hx) as (Ex & _).
    unfold IsDnsPort53Block in E. by rewrite Ex in E. }
  assert (forall l, kind true Dns l -> existsb IsMachineWideDnsPermit l = false) as Hblock.
  { intros l Hk. unfold kind in Hk. rewrite Forall_forall in Hk. apply not_true_iff_false.
    intros (x & Hx%list_elem_of_In & E)%existsb_exists. destruct (Hk x Hx) as (Ex & _).
    unfold IsMachineWideDnsPermit in E. by rewrite Ex in E. }
  unfold BuildFilterSet. destruct (decide (s = WOff)) as [-> |Hs]; [by split|].
  rewrite (bool_decide_eq_false_2 (s = WOff)), !existsb_app by done.
  destruct (Hbase _ _ (kind_identity s cfg)) as [-> ->], (Hbase _ _ (kind_lan s cfg)) as [-> ->],
    (Hbase _ _ kind_maintenance) as [-> ->], (Hbase _ _ kind_lift) as [-> ->],
    (Hbase _ _ (kind_floor s cfg)) as [-> ->].
  rewrite (Hpermit _ (kind_dns_identity s cfg)), (Hpermit _ (kind_host_resolver s cfg)),
    (Hpermit _ (kind_tunnel_resolver s cfg)), (Hpermit _ kind_dns_loopback),
    (Hblock _ (kind_dns_block s cfg)), (Hblock _ (kind_name_block cfg)).
  cbn [orb negb andb]. split.
  - assert (existsb IsMachineWideDnsPermit (dns_identity_filters s cfg) = false) as ->.
    { unfold dns_identity_filters, permit_dns_image, dns_conditions. rewrite existsb_app, !existsb_when. cbn.
      by rewrite !andb_false_r. }
    assert (existsb IsMachineWideDnsPermit (tunnel_resolver_filters s cfg) = false) as ->.
    { unfold tunnel_resolver_filters. rewrite existsb_app, !existsb_when, !existsb_map.
      do 2 (rewrite (existsb_ext (fun _ => IsMachineWideDnsPermit _) (fun _ => false && true))
        by (intros; apply machine_wide_scoped)).
      rewrite !existsb_and. cbn [andb]. by rewrite !andb_false_r. }
    change (existsb IsMachineWideDnsPermit dns_loopback_filters) with false. rewrite !orb_false_r.
    unfold host_resolver_filters, connecting, host_addresses. destruct (bool_decide (s = WConnecting)); [|done].
    destruct (host_resolvers_v4 cfg) as [|a l]; [done|]. rewrite bool_decide_eq_false_2 by done. cbn [negb andb].
    destruct (omap inet_pton_v4 (a :: l)) as [|x xs]; [done|]. cbn [length Nat.ltb Nat.leb existsb].
    unfold IsMachineWideDnsPermit. cbn [block sublayer conditions orb]. decide_closed. cbn [negb orb].
    change (machine_wide false false (dns_conditions ++ ?l)) with (machine_wide true false l).
    by rewrite machine_wide_addresses.
  - assert (existsb IsDnsPort53Block (name_block_filters cfg) = false) as ->
      by (unfold name_block_filters; rewrite existsb_when; apply andb_false_r).
    unfold dns_block_filters. rewrite existsb_when, orb_false_r. apply andb_true_r.
Qed.
