(* ===== verification/WfpPolicy.v ===== *)
(** The object that owns the firewall (class WfpPolicy of WfpPolicy.h and WfpPolicy.cpp):
    the session with the base filtering engine, the one transaction in which a filter set
    replaces another, and what is left after any of its calls fails.  What Windows answers
    is an argument, call by call. *)

From S2P Require Import Prelude.
From S2P Require Import CxxText.
From S2P Require Import Wfp.

(** * The policy object

    Each call into Windows is an event with the code it answers; what it answers may
    depend on everything that went before. *)

Inductive BfeCall :=
  | EngineOpen | EngineClose | TransactionBegin | TransactionCommit | TransactionAbort
  | ProviderAdd | SubLayerAdd (s : WfpSublayer) | ProviderGetByKey
  | GetAppIdFromFileName (path : wtext) | FilterDeleteById (id : Z) | FilterAdd (spec : WfpFilterSpec) (id : Z).

Definition Trace := list (BfeCall * Z).

(** The code of a call, the id a filter gets, whether the blob of an image comes back null
    and whether the provider reads back as disabled. *)
Class Bfe := {
  answer : Trace -> BfeCall -> Z;
  new_id : Trace -> Z;
  null_blob : Trace -> bool;
  provider_disabled : Trace -> bool;
}.

Definition ERROR_SUCCESS : Z := 0.
Definition FWP_E_ALREADY_EXISTS : Z := 0x80320009.
Definition FWP_E_FILTER_NOT_FOUND : Z := 0x80320003.

(** [lastError_], by the call it names. *)
Inductive WfpError := CallFailed (call : BfeCall) (err : Z) | ProviderDisabled.

Record WfpPolicy := mkPolicy {
  engine_ : bool; state_ : WfpState; filterIds_ : list Z; lastError_ : option WfpError }.

Section PolicyObject.
Context `{Winsock} `{Bfe}.

Definition call (t : Trace) (c : BfeCall) : Z * Trace := let r := answer t c in (r, t ++ [(c, r)]).
Definition quiet (t : Trace) (c : BfeCall) : Trace := snd (call t c).

(** The provider and the two sublayers, each of which may already be there. *)
Fixpoint AddObjects (t : Trace) (objects : list BfeCall) : option WfpError * Trace :=
  match objects with
  | [] => (None, t)
  | o :: objects =>
      let '(err, t) := call t o in
      if negb (err =? ERROR_SUCCESS) && negb (err =? FWP_E_ALREADY_EXISTS) then
        (Some (CallFailed o err), quiet (quiet t TransactionAbort) EngineClose)
      else AddObjects t objects
  end.

Definition OpenEngine (p : WfpPolicy) (t : Trace) : bool * WfpPolicy * Trace :=
  let fail e t := (false, mkPolicy (engine_ p) (state_ p) (filterIds_ p) (Some e), t) in
  if engine_ p then (true, p, t) else
  let '(err, t) := call t EngineOpen in
  if negb (err =? ERROR_SUCCESS) then fail (CallFailed EngineOpen err) t else
  let '(err, t) := call t TransactionBegin in
  if negb (err =? ERROR_SUCCESS) then fail (CallFailed TransactionBegin err) (quiet t EngineClose) else
  let '(failed, t) := AddObjects t [ProviderAdd; SubLayerAdd Baseline; SubLayerAdd Dns] in
  match failed with
  | Some e => fail e t
  | None =>
      let '(err, t) := call t TransactionCommit in
      if negb (err =? ERROR_SUCCESS) then fail (CallFailed TransactionCommit err) (quiet t EngineClose) else
      let '(err, t) := call t ProviderGetByKey in
      if (err =? ERROR_SUCCESS) && provider_disabled t then fail ProviderDisabled (quiet t EngineClose) else
      (true, mkPolicy true (state_ p) (filterIds_ p) (lastError_ p), t)
  end.

Definition CloseEngine (p : WfpPolicy) (t : Trace) : WfpPolicy * Trace :=
  if negb (engine_ p) then (p, t) else
  (mkPolicy false WOff [] (lastError_ p), quiet t EngineClose).

Definition RevertLocked (p : WfpPolicy) (t : Trace) : WfpPolicy * Trace :=
  if negb (engine_ p) then (mkPolicy (engine_ p) WOff (filterIds_ p) (lastError_ p), t) else CloseEngine p t.

(** The deletes, where a filter that is already gone counts as deleted. *)
Fixpoint DeleteFilters (t : Trace) (ids : list Z) : option WfpError * Trace :=
  match ids with
  | [] => (None, t)
  | id :: ids =>
      let '(del, t) := call t (FilterDeleteById id) in
      if negb (del =? ERROR_SUCCESS) && negb (del =? FWP_E_FILTER_NOT_FOUND) then
        (Some (CallFailed (FilterDeleteById id) del), t)
      else DeleteFilters t ids
  end.

(** The one fallible step of turning a specification into conditions: an image's id. *)
Fixpoint BuildConditions (t : Trace) (cs : list WfpCondition) : option WfpError * Trace :=
  match cs with
  | [] => (None, t)
  | c :: cs =>
      match field c with
      | AppId =>
          let '(err, t) := call t (GetAppIdFromFileName (app_path c)) in
          if negb (err =? ERROR_SUCCESS) || null_blob t then
            (Some (CallFailed (GetAppIdFromFileName (app_path c)) err), t)
          else BuildConditions t cs
      | _ => BuildConditions t cs
      end
  end.

Fixpoint AddFilters (t : Trace) (specs : list WfpFilterSpec) (ids : list Z) : (WfpError + list Z) * Trace :=
  match specs with
  | [] => (inr ids, t)
  | spec :: specs =>
      let '(failed, t) := BuildConditions t (conditions spec) in
      match failed with
      | Some e => (inl e, t)
      | None =>
          let id := new_id t in
          let '(err, t) := call t (FilterAdd spec id) in
          if negb (err =? ERROR_SUCCESS) then (inl (CallFailed (FilterAdd spec id) err), t)
          else AddFilters t specs (ids ++ [id])
      end
  end.

Definition ApplyLocked (s : WfpState) (cfg : WfpConfig) (p : WfpPolicy) (t : Trace) : bool * WfpPolicy * Trace :=
  let p := mkPolicy (engine_ p) (state_ p) (filterIds_ p) None in
  if bool_decide (s = WOff) then let '(p, t) := RevertLocked p t in (true, p, t) else
  let '(opened, p, t) := OpenEngine p t in
  if negb opened then (false, p, t) else
  let fail e t := (false, mkPolicy (engine_ p) (state_ p) (filterIds_ p) (Some e), t) in
  let specs := BuildFilterSet s cfg in
  let '(err, t) := call t TransactionBegin in
  if negb (err =? ERROR_SUCCESS) then fail (CallFailed TransactionBegin err) t else
  let '(failed, t) := DeleteFilters t (filterIds_ p) in
  match failed with
  | Some e => fail e (quiet t TransactionAbort)
  | None =>
      let '(added, t) := AddFilters t specs [] in
      match added with
      | inl e => fail e (quiet t TransactionAbort)
      | inr ids =>
          let '(err, t) := call t TransactionCommit in
          if negb (err =? ERROR_SUCCESS) then fail (CallFailed TransactionCommit err) t else
          (true, mkPolicy (engine_ p) s ids (lastError_ p), t)
      end
  end.
End PolicyObject.

(** ** The sweep of what an earlier process left *)

(** What owns an object: the provider's key, which may be missing. *)
Inductive Provider := Dynamic | PersistentProvider | Foreign.
#[export] Instance Provider_eq_dec : EqDecision Provider.
Proof. solve_decision. Defined.

Definition IsOurProvider (key : option Provider) : bool :=
  match key with Some Dynamic | Some PersistentProvider => true | _ => false end.

(** An enumeration: whether it opens, and the pages it answers until a call fails. *)
Record Enumeration (K : Type) := mkEnumeration { opens : bool; pages : list (list (option Provider * K)) }.
Arguments mkEnumeration {_}.
Arguments opens {_}.
Arguments pages {_}.

Definition kPage : nat := 256.

Fixpoint collect {K} (ps : list (list (option Provider * K))) : list K :=
  match ps with
  | [] => []
  | page :: ps =>
      if (length page =? 0)%nat then [] else
      map snd (List.filter (fun e => IsOurProvider (fst e)) page) ++
      if (length page <? kPage)%nat then [] else collect ps
  end.

Definition enumerate {K} (e : Enumeration K) : list K := if opens e then collect (pages e) else [].

Inductive SweepCall :=
  | SweepBegin | DeleteFilter (id : Z) | DeleteSubLayer (key : Z) | DeleteProvider (key : Z) | SweepCommit.

(** The count it returns and the calls it makes to change anything. *)
Definition SweepOrphanedObjects (engine_opens begins : bool) (filters sublayers providers : Enumeration Z) (remove : bool)
  : nat * list SweepCall :=
  if negb engine_opens then (0%nat, []) else
  let filterIds := enumerate filters in
  let sublayerKeys := enumerate sublayers in
  let providerKeys := enumerate providers in
  let found := (length filterIds + length sublayerKeys + length providerKeys)%nat in
  if (found =? 0)%nat then (0%nat, []) else
  if negb remove then (found, []) else
  (found,
   SweepBegin :: if begins then
     map DeleteFilter filterIds ++ map DeleteSubLayer sublayerKeys ++ map DeleteProvider providerKeys ++ [SweepCommit]
   else []).

(** What the transactions of a trace that were committed did to the filters: the ids they
    deleted, found or not, and the filters they added. *)
Fixpoint committed (open : option (list Z * list (WfpFilterSpec * Z))) (t : Trace) : list (list Z * list (WfpFilterSpec * Z)) :=
  match t with
  | [] => []
  | (c, r) :: t =>
      match c, open with
      | TransactionBegin, _ => committed (if r =? ERROR_SUCCESS then Some ([], []) else None) t
      | FilterDeleteById id, Some (d, a) => committed (Some (d ++ [id], a)) t
      | FilterAdd s id, Some (d, a) => committed (Some (d, if r =? ERROR_SUCCESS then a ++ [(s, id)] else a)) t
      | TransactionCommit, Some x => if r =? ERROR_SUCCESS then x :: committed None t else committed None t
      | TransactionAbort, _ | EngineClose, _ => committed None t
      | _, _ => committed open t
      end
  end.

(** * What a call does to the open transaction *)

Section PolicyLemmas.
Context `{Winsock} `{Bfe}.

(** What a stretch of calls does to the transaction it runs in. *)
Definition moves (o o' : option (list Z * list (WfpFilterSpec * Z))) (e : Trace) : Prop :=
  forall rest, committed o (e ++ rest) = committed o' rest.

Lemma moves_nil o : moves o o [].
Proof. done. Qed.

Lemma moves_app o o' o'' e e' : moves o o' e -> moves o' o'' e' -> moves o o'' (e ++ e').
Proof. intros H1 H2 rest. by rewrite <- app_assoc, H1, H2. Qed.

Lemma AddObjects_moves objects t x :
  Forall (fun o => o = ProviderAdd \/ exists s, o = SubLayerAdd s) objects ->
  exists e, (AddObjects t objects).2 = t ++ e /\
    moves (Some x) (if (AddObjects t objects).1 then None else Some x) e.
Proof.
  intros Ho. revert t. induction Ho as [|o objects Ho _ IH]; intros t; cbn [AddObjects].
  { exists []. by rewrite app_nil_r. }
  unfold call. destruct (negb _ && negb _).
  - eexists. cbn [fst snd quiet call]. rewrite <- !app_assoc. split; [done|]. intros rest.
    by destruct Ho as [-> | [s ->]], x.
  - destruct (IH (t ++ [(o, answer t o)])) as (e & -> & Hm). exists ((o, answer t o) :: e).
    rewrite <- app_assoc. split; [done|]. intros rest. cbn. rewrite <- Hm. by destruct Ho as [-> | [s ->]], x.
Qed.

Lemma DeleteFilters_moves ids t d a :
  exists e gone, (DeleteFilters t ids).2 = t ++ e /\ moves (Some (d, a)) (Some (d ++ gone, a)) e /\
    ((DeleteFilters t ids).1 = None -> gone = ids).
Proof.
  revert t d. induction ids as [|id ids IH]; intros t d; cbn [DeleteFilters].
  { exists [], []. by rewrite !app_nil_r. }
  unfold call. destruct (negb _ && negb _).
  - exists [(FilterDeleteById id, answer t (FilterDeleteById id))], [id]. done.
  - edestruct IH as (e & gone & -> & Hm & Hg).
    eexists (_ :: e), (id :: gone). rewrite <- app_assoc. split; [done|]. split.
    + intros rest. cbn. rewrite (Hm rest). by rewrite <- app_assoc.
    + intros E. by rewrite Hg.
Qed.

Lemma BuildConditions_moves cs t o : exists e, (BuildConditions t cs).2 = t ++ e /\ moves o o e.
Proof.
  revert t. induction cs as [|c cs IH]; intros t; cbn [BuildConditions].
  { exists []. by rewrite app_nil_r. }
  destruct (field c); try apply IH. unfold call.
  assert (forall err rest, committed o ((GetAppIdFromFileName (app_path c), err) :: rest) = committed o rest) as Hs
    by (intros; cbn; by destruct o as [[??]|]).
  destruct (_ || _).
  - eexists. split; [done|]. intros rest. apply Hs.
  - edestruct IH as (e & -> & Hm). eexists (_ :: e). rewrite <- app_assoc. split; [done|].
    intros rest. cbn [app]. by rewrite Hs, Hm.
Qed.

Lemma AddFilters_moves specs t ids d a :
  exists e added, (AddFilters t specs ids).2 = t ++ e /\ moves (Some (d, a)) (Some (d, a ++ added)) e /\
    forall ids', (AddFilters t specs ids).1 = inr ids' -> added.*1 = specs /\ ids' = ids ++ added.*2.
Proof.
  revert t ids a. induction specs as [|spec specs IH]; intros t ids a; cbn [AddFilters].
  { exists [], []. rewrite !app_nil_r. split_and!; [done..|]. by intros ids' [= <-]. }
  destruct (BuildConditions_moves (conditions spec) t (Some (d, a))) as (e1 & E1 & M1).
  destruct (BuildConditions t (conditions spec)) as [[err|] t1]; cbn [snd] in E1; subst t1.
  { exists e1, []. rewrite app_nil_r. split_and!; [done..|]. by intros. }
  unfold call. destruct (negb _) eqn:Er.
  - eexists (e1 ++ [_]), []. rewrite app_assoc. split; [done|]. split; [|done]. eapply moves_app; [exact M1|].
    intros rest. cbn. apply negb_true_iff in Er. by rewrite Er, app_nil_r.
  - edestruct IH as (e & added & -> & Hm & Ha). eexists (e1 ++ _ :: e), ((spec, _) :: added).
    rewrite <- !app_assoc. split; [done|]. split.
    + eapply moves_app; [exact M1|]. intros rest. cbn. apply negb_false_iff in Er. rewrite Er, (Hm rest).
      by rewrite <- app_assoc.
    + intros ids' E. rewrite app_assoc in E. destruct (Ha ids' E) as [<- ->]. by rewrite <- app_assoc.
Qed.

(** Only a transaction that touches no filter. *)
Definition no_filters (l : list (list Z * list (WfpFilterSpec * Z))) : Prop := Forall (fun x => x = ([], [])) l.

Lemma call_inv t c r t' : call t c = (r, t') -> t' = t ++ [(c, r)].
Proof. by intros [= <- <-]. Qed.

(** Runs the next call, and a closing stretch of calls. *)
Ltac calls :=
  match goal with
  | |- context [call ?t ?c] =>
      let r := fresh "r" in let t' := fresh "t" in let E := fresh "Hcall" in let Er := fresh "Hr" in
      destruct (call t c) as [r t'] eqn:E; apply call_inv in E; subst t';
      destruct (negb (r =? ERROR_SUCCESS)) eqn:Er; [apply negb_true_iff in Er|apply negb_false_iff in Er]
  end.

Lemma quiet_inv t c : exists r, quiet t c = t ++ [(c, r)].
Proof. by eexists. Qed.

Tactic Notation "closing" uconstr(before) :=
  repeat match goal with |- context [quiet ?t ?c] => let r := fresh "r" in destruct (quiet_inv t c) as [r ->] end;
  rewrite <- ?app_assoc; eexists _, before; split; [reflexivity|]; split; [by repeat constructor|]; intros rest;
  repeat match goal with H : (_ =? ERROR_SUCCESS) = _ |- _ => progress (cbn; rewrite ?H) end;
  rewrite <- ?app_assoc;
  try match goal with M : moves _ _ ?e |- context [?e ++ ?r] => rewrite (M r) end;
  repeat match goal with H : (_ =? ERROR_SUCCESS) = _ |- _ => progress (cbn; rewrite ?H) end; done.

Lemma OpenEngine_spec p t ok p' t' :
  OpenEngine p t = (ok, p', t') ->
  state_ p' = state_ p /\ filterIds_ p' = filterIds_ p /\
  (ok = true -> engine_ p' = true /\ lastError_ p' = lastError_ p) /\
  (ok = false -> engine_ p' = false /\ engine_ p = false /\ lastError_ p' <> None) /\
  exists e before, t' = t ++ e /\ no_filters before /\
    forall rest, committed None (e ++ rest) = before ++ committed None rest.
Proof.
  unfold OpenEngine. destruct (engine_ p) eqn:Ep.
  { intros [= <- <- <-]. split_and!; try done. exists [], []. rewrite app_nil_r. split_and!; [done|constructor|done]. }
  calls.
  { intros [= <- <- <-]. split_and!; try done. eexists _, []. split_and!; [done|constructor|done]. }
  calls.
  { intros [= <- <- <-]. split_and!; try done. closing []. }
  destruct (AddObjects_moves [ProviderAdd; SubLayerAdd Baseline; SubLayerAdd Dns]
    ((t ++ [(EngineOpen, r)]) ++ [(TransactionBegin, r0)]) ([], [])) as (e & Et & M);
    [repeat (apply List.Forall_cons; [eauto|]); constructor|].
  destruct (AddObjects _ _) as [failed t3] in Et, M |- *. cbn [fst snd] in Et, M. subst t3.
  destruct failed as [err|].
  { intros [= <- <- <-]. split_and!; try done. closing []. }
  calls.
  { intros [= <- <- <-]. split_and!; try done. closing []. }
  destruct (call _ ProviderGetByKey) as [r2 t4] eqn:Ec. apply call_inv in Ec. subst t4.
  destruct (_ && _); intros [= <- <- <-]; (split_and!; try done); closing [([], [])].
Qed.

(** A closed engine has no policy and no filters. *)
Definition policy_wf (p : WfpPolicy) : Prop := engine_ p = false -> state_ p = WOff /\ filterIds_ p = [].

Lemma ApplyLocked_spec s cfg p t :
  policy_wf p ->
  let '(ok, p', t') := ApplyLocked s cfg p t in
  policy_wf p' /\ exists e, t' = t ++ e /\
  if ok then
    state_ p' = s /\ lastError_ p' = None /\
    if bool_decide (s = WOff) then engine_ p' = false /\ filterIds_ p' = []
    else engine_ p' = true /\ exists before added, no_filters before /\
      committed None e = before ++ [(filterIds_ p, added)] /\
      added.*1 = BuildFilterSet s cfg /\ added.*2 = filterIds_ p'
  else
    s <> WOff /\ state_ p' = state_ p /\ filterIds_ p' = filterIds_ p /\ lastError_ p' <> None /\
    no_filters (committed None e).
Proof.
  intros Hwf. unfold ApplyLocked. destruct (bool_decide (s = WOff)) eqn:Es.
  { apply bool_decide_eq_true in Es. subst s. unfold RevertLocked, CloseEngine. cbn [engine_ state_ filterIds_ lastError_].
    destruct (engine_ p) eqn:Ep; cbn.
    - split; [done|]. eexists. by split.
    - destruct (Hwf Ep). split; [done|]. exists []. by rewrite app_nil_r. }
  apply bool_decide_eq_false in Es.
  destruct (OpenEngine _ t) as [[opened p1] t1] eqn:Eo. apply OpenEngine_spec in Eo.
  cbn [engine_ state_ filterIds_ lastError_] in Eo. destruct Eo as (S1 & I1 & Hok & Hno & e1 & before & -> & Hb & Hc).
  destruct opened; cbn [negb].
  2: { destruct (Hno eq_refl) as (E1 & E2 & E3). destruct (Hwf E2) as [W1 W2]. split; [intros _; by rewrite S1, I1|].
       exists e1. split_and!; [done..|]. specialize (Hc []). cbn in Hc. rewrite !app_nil_r in Hc.
       by rewrite Hc. }
  destruct (Hok eq_refl) as [E1 L1]. clear Hok Hno. rewrite I1.
  assert (forall e err, no_filters (committed None e) ->
    policy_wf (mkPolicy (engine_ p1) (state_ p1) (filterIds_ p) (Some err)) /\
    exists e', t ++ e1 ++ e = t ++ e' /\ s <> WOff /\ state_ p1 = state_ p /\ filterIds_ p = filterIds_ p /\
      Some err <> None /\ no_filters (committed None e')) as Hfail.
  { intros e err Hn. split; [intros Ef; cbn in Ef; congruence|]. exists (e1 ++ e). split_and!; [done..|].
    rewrite Hc. by apply Forall_app. }
  calls; rewrite <- ?app_assoc; [apply Hfail; constructor|].
  edestruct (DeleteFilters_moves (filterIds_ p) (t ++ e1 ++ [(TransactionBegin, r)]) [] []) as (e2 & gone & E2 & M2 & G2).
  destruct (DeleteFilters _ _) as [[err|] t2] in E2, G2 |- *; cbn [fst snd] in E2, G2; subst t2.
  { destruct (quiet_inv ((t ++ e1 ++ [(TransactionBegin, r)]) ++ e2) TransactionAbort) as [r1 ->].
    rewrite <- !app_assoc. apply Hfail. cbn. rewrite Hr, (M2 _). constructor. }
  rewrite (G2 eq_refl) in M2. cbn [app] in M2.
  edestruct (AddFilters_moves (BuildFilterSet s cfg) ((t ++ e1 ++ [(TransactionBegin, r)]) ++ e2) [] (filterIds_ p) [])
    as (e3 & added & E3 & M3 & G3).
  destruct (AddFilters _ _ _) as [[err|ids] t3] in E3, G3 |- *; cbn [fst snd] in E3, G3; subst t3.
  { destruct (quiet_inv (((t ++ e1 ++ [(TransactionBegin, r)]) ++ e2) ++ e3) TransactionAbort) as [r1 ->].
    rewrite <- !app_assoc. apply Hfail. cbn. rewrite Hr, (M2 _), (M3 _). constructor. }
  destruct (G3 _ eq_refl) as [A1 ->]. cbn [app] in M3.
  calls; rewrite <- ?app_assoc.
  - apply Hfail. cbn. rewrite Hr, (M2 _), (M3 _). cbn. rewrite Hr0. constructor.
  - split; [intros Ef; cbn in Ef; congruence|]. eexists. split; [reflexivity|]. cbn [state_ lastError_ engine_ filterIds_].
    split_and!; [done..|]. exists before, added. split_and!; [done| |done|done].
    rewrite Hc. cbn. rewrite Hr, (M2 _), (M3 _). cbn. by rewrite Hr0.
Qed.

(** C20: the policy swap is all or nothing, whatever Windows answers to any of the calls.  When
    [Apply] reports failure, the object still holds the state and the filters it had, an
    error is recorded, and no transaction it committed touched a filter; when it reports
    success for a state other than [Off], exactly one committed transaction did, the
    last, and it deleted every filter of the old policy and added the new set in
    full, in order, under the ids the object now holds.  [Off] cannot fail, and leaves the
    engine closed. *)
Theorem apply_all_or_nothing s cfg p t :
  policy_wf p ->
  let '(ok, p', t') := ApplyLocked s cfg p t in
  policy_wf p' /\ exists e, t' = t ++ e /\
  if ok then
    state_ p' = s /\ lastError_ p' = None /\
    if bool_decide (s = WOff) then engine_ p' = false /\ filterIds_ p' = []
    else engine_ p' = true /\ exists before added, no_filters before /\
      committed None e = before ++ [(filterIds_ p, added)] /\
      added.*1 = BuildFilterSet s cfg /\ added.*2 = filterIds_ p'
  else
    s <> WOff /\ state_ p' = state_ p /\ filterIds_ p' = filterIds_ p /\ lastError_ p' <> None /\
    no_filters (committed None e).
Proof. apply ApplyLocked_spec. Qed.
End PolicyLemmas.

(** Windows refuses a filter once some are in. *)
Definition demo_bfe : Bfe := {|
  answer t c := match c with FilterAdd _ _ => if (12 <? length t)%nat then 0x80320020 else 0 | _ => 0 end;
  new_id t := Z.of_nat (length t); null_blob _ := false; provider_disabled _ := false |}.

Lemma apply_all_or_nothing_witness :
  let p := mkPolicy true WArmed [1; 2] None in
  policy_wf p /\
  let '(ok, p', t') := @ApplyLocked demo_winsock demo_bfe WConnecting demo_config p [] in
  policy_wf p' /\ exists e, t' = [] ++ e /\
  if ok then
    state_ p' = WConnecting /\ lastError_ p' = None /\
    if bool_decide (WConnecting = WOff) then engine_ p' = false /\ filterIds_ p' = []
    else engine_ p' = true /\ exists before added, no_filters before /\
      committed None e = before ++ [(filterIds_ p, added)] /\
      added.*1 = @BuildFilterSet demo_winsock WConnecting demo_config /\ added.*2 = filterIds_ p'
  else
    WConnecting <> WOff /\ state_ p' = state_ p /\ filterIds_ p' = filterIds_ p /\ lastError_ p' <> None /\
    no_filters (committed None e).
Proof.
  intros p. assert (policy_wf p) as Hwf by done. split; [exact Hwf|].
  exact (@apply_all_or_nothing demo_winsock demo_bfe WConnecting demo_config p [] Hwf).
Defined.

(** An enumeration that answers full pages up to the last. *)
Inductive paged {K} : list (list K) -> Prop :=
  | paged_last p : (length p < kPage)%nat -> paged [p]
  | paged_full p ps : length p = kPage -> paged ps -> paged (p :: ps).

Lemma collect_all {K} (ps : list (list (option Provider * K))) :
  paged ps -> collect ps = map snd (List.filter (fun e => IsOurProvider (fst e)) (concat ps)).
Proof.
  induction 1 as [p Hp|p ps Hp _ IH]; cbn [collect concat].
  - rewrite app_nil_r. destruct p; [done|]. cbn [length Nat.eqb]. rewrite (proj2 (Nat.ltb_lt _ _)) by done.
    by rewrite app_nil_r.
  - rewrite Hp, IH, List.filter_app, map_app. done.
Qed.

(** The sweep takes back every object of the product and no other, or none at all.
    When the enumerations answer full pages up to their last, the objects it counts are
    all and only those one of the product's providers owns; it deletes nothing when it only
    observes; and otherwise it deletes exactly what it counted, in one
    transaction, filters before the sublayers that hold them and sublayers before the
    providers. *)
Theorem sweep_takes_only_ours begins filters sublayers providers remove :
  opens filters = true -> opens sublayers = true -> opens providers = true ->
  paged (pages filters) -> paged (pages sublayers) -> paged (pages providers) ->
  let ours {K} (e : Enumeration K) := map snd (List.filter (fun x => IsOurProvider (fst x)) (concat (pages e))) in
  let '(found, calls) := SweepOrphanedObjects true begins filters sublayers providers remove in
  found = (length (ours filters) + length (ours sublayers) + length (ours providers))%nat /\
  (remove = false -> calls = []) /\
  (remove = true -> begins = true -> found <> 0%nat ->
    calls = SweepBegin :: map DeleteFilter (ours filters) ++ map DeleteSubLayer (ours sublayers) ++
      map DeleteProvider (ours providers) ++ [SweepCommit]).
Proof.
  intros O1 O2 O3 P1 P2 P3 ours. unfold SweepOrphanedObjects, enumerate. rewrite O1, O2, O3, !collect_all by done.
  cbn [negb]. destruct (_ =? 0)%nat eqn:E.
  - apply Nat.eqb_eq in E. unfold ours. split_and!; [symmetry; exact E|done..].
  - destruct remove; cbn [negb]; (split_and!; try done). by intros _ ->.
Qed.

Lemma sweep_takes_only_ours_witness :
  let filters := mkEnumeration true [[(Some Foreign, 1); (Some PersistentProvider, 2); (None, 3)]] in
  let none := mkEnumeration true [[]] in
  let ours {K} (e : Enumeration K) := map snd (List.filter (fun x => IsOurProvider (fst x)) (concat (pages e))) in
  let '(found, calls) := SweepOrphanedObjects true true filters none none true in
  found = (length (ours filters) + length (ours none) + length (ours none))%nat /\
  (true = false -> calls = []) /\
  (true = true -> true = true -> found <> 0%nat ->
    calls = SweepBegin :: map DeleteFilter (ours filters) ++ map DeleteSubLayer (ours none) ++
      map DeleteProvider (ours none) ++ [SweepCommit]).
Proof. apply (sweep_takes_only_ours true _ _ _ true); try reflexivity; apply paged_last; cbn; unfold kPage; lia. Defined.
