(* ===== verification/Balance.v ===== *)
(** The insufficient-balance gate (BalanceGate.h): the connect button, the latch and the
    start-connect decision, the notices, and the recovery of a blocked connect.  The
    sinks the source calls are the effects a function returns. *)

From S2P Require Import Prelude.

(** * The connect button *)

Definition OutOfBalance (insufficientBalance supporter confirming : bool) : bool :=
  insufficientBalance && negb supporter && negb confirming.

Inductive ConnectButtonAction := ButtonConnect | ButtonDisconnect | ButtonRetry.
#[export] Instance ConnectButtonAction_eq_dec : EqDecision ConnectButtonAction.
Proof. solve_decision. Defined.

Record ConnectButton := mkButton { action : ConnectButtonAction; enabled : bool }.

Definition DecideConnectButton (failed actionIsDisconnect confirming outOfBalance transitional watchdogFired : bool) :
    ConnectButton :=
  let act := if failed && negb outOfBalance then ButtonRetry
             else if actionIsDisconnect then ButtonDisconnect else ButtonConnect in
  let blocked := confirming || outOfBalance in
  if blocked && bool_decide (act = ButtonDisconnect) then mkButton act true
  else mkButton act (negb blocked && (negb transitional || watchdogFired)).

(** * The latch *)

Record Observation := mkObservation {
  o_insufficientBalance : bool; providersConnected : bool; balanceKnown : bool; o_availableBytes : Z }.

Record OutOfBalanceLatch := mkLatch { latched_ : bool; lowKnown_ : bool; lowBytes_ : Z }.

Definition LatchReset (l : OutOfBalanceLatch) : OutOfBalanceLatch := mkLatch false false 0.
Definition new_latch : OutOfBalanceLatch := mkLatch false false 0.

Definition NoteBalance (l : OutOfBalanceLatch) (o : Observation) : OutOfBalanceLatch :=
  if negb (balanceKnown o) then l else
  if negb (lowKnown_ l) || (o_availableBytes o <? lowBytes_ l) then mkLatch (latched_ l) true (o_availableBytes o)
  else l.

Definition LatchObserve (l : OutOfBalanceLatch) (o : Observation) : OutOfBalanceLatch :=
  if o_insufficientBalance o then NoteBalance (mkLatch true (lowKnown_ l) (lowBytes_ l)) o else
  if negb (latched_ l) then l else
  if providersConnected o then LatchReset l else
  if balanceKnown o && lowKnown_ l && (lowBytes_ l <? o_availableBytes o) then LatchReset l else
  NoteBalance l o.

Definition InsufficientBalance (l : OutOfBalanceLatch) : bool := latched_ l.

(** * Gestures *)

Inductive ConnectGestureAction := GestureConnect | GestureDisconnect | GestureUpgrade.

Definition DecideConnectGesture (actionIsDisconnect outOfBalance : bool) : ConnectGestureAction :=
  if actionIsDisconnect then GestureDisconnect else
  if outOfBalance then GestureUpgrade else
  GestureConnect.

Inductive Sink := SinkConnect | SinkDisconnect | SinkUpgrade | SinkFetchBalance | SinkNotice | SinkDataLimitNotice.
#[export] Instance Sink_eq_dec : EqDecision Sink.
Proof. solve_decision. Defined.

Definition RouteConnectGesture (actionIsDisconnect outOfBalance : bool) : list Sink :=
  match DecideConnectGesture actionIsDisconnect outOfBalance with
  | GestureDisconnect => [SinkDisconnect]
  | GestureUpgrade => [SinkUpgrade]
  | GestureConnect => [SinkConnect]
  end.

(** * Starting a connect *)

Record AccountBalance := mkBalance {
  known : bool; pro : bool; availableBytes : Z; openTransferBytes : Z; fetchedAtMs : Z }.

Definition kFreshBalanceMs : Z := 60000.
Definition kStartConnectFetchTimeoutMs : Z := 5000.

Definition WithinFreshness (atMs nowMs : Z) : bool :=
  (atMs <=? nowMs) && (nowMs - atMs <=? kFreshBalanceMs).

Definition AccountBalanceExhausted (b : AccountBalance) : bool :=
  known b && negb (pro b) && (availableBytes b <=? 0) && (openTransferBytes b <=? 0).

Record StartConnectFacts := mkFacts {
  latched : bool; supporter : bool; confirming : bool; balance : AccountBalance;
  fetchSettled : bool; fetchSettledAtMs : Z; nowMs : Z }.

Inductive StartConnectStep := StepConnect | StepUpgrade | StepFetchBalance.
#[export] Instance StartConnectStep_eq_dec : EqDecision StartConnectStep.
Proof. solve_decision. Defined.

Definition DecideStartConnect (f : StartConnectFacts) : StartConnectStep :=
  if OutOfBalance (latched f) (supporter f) (confirming f) then StepUpgrade else
  if supporter f || confirming f then StepConnect else
  if known (balance f) && WithinFreshness (fetchedAtMs (balance f)) (nowMs f) then
    if AccountBalanceExhausted (balance f) then StepUpgrade else StepConnect
  else
  if fetchSettled f && WithinFreshness (fetchSettledAtMs f) (nowMs f) then StepConnect else
  StepFetchBalance.

Definition AdmitStartConnect (facts : StartConnectFacts) : bool * list Sink :=
  match DecideStartConnect facts with
  | StepConnect => (true, [])
  | StepUpgrade => (false, [SinkUpgrade])
  | StepFetchBalance => (false, [SinkFetchBalance])
  end.

(** * Notices *)

(** The state of [GateNoticeTracker]: whether the episode's notice was posted. *)
Definition TrackerUpdate (posted_ insufficientBalance supporter confirming : bool) : bool * bool :=
  if negb insufficientBalance then (false, false) else
  if posted_ || negb (OutOfBalance insufficientBalance supporter confirming) then (posted_, false) else
  (true, true).

Definition ReactToBalancePush (posted_ insufficientBalance supporter confirming : bool) : bool * list Sink :=
  let '(posted_, post) := TrackerUpdate posted_ insufficientBalance supporter confirming in
  (posted_, if post then [SinkNotice] else []).

Inductive TrafficLine := LineNone | Held | Blocked | NotProtected.
#[export] Instance TrafficLine_eq_dec : EqDecision TrafficLine.
Proof. solve_decision. Defined.

Definition TrafficLineFor (sessionUp routesInstalled firewallInForce : bool) : TrafficLine :=
  if negb sessionUp then LineNone else
  if routesInstalled then Held else
  if firewallInForce then Blocked else NotProtected.

Definition BannerSaysDisconnectFirst (outOfBalance : bool) (line : TrafficLine) : bool :=
  outOfBalance && (bool_decide (line = Held) || bool_decide (line = Blocked)).

Definition BannerOffersDisconnect (refused sessionUp : bool) : bool := refused && sessionUp.

(** The state of [DataLimitGate]: a refusal seen while the plan was not Pro. *)
Definition DataLimitObserve (refusedBeforePro_ insufficientBalance planKnown pro confirming : bool) : bool * bool :=
  if negb insufficientBalance then (false, false) else
  let refusedBeforePro_ := if planKnown && negb pro then true else refusedBeforePro_ in
  (refusedBeforePro_, planKnown && pro && negb refusedBeforePro_ && negb confirming).

Definition ReactToDataLimitPush (posted_ insufficientBalance dataLimit : bool) : bool * list Sink :=
  let '(posted_, post) := TrackerUpdate posted_ insufficientBalance (negb dataLimit) false in
  (posted_, if post then [SinkDataLimitNotice] else []).

Definition BannerOffersUpgrade (dataLimit : bool) : bool := negb dataLimit.

(** * Recovery *)

Definition kRecoveryThresholdBytes : Z := 64 * 1024 * 1024.
Definition kRecoveryMaxRetries : Z := 3.
Definition kRecoveryBudgetResetMs : Z := 10 * 60 * 1000.

Inductive OutOfBalanceKind := KindUnknown | Reserved | Exhausted.
#[export] Instance OutOfBalanceKind_eq_dec : EqDecision OutOfBalanceKind.
Proof. solve_decision. Defined.

Definition OutOfBalanceKindFor (b : AccountBalance) : OutOfBalanceKind :=
  if negb (known b) || pro b then KindUnknown else
  if kRecoveryThresholdBytes <=? availableBytes b then KindUnknown else
  if kRecoveryThresholdBytes <=? openTransferBytes b then Reserved else
  Exhausted.

Record RecoveryState := mkRecoveryState { startWaiting : bool; retriesLeft : bool }.

Section Recovery.
Context {Target : Type}.

Inductive RecoveryStep := NoStep | StartStep (target : Target) | RebuildStep.

Record BalanceRecovery := mkRecovery {
  refusedStart_ : option Target; held_ : bool; armedAtMs_ : option Z; retries_ : Z; lastRetryAtMs_ : Z }.

Definition new_recovery : BalanceRecovery := mkRecovery None false None 0 0.

Definition State (r : BalanceRecovery) : RecoveryState :=
  mkRecoveryState (bool_decide (is_Some (refusedStart_ r))) (retries_ r <? kRecoveryMaxRetries).

Definition Arm (r : BalanceRecovery) (atMs : Z) : BalanceRecovery :=
  match armedAtMs_ r with
  | Some _ => r
  | None => mkRecovery (refusedStart_ r) (held_ r) (Some atMs) (retries_ r) (lastRetryAtMs_ r)
  end.

Definition StartRefused (r : BalanceRecovery) (target : Target) (nowMs : Z) : BalanceRecovery :=
  Arm (mkRecovery (Some target) (held_ r) (armedAtMs_ r) 0 (lastRetryAtMs_ r)) nowMs.

Definition Clear (r : BalanceRecovery) : BalanceRecovery :=
  mkRecovery None (held_ r) None 0 (lastRetryAtMs_ r).

(** The first lines of [Observe]: a newly held connection arms, and a connection that
    stayed out of the block refills. *)
Definition note_held (r : BalanceRecovery) (gate connectRequested : bool) (nowMs : Z) : BalanceRecovery :=
  let heldNow := gate && connectRequested in
  let r := if heldNow && negb (held_ r) then Arm r nowMs else r in
  let r := mkRecovery (refusedStart_ r) heldNow (armedAtMs_ r) (retries_ r) (lastRetryAtMs_ r) in
  if connectRequested && negb heldNow && (0 <? retries_ r) &&
     (kRecoveryBudgetResetMs <=? nowMs - lastRetryAtMs_ r)
  then mkRecovery (refusedStart_ r) heldNow (armedAtMs_ r) 0 (lastRetryAtMs_ r) else r.

Definition RecoveryObserve (r : BalanceRecovery) (gate connectRequested : bool) (b : AccountBalance) (nowMs : Z) :
    BalanceRecovery * RecoveryStep :=
  let r := note_held r gate connectRequested nowMs in
  if negb (bool_decide (is_Some (refusedStart_ r))) && negb (held_ r) then
    (mkRecovery (refusedStart_ r) (held_ r) None (retries_ r) (lastRetryAtMs_ r), NoStep) else
  if negb (known b) then (r, NoStep) else
  if availableBytes b <? kRecoveryThresholdBytes then (Arm r (fetchedAtMs b), NoStep) else
  match armedAtMs_ r with
  | None => (r, NoStep)
  | Some armed =>
      if (fetchedAtMs b <? armed) || (kRecoveryMaxRetries <=? retries_ r) then (r, NoStep) else
      match refusedStart_ r with
      | Some target => (mkRecovery None (held_ r) None (retries_ r + 1) nowMs, StartStep target)
      | None => (mkRecovery None (held_ r) None (retries_ r + 1) nowMs, RebuildStep)
      end
  end.
End Recovery.
Arguments RecoveryStep : clear implicits.
Arguments BalanceRecovery : clear implicits.

Record RecoveryLines := mkLines { kind : OutOfBalanceKind; willReconnect : bool; lines_cancel : bool }.

Definition RecoveryLinesFor (outOfBalance sessionUp : bool) (kind : OutOfBalanceKind) (recovery : option RecoveryState) :
    RecoveryLines :=
  let waiting := match recovery with Some r => startWaiting r | None => false end in
  let will := match recovery with
              | Some r => retriesLeft r && (waiting || (outOfBalance && sessionUp))
              | None => false
              end in
  mkLines (if outOfBalance then kind else KindUnknown) will (will && waiting).

Definition BannerOpen (outOfBalance : bool) (recovery : option RecoveryState) : bool :=
  outOfBalance || match recovery with Some r => startWaiting r && retriesLeft r | None => false end.

(** * The latch keeps *)

(** A reading that could only mean data is still short: no providers, and no more
    available than [low], when both are known. *)
Definition still_short (low : option Z) (o : Observation) : Prop :=
  o_insufficientBalance o = true \/
  (providersConnected o = false /\ (balanceKnown o = true -> forall b, low = Some b -> o_availableBytes o <= b)).

Definition low_of (l : OutOfBalanceLatch) : option Z := if lowKnown_ l then Some (lowBytes_ l) else None.

Lemma LatchObserve_cases l o :
  latched_ l = true -> latched_ (LatchObserve l o) = true <-> still_short (low_of l) o.
Proof.
  intros Hl. unfold LatchObserve, still_short, NoteBalance, low_of. rewrite Hl. cbn [negb].
  destruct (o_insufficientBalance o); [split; [by left|]; intros _; cases_if; done|].
  destruct (providersConnected o); [naive_solver|].
  destruct (balanceKnown o), (lowKnown_ l); cbn; try (split; [intros _; right; naive_solver|intros _; by rewrite ?Hl]).
  destruct (Z.ltb_spec (lowBytes_ l) (o_availableBytes o)); cbn.
  - split; [done|]. intros [?|[_ H']]; [done|]. specialize (H' eq_refl _ eq_refl). lia.
  - split; [intros _; right; split; [done|]; intros _ b [= <-]; lia|]. intros _. by cases_if.
Qed.

(** * Recovery *)

Section RecoveryRuns.
Context {Target : Type}.
Implicit Types (r : BalanceRecovery Target).

Record Reading := mkReading { gate : bool; requested : bool; reading : AccountBalance; at_ms : Z }.

Definition retried (s : RecoveryStep Target) : Z := match s with NoStep => 0 | _ => 1 end.

(** How many retries a run of observations makes. *)
Fixpoint run_recovery r (l : list Reading) : BalanceRecovery Target * Z :=
  match l with
  | [] => (r, 0)
  | o :: l =>
      let '(r, s) := RecoveryObserve r (gate o) (requested o) (reading o) (at_ms o) in
      let '(r, n) := run_recovery r l in (r, retried s + n)
  end.

(** The observations come in order, from [t] on, and end by [t']. *)
Fixpoint in_order (t t' : Z) (l : list Reading) : Prop :=
  match l with [] => t <= t' | o :: l => t <= at_ms o /\ in_order (at_ms o) t' l end.

Lemma Arm_keeps r t : refusedStart_ (Arm r t) = refusedStart_ r /\ held_ (Arm r t) = held_ r /\
  retries_ (Arm r t) = retries_ r /\ lastRetryAtMs_ (Arm r t) = lastRetryAtMs_ r.
Proof. unfold Arm. by destruct (armedAtMs_ r). Qed.

Lemma note_held_keeps r g q t :
  let r' := note_held r g q t in
  refusedStart_ r' = refusedStart_ r /\ held_ r' = g && q /\ lastRetryAtMs_ r' = lastRetryAtMs_ r /\
  (retries_ r' = retries_ r \/
   (retries_ r' = 0 /\ 0 < retries_ r /\ kRecoveryBudgetResetMs <= t - lastRetryAtMs_ r)) /\
  (forall a, armedAtMs_ r' = Some a -> armedAtMs_ r = Some a \/ (a = t /\ g && q = true /\ held_ r = false)).
Proof.
  unfold note_held. cbv zeta. set (r1 := if g && q && negb (held_ r) then Arm r t else r).
  assert (refusedStart_ r1 = refusedStart_ r /\ retries_ r1 = retries_ r /\ lastRetryAtMs_ r1 = lastRetryAtMs_ r)
    as (E1 & E2 & E3).
  { unfold r1. destruct (_ && _); [|done]. pose proof (Arm_keeps r t). naive_solver. }
  assert (forall a, armedAtMs_ r1 = Some a -> armedAtMs_ r = Some a \/ (a = t /\ g && q = true /\ held_ r = false)) as E4.
  { unfold r1, Arm. intros a. destruct (g && q); cbn [andb]; [|by left]. destruct (held_ r); cbn [negb]; [by left|].
    destruct (armedAtMs_ r) as [x|] eqn:Ea; cbn; [rewrite Ea; by left|]. intros [= <-]. by right. }
  cbn [retries_ lastRetryAtMs_ refusedStart_ armedAtMs_]. rewrite E2, E3.
  destruct (_ && _ && _ && _) eqn:E; cbn [refusedStart_ held_ retries_ lastRetryAtMs_ armedAtMs_];
    rewrite ?E1, ?E2, ?E3; bool_hyps; split_and!; auto.
Qed.

(** One observation: the retries, and what makes a retry. *)
Lemma RecoveryObserve_spec r g q b t r' s :
  RecoveryObserve r g q b t = (r', s) ->
  (s = NoStep /\ retries_ r' = retries_ (note_held r g q t) /\ lastRetryAtMs_ r' = lastRetryAtMs_ r) \/
  (s <> NoStep /\ retries_ r' = retries_ (note_held r g q t) + 1 /\ lastRetryAtMs_ r' = t /\
   retries_ (note_held r g q t) < kRecoveryMaxRetries /\ armedAtMs_ r' = None /\ refusedStart_ r' = None /\
   known b = true /\ kRecoveryThresholdBytes <= availableBytes b /\
   (exists a, armedAtMs_ (note_held r g q t) = Some a /\ a <= fetchedAtMs b) /\
   match s with
   | StartStep target => refusedStart_ r = Some target
   | RebuildStep => refusedStart_ r = None /\ g = true /\ q = true
   | NoStep => False
   end).
Proof.
  unfold RecoveryObserve. destruct (note_held_keeps r g q t) as (E1 & E2 & E3 & _ & _).
  set (n := note_held r g q t) in *. destruct (negb _ && negb (held_ n)) eqn:Ew.
  { intros [= <- <-]. left. by rewrite <- E3. }
  destruct (known b); cbn [negb]; [|intros [= <- <-]; left; by rewrite <- E3].
  destruct (Z.ltb_spec (availableBytes b) kRecoveryThresholdBytes).
  { intros [= <- <-]. left. destruct (Arm_keeps n (fetchedAtMs b)) as (_ & _ & -> & ->). by rewrite E3. }
  destruct (armedAtMs_ n) as [a|]; [|intros [= <- <-]; left; by rewrite <- E3].
  destruct (_ || _) eqn:Eo; [intros [= <- <-]; left; by rewrite <- E3|]. bool_hyps.
  destruct (refusedStart_ n) as [target|] eqn:Er; intros [= <- <-]; right; cbn; split_and!; try done; try lia; eauto;
    try (exists a; split; [done|lia]).
  - apply andb_false_iff in Ew as [Ew|Ew]; [|by apply negb_false_iff in Ew; rewrite E2 in Ew; bool_hyps].
    by rewrite bool_decide_eq_false_2 in Ew by (by intros [? ?]).
  - apply andb_false_iff in Ew as [Ew|Ew]; [|by apply negb_false_iff in Ew; rewrite E2 in Ew; bool_hyps].
    by rewrite bool_decide_eq_false_2 in Ew by (by intros [? ?]).
Qed.

(** The budget's account: what has been spent since [t0], by the time [t]. *)
Definition budget_ok (t0 t : Z) r (spent : Z) : Prop :=
  0 <= retries_ r <= kRecoveryMaxRetries /\ t0 <= t /\
  exists refills, 0 <= refills /\ spent <= kRecoveryMaxRetries * refills + retries_ r /\
    refills * kRecoveryBudgetResetMs <= t - t0 /\
    (0 < retries_ r -> refills * kRecoveryBudgetResetMs <= lastRetryAtMs_ r - t0).

Lemma RecoveryObserve_budget t0 t r spent o r' s :
  budget_ok t0 t r spent -> t <= at_ms o ->
  RecoveryObserve r (gate o) (requested o) (reading o) (at_ms o) = (r', s) ->
  budget_ok t0 (at_ms o) r' (spent + retried s).
Proof.
  intros (Hr & Ht & f & Hf & Hs & Hp & Hl) Ho E.
  destruct (note_held_keeps r (gate o) (requested o) (at_ms o)) as (_ & _ & E3 & E4 & _).
  apply RecoveryObserve_spec in E. set (n := note_held _ _ _ _) in *. unfold budget_ok, kRecoveryMaxRetries in *.
  destruct E4 as [En|(En & Hpos & Hlong)].
  - destruct E as [(-> & -> & ->)|(Hne & -> & -> & Hlt & _)]; rewrite En in *; cbn [retried].
    + split; [lia|]. split; [lia|]. exists f. split_and!; try lia; intros; by apply Hl.
    + assert (retried s = 1) as -> by (by destruct s). split; [lia|]. split; [lia|]. exists f. split_and!; lia.
  - specialize (Hl Hpos). unfold kRecoveryBudgetResetMs in *.
    destruct E as [(-> & -> & ->)|(Hne & -> & -> & Hlt & _)]; rewrite En in *; cbn [retried].
    + split; [lia|]. split; [lia|]. exists (f + 1). split_and!; lia.
    + assert (retried s = 1) as -> by (by destruct s). split; [lia|]. split; [lia|]. exists (f + 1). split_and!; lia.
Qed.

Lemma run_recovery_budget t0 l : forall t t' r spent,
  budget_ok t0 t r spent -> in_order t t' l ->
  let '(r', n) := run_recovery r l in exists t1, t1 <= t' /\ budget_ok t0 t1 r' (spent + n).
Proof.
  induction l as [|o l IH]; intros t t' r spent Hb Ho; cbn [run_recovery in_order] in *.
  - exists t. by rewrite Z.add_0_r.
  - destruct Ho as [Ht Ho]. destruct (RecoveryObserve r _ _ _ _) as [r1 s] eqn:E.
    pose proof (RecoveryObserve_budget _ _ _ _ _ _ _ Hb Ht E) as Hb1.
    specialize (IH (at_ms o) t' r1 (spent + retried s) Hb1 Ho).
    destruct (run_recovery r1 l) as [r2 n]. destruct IH as (t1 & H1 & H2). exists t1. split; [done|].
    by rewrite Z.add_assoc.
Qed.
End RecoveryRuns.

(** * Episodes *)

(** The notices of a run of pushes: whether the account is out, a supporter, and
    confirming a purchase. *)
Fixpoint notices (posted : bool) (l : list (bool * bool * bool)) : list Sink :=
  match l with
  | [] => []
  | (i, s, c) :: l => let '(posted, e) := ReactToBalancePush posted i s c in e ++ notices posted l
  end.

Lemma notices_posted l : Forall (fun p => p.1.1 = true) l -> notices true l = [].
Proof.
  induction 1 as [|[[i s] c] l Hi F IH]; cbn [notices]; [done|]. cbn in Hi. subst i.
  unfold ReactToBalancePush, TrackerUpdate. cbn. done.
Qed.

(** * Properties *)

(** The recovery's retries are bounded.  However the balance moves and however often
    it is read, the retries made from one ask of the user's over a time [t' - t0] are
    at most three, and three more for each ten minutes of it. *)
Theorem recovery_retries_bounded {Target} (r : BalanceRecovery Target) l t0 t' :
  retries_ r = 0 -> in_order t0 t' l ->
  (run_recovery r l).2 <= kRecoveryMaxRetries * ((t' - t0) / kRecoveryBudgetResetMs + 1).
Proof.
  intros Hr Ho. pose proof (run_recovery_budget t0 l t0 t' r 0) as H.
  destruct (run_recovery r l) as [r' n]. destruct H as (t1 & H1 & Hr' & Ht & f & Hf & Hs & Hp & _); [|done|].
  - unfold budget_ok, kRecoveryMaxRetries. rewrite Hr. split; [lia|]. split; [lia|]. exists 0. split_and!; lia.
  - cbn [snd]. unfold kRecoveryMaxRetries, kRecoveryBudgetResetMs in *.
    assert (f <= (t' - t0) / (10 * 60 * 1000)) by (apply Z.div_le_lower_bound; lia). lia.
Qed.

Lemma recovery_retries_bounded_witness :
  let low t := mkReading true true (mkBalance true false 0 0 t) t in
  let high t := mkReading true true (mkBalance true false 100000000 0 t) t in
  let l := [low 10; high 20; low 30; high 40; low 50; high 60; low 70; high 80] in
  (run_recovery (StartRefused new_recovery tt 5) l).2 = 3 /\
  (run_recovery (StartRefused new_recovery tt 5) l).2 <=
  kRecoveryMaxRetries * ((80 - 5) / kRecoveryBudgetResetMs + 1).
Proof.
  intros low high l. split; [reflexivity|]. apply (recovery_retries_bounded (StartRefused new_recovery tt 5) l 5 80).
  - reflexivity.
  - cbn. lia.
Defined.

(** A retry never connects a user who did not ask, nor on an old reading: it reruns
    exactly the gesture the gate refused, or rebuilds a connection that is requested
    and held out of balance now; the balance that triggers it has at least the
    threshold available and was fetched at or after the block or the low reading
    that armed it; and it disarms, so nothing retries again before the next block or
    low reading. *)
Theorem recovery_only_what_was_asked {Target} (r : BalanceRecovery Target) gate requested b now r' s :
  RecoveryObserve r gate requested b now = (r', s) -> s <> NoStep ->
  match s with
  | StartStep target => refusedStart_ r = Some target
  | RebuildStep => refusedStart_ r = None /\ gate = true /\ requested = true
  | NoStep => False
  end /\
  known b = true /\ kRecoveryThresholdBytes <= availableBytes b /\
  (exists a, a <= fetchedAtMs b /\ (armedAtMs_ r = Some a \/ (a = now /\ held_ r = false))) /\
  armedAtMs_ r' = None /\ refusedStart_ r' = None.
Proof.
  intros E Hs. destruct (note_held_keeps r gate requested now) as (_ & _ & _ & _ & Ha).
  apply RecoveryObserve_spec in E as [(-> & _)|(_ & _ & _ & _ & H1 & H2 & H3 & H4 & (a & H5 & H6) & H7)]; [done|].
  split; [done|]. split; [done|]. split; [done|]. split; [|done]. exists a. split; [done|].
  apply Ha in H5 as [?|(? & _ & ?)]; auto.
Qed.

Lemma recovery_only_what_was_asked_witness :
  let r := StartRefused new_recovery 7%nat 5 in
  let b := mkBalance true false 100000000 0 9 in
  match StartStep 7%nat with
  | StartStep target => refusedStart_ r = Some target
  | RebuildStep => refusedStart_ r = None /\ false = true /\ false = true
  | NoStep => False
  end /\
  known b = true /\ kRecoveryThresholdBytes <= availableBytes b /\
  (exists a, a <= fetchedAtMs b /\ (armedAtMs_ r = Some a \/ (a = 10 /\ held_ r = false))) /\
  armedAtMs_ (mkRecovery (Target := nat) None false None 1 10) = None /\
  refusedStart_ (mkRecovery (Target := nat) None false None 1 10) = None.
Proof.
  intros r b. apply (recovery_only_what_was_asked r false false b 10 (mkRecovery None false None 1 10) (StartStep 7%nat));
    [reflexivity|discriminate].
Defined.

(** A start is sent to upgrade only on evidence: the session ran out, or a balance
    read within the last minute has nothing left, and the user is neither a supporter
    nor confirming a purchase.  A funded account is never blocked by an old reading,
    a start asks for at most one fetch before it is decided, and the app's own
    gestures never disconnect for balance. *)
Theorem start_connect_decided f :
  (DecideStartConnect f = StepUpgrade <->
   supporter f = false /\ confirming f = false /\
   (latched f = true \/
    (known (balance f) = true /\ WithinFreshness (fetchedAtMs (balance f)) (nowMs f) = true /\
     pro (balance f) = false /\ availableBytes (balance f) <= 0 /\ openTransferBytes (balance f) <= 0))) /\
  (DecideStartConnect f = StepFetchBalance ->
   DecideStartConnect (mkFacts (latched f) (supporter f) (confirming f) (balance f) true (nowMs f) (nowMs f))
   = StepConnect) /\
  (AdmitStartConnect f).1 = bool_decide (DecideStartConnect f = StepConnect).
Proof.
  split; [|split].
  - unfold DecideStartConnect, OutOfBalance, AccountBalanceExhausted.
    destruct (latched f), (supporter f), (confirming f), (known (balance f)), (pro (balance f)),
      (WithinFreshness (fetchedAtMs (balance f)) (nowMs f)); cbn;
      destruct (Z.leb_spec (availableBytes (balance f)) 0), (Z.leb_spec (openTransferBytes (balance f)) 0); cbn;
      try destruct (_ && _); naive_solver lia.
  - unfold DecideStartConnect. cbn [latched supporter confirming balance nowMs fetchSettled fetchSettledAtMs].
    destruct (OutOfBalance _ _ _); [done|]. destruct (_ || _); [done|].
    destruct (known (balance f) && _); [by destruct (AccountBalanceExhausted _)|].
    intros _. unfold WithinFreshness, kFreshBalanceMs. rewrite Z.leb_refl, Z.sub_diag. done.
  - unfold AdmitStartConnect. by destruct (DecideStartConnect f).
Qed.

(** The out-of-balance notice is posted once per episode, and exactly when the gate
    holds in it: over the pushes of one episode the app posts one notice if some push
    finds the account out of balance, not a supporter and not confirming, and nothing
    otherwise; it never disconnects, whatever is pushed. *)
Theorem notice_once_per_episode l :
  Forall (fun p => p.1.1 = true) l ->
  notices false l = (if existsb (fun p => OutOfBalance p.1.1 p.1.2 p.2) l then [SinkNotice] else []) /\
  forall posted m, Forall (fun e => e = SinkNotice) (notices posted m).
Proof.
  intros Hl. split.
  - induction Hl as [|[[i s] c] l Hi F IH]; cbn [notices existsb fst snd]; [done|]. cbn in Hi. subst i.
    unfold ReactToBalancePush, TrackerUpdate. cbn [negb orb].
    destruct (OutOfBalance true s c); cbn; [by rewrite notices_posted|done].
  - intros posted m. revert posted. induction m as [|[[i s] c] m IH]; intros posted; cbn [notices]; [constructor|].
    unfold ReactToBalancePush. destruct (TrackerUpdate posted i s c) as [p []]; [by constructor|apply IH].
Qed.

Lemma notice_once_per_episode_witness :
  notices false [(true, false, true); (true, false, false); (true, false, false)] = [SinkNotice] /\
  forall posted m, Forall (fun e => e = SinkNotice) (notices posted m).
Proof.
  apply (notice_once_per_episode [(true, false, true); (true, false, false); (true, false, false)]).
  repeat constructor.
Defined.

(** The way out stays: out of balance the button only ever offers Disconnect, and that
    one is always enabled. *)
Lemma way_out_of_balance failed disconnect confirming transitional fired :
  let b := DecideConnectButton failed disconnect confirming true transitional fired in
  (enabled b = true <-> action b = ButtonDisconnect) /\ (action b = ButtonDisconnect <-> disconnect = true).
Proof.
  unfold DecideConnectButton. cbv zeta. rewrite andb_false_r, orb_true_r. destruct disconnect; cbn; naive_solver.
Qed.
