(* ===== verification/Instance.v ===== *)
(** One running instance, and the launches that reach it (InstanceHandover.h): the
    relaunch's wait, the command line's arguments, the activation gate with its
    concurrent takes, and the rounds of a launch. *)

From S2P Require Import Prelude.
From S2P Require Import CxxText.

(** * Budgets, in milliseconds *)

Definition kServeBudget : Z := 10000.
Definition kRedirectBudget : Z := 15000.
Definition kExitingHolderBudget : Z := 30000.
Definition kLaunchRounds : nat := 4.
Definition kAutostartArgument : wtext := wtxt "--autostart".
Definition kAfterUpdateArgument : wtext := wtxt "--after-update".
Definition kAfterUpdateBudget : Z := 120000.
Definition kAfterUpdatePoll : Z := 500.

(** The relaunch's wait: [updating n] and [now n] are the callbacks' answers in the
    [n]-th round; the sleep's length shows in the clock. *)
Fixpoint await_update_end (fuel : nat) (updating : nat -> bool) (now : nat -> Z) (deadline : Z) (n : nat) : option bool :=
  match fuel with
  | O => None
  | S fuel =>
      if negb (updating n) then Some true else
      if deadline <=? now n then Some false else
      await_update_end fuel updating now deadline (S n)
  end.

Definition AwaitUpdateEnd (fuel : nat) (updating : nat -> bool) (start : Z) (now : nat -> Z) (budget : Z) : option bool :=
  await_update_end fuel updating now (start + budget) 0.

(** * Arguments *)

(** The loop over the command line, a UTF-16 unit at a time. *)
Fixpoint scan_arguments (argument : wtext) (line token : wtext) (quoted inToken : bool) : bool :=
  match line with
  | [] => inToken && bool_decide (token = argument)
  | c :: line =>
      if c =? 34 then scan_arguments argument line token (negb quoted) true else
      if negb quoted && ((c =? 32) || (c =? 9)) then
        if inToken && bool_decide (token = argument) then true
        else scan_arguments argument line [] quoted false
      else scan_arguments argument line (token ++ [c]) quoted true
  end.

Definition HasArgument (commandLine argument : wtext) : bool := scan_arguments argument commandLine [] false false.

Record LaunchRequest := mkRequest { deepLink : text; autostart : bool }.

Inductive LaunchAction := HandleDeepLink | ShowWindow | TrayOnly.

Definition ActionFor (request : LaunchRequest) : LaunchAction :=
  if negb (bool_decide (deepLink request = [])) then HandleDeepLink else
  if autostart request then TrayOnly else ShowWindow.

(** * The activation gate *)

Inductive Outcome := Served | Refused | Undecided.
#[export] Instance Outcome_eq_dec : EqDecision Outcome.
Proof. solve_decision. Defined.

Inductive GateState := Starting | Open | Closed.
#[export] Instance GateState_eq_dec : EqDecision GateState.
Proof. solve_decision. Defined.

Record Launch_ := mkLaunch { request : LaunchRequest; posted : bool; outcome : Outcome; abandoned : bool }.

(** Where a call of [Take] is: about to post, closing because the post was refused,
    waiting, or returned. *)
Inductive TakeAt := Posting | Closing | Awaiting | Returned (o : Outcome).

(** The gate's members, the UI thread's queue of posted work, the launches acted on,
    whether the exiting signal was raised, and the calls of [Take] by the id of their
    launch. *)
Record Gate := mkGate {
  state_ : GateState;
  lastId_ : nat;
  launches_ : gmap nat Launch_;
  queue : list nat;
  served : list (nat * LaunchRequest);
  signal : bool;
  takes : gmap nat TakeAt;
}.

Definition new_gate : Gate := mkGate Starting 0 ∅ [] [] false ∅.

Definition set_launches (g : Gate) (m : gmap nat Launch_) : Gate :=
  mkGate (state_ g) (lastId_ g) m (queue g) (served g) (signal g) (takes g).
Definition set_take (g : Gate) (id : nat) (t : TakeAt) : Gate :=
  mkGate (state_ g) (lastId_ g) (launches_ g) (queue g) (served g) (signal g) (<[id := t]> (takes g)).

Definition decide_launch (l : Launch_) (o : Outcome) : Launch_ := mkLaunch (request l) (posted l) o (abandoned l).

(** [Take]'s first locked region, for a gate that is not closed. *)
Definition take_begin (g : Gate) (r : LaunchRequest) : Gate :=
  let id := S (lastId_ g) in
  let open := bool_decide (state_ g = Open) in
  mkGate (state_ g) id (<[id := mkLaunch r open Undecided false]> (launches_ g)) (queue g) (served g) (signal g)
    (<[id := if open then Posting else Awaiting]> (takes g)).

(** [Take] until its lock is released: a closed gate refuses at once and keeps nothing. *)
Definition TakeEntry (g : Gate) (r : LaunchRequest) : Gate * option Outcome :=
  if bool_decide (state_ g = Closed) then (g, Some Refused) else (take_begin g r, None).

(** [Open]'s locked region, and the launches it then serves in the order of their ids:
    the UI thread runs it, so its own queue comes after. [serve] runs once the lock is free;
    [served] records the launches here, where they are decided and where their order is
    fixed, since only the UI thread serves. *)
Definition OpenGate (g : Gate) : Gate :=
  if negb (bool_decide (state_ g = Starting)) then g else
  mkGate Open (lastId_ g)
    (omap (fun l : Launch_ => if abandoned l then None else Some (decide_launch l Served)) (launches_ g))
    (queue g)
    (served g ++ omap (fun id => (fun l : Launch_ => (id, request l)) <$> launches_ g !! id) (seq 1 (lastId_ g)))
    (signal g) (takes g).

(** [Close] after its signal. *)
Definition close_launch (l : Launch_) : option Launch_ :=
  let l := if bool_decide (outcome l = Undecided) then decide_launch l Refused else l in
  if abandoned l && negb (posted l) then None else Some l.

Definition CloseGate (g : Gate) : Gate :=
  if bool_decide (state_ g = Closed) then g else
  mkGate Closed (lastId_ g) (omap close_launch (launches_ g)) (queue g) (served g) (signal g) (takes g).

Definition raise_signal (g : Gate) : Gate :=
  mkGate (state_ g) (lastId_ g) (launches_ g) (queue g) (served g) true (takes g).

(** [ServePosted], run from the queue by the UI thread; [served] records the launch where it is
    decided, as in [OpenGate]. *)
Definition ServePosted (g : Gate) (id : nat) : Gate :=
  match launches_ g !! id with
  | None => g
  | Some l =>
      let refused := negb (bool_decide (outcome l = Undecided)) in
      let l' := if refused then l else decide_launch l Served in
      let launches := if abandoned l' then delete id (launches_ g) else <[id := l']> (launches_ g) in
      mkGate (state_ g) (lastId_ g) launches (queue g)
        (if refused then served g else served g ++ [(id, request l)]) (signal g) (takes g)
  end.

Definition pop_queue (g : Gate) : Gate :=
  mkGate (state_ g) (lastId_ g) (launches_ g) (tail (queue g)) (served g) (signal g) (takes g).
Definition push_queue (g : Gate) (id : nat) : Gate :=
  mkGate (state_ g) (lastId_ g) (launches_ g) (queue g ++ [id]) (served g) (signal g) (takes g).

(** The end of [Await]: a decided launch is erased, and one that is not is left to
    whoever decides it. *)
Definition await_end (g : Gate) (id : nat) (l : Launch_) : Gate :=
  let launches := if bool_decide (outcome l = Undecided)
                  then <[id := mkLaunch (request l) (posted l) (outcome l) true]> (launches_ g)
                  else delete id (launches_ g) in
  set_take (set_launches g launches) id (Returned (outcome l)).

Inductive gate_step : Gate -> Gate -> Prop :=
| gs_take g r : gate_step g (TakeEntry g r).1
| gs_post g id : takes g !! id = Some Posting -> gate_step g (set_take (push_queue g id) id Awaiting)
| gs_post_refused g id : takes g !! id = Some Posting -> gate_step g (set_take g id Closing)
| gs_take_signal g id : takes g !! id = Some Closing -> gate_step g (raise_signal g)
| gs_take_close g id : takes g !! id = Some Closing -> signal g = true -> gate_step g (set_take (CloseGate g) id Awaiting)
| gs_await g id l : takes g !! id = Some Awaiting -> launches_ g !! id = Some l -> gate_step g (await_end g id l)
| gs_open g : gate_step g (OpenGate g)
| gs_signal g : gate_step g (raise_signal g)
| gs_close g : signal g = true -> gate_step g (CloseGate g)
| gs_ui g id rest : queue g = id :: rest -> gate_step g (ServePosted (pop_queue g) id).

(** * A launch *)

Inductive RedirectResult := Taken | RedirectFailed | TimedOut | WaitFailed | HolderGone | RedirectNotStarted.
#[export] Instance RedirectResult_eq_dec : EqDecision RedirectResult.
Proof. solve_decision. Defined.

Record RedirectAttempt := mkAttempt { result : RedirectResult; holderExiting : bool }.

Inductive Step := Exit | RegisterAgain | AwaitHolderExitThenRegister | Report.

Definition AfterRedirect (attempt : RedirectAttempt) : Step :=
  if bool_decide (result attempt = HolderGone) then RegisterAgain else
  if holderExiting attempt then AwaitHolderExitThenRegister else
  if bool_decide (result attempt = Taken) then Exit else
  Report.

Inductive LaunchResult :=
  | Holder | HandedOver | NoResponse | LaunchRefused | Unreachable | LaunchNotStarted | StillClosing
  | RegistrationFailed | LaunchUpdating.

Definition ReportFor (r : RedirectResult) : LaunchResult :=
  match r with
  | RedirectFailed => LaunchRefused
  | TimedOut => NoResponse
  | WaitFailed => Unreachable
  | RedirectNotStarted => LaunchNotStarted
  | Taken | HolderGone => NoResponse
  end.

(** The calls of a launch, with their answers. *)
Inductive LCall := CUpdate (b : bool) | COwns (b : bool) | CRedirect (a : RedirectAttempt) | CAwait (b : bool) | CRegister (b : bool).

(** What the launch is run against: each answer may depend on every call before it. *)
Class Launcher := {
  UpdateInProgress : list LCall -> bool;
  OwnsKey : list LCall -> bool;
  Redirect : list LCall -> RedirectAttempt;
  AwaitHolderExit : list LCall -> bool;
  Register : list LCall -> bool;
}.

(** A round; [rounds] is [kLaunchRounds - round]. *)
Fixpoint launch_round `{Launcher} (rounds : nat) (tr : list LCall) : LaunchResult * list LCall :=
  let u := UpdateInProgress tr in
  let tr := tr ++ [CUpdate u] in
  if u then (LaunchUpdating, tr) else
  let o := OwnsKey tr in
  let tr := tr ++ [COwns o] in
  if o then (Holder, tr) else
  match rounds with
  | O => (StillClosing, tr)
  | S rounds =>
      let attempt := Redirect tr in
      let tr := tr ++ [CRedirect attempt] in
      let register tr :=
        let r := Register tr in
        let tr := tr ++ [CRegister r] in
        if negb r then (RegistrationFailed, tr) else launch_round rounds tr in
      match AfterRedirect attempt with
      | Exit => (HandedOver, tr)
      | Report => (ReportFor (result attempt), tr)
      | AwaitHolderExitThenRegister =>
          let u := UpdateInProgress tr in
          let tr := tr ++ [CUpdate u] in
          if u then (LaunchUpdating, tr) else
          let w := AwaitHolderExit tr in
          let tr := tr ++ [CAwait w] in
          if negb w then (StillClosing, tr) else register tr
      | RegisterAgain => register tr
      end
  end.

Definition Launch `{Launcher} : LaunchResult * list LCall := launch_round kLaunchRounds [].

(** * The gate's invariant *)

Definition served_ids (g : Gate) : list nat := (served g).*1.

(** A call of [Take] that has not returned. *)
Definition in_take (t : TakeAt) : Prop := match t with Returned _ => False | _ => True end.

Record gate_inv (g : Gate) : Prop := {
  gi_range : forall id, is_Some (launches_ g !! id) -> is_Some (takes g !! id);
  gi_fresh : forall id, is_Some (takes g !! id) -> (1 <= id <= lastId_ g)%nat;
  gi_wait : forall id t, takes g !! id = Some t -> in_take t ->
    exists l, launches_ g !! id = Some l /\ abandoned l = false;
  gi_left : forall id o, takes g !! id = Some (Returned o) ->
    match o with
    | Undecided => forall l, launches_ g !! id = Some l -> abandoned l = true
    | _ => launches_ g !! id = None
    end;
  gi_closed : state_ g = Closed -> signal g = true /\
    forall id l, launches_ g !! id = Some l -> outcome l <> Undecided;
  gi_refused : forall id l, launches_ g !! id = Some l -> outcome l = Refused -> state_ g = Closed;
  gi_served : forall id l, launches_ g !! id = Some l -> (outcome l = Served <-> id ∈ served_ids g);
  gi_returned : forall id, (takes g !! id = Some (Returned Served) -> id ∈ served_ids g) /\
    (takes g !! id = Some (Returned Refused) -> id ∉ served_ids g /\ state_ g = Closed);
  gi_nodup : NoDup (served_ids g);
  gi_known : forall id, id ∈ served_ids g -> is_Some (takes g !! id);
  gi_starting : state_ g = Starting -> queue g = [] /\ served g = [] /\
    forall id l, launches_ g !! id = Some l -> outcome l = Undecided;
  gi_posting : forall id, takes g !! id = Some Posting \/ takes g !! id = Some Closing -> state_ g <> Starting;
  gi_queued : state_ g = Open -> forall id l, launches_ g !! id = Some l -> outcome l = Undecided ->
    takes g !! id = Some Posting \/ takes g !! id = Some Closing \/ id ∈ queue g;
  gi_undecided : forall id, takes g !! id = Some (Returned Undecided) ->
    id ∈ served_ids g \/ state_ g = Closed \/
    exists l, launches_ g !! id = Some l /\ outcome l = Undecided /\ (state_ g = Starting \/ id ∈ queue g);
}.

Lemma new_gate_inv : gate_inv new_gate.
Proof.
  split; unfold new_gate, served_ids; cbn [launches_ takes served state_ signal queue lastId_ fmap list_fmap]; intros;
    try (split; intros);
    repeat match goal with
      | H : is_Some (∅ !! _) |- _ => destruct H as [? H]
      | H : ∅ !! _ = Some _ |- _ => by rewrite lookup_empty in H
      | H : _ ∈ [] |- _ => by apply elem_of_nil in H
      | H : _ \/ _ |- _ => destruct H
      end; try done; apply NoDup_nil_2.
Qed.

(** Case analysis of the lookups of updated maps. *)
Ltac lookups :=
  repeat match goal with
    | H : context [<[?i := _]> _ !! ?i] |- _ => rewrite lookup_insert_eq in H
    | |- context [<[?i := _]> _ !! ?i] => rewrite lookup_insert_eq
    | H : context [delete ?i _ !! ?i] |- _ => rewrite lookup_delete_eq in H
    | |- context [delete ?i _ !! ?i] => rewrite lookup_delete_eq
    | N : ?i <> ?j, H : context [<[?i := _]> _ !! ?j] |- _ => rewrite lookup_insert_ne in H by exact N
    | N : ?i <> ?j |- context [<[?i := _]> _ !! ?j] => rewrite lookup_insert_ne by exact N
    | N : ?i <> ?j, H : context [delete ?i _ !! ?j] |- _ => rewrite lookup_delete_ne in H by exact N
    | N : ?i <> ?j |- context [delete ?i _ !! ?j] => rewrite lookup_delete_ne by exact N
    | H : context [<[?i := _]> _ !! ?j] |- _ => destruct (decide (i = j)) as [<-|]
    | |- context [<[?i := _]> _ !! ?j] => destruct (decide (i = j)) as [<-|]
    | H : context [delete ?i _ !! ?j] |- _ => destruct (decide (i = j)) as [<-|]
    | |- context [delete ?i _ !! ?j] => destruct (decide (i = j)) as [<-|]
    end.

Ltac gate_fields :=
  unfold served_ids, set_take, set_launches, raise_signal, push_queue, pop_queue in *;
  cbn [launches_ takes served state_ signal queue lastId_ request posted outcome abandoned decide_launch] in *.

Lemma take_begin_inv g r : gate_inv g -> state_ g <> Closed -> gate_inv (take_begin g r).
Proof.
  intros I Hs. pose proof I as [R F W L C Rf S Rt N K St P Q U]. unfold take_begin.
  set (id := Datatypes.S (lastId_ g)).
  assert (takes g !! id = None) as Ht.
  { destruct (takes g !! id) eqn:E; [|done]. destruct (F id); [by rewrite E|]. unfold id in *. lia. }
  assert (launches_ g !! id = None) as Hl.
  { destruct (launches_ g !! id) eqn:E; [|done]. destruct (R id) as [? E']; [by rewrite E|]. congruence. }
  assert (id ∉ served_ids g) as Hserved by (intros [? Hin]%K; congruence).
  split; gate_fields; try done.
  - intros i. lookups; eauto.
  - intros i. lookups; [unfold id; lia|]. intros H. specialize (F i H). unfold id. lia.
  - intros i t. lookups; [intros _ _; eexists; split; [done|done]|]. apply W.
  - intros i o. lookups; [by destruct (bool_decide _)|]. apply L.
  - intros i l. lookups; [by intros [= <-]|]. apply Rf.
  - intros i l. lookups; [|apply S]. intros [= <-]. split; [done|]. intros H. by destruct Hserved.
  - intros i. lookups; [|apply Rt]. split; by destruct (bool_decide _).
  - intros i H. lookups; eauto.
  - intros H. destruct (St H) as (H1 & H2 & H3). split_and!; try done. intros i l. lookups; [by intros [= <-]|]. apply H3.
  - intros i. lookups; [|apply P]. case_bool_decide as Ho; [by rewrite Ho|]. by intros [?|?].
  - intros H i l. lookups; [|apply (Q H)]. intros _ _. left. by rewrite bool_decide_eq_true_2.
  - intros i. lookups; [by destruct (bool_decide _)|]. apply U.
Qed.

(** A call of [Take] that moves on without returning. *)
Lemma set_take_inv g id t t' q :
  gate_inv g -> takes g !! id = Some t -> in_take t -> in_take t' -> (t' = Awaiting \/ t' = Closing) ->
  (t' = Closing -> t = Posting) ->
  (t' = Awaiting -> state_ g = Closed \/ (q = queue g ++ [id] /\ t = Posting)) -> (t' = Closing -> q = queue g) ->
  (state_ g = Closed -> q = queue g \/ q = queue g ++ [id]) ->
  gate_inv (mkGate (state_ g) (lastId_ g) (launches_ g) q (served g) (signal g) (<[id := t']> (takes g))).
Proof.
  intros I Ht Hi Hi' Ht' Hc Ha Hq Hcl. pose proof I as [R F W L C Rf S Rt N K St P Q U].
  assert (exists l, launches_ g !! id = Some l /\ abandoned l = false) as (l0 & Hl0 & Ha0) by (by eapply W).
  assert (forall x, x ∈ queue g -> x ∈ q) as Hsub.
  { intros x Hx. destruct Ht' as [-> | ->].
    - destruct Ha as [Hx'|[-> _]]; [done| |set_solver]. destruct (Hcl Hx') as [-> | ->]; set_solver.
    - by rewrite Hq. }
  split; gate_fields; try done.
  - intros i. lookups; eauto.
  - intros i. lookups; eauto.
  - intros i x. lookups; [intros [= <-]; eauto|]. apply W.
  - intros i o. lookups; [intros [= ->]; done|]. apply L.
  - intros i. lookups; [|apply Rt]. split; intros [= ->]; done.
  - intros i H. lookups; eauto.
  - intros H. destruct (St H) as (H1 & H2 & H3). split_and!; try done.
    destruct Ht' as [-> | ->]; [|by rewrite Hq]. destruct Ha as [?|[_ ->]]; [done|congruence|].
    by destruct (P id); auto.
  - intros i. lookups; [|apply P]. intros [[= ->]|[= ->]]; [by destruct Ht'|]. apply (P id). rewrite Ht, Hc; auto.
  - intros H i l Hl Ho. destruct (Q H i l Hl Ho) as [Hx|[Hx|Hx]]; [| |auto]; lookups; auto.
    + destruct Ht' as [-> | ->]; [|auto]. destruct Ha as [?|[-> _]]; [done|congruence|]. right. right. set_solver.
    + destruct Ht' as [-> | ->]; [|auto]. destruct Ha as [?|[-> ->]]; [done|congruence|congruence].
  - intros i. lookups; [intros [= ->]; done|]. intros H. destruct (U i H) as [?|[?|(l & H1 & H2 & [H3|H3])]]; auto;
      right; right; exists l; auto.
Qed.

Lemma raise_signal_inv g : gate_inv g -> gate_inv (raise_signal g).
Proof. intros [R F W L C Rf S Rt N K St P Q U]. split; gate_fields; try done. intros H. split; [done|]. by apply C. Qed.

Lemma await_end_inv g id l :
  gate_inv g -> takes g !! id = Some Awaiting -> launches_ g !! id = Some l -> gate_inv (await_end g id l).
Proof.
  intros I Ht Hl. pose proof I as [R F W L C Rf S Rt N K St P Q U]. unfold await_end.
  assert (outcome l = Served <-> id ∈ served_ids g) as Hserved by (by apply S).
  case_bool_decide as Ho; [rewrite Ho|]; split; gate_fields; try done.
  - intros i. lookups; eauto.
  - intros i. lookups; eauto.
  - intros i t. lookups; [by intros [= <-]|apply W].
  - intros i o. lookups; [|apply L]. intros [= <-] l' [= <-]. done.
  - intros H. destruct (C H) as [H1 H2]. by destruct (H2 id l).
  - intros i l'. lookups; [|apply Rf]. intros [= <-]. cbn. congruence.
  - intros i l'. lookups; [|apply S]. intros [= <-]. cbn. by rewrite <- Ho.
  - intros i. lookups; [|apply Rt]. by split.
  - intros i H. lookups; eauto.
  - intros H. destruct (St H) as (H1 & H2 & H3). split_and!; try done. intros i l'. lookups; [by intros [= <-]|apply H3].
  - intros i. lookups; [by intros [?|?]|apply P].
  - intros H i l'. lookups; [|apply (Q H)]. intros [= <-] _. destruct (Q H id l Hl Ho) as [?|[?|?]]; [congruence..|auto].
  - intros i. lookups; [|apply U]. intros _. destruct (state_ g) eqn:Es; auto.
    + right. right. eexists. split; [done|]. cbn. auto.
    + right. right. eexists. split; [done|]. cbn. split; [done|]. right.
      destruct (Q eq_refl id l Hl Ho) as [?|[?|?]]; [congruence..|done].
  - intros i. lookups; eauto.
  - intros i. lookups; eauto.
  - intros i t. lookups; [by intros [= <-]|apply W].
  - intros i o. lookups; [|apply L]. intros [= <-]. destruct (outcome l); done.
  - intros H. destruct (C H) as [H1 H2]. split; [done|]. intros i l'. lookups; [done|apply H2].
  - intros i l'. lookups; [done|apply Rf].
  - intros i l'. lookups; [done|apply S].
  - intros i. lookups; [|apply Rt]. split; intros [= E]; [by apply Hserved|]. split; [|by eapply Rf].
    rewrite <- Hserved. congruence.
  - intros i H. lookups; eauto.
  - intros H. destruct (St H) as (H1 & H2 & H3). split_and!; try done. intros i l'. lookups; [done|apply H3].
  - intros i. lookups; [by intros [?|?]|apply P].
  - intros H i l'. lookups; [done|apply (Q H)].
  - intros i. lookups; [intros [= E]; congruence|apply U].
Qed.

(** The launches [Open] serves: each id it holds, once. *)
Definition held_requests (m : gmap nat Launch_) (ids : list nat) : list (nat * LaunchRequest) :=
  omap (fun id => (fun l : Launch_ => (id, request l)) <$> m !! id) ids.

Lemma held_requests_spec m ids :
  NoDup ids ->
  NoDup (held_requests m ids).*1 /\ forall id, id ∈ (held_requests m ids).*1 <-> id ∈ ids /\ is_Some (m !! id).
Proof.
  induction 1 as [|x ids Hx Hn [IH1 IH2]]; [split; [apply NoDup_nil_2|]; intros id; cbn; set_solver|].
  unfold held_requests in *. cbn [omap list_omap]. destruct (m !! x) as [l|] eqn:E; cbn.
  - split.
    + apply NoDup_cons. split; [|done]. intros [H _]%IH2. done.
    + intros id. rewrite !elem_of_cons, IH2. split; [intros [-> | [? ?]]; rewrite ?E; eauto|]. intros [[-> | ?] ?]; auto.
  - split; [done|]. intros id. rewrite elem_of_cons, IH2. split; [intros [? ?]; auto|].
    intros [[-> | ?] [l Hl]]; [congruence|]. split; [done|]. by exists l.
Qed.

Lemma OpenGate_inv g : gate_inv g -> gate_inv (OpenGate g).
Proof.
  intros I. unfold OpenGate. case_bool_decide as Hs; [|done]. cbn [negb].
  pose proof I as [R F W L C Rf S Rt N K St P Q U]. destruct (St Hs) as (Hq & Hsv & Hu).
  fold (held_requests (launches_ g) (seq 1 (lastId_ g))).
  destruct (held_requests_spec (launches_ g) (seq 1 (lastId_ g))) as [Hn Hin]; [apply NoDup_seq|].
  assert (forall id, id ∈ (held_requests (launches_ g) (seq 1 (lastId_ g))).*1 <-> is_Some (launches_ g !! id)) as Hid.
  { intros id. rewrite Hin, elem_of_seq. split; [by intros [_ ?]|]. intros H. split; [|done].
    specialize (F id (R id H)). lia. }
  rewrite Hsv, Hq. cbn [app]. split; gate_fields; try done.
  - intros id. rewrite lookup_omap. intros [l H]. apply bind_Some in H as (x & Hx & _). apply R. by exists x.
  - intros id t Ht Hi. destruct (W id t Ht Hi) as (l & Hl & Ha). exists (decide_launch l Served).
    by rewrite lookup_omap, Hl; cbn; rewrite Ha.
  - intros id o Ht. specialize (L id o Ht). destruct o; rewrite ?lookup_omap; [by rewrite L..|].
    intros l H. apply bind_Some in H as (x & Hx & Hy). rewrite (L x Hx) in Hy. done.
  - intros id l. rewrite lookup_omap. intros H. apply bind_Some in H as (x & Hx & Hy).
    destruct (abandoned x); [done|]. by injection Hy as <-.
  - intros id l. rewrite lookup_omap. intros H. apply bind_Some in H as (x & Hx & Hy).
    destruct (abandoned x); [done|]. injection Hy as <-. cbn. split; [|done]. intros _. apply Hid. by exists x.
  - intros id. split; intros H; exfalso.
    + destruct (Rt id) as [H' _]. specialize (H' H). unfold served_ids in H'. rewrite Hsv in H'. set_solver.
    + destruct (Rt id) as [_ H']. destruct (H' H) as [_ E]. congruence.
  - intros id H%Hid. by apply R.
  - intros _ id l. rewrite lookup_omap. intros H. apply bind_Some in H as (x & Hx & Hy).
    destruct (abandoned x); [done|]. by injection Hy as <-.
  - intros id H. left. apply Hid. destruct (U id H) as [H1|[H1|(l & H1 & _)]]; [|congruence|by exists l].
    unfold served_ids in H1. rewrite Hsv in H1. set_solver.
Qed.

Lemma close_launch_Some (m : gmap nat Launch_) id l :
  omap close_launch m !! id = Some l ->
  exists x, m !! id = Some x /\ abandoned l = abandoned x /\ request l = request x /\
    outcome l = (if bool_decide (outcome x = Undecided) then Refused else outcome x).
Proof.
  rewrite lookup_omap. intros (x & Hx & Hy)%bind_Some. exists x. split; [done|].
  unfold close_launch in Hy. destruct (bool_decide (outcome x = Undecided)); cbn in Hy;
    (destruct (_ && _) in Hy; [done|]); by injection Hy as <-.
Qed.

Lemma CloseGate_inv g : gate_inv g -> signal g = true -> gate_inv (CloseGate g).
Proof.
  intros I Hsig. unfold CloseGate. case_bool_decide as Hs; [done|].
  pose proof I as [R F W L C Rf S Rt N K St P Q U]. split; gate_fields; try done.
  - intros id [l (x & Hx & _)%close_launch_Some]. apply R. by exists x.
  - intros id t Ht Hi. destruct (W id t Ht Hi) as (l & Hl & Ha).
    exists (if bool_decide (outcome l = Undecided) then decide_launch l Refused else l).
    rewrite lookup_omap, Hl. cbn. unfold close_launch. by destruct (bool_decide _); cbn; rewrite Ha.
  - intros id o Ht. specialize (L id o Ht). destruct o; [by rewrite lookup_omap, L..|].
    intros l (x & Hx & -> & _)%close_launch_Some. by apply L.
  - intros _. split; [done|]. intros id l (x & Hx & _ & _ & ->)%close_launch_Some. by case_bool_decide.
  - intros id l (x & Hx & _ & _ & ->)%close_launch_Some. rewrite <- (S id x Hx). case_bool_decide as E; [by rewrite E|done].
  - intros id. destruct (Rt id) as [R1 R2]. split; [done|]. intros H. split; [by apply R2|done].
  - intros id H. right. by left.
Qed.

Lemma ServePosted_inv g id rest :
  gate_inv g -> queue g = id :: rest -> gate_inv (ServePosted (pop_queue g) id).
Proof.
  intros I Hq. pose proof I as [R F W L C Rf S Rt N K St P Q U].
  assert (state_ g <> Starting) as Hst by (intros H; destruct (St H); congruence).
  assert (forall x, x ∈ queue g -> x = id \/ x ∈ rest) as Hrest by (rewrite Hq; set_solver).
  unfold ServePosted. cbn [pop_queue launches_].
  destruct (launches_ g !! id) as [l|] eqn:El.
  2: { split; gate_fields; rewrite ?Hq; cbn [tail]; try done.
    - intros H i x Hx Ho. destruct (Q H i x Hx Ho) as [?|[?|[-> |?]%Hrest]]; auto. congruence.
    - intros i H. destruct (U i H) as [?|[?|(x & Hx & Ho & [?|[-> |?]%Hrest])]]; auto; [done|congruence|].
      right. right. exists x. auto. }
  assert (outcome l = Served <-> id ∈ served_ids g) as Hserved by (by apply S).
  assert (is_Some (takes g !! id)) as Hknown by (apply R; by exists l).
  case_bool_decide as Ho; cbn [negb].
  - (* served now *)
    assert (id ∉ served_ids g) as Hnew by (rewrite <- Hserved; congruence).
    assert (forall i, i ∈ (served g ++ [(id, request l)]).*1 <-> i ∈ served_ids g \/ i = id) as Hin.
    { intros i. rewrite fmap_app, elem_of_app. unfold served_ids. cbn. by rewrite list_elem_of_singleton. }
    cbn [abandoned decide_launch].
    assert (forall i x, (if abandoned l then delete id (launches_ g) else <[id:=decide_launch l Served]> (launches_ g)) !! i = Some x ->
      (i = id /\ outcome x = Served /\ abandoned x = abandoned l /\ abandoned l = false) \/ (i <> id /\ launches_ g !! i = Some x)) as Hlk.
    { intros i x. destruct (abandoned l) eqn:Ea; lookups; try done; [auto|intros [= <-]; left; cbn; by rewrite Ea|auto]. }
    split; gate_fields; rewrite ?Hq; cbn [tail]; try done.
    + intros i [x [(-> & _)|[_ Hx]]%Hlk]; [done|]. apply R. by exists x.
    + intros i t Ht Hi. destruct (W i t Ht Hi) as (x & Hx & Ha). destruct (decide (i = id)) as [-> |Hn].
      * rewrite El in Hx. injection Hx as <-. rewrite Ha. exists (decide_launch l Served). by rewrite lookup_insert_eq.
      * exists x. split; [|done]. destruct (abandoned l); by lookups.
    + intros i o Ht. specialize (L i o Ht). destruct o; [..|intros x [(-> & _ & E1 & E2)|[_ Hx]]%Hlk; [|by apply L]].
      * destruct (abandoned l); lookups; congruence.
      * destruct (abandoned l); lookups; congruence.
      * specialize (L l El). congruence.
    + intros H. destruct (C H) as [_ H2]. by destruct (H2 id l El).
    + intros i x [(-> & E1 & _)|[_ Hx]]%Hlk; [congruence|exact (Rf i x Hx)].
    + intros i x [(-> & E1 & _)|[Hn Hx]]%Hlk; rewrite Hin; [naive_solver|]. rewrite (S i x Hx). naive_solver.
    + intros i. destruct (Rt i) as [R1 R2]. rewrite Hin. split; [auto|]. intros H. destruct (R2 H) as [H1 H2]. split; [|done].
      intros [?|?]; [done|]. subst. specialize (L id Refused H). cbn in L. congruence.
    + rewrite fmap_app. apply NoDup_app. split_and!; [done| |apply NoDup_singleton]. cbn. intros i Hi ->%list_elem_of_singleton. done.
    + intros i [?| -> ]%Hin; auto.
    + intros H i x [(-> & E1 & _)|[Hn Hx]]%Hlk Hu; [congruence|]. destruct (Q H i x Hx Hu) as [?|[?|[-> |?]%Hrest]]; auto. done.
    + intros i H. rewrite Hin. destruct (decide (i = id)) as [-> |Hn]; [auto|].
      destruct (U i H) as [?|[?|(x & Hx & Hu & [?|[-> |?]%Hrest])]]; auto; try done. right. right. exists x.
      split; [|auto]. destruct (abandoned l); by lookups.
  - (* refused before the UI thread got here, or served and abandoned *)
    assert (forall i x, (if abandoned l then delete id (launches_ g) else <[id:=l]> (launches_ g)) !! i = Some x ->
      launches_ g !! i = Some x) as Hlk.
    { intros i x. destruct (abandoned l) eqn:Ea; lookups; try done. by intros [= <-]. }
    split; gate_fields; rewrite ?Hq; cbn [tail]; try done.
    + intros i [x Hx%Hlk]. apply R. by exists x.
    + intros i t Ht Hi. destruct (W i t Ht Hi) as (x & Hx & Ha). exists x. split; [|done].
      destruct (abandoned l) eqn:Ea; lookups; congruence.
    + intros i o Ht. specialize (L i o Ht). destruct o; [..|intros x Hx%Hlk; by apply L];
        destruct (abandoned l); lookups; congruence.
    + intros H. destruct (C H) as [H1 H2]. split; [done|]. intros i x Hx%Hlk. exact (H2 i x Hx).
    + intros i x Hx%Hlk. exact (Rf i x Hx).
    + intros i x Hx%Hlk. exact (S i x Hx).
    + intros H i x Hx%Hlk Hu. destruct (Q H i x Hx Hu) as [?|[?|[-> |?]%Hrest]]; auto. congruence.
    + intros i H. destruct (U i H) as [?|[?|(x & Hx & Hu & [?|[-> |?]%Hrest])]]; auto; try done; [congruence|].
      right. right. exists x. split; [|auto]. destruct (abandoned l) eqn:Ea; lookups; congruence.
Qed.

Lemma gate_step_inv g g' : gate_inv g -> gate_step g g' -> gate_inv g'.
Proof.
  intros I S. destruct S as [g r|g id H|g id H|g id H|g id H Hs|g id l H Hl|g|g|g Hs|g id rest H].
  - unfold TakeEntry. case_bool_decide; [done|]. by apply take_begin_inv.
  - apply (set_take_inv g id Posting Awaiting); auto; done.
  - apply (set_take_inv g id Posting Closing); auto; done.
  - by apply raise_signal_inv.
  - assert (gate_inv (CloseGate g)) as I' by (by apply CloseGate_inv).
    assert (state_ (CloseGate g) = Closed /\ takes (CloseGate g) = takes g) as [E1 E2].
    { unfold CloseGate. by case_bool_decide. }
    apply (set_take_inv (CloseGate g) id Closing Awaiting); rewrite ?E2; auto; done.
  - by apply await_end_inv.
  - by apply OpenGate_inv.
  - by apply raise_signal_inv.
  - by apply CloseGate_inv.
  - by apply (ServePosted_inv g id rest).
Qed.

(** C29: the gate keeps its word to every launch, however its threads interleave.  In every
    state reachable from a new gate: a launch is acted on at most once; a call of [Take]
    that waits finds its launch in the map (the [at] cannot throw); one that returned
    served was acted on; one that was refused was not and never is, and the exiting
    signal was raised before the refusal, also by a closed gate's entry; and one that
    returned undecided was acted on, or the gate has closed, or it is still held for the
    opening or queued for the UI thread. *)
Theorem gate_keeps_its_word g :
  star gate_step new_gate g ->
  NoDup (served_ids g) /\
  (forall id, takes g !! id = Some Awaiting -> is_Some (launches_ g !! id)) /\
  (forall id, takes g !! id = Some (Returned Served) -> id ∈ served_ids g) /\
  (forall id, takes g !! id = Some (Returned Refused) -> id ∉ served_ids g /\ signal g = true) /\
  (forall r o, (TakeEntry g r).2 = Some o -> o = Refused /\ signal g = true) /\
  (forall id, takes g !! id = Some (Returned Undecided) ->
    id ∈ served_ids g \/ state_ g = Closed \/
    is_Some (launches_ g !! id) /\ (state_ g = Starting \/ id ∈ queue g)).
Proof.
  intros Hr. assert (gate_inv g) as I.
  { eapply (star_invariant _ gate_inv); [exact gate_step_inv|exact Hr|exact new_gate_inv]. }
  destruct I as [R F W L C Rf S Rt N K St P Q U].
  split; [exact N|]. split; [|split; [|split; [|split]]].
  - intros id Ht. destruct (W id Awaiting Ht) as (l & Hl & _); [done|]. by exists l.
  - intros id. apply Rt.
  - intros id Ht. destruct (Rt id) as [_ Hx]. destruct (Hx Ht) as [H1 H2]. split; [done|]. by apply C.
  - intros r o. unfold TakeEntry. case_bool_decide as Hc; [|done]. intros [= <-]. split; [done|]. by apply C.
  - intros id Ht. destruct (U id Ht) as [?|[?|(l & Hl & _ & H)]]; auto.
Qed.

(** A launch held while the instance starts, served by the opening, and returned. *)
Lemma gate_keeps_its_word_witness :
  let r := mkRequest [] false in
  let g1 := OpenGate (take_begin new_gate r) in
  let g := await_end g1 1 (mkLaunch r false Served false) in
  takes g !! 1%nat = Some (Returned Served) /\ 1%nat ∈ served_ids g.
Proof.
  cbv zeta. split; [reflexivity|].
  match goal with |- _ ∈ served_ids ?g => destruct (gate_keeps_its_word g) as (_ & _ & Hserved & _) end;
    [|apply Hserved; reflexivity].
  eapply star_step; [exact (gs_take new_gate (mkRequest [] false))|].
  eapply star_step; [apply gs_open|].
  eapply star_step; [|apply star_refl]. by apply (gs_await _ 1).
Defined.

(** * A launch's rounds *)

(** What a launch that ends with this call reports; [None] for a call it goes on after. *)
Definition result_after (c : LCall) : option LaunchResult :=
  match c with
  | CUpdate true => Some LaunchUpdating
  | COwns true => Some Holder
  | CAwait false => Some StillClosing
  | CRegister false => Some RegistrationFailed
  | CRedirect a =>
      match AfterRedirect a with
      | Exit => Some HandedOver
      | Report => Some (ReportFor (result a))
      | _ => None
      end
  | _ => None
  end.

Definition is_redirect (c : LCall) : bool := match c with CRedirect _ => true | _ => false end.

(** Only the last call of a launch ends it, with the result of that call, or the rounds
    ran out at an ownership check. *)
Definition launch_calls (rounds : nat) (r : LaunchResult) (calls : list LCall) : Prop :=
  exists pre c, calls = pre ++ [c] /\ Forall (fun c => result_after c = None) pre /\
    (length (List.filter is_redirect calls) <= rounds)%nat /\
    (result_after c = Some r \/
     c = COwns false /\ r = StillClosing /\ length (List.filter is_redirect calls) = rounds).

Lemma launch_calls_last rounds r c : is_redirect c = false -> result_after c = Some r -> launch_calls rounds r [c].
Proof. intros Hc Hr. exists [], c. cbn. rewrite Hc. cbn. split; [done|]. split; [constructor|]. split; [lia|auto]. Qed.

Lemma launch_calls_cons rounds r c calls :
  is_redirect c = false -> result_after c = None -> launch_calls rounds r calls -> launch_calls rounds r (c :: calls).
Proof.
  intros Hc Hr (pre & d & -> & F & L & E). exists (c :: pre), d. cbn. rewrite Hc. split; [done|]. split; [by constructor|]. done.
Qed.

Lemma launch_calls_redirect rounds r a calls :
  result_after (CRedirect a) = None -> launch_calls rounds r calls -> launch_calls (S rounds) r (CRedirect a :: calls).
Proof.
  intros Hr (pre & d & -> & F & L & E). exists (CRedirect a :: pre), d.
  cbn [app List.filter is_redirect length]. split; [done|]. split; [by constructor|]. split; [lia|].
  destruct E as [?|(? & ? & ?)]; auto.
Qed.

Section Rounds.
Context `{Launcher}.

(** A run appends its calls to those before it. *)
Definition runs (rounds : nat) (tr : list LCall) (out : LaunchResult * list LCall) : Prop :=
  exists calls, out.2 = tr ++ calls /\ launch_calls rounds out.1 calls.

Lemma runs_last rounds tr r c :
  is_redirect c = false -> result_after c = Some r -> runs rounds tr (r, tr ++ [c]).
Proof. intros. exists [c]. split; [done|by apply launch_calls_last]. Qed.

Lemma runs_cons rounds tr c out :
  is_redirect c = false -> result_after c = None -> runs rounds (tr ++ [c]) out -> runs rounds tr out.
Proof.
  intros Hc Hr (calls & E & L). exists (c :: calls). rewrite E, <- app_assoc. split; [done|]. by apply launch_calls_cons.
Qed.

Lemma runs_redirect rounds tr a out :
  result_after (CRedirect a) = None -> runs rounds (tr ++ [CRedirect a]) out -> runs (S rounds) tr out.
Proof.
  intros Hr (calls & E & L). exists (CRedirect a :: calls). rewrite E, <- app_assoc. split; [done|].
  by apply launch_calls_redirect.
Qed.

Lemma runs_report rounds tr r a : result_after (CRedirect a) = Some r -> runs (S rounds) tr (r, tr ++ [CRedirect a]).
Proof.
  intros Hr. exists [CRedirect a]. split; [done|]. exists [], (CRedirect a). cbn [app List.filter is_redirect length].
  split; [done|]. split; [constructor|]. split; [lia|auto].
Qed.

Lemma launch_round_runs rounds tr : runs rounds tr (launch_round rounds tr).
Proof.
  revert tr. induction rounds as [|rounds IH]; intros tr; cbn [launch_round];
    (destruct (UpdateInProgress tr); [by apply runs_last|]; apply (runs_cons _ _ (CUpdate false)); [done..|]);
    (destruct (OwnsKey _); [by apply runs_last|]).
  - exists [COwns false]. split; [done|]. exists [], (COwns false). cbn. split; [done|]. split; [constructor|]. split; [lia|auto].
  - apply (runs_cons _ _ (COwns false)); [done..|].
    set (tr2 := (tr ++ [CUpdate false]) ++ [COwns false]). set (a := Redirect tr2).
    assert (forall tr, runs rounds tr
      (if negb (Register tr) then (RegistrationFailed, tr ++ [CRegister (Register tr)])
       else launch_round rounds (tr ++ [CRegister (Register tr)]))) as Hreg.
    { intros t. destruct (Register t); cbn [negb]; [|by apply runs_last]. by apply (runs_cons _ _ (CRegister true)). }
    destruct (AfterRedirect a) eqn:Ea.
    + apply runs_report. cbn. by rewrite Ea.
    + apply (runs_redirect _ _ a); [cbn; by rewrite Ea|]. apply Hreg.
    + apply (runs_redirect _ _ a); [cbn; by rewrite Ea|].
      destruct (UpdateInProgress _); [by apply runs_last|]. apply (runs_cons _ _ (CUpdate false)); [done..|].
      destruct (AwaitHolderExit _); cbn [negb]; [|by apply runs_last]. by apply (runs_cons _ _ (CAwait true)).
    + apply runs_report. cbn. by rewrite Ea.
Qed.

(** Splits the equivalences between the result of a launch and its last call. *)
Ltac by_last_call :=
  repeat match goal with
    | |- _ <-> _ => split; intros
    | |- _ /\ _ => split
    | H : exists _, _ |- _ => destruct H
    | H : _ /\ _ |- _ => destruct H
    | H : _ \/ _ |- _ => destruct H
    end; simplify_eq/=; eauto.

(** A launch ends, as its last call says and no earlier one did: it redirects at most
    [kLaunchRounds] times; it holds the key only when it owns it, and reports an update only
    when one runs; it exits without a window only when a holder that is not exiting took the
    launch; and it goes on after a call only when that call decided nothing.  Running out of
    rounds is a holder still closing. *)
Theorem launch_ends :
  exists pre c, Launch.2 = pre ++ [c] /\ Forall (fun d => result_after d = None) pre /\
    (length (List.filter is_redirect Launch.2) <= kLaunchRounds)%nat /\
    (Launch.1 = Holder <-> c = COwns true) /\
    (Launch.1 = LaunchUpdating <-> c = CUpdate true) /\
    (Launch.1 = RegistrationFailed <-> c = CRegister false) /\
    (Launch.1 = HandedOver <-> exists a, c = CRedirect a /\ result a = Taken /\ holderExiting a = false) /\
    (Launch.1 = StillClosing <->
      c = CAwait false \/ c = COwns false /\ length (List.filter is_redirect Launch.2) = kLaunchRounds).
Proof.
  unfold Launch. pose proof (launch_round_runs kLaunchRounds []) as Hr.
  destruct (launch_round kLaunchRounds []) as [r tr].
  destruct Hr as (calls & E & pre & c & -> & F & L & R). cbn [app fst snd] in *. subst tr.
  exists pre, c. split; [done|]. split; [done|]. split; [done|].
  destruct R as [R|(-> & -> & R)]; [|rewrite R; by_last_call].
  clear L F. destruct c as [[]|[]|[[] []]|[]|[]]; try done; injection R as R; subst r; by_last_call.
Qed.
End Rounds.

(** * The command line's arguments *)

(** An argument as a command line spells it: bare, or in double quotes. *)
Record Spelled := mkSpelled { in_quotes : bool; arg : wtext }.

Definition spell (s : Spelled) : wtext := if in_quotes s then 34 :: arg s ++ [34] else arg s.

Definition spelled_ok (s : Spelled) : Prop :=
  if in_quotes s then Forall (fun c => c <> 34) (arg s)
  else arg s <> [] /\ Forall (fun c => c <> 34 /\ c <> 32 /\ c <> 9) (arg s).

(** The arguments after the program, each behind its blank. *)
Definition spell_line (program : Spelled) (l : list (Z * Spelled)) : wtext :=
  spell program ++ concat (map (fun p => p.1 :: spell p.2) l).

Section Arguments.
Context (argument : wtext).

Lemma scan_bare x rest tok b :
  Forall (fun c => c <> 34 /\ c <> 32 /\ c <> 9) x ->
  scan_arguments argument (x ++ rest) tok false b
  = scan_arguments argument rest (tok ++ x) false (b || negb (bool_decide (x = []))).
Proof.
  intros Hx. revert tok b. induction Hx as [|c x (H1 & H2 & H3) Hx IH]; intros tok b.
  - by rewrite app_nil_r, bool_decide_eq_true_2, orb_false_r.
  - cbn [app scan_arguments]. destruct (Z.eqb_spec c 34), (Z.eqb_spec c 32), (Z.eqb_spec c 9); try done.
    cbn [negb orb andb]. by rewrite IH, <- app_assoc, orb_true_r.
Qed.

Lemma scan_quoted x rest tok :
  Forall (fun c => c <> 34) x ->
  scan_arguments argument (x ++ 34 :: rest) tok true true = scan_arguments argument rest (tok ++ x) false true.
Proof.
  intros Hx. revert tok. induction Hx as [|c x H1 Hx IH]; intros tok; cbn [app scan_arguments].
  - by rewrite Z.eqb_refl, app_nil_r.
  - destruct (Z.eqb_spec c 34); [done|]. cbn [negb andb]. by rewrite IH, <- app_assoc.
Qed.

Lemma scan_spelled s rest :
  spelled_ok s ->
  scan_arguments argument (spell s ++ rest) [] false false = scan_arguments argument rest (arg s) false true.
Proof.
  destruct s as [[] x]; unfold spelled_ok, spell; cbn [in_quotes arg]; intros Hs.
  - cbn [app scan_arguments]. rewrite Z.eqb_refl. cbn [negb]. rewrite <- app_assoc. cbn [app]. by rewrite scan_quoted.
  - destruct Hs as [Hn Hs]. by rewrite scan_bare, bool_decide_eq_false_2.
Qed.

Lemma scan_line l tok :
  Forall (fun p => (p.1 = 32 \/ p.1 = 9) /\ spelled_ok p.2) l ->
  scan_arguments argument (concat (map (fun p => p.1 :: spell p.2) l)) tok false true
  = bool_decide (tok = argument) || existsb (fun p => bool_decide (arg p.2 = argument)) l.
Proof.
  intros Hl. revert tok. induction Hl as [|[c s] l [Hc Hs] Hl IH]; intros tok; [by cbn; rewrite orb_false_r|].
  cbn [map concat fst snd existsb app scan_arguments] in *.
  replace (c =? 34) with false by (symmetry; apply Z.eqb_neq; lia).
  replace ((c =? 32) || (c =? 9)) with true by (destruct Hc as [-> | ->]; done).
  cbn [negb andb]. destruct (bool_decide (tok = argument)); [done|]. cbn [orb]. by rewrite scan_spelled, IH.
Qed.

(** An argument is found exactly when the command line names it: for a line of a
    program and arguments, each bare or in double quotes and behind one blank,
    [HasArgument] is membership, so a switch inside a quoted path or as a part of a longer
    argument is not found. *)
Theorem has_argument_iff program l :
  spelled_ok program -> Forall (fun p => (p.1 = 32 \/ p.1 = 9) /\ spelled_ok p.2) l ->
  HasArgument (spell_line program l) argument = true <-> In argument (arg program :: map (fun p => arg p.2) l).
Proof.
  intros Hp Hl. unfold HasArgument, spell_line. rewrite scan_spelled, scan_line by done.
  rewrite orb_true_iff, bool_decide_eq_true, existsb_exists. cbn [In]. rewrite in_map_iff.
  split; (intros [?|(x & H1 & H2)]; [by left|right; exists x]); by rewrite ?bool_decide_eq_true in *.
Qed.
End Arguments.

Lemma has_argument_iff_witness :
  let program := mkSpelled true (wtxt "C:\Program Files\URnetwork\App.exe --autostart") in
  HasArgument (spell_line program [(32, mkSpelled false (wtxt "--after-update"))]) kAfterUpdateArgument = true /\
  HasArgument (spell_line program [(32, mkSpelled false (wtxt "--after-update"))]) kAutostartArgument = false.
Proof.
  cbv zeta. split; [|vm_compute; reflexivity].
  apply (has_argument_iff kAfterUpdateArgument _ [(32, _)]).
  - apply (bool_decide_unpack (Forall (fun c => c <> 34) _)). vm_compute. exact I.
  - apply Forall_singleton. split; [by left|]. split; [done|].
    apply (bool_decide_unpack (Forall (fun c => c <> 34 /\ c <> 32 /\ c <> 9) _)). vm_compute. exact I.
  - right. left. reflexivity.
Defined.

(** The relaunch's wait ends: with a clock that moves by at least the poll each round, it
    is decided within the budget's polls, and only a passed deadline decides it against
    the launch. *)
Lemma await_update_end_returns updating now deadline : forall fuel n,
  (forall k, now k + kAfterUpdatePoll <= now (S k)) ->
  deadline - now n <= kAfterUpdatePoll * (Z.of_nat fuel - 1) ->
  (exists b, await_update_end fuel updating now deadline n = Some b) \/ fuel = O.
Proof.
  intros fuel. induction fuel as [|fuel IH]; intros n Hc Hd; [by right|]. left. cbn [await_update_end].
  destruct (updating n); cbn [negb]; [|by eexists]. destruct (Z.leb_spec deadline (now n)); [by eexists|].
  specialize (Hc n) as Hn. unfold kAfterUpdatePoll in *.
  destruct (IH (S n)) as [?| ->]; [done|lia|done|]. exfalso. lia.
Qed.

Lemma AwaitUpdateEnd_returns updating start now budget :
  (forall k, now k + kAfterUpdatePoll <= now (S k)) -> start <= now O -> 0 <= budget ->
  forall fuel, budget <= kAfterUpdatePoll * (Z.of_nat fuel - 1) ->
  exists b, AwaitUpdateEnd fuel updating start now budget = Some b.
Proof.
  intros Hc Hs Hb fuel Hf. unfold AwaitUpdateEnd, kAfterUpdatePoll in *.
  destruct (await_update_end_returns updating now (start + budget) fuel 0) as [?| ->]; [done|unfold kAfterUpdatePoll; lia|done|lia].
Qed.

Lemma AwaitUpdateEnd_answer updating start now budget fuel b :
  AwaitUpdateEnd fuel updating start now budget = Some b ->
  exists n, updating n = negb b /\ (b = false -> start + budget <= now n).
Proof.
  unfold AwaitUpdateEnd. generalize O. induction fuel as [|fuel IH]; intros n; cbn [await_update_end]; [done|].
  destruct (updating n) eqn:Eu; cbn [negb]; [|intros [= <-]; by exists n].
  destruct (Z.leb_spec (start + budget) (now n)); [|apply IH]. intros [= <-]. by exists n.
Qed.
