(* ===== verification/Health.v ===== *)
(** What every surface says of the connection (ConnectionHealth.h): the capture clamp,
    the SDK's status and grid cells as the code reads them, and the tracker with its
    degrade hold. *)

From S2P Require Import Prelude.
From S2P Require Import CxxText.

(** * States and signals *)

Inductive HealthState := NoService | Disconnected | Connecting | Evaluating | Connected | Degraded | Failed.
#[export] Instance HealthState_eq_dec : EqDecision HealthState.
Proof. solve_decision. Defined.

Record CaptureSignals := mkCapture { serviceConnected : bool; preparing : bool; active : bool; failed : bool }.

Definition WithCapture (provider : HealthState) (capture : CaptureSignals) : HealthState :=
  if negb (serviceConnected capture) then NoService else
  if failed capture then Failed else
  if preparing capture then
    if bool_decide (provider = Failed) || bool_decide (provider = Evaluating) then provider else Connecting
  else
  if active capture then provider else Disconnected.

Inductive Activity := Inactive | ActivityConnecting | Active.
#[export] Instance Activity_eq_dec : EqDecision Activity.
Proof. solve_decision. Defined.

(** The loop of [EqualsIgnoreAsciiCase], on texts of one length. *)
Fixpoint upper_equal (a b : text) : bool :=
  match a, b with
  | x :: a, y :: b => if negb (bool_decide (ascii_upper x = ascii_upper y)) then false else upper_equal a b
  | _, _ => true
  end.

Definition EqualsIgnoreAsciiCase (a b : text) : bool :=
  if negb (size a =? size b) then false else upper_equal a b.

Definition ActivityFromStatus (status : text) : Activity :=
  if EqualsIgnoreAsciiCase status (txt "CONNECTED") then Active else
  if EqualsIgnoreAsciiCase status (txt "CONNECTING") || EqualsIgnoreAsciiCase status (txt "DESTINATION_SET")
  then ActivityConnecting else Inactive.

Definition CellProven (state : text) : bool := teqb state (txt "Added").
Definition CellOccupiesWindow (state : text) : bool := negb (bool_decide (state = [])) && negb (teqb state (txt "Removed")).

Record Signals := mkSignals {
  in_serviceConnected : bool; activity : Activity; gridKnown : bool; windowSize : Z; provenCount : Z;
  windowFailed : bool; statusFromLocation : bool }.

(** * The tracker *)

Definition kDegradeHoldMillis : Z := 7000.

Record Tracker := mkTracker { state_ : HealthState; proven_ : bool; provenLostAtMillis_ : Z; reevalAtMillis_ : Z }.

Definition new_tracker : Tracker := mkTracker NoService false (-1) 0.

Definition ResetAttempt (t : Tracker) : Tracker := mkTracker (state_ t) false (-1) 0.

(** [return state_ = s] *)
Definition says (t : Tracker) (s : HealthState) : Tracker := mkTracker s (proven_ t) (provenLostAtMillis_ t) (reevalAtMillis_ t).

(** A proof, or the session's own unverified claim. *)
Definition note_proof (t : Tracker) : Tracker := mkTracker (state_ t) true (-1) (reevalAtMillis_ t).

Definition Update (t : Tracker) (inn : Signals) (nowMillis : Z) : Tracker :=
  let t := mkTracker (state_ t) (proven_ t) (provenLostAtMillis_ t) 0 in
  if negb (in_serviceConnected inn) then says (ResetAttempt t) NoService else
  if bool_decide (activity inn = Inactive) then says (ResetAttempt t) Disconnected else
  if negb (gridKnown inn) then
    if windowFailed inn && negb (proven_ t) then says t Failed else
    if bool_decide (state_ t = Connected) || bool_decide (state_ t = Degraded) || bool_decide (state_ t = Evaluating)
    then t else
    if bool_decide (activity inn = Active) ||
       (statusFromLocation inn && bool_decide (activity inn = ActivityConnecting))
    then says (note_proof t) Connected else says t Connecting
  else
  if 1 <=? provenCount inn then says (note_proof t) Connected else
  if windowFailed inn && negb (proven_ t) then says t Failed else
  if proven_ t then
    let lost := if provenLostAtMillis_ t <? 0 then nowMillis else provenLostAtMillis_ t in
    if nowMillis - lost <? kDegradeHoldMillis
    then mkTracker Connected true lost (lost + kDegradeHoldMillis)
    else mkTracker Degraded true lost 0
  else
  if 0 <? windowSize inn then says t Evaluating else says t Connecting.

Definition Current (t : Tracker) : HealthState := state_ t.
Definition ReevalAtMillis (t : Tracker) : Z := reevalAtMillis_ t.

Definition NoteNewAttempt (t : Tracker) : Tracker := says (ResetAttempt t) Connecting.

(** What reaches the tracker: a snapshot at a time, or a deliberate new attempt. *)
Inductive Event := Snapshot (inn : Signals) (nowMillis : Z) | NewAttempt.

Definition on_event (t : Tracker) (e : Event) : Tracker :=
  match e with Snapshot inn now => Update t inn now | NewAttempt => NoteNewAttempt t end.

Definition run_tracker (l : list Event) : Tracker := foldl on_event new_tracker l.

(** * Invariant *)

(** The attempt is proven exactly while the tracker says it was connected, and a loss
    or a deadline is remembered only then. *)
Definition tracker_inv (t : Tracker) : Prop :=
  (proven_ t = true <-> state_ t = Connected \/ state_ t = Degraded) /\
  (proven_ t = false -> provenLostAtMillis_ t = -1) /\
  (reevalAtMillis_ t = 0 \/
   state_ t = Connected /\ 0 <= provenLostAtMillis_ t /\ reevalAtMillis_ t = provenLostAtMillis_ t + kDegradeHoldMillis).

Lemma new_tracker_inv : tracker_inv new_tracker.
Proof. unfold tracker_inv. cbn. split; [naive_solver|]. auto. Qed.

Ltac tracker_case :=
  split; [cbn; split; intros; intuition congruence|split; [cbn; intuition congruence|cbn; auto]].

Lemma Update_inv t inn now : 0 <= now -> tracker_inv t -> tracker_inv (Update t inn now).
Proof.
  intros Hn ([P1 P2] & L & _). unfold Update.
  destruct (in_serviceConnected inn); cbn [negb]; [|tracker_case].
  case_bool_decide as Ha; [tracker_case|].
  destruct (gridKnown inn); cbn [negb]; cbn [proven_ state_ provenLostAtMillis_ reevalAtMillis_].
  - destruct (1 <=? provenCount inn); [tracker_case|]. destruct (proven_ t) eqn:Ep; cbn [negb andb].
    + rewrite andb_false_r. set (lost := if _ <? 0 then now else _).
      assert (0 <= lost) by (unfold lost; destruct (Z.ltb_spec (provenLostAtMillis_ t) 0); lia).
      destruct (_ <? kDegradeHoldMillis); tracker_case.
    + specialize (L eq_refl). rewrite andb_true_r. destruct (windowFailed inn), (0 <? windowSize inn); tracker_case.
  - destruct (proven_ t) eqn:Ep; cbn [negb andb].
    + rewrite andb_false_r. destruct P1 as [E|E]; [done| |]; rewrite E; tracker_case.
    + specialize (L eq_refl). rewrite andb_true_r. destruct (windowFailed inn); [tracker_case|].
      destruct (state_ t) eqn:Es; cbn; repeat destruct (_ || _); tracker_case.
Qed.

(** The times of a run are those of a steady clock. *)
Definition timed (l : list Event) : Prop := Forall (fun e => match e with Snapshot _ now => 0 <= now | NewAttempt => True end) l.

Lemma run_tracker_inv l : timed l -> tracker_inv (run_tracker l).
Proof.
  intros Hl. unfold run_tracker. generalize new_tracker, new_tracker_inv.
  induction Hl as [|e l He Hl IH]; intros t Ht; [done|]. cbn [foldl]. apply IH.
  destruct e as [inn now|]; [by apply Update_inv|]. split; [cbn; naive_solver|]. cbn. auto.
Qed.

(** * Runs of snapshots *)

(** A live session with its grid feed open. *)
Definition fed (inn : Signals) : Prop :=
  in_serviceConnected inn = true /\ activity inn <> Inactive /\ gridKnown inn = true.

(** The words and deadlines of a run of snapshots. *)
Fixpoint answers (t : Tracker) (l : list (Signals * Z)) : list (HealthState * Z) :=
  match l with
  | [] => []
  | (inn, now) :: l => let t := Update t inn now in (Current t, ReevalAtMillis t) :: answers t l
  end.

Lemma Update_fed t inn now :
  fed inn ->
  Update t inn now =
  let t := mkTracker (state_ t) (proven_ t) (provenLostAtMillis_ t) 0 in
  if 1 <=? provenCount inn then says (note_proof t) Connected else
  if windowFailed inn && negb (proven_ t) then says t Failed else
  if proven_ t then
    let lost := if provenLostAtMillis_ t <? 0 then now else provenLostAtMillis_ t in
    if now - lost <? kDegradeHoldMillis
    then mkTracker Connected true lost (lost + kDegradeHoldMillis)
    else mkTracker Degraded true lost 0
  else
  if 0 <? windowSize inn then says t Evaluating else says t Connecting.
Proof.
  intros (H1 & H2 & H3). unfold Update. rewrite H1, H3, (bool_decide_eq_false_2 _ H2). reflexivity.
Qed.

(** The word of a snapshot without a proof, at [now], of a loss first seen at [t0]. *)
Definition held_word (t0 now : Z) : HealthState * Z :=
  if now - t0 <? kDegradeHoldMillis then (Connected, t0 + kDegradeHoldMillis) else (Degraded, 0).

Lemma answers_lost t t0 l :
  0 <= t0 -> proven_ t = true -> provenLostAtMillis_ t = t0 ->
  Forall (fun p => fed p.1 /\ provenCount p.1 < 1) l ->
  answers t l = map (fun p => held_word t0 p.2) l.
Proof.
  intros H0 Hp Hl F. revert t Hp Hl. induction F as [|[inn now] l [Hf Hc] F IH]; intros t Hp Hl; [done|].
  cbn [answers map fst snd] in *. rewrite (Update_fed t inn now Hf).
  cbn [proven_ provenLostAtMillis_ state_]. rewrite Hp, Hl, andb_false_r.
  rewrite (proj2 (Z.leb_gt 1 _)) by lia. rewrite (proj2 (Z.ltb_ge t0 0)) by lia. unfold held_word.
  destruct (now - t0 <? kDegradeHoldMillis); cbn [Current ReevalAtMillis state_ reevalAtMillis_]; f_equal; by apply IH.
Qed.

(** The word of an attempt that has had no proof. *)
Definition unproven_word (inn : Signals) : HealthState :=
  if windowFailed inn then Failed else if 0 <? windowSize inn then Evaluating else Connecting.

Lemma answers_unproven t l :
  proven_ t = false -> Forall (fun p => fed p.1 /\ provenCount p.1 < 1) l ->
  answers t l = map (fun p => (unproven_word p.1, 0)) l.
Proof.
  intros Hp F. revert t Hp. induction F as [|[inn now] l [Hf Hc] F IH]; intros t Hp; [done|].
  cbn [answers map fst snd] in *. rewrite (Update_fed t inn now Hf).
  cbn [proven_ provenLostAtMillis_ state_]. rewrite Hp, (proj2 (Z.leb_gt 1 _)) by lia. unfold unproven_word.
  rewrite andb_true_r. destruct (windowFailed inn), (0 <? windowSize inn); cbn; f_equal; by apply IH.
Qed.

(** * Properties *)

(** A loss degrades after the hold and not before.  After a proven snapshot, and
    whatever came earlier, a run of snapshots of the live session without a proof reads
    Connected until seven seconds after its first one and Degraded from then on, with the
    deadline to ask again at exactly that moment; and the next proven snapshot reads
    Connected at once. *)
Theorem loss_degrades_after_hold before proof tp l inn now t0 :
  fed proof -> 1 <= provenCount proof -> 0 <= t0 ->
  fed inn -> provenCount inn < 1 -> now = t0 ->
  Forall (fun p => fed p.1 /\ provenCount p.1 < 1) l ->
  let t := Update (run_tracker before) proof tp in
  answers t ((inn, now) :: l) = map (fun p => held_word t0 p.2) ((inn, now) :: l) /\
  (forall again later, fed again -> 1 <= provenCount again ->
    Current (Update (foldl (fun t p => Update t p.1 p.2) t ((inn, now) :: l)) again later) = Connected).
Proof.
  intros Hf Hc H0 Hi Hn -> F t. split.
  - assert (t = mkTracker Connected true (-1) 0) as ->.
    { subst t. rewrite (Update_fed _ _ _ Hf). cbv zeta. by rewrite (proj2 (Z.leb_le 1 _)). }
    cbn [answers map fst snd]. rewrite (Update_fed _ _ _ Hi). cbn [proven_ provenLostAtMillis_ state_].
    rewrite (proj2 (Z.leb_gt 1 _)) by lia. rewrite andb_false_r. cbn [Z.ltb Z.compare]. unfold held_word at 1.
    rewrite Z.sub_diag. cbn [Z.ltb Z.compare kDegradeHoldMillis]. f_equal. by apply answers_lost.
  - intros again later Ha Hp. rewrite (Update_fed _ _ _ Ha). cbv zeta. by rewrite (proj2 (Z.leb_le 1 _)).
Qed.

Lemma loss_degrades_after_hold_witness :
  let live n := mkSignals true Active true 3 n false false in
  answers (Update (run_tracker [NewAttempt]) (live 1) 50) [(live 0, 100); (live 0, 7099); (live 0, 7100)]
  = [(Connected, 7100); (Connected, 7100); (Degraded, 0)].
Proof.
  intros live.
  refine (proj1 (loss_degrades_after_hold [NewAttempt] (live 1) 50 [(live 0, 7099); (live 0, 7100)] (live 0) 100 100 _ _ _ _ _ _ _));
    try done.
  repeat (apply List.Forall_cons; [by split; [split|]|]). apply List.Forall_nil.
Defined.

(** The words an attempt has earned.  Whatever was said before, a deliberate new
    attempt forgets it: while no provider is proven its snapshots read Failed exactly on
    the SDK's word, else Evaluating or Connecting by the window, and never Connected or
    Degraded.  In every reachable state, Failed is the SDK's own verdict and is never said
    of a session that was working, and with the service gone or nothing attempted the
    answer is that, whatever was remembered. *)
Theorem attempt_words before :
  timed before ->
  (forall l, Forall (fun p => fed p.1 /\ provenCount p.1 < 1) l ->
    answers (NoteNewAttempt (run_tracker before)) l = map (fun p => (unproven_word p.1, 0)) l) /\
  (forall inn now, Current (Update (run_tracker before) inn now) = Failed ->
    windowFailed inn = true /\ Current (run_tracker before) <> Connected /\ Current (run_tracker before) <> Degraded) /\
  (forall inn now, in_serviceConnected inn = false -> Current (Update (run_tracker before) inn now) = NoService) /\
  (forall inn now, in_serviceConnected inn = true -> activity inn = Inactive ->
    Current (Update (run_tracker before) inn now) = Disconnected).
Proof.
  intros Hb. split; [intros l; by apply answers_unproven|]. split; [|split].
  - intros inn now. destruct (run_tracker_inv before Hb) as ([P1 P2] & _). set (t := run_tracker before) in *.
    unfold Update. destruct (in_serviceConnected inn); cbn [negb]; [|done]. case_bool_decide; [done|].
    destruct (proven_ t) eqn:Ep; cbn [proven_ state_ provenLostAtMillis_ negb].
    + rewrite andb_false_r. destruct P1 as [E|E]; [done| |]; rewrite E; cases_if; done.
    + rewrite andb_true_r. intros H'. assert (state_ t <> Connected /\ state_ t <> Degraded) as [N1 N2] by naive_solver.
      split; [|by split]. destruct (windowFailed inn); [done|]. revert H'.
      rewrite (bool_decide_eq_false_2 _ N1), (bool_decide_eq_false_2 _ N2).
      case_bool_decide as Ee; cbn [orb]; cases_if; try done. cbn. congruence.
  - intros inn now H. unfold Update. by rewrite H.
  - intros inn now H1 H2. unfold Update. by rewrite H1, H2.
Qed.

Lemma attempt_words_witness :
  let live n failed := mkSignals true Active true 3 n failed false in
  answers (NoteNewAttempt (run_tracker [Snapshot (live 1 false) 5])) [(live 0 false, 10); (live 0 true, 20)]
  = [(Evaluating, 0); (Failed, 0)].
Proof.
  intros live. apply (attempt_words [Snapshot (live 1 false) 5]).
  - apply List.Forall_cons; [cbn; lia|apply List.Forall_nil].
  - repeat (apply List.Forall_cons; [by split; [split|]|]). apply List.Forall_nil.
Defined.

(** The word Connected is backed.  The user is shown it only while the service says
    the capture is active, neither preparing nor failed, and a session is attempted; with
    the grid's feed open only on a proven provider, or within seven seconds of the first
    snapshot without one in a session that was working; and without the feed only where
    it was already said, or where the session itself claims to be connected. *)
Theorem connected_is_backed before inn now capture :
  timed before ->
  WithCapture (Current (Update (run_tracker before) inn now)) capture = Connected ->
  let t := run_tracker before in
  (serviceConnected capture = true /\ active capture = true /\ preparing capture = false /\ failed capture = false) /\
  in_serviceConnected inn = true /\ activity inn <> Inactive /\
  (gridKnown inn = true -> 1 <= provenCount inn \/
    (Current t = Connected \/ Current t = Degraded) /\
    now - (if provenLostAtMillis_ t <? 0 then now else provenLostAtMillis_ t) < kDegradeHoldMillis) /\
  (gridKnown inn = false ->
    Current t = Connected \/ activity inn = Active \/ statusFromLocation inn = true).
Proof.
  intros Hb H t. destruct (run_tracker_inv before Hb) as ([P1 P2] & _). fold t in P1, P2, H.
  unfold WithCapture in H. destruct (serviceConnected capture); cbn [negb] in H; [|done].
  destruct (failed capture); [done|]. destruct (preparing capture).
  { destruct (bool_decide _ || bool_decide _) eqn:E in H; [|done]. rewrite H in E. done. }
  destruct (active capture); [|done]. split; [done|]. revert H. unfold Update.
  destruct (in_serviceConnected inn); cbn [negb]; [|done]. case_bool_decide as Ha; [done|]. intros H.
  split; [done|]. split; [done|].
  cbn [proven_ state_ provenLostAtMillis_] in H. destruct (gridKnown inn); cbn [negb] in H.
  - split; [|done]. intros _. destruct (Z.leb_spec 1 (provenCount inn)); [by left|]. right.
    destruct (proven_ t); [|cases_if_in H; done]. split; [by apply P1|].
    rewrite andb_false_r in H. destruct (Z.ltb_spec (now - (if provenLostAtMillis_ t <? 0 then now else provenLostAtMillis_ t)) kDegradeHoldMillis);
      [done|]. done.
  - split; [done|]. intros _. destruct (windowFailed inn && negb (proven_ t)); [done|].
    destruct (bool_decide (state_ t = Connected) || _ || _); [by left|].
    destruct (bool_decide (activity inn = Active)) eqn:Eq; [right; left; by apply bool_decide_eq_true in Eq|].
    destruct (statusFromLocation inn); [by right; right|done].
Qed.

Lemma connected_is_backed_witness :
  let live n := mkSignals true Active true 3 n false false in
  let before := [Snapshot (live 1) 50; Snapshot (live 0) 100] in
  WithCapture (Current (Update (run_tracker before) (live 0) 7099)) (mkCapture true false true false) = Connected /\
  7099 - provenLostAtMillis_ (run_tracker before) < kDegradeHoldMillis.
Proof.
  intros live before. split; [reflexivity|].
  destruct (connected_is_backed before (live 0) 7099 (mkCapture true false true false)) as (_ & _ & _ & H & _).
  - repeat (apply List.Forall_cons; [cbn; lia|]). apply List.Forall_nil.
  - reflexivity.
  - destruct (H eq_refl) as [H1|[_ H1]]; [exfalso; cbn in H1; lia|exact H1].
Defined.
