(* ===== verification/Gesture.v ===== *)
(** What a connect or disconnect gesture has to do (ConnectAction.h): the facts of the
    service and of the app, the label of the one button, and the plan a gesture decides.
    The tunnel states and start modes are the pipe protocol's (Protocol.h). *)

From S2P Require Import Prelude.
From S2P Require Import CxxText.
From S2P Require Import Health.

(** * The protocol's states *)

Inductive StartMode := ModeTunnel | ModeRpcOnly.
#[export] Instance StartMode_eq_dec : EqDecision StartMode.
Proof. solve_decision. Defined.

Inductive TunnelState := Stopped | Starting | Up | Stopping | StateError | RpcOnly | Preparing.
#[export] Instance TunnelState_eq_dec : EqDecision TunnelState.
Proof. solve_decision. Defined.

Definition IsSessionLive (s : TunnelState) : bool :=
  bool_decide (s = Up) || bool_decide (s = RpcOnly) || bool_decide (s = Preparing).

Definition IsTunnelUp (s : TunnelState) : bool := bool_decide (s = Up).

(** * Facts and plans *)

Inductive GestureKind := Connect | ConnectRow | Disconnect | TrayToggle | EnsureSession | ForceStopTunnel | LiftKillSwitch.
#[export] Instance GestureKind_eq_dec : EqDecision GestureKind.
Proof. solve_decision. Defined.

Record ServiceFacts := mkService {
  pipeUp : bool; known : bool; state : TunnelState; mode : StartMode; routesInstalled : bool;
  wfpState : text; stopReason : text }.

Record AppFacts := mkApp {
  haveDevice : bool; killSwitch : bool; wantsTunnel : bool; userDisconnected : bool; health : HealthState }.

Record Plan := mkPlan {
  stopTunnel : bool; tearDownDevice : bool; startTunnel : bool; sdkConnect : bool; sdkDisconnect : bool;
  liftKillSwitch : bool; why : text }.

Definition WfpInForce (f : ServiceFacts) : bool :=
  negb (bool_decide (wfpState f = [])) && negb (teqb (wfpState f) (txt "off")).

Definition MachineIsCaptured (f : ServiceFacts) : bool := routesInstalled f || WfpInForce f.

Definition KillSwitchIsLiftable (f : ServiceFacts) : bool :=
  pipeUp f && negb (bool_decide (state f = Up)) &&
  (teqb (wfpState f) (txt "armed") || teqb (wfpState f) (txt "connecting")).

Definition BlockedByKillSwitch (f : ServiceFacts) : bool :=
  negb (routesInstalled f) && teqb (wfpState f) (txt "armed").

Definition ActionIsDisconnect (f : ServiceFacts) (h : HealthState) : bool :=
  let sdkActive := negb (bool_decide (h = Disconnected)) && negb (bool_decide (h = NoService)) in
  sdkActive || bool_decide (state f = Preparing) || (MachineIsCaptured f && negb (BlockedByKillSwitch f)).

Definition ServingRpcOnly (f : ServiceFacts) : bool :=
  IsSessionLive (state f) && bool_decide (mode f = ModeRpcOnly).

(** A plan of nothing but its sentence. *)
Definition only (why : text) : Plan := mkPlan false false false false false false why.

(** The case of [Decide] for [Gesture::Disconnect]. *)
Definition decide_disconnect (f : ServiceFacts) (a : AppFacts) : Plan :=
  if negb (pipeUp f) then
    mkPlan false false false false (haveDevice a) false
      (txt "there is no service, so there is no tunnel to stop — the adapter and the firewall policy died with its process")
  else if negb (known f) then
    mkPlan true (haveDevice a) false false (haveDevice a) false
      (txt "the service could not be asked for its state, so the disconnect is honoured in full rather than half — stopping nothing is a cheaper mistake than leaving this machine captured")
  else
  let serviceHasSomething :=
    routesInstalled f || (IsSessionLive (state f) && bool_decide (mode f = ModeTunnel)) || WfpInForce f in
  let tear := haveDevice a && (serviceHasSomething || negb (IsSessionLive (state f))) in
  mkPlan serviceHasSomething tear false false (haveDevice a) false
    (if serviceHasSomething then
       txt "a deliberate disconnect: this machine's routes, dns and firewall policy come back FIRST, then the session goes"
     else if tear then
       txt "the service has no session left, so the DeviceRemote we hold is a handle to a listener that is gone: drop it"
     else txt "nothing of ours is installed on this machine; only the connect controller has anything to stop").

(** The session a connect or an ensure needs is live at the service. *)
Definition service_has_what_we_need (f : ServiceFacts) (a : AppFacts) : bool :=
  let needRoutes := wantsTunnel a && negb (ServingRpcOnly f) in
  IsSessionLive (state f) && (negb needRoutes || routesInstalled f || bool_decide (state f = Preparing)).

(** The case of [Decide] for [Gesture::Connect], [ConnectRow] and [EnsureSession]. *)
Definition decide_connect (g : GestureKind) (f : ServiceFacts) (a : AppFacts) : Plan :=
  let sdk := negb (bool_decide (g = EnsureSession)) in
  if bool_decide (g = EnsureSession) && userDisconnected a && negb (IsSessionLive (state f)) then
    mkPlan false false false sdk false false
      (txt "the user disconnected and nothing has asked to reconnect since: making sure a session exists must not put this machine's capture routes back on its own")
  else if negb (pipeUp f) || negb (known f) then
    mkPlan false false (negb (haveDevice a)) sdk false false
      (if haveDevice a then
         txt "the service could not be asked for its state, so keep the session we have — a dropped reply is not evidence that the tunnel is gone"
       else txt "no session and no answer from the service: the bootstrap is what dials the pipe, and what says why if it cannot")
  else if haveDevice a && service_has_what_we_need f a then
    mkPlan false false false sdk false false
      (if bool_decide (state f = Preparing) then
         txt "the RPC session is prepared; provider selection can continue while capture waits for proof"
       else txt "the session and its tunnel are both live; drive the connect controller and touch nothing else")
  else
    mkPlan false (haveDevice a) true sdk false false
      (if haveDevice a then
         txt "the service has no tunnel for this session, so the DeviceRemote we hold points at a listener that is gone: drop it and start a real one"
       else txt "no session yet: bootstrap one (a reattach if the service still holds a live one, otherwise start_tunnel)").

Definition Decide (g : GestureKind) (f : ServiceFacts) (a : AppFacts) : Plan :=
  let g := if bool_decide (g = TrayToggle)
           then if ActionIsDisconnect f (health a) then Disconnect else Connect
           else g in
  match g with
  | LiftKillSwitch =>
      if negb (pipeUp f) then
        only (txt "there is no service to ask — a firewall policy is held on a dynamic session and dies with the process that owns it")
      else if negb (KillSwitchIsLiftable f) then
        only (txt "the policy in force is not one the kill switch can lift; a disconnect is what takes a connected policy down")
      else mkPlan false false false false false true
        (txt "the kill switch is holding this machine blocked with no tunnel up")
  | ForceStopTunnel =>
      if negb (pipeUp f) then
        only (txt "there is no control channel; nothing here can revert a tunnel this process does not own, and the service's death already took it")
      else mkPlan true (haveDevice a) false false false false
        (txt "the escape hatch: take the whole tunnel down, and drop the session that pointed at it so the next Connect starts a real one")
  | Disconnect => decide_disconnect f a
  | Connect | ConnectRow | EnsureSession => decide_connect g f a
  | TrayToggle => only (txt "unrecognised gesture")
  end.

(** * A pass of the session worker (SdkHost.cpp, [SessionWorkerLoop]) *)

Inductive ConnectKind := KindNone | BestAvailable | Location | Selected | KindDisconnect.
#[export] Instance ConnectKind_eq_dec : EqDecision ConnectKind.
Proof. solve_decision. Defined.

Definition GestureOf (kind : ConnectKind) : GestureKind :=
  match kind with
  | BestAvailable | Selected => Connect
  | Location => ConnectRow
  | KindDisconnect => Disconnect
  | KindNone => EnsureSession
  end.

(** [signoutfence::Admits] over [FenceWorkOf]. *)
Definition is_connect (kind : ConnectKind) : bool :=
  match kind with BestAvailable | Location | Selected => true | _ => false end.
Definition Admits (kind : ConnectKind) (signedIn : bool) : bool := signedIn || negb (is_connect kind).

(** What the service says of itself. *)
Record TunnelStatus := mkStatus {
  s_state : TunnelState; s_mode : StartMode; s_routes_installed : bool; s_wfp_state : text; s_stop_reason : text }.
Definition default_status : TunnelStatus := mkStatus Stopped ModeTunnel false (txt "off") [].

(** The answers a pass gets, in the order it asks: whether the channel is up, whether a
    teardown dropped the device, whether the channel is up at the read and what it brought,
    whether it is up after it, the app's own facts, whether the second teardown
    dropped it, the bootstrap's result and whether it left a device, and the sign-in. *)
Record Answers := mkAnswers {
  connected_first : bool; dead_teardown_done : bool;
  connected_read : bool; status : TunnelStatus; answered : bool; connected_then : bool;
  a_killSwitch : bool; a_wantsTunnel : bool; a_health : HealthState;
  teardown_done : bool; bootstrap_ok : bool; bootstrap_device : bool; signed_in : bool }.

(** The calls of a pass. *)
Inductive PassCall :=
  | PTearDown | PStopTunnel | PSdkDisconnect | PBootstrap (attachOnly : bool) | PSdkConnect.
#[export] Instance PassCall_eq_dec : EqDecision PassCall.
Proof. solve_decision. Defined.

(** The session worker's side: whether there is a device, and whether the user's last word
    was off. *)
Record Session := mkSession { device_ : bool; userDisconnected_ : bool }.
Definition new_session : Session := mkSession false false.

Definition CurrentServiceStatusLocked (i : Answers) : TunnelStatus * bool :=
  if negb (connected_read i) then (default_status, false) else (status i, answered i).

Definition facts_of (i : Answers) : ServiceFacts :=
  let '(svc, answered) := CurrentServiceStatusLocked i in
  mkService (connected_then i) (connected_then i && answered) (s_state svc) (s_mode svc)
    (s_routes_installed svc) (s_wfp_state svc) (s_stop_reason svc).

Definition note_gesture (kind : ConnectKind) (userDisconnected : bool) : bool :=
  match GestureOf kind with Connect | ConnectRow => false | Disconnect => true | _ => userDisconnected end.

(** The first teardown, of a session whose service is gone; one that threw can leave the
    device. *)
Definition device_after_dead_check (s : Session) (i : Answers) : bool :=
  if device_ s && negb (connected_first i) then negb (dead_teardown_done i) else device_ s.

Definition app_of (s : Session) (kind : ConnectKind) (i : Answers) : AppFacts :=
  mkApp (device_after_dead_check s i) (a_killSwitch i) (a_wantsTunnel i)
    (note_gesture kind (userDisconnected_ s)) (a_health i).

Definition plan_of (s : Session) (kind : ConnectKind) (i : Answers) : Plan :=
  Decide (GestureOf kind) (facts_of i) (app_of s kind i).

Definition session_pass (s : Session) (kind : ConnectKind) (i : Answers) : Session * list PassCall :=
  let dead := device_ s && negb (connected_first i) in
  let device := device_after_dead_check s i in
  let off := note_gesture kind (userDisconnected_ s) in
  let plan := plan_of s kind i in
  let calls := if dead then [PTearDown] else [] in
  let calls := if stopTunnel plan then calls ++ [PStopTunnel] else calls in
  let calls := if sdkDisconnect plan && device then calls ++ [PSdkDisconnect] else calls in
  let tear := tearDownDevice plan && device in
  let calls := if tear then calls ++ [PTearDown] else calls in
  let device := if tear then negb (teardown_done i) else device in
  let calls := if startTunnel plan then calls ++ [PBootstrap (bool_decide (GestureOf kind = EnsureSession))] else calls in
  let device := if startTunnel plan then bootstrap_device i else device in
  let ok := if startTunnel plan then bootstrap_ok i else device in
  let calls := if ok && sdkConnect plan && negb (bool_decide (kind = KindNone)) && Admits kind (signed_in i)
               then calls ++ [PSdkConnect] else calls in
  (mkSession device off, calls).

(** A run of passes, with the calls of each. *)
Fixpoint session_run (s : Session) (l : list (ConnectKind * Answers)) : Session * list (list PassCall) :=
  match l with
  | [] => (s, [])
  | (kind, i) :: l =>
      let '(s, calls) := session_pass s kind i in
      let '(s, rest) := session_run s l in (s, calls :: rest)
  end.

(** * Lemmas *)

Ltac plan_cases := unfold only; cases_if; cbn.

Lemma decide_connect_spec g f a :
  let p := decide_connect g f a in
  stopTunnel p = false /\ sdkDisconnect p = false /\ liftKillSwitch p = false /\ why p <> [] /\
  sdkConnect p = negb (bool_decide (g = EnsureSession)) /\
  (tearDownDevice p = true -> haveDevice a = true /\ startTunnel p = true) /\
  (startTunnel p = false -> haveDevice a = true /\
     (pipeUp f = false \/ known f = false \/ service_has_what_we_need f a = true) \/
     (g = EnsureSession /\ userDisconnected a = true /\ IsSessionLive (state f) = false)) /\
  (g = EnsureSession -> userDisconnected a = true -> IsSessionLive (state f) = false -> startTunnel p = false).
Proof.
  unfold decide_connect. cbv zeta.
  destruct (bool_decide (g = EnsureSession) && userDisconnected a && negb (IsSessionLive (state f))) eqn:E1; bool_hyps;
    [|destruct (negb (pipeUp f) || negb (known f)) eqn:E2;
      [|destruct (haveDevice a && service_has_what_we_need f a) eqn:E3; bool_hyps]];
    cbn [stopTunnel sdkDisconnect liftKillSwitch why sdkConnect tearDownDevice startTunnel];
    (do 3 (split; [done|])); (split; [cases_if; discriminate|]); (split; [done|]).
  - split; [done|]. split; [auto|done].
  - split; [done|]. split.
    + intros H%negb_false_iff. left. split; [done|]. apply orb_true_iff in E2 as [E|E]; apply negb_true_iff in E; auto.
    + intros -> Hu Hl. by rewrite Hu, Hl in E1.
  - split; [done|]. split; [auto|done].
  - split; [done|]. split; [done|]. intros -> Hu Hl. by rewrite Hu, Hl in E1.
Qed.

Lemma decide_disconnect_spec f a :
  let p := decide_disconnect f a in
  startTunnel p = false /\ sdkConnect p = false /\ liftKillSwitch p = false /\ why p <> [] /\
  sdkDisconnect p = haveDevice a /\
  (stopTunnel p = true <->
   pipeUp f = true /\
   (known f = false \/ MachineIsCaptured f = true \/ (IsSessionLive (state f) = true /\ mode f = ModeTunnel))) /\
  (stopTunnel p = true -> tearDownDevice p = haveDevice a) /\
  (tearDownDevice p = true -> haveDevice a = true).
Proof.
  unfold decide_disconnect, MachineIsCaptured. cbv zeta.
  set (some := routesInstalled f || _ || _).
  assert (some = true <->
    routesInstalled f || WfpInForce f = true \/ (IsSessionLive (state f) = true /\ mode f = ModeTunnel)) as Hsome.
  { subst some. rewrite !orb_true_iff, andb_true_iff, bool_decide_eq_true. tauto. }
  clearbody some. destruct (pipeUp f); cbn [negb]; [destruct (known f); cbn [negb]|];
    cbn [stopTunnel sdkDisconnect liftKillSwitch why sdkConnect tearDownDevice startTunnel];
    (do 3 (split; [done|])); (split; [cases_if; discriminate|]); (split; [done|]).
  - rewrite Hsome. split; [naive_solver|]. split; [|by intros [? _]%andb_true_iff].
    intros H%Hsome. by rewrite H, andb_true_r.
  - split; [naive_solver|]. by split.
  - split; [naive_solver|]. by split.
Qed.

Lemma Decide_toggle f a :
  Decide TrayToggle f a = Decide (if ActionIsDisconnect f (health a) then Disconnect else Connect) f a.
Proof. unfold Decide. by destruct (ActionIsDisconnect f (health a)). Qed.

Lemma GestureOf_spec kind :
  GestureOf kind <> TrayToggle /\ (GestureOf kind = EnsureSession <-> kind = KindNone) /\
  (GestureOf kind = Disconnect <-> kind = KindDisconnect) /\
  (is_connect kind = true <-> GestureOf kind = Connect \/ GestureOf kind = ConnectRow).
Proof. destruct kind; cbn; naive_solver. Qed.

Lemma plan_of_disconnect s i : plan_of s KindDisconnect i = decide_disconnect (facts_of i) (app_of s KindDisconnect i).
Proof. reflexivity. Qed.

Lemma plan_of_connect s kind i :
  kind <> KindDisconnect -> plan_of s kind i = decide_connect (GestureOf kind) (facts_of i) (app_of s kind i).
Proof. by destruct kind. Qed.

(** A disconnect starts and connects nothing. *)
Lemma plan_of_starts s kind i :
  startTunnel (plan_of s kind i) = true \/ sdkConnect (plan_of s kind i) = true -> kind <> KindDisconnect.
Proof.
  intros H ->. rewrite plan_of_disconnect in H.
  destruct (decide_disconnect_spec (facts_of i) (app_of s KindDisconnect i)) as (E1 & E2 & _). naive_solver congruence.
Qed.

Lemma elem_of_push {A} (x y : A) (c : bool) l : y ∈ (if c then l ++ [x] else l) <-> y ∈ l \/ c = true /\ y = x.
Proof. destruct c; set_solver. Qed.

(** The calls of a pass, by membership. *)
Lemma session_pass_calls s kind i :
  let p := plan_of s kind i in
  let calls := (session_pass s kind i).2 in
  let device := device_after_dead_check s i in
  (PStopTunnel ∈ calls <-> stopTunnel p = true) /\
  (forall b, PBootstrap b ∈ calls <-> startTunnel p = true /\ b = bool_decide (GestureOf kind = EnsureSession)) /\
  (PSdkConnect ∈ calls <->
   sdkConnect p = true /\ kind <> KindNone /\ Admits kind (signed_in i) = true /\
   (if startTunnel p then bootstrap_ok i
    else if tearDownDevice p && device then negb (teardown_done i) else device) = true).
Proof.
  unfold session_pass. cbv zeta. cbn [snd]. set (p := plan_of s kind i). clearbody p.
  set (d := device_after_dead_check s i). clearbody d.
  assert (forall c : PassCall, c ∈ (if device_ s && negb (connected_first i) then [PTearDown] else []) -> c = PTearDown)
    as H0 by (destruct (_ && _); set_solver).
  split; [|split; [intros b|]]; rewrite !elem_of_push.
  - split; [|intros ?; do 4 left; by right].
    intros [[[[[H|[H _]]|[_ H]]|[_ H]]|[_ H]]|[_ H]]; [by apply H0 in H|done|discriminate..].
  - split; [|intros [? ->]; left; by right].
    intros [[[[[H|[_ H]]|[_ H]]|[_ H]]|[H1 H]]|[_ H]]; [by apply H0 in H|discriminate..| |discriminate].
    by injection H as ->.
  - split.
    + intros [[[[[H|[_ H]]|[_ H]]|[_ H]]|[_ H]]|[H _]]; [by apply H0 in H|discriminate..|].
      bool_hyps. destruct (startTunnel p); auto.
    + intros (H1 & H2 & H3 & H4). right. split; [|done]. rewrite H1, H3, bool_decide_eq_false_2 by done.
      destruct (startTunnel p); by rewrite H4.
Qed.

Definition plan_whole (f : ServiceFacts) (a : AppFacts) (p : Plan) : Prop :=
  ~ (stopTunnel p = true /\ startTunnel p = true) /\ ~ (sdkConnect p = true /\ sdkDisconnect p = true) /\
  (stopTunnel p = true -> tearDownDevice p = haveDevice a) /\
  (tearDownDevice p = true -> haveDevice a = true) /\
  (liftKillSwitch p = true ->
    KillSwitchIsLiftable f = true /\ stopTunnel p = false /\ startTunnel p = false /\
    sdkConnect p = false /\ sdkDisconnect p = false /\ tearDownDevice p = false) /\
  why p <> [].

Lemma decide_connect_whole g f a : plan_whole f a (decide_connect g f a) /\ liftKillSwitch (decide_connect g f a) = false.
Proof.
  destruct (decide_connect_spec g f a) as (H1 & H2 & H3 & H4 & H5 & H6 & _). unfold plan_whole.
  rewrite H1, H2, H3. split; [|done]. do 2 (split; [by intros []|]). split; [done|]. split; [by intros [? _]%H6|by split].
Qed.

Lemma decide_disconnect_whole f a :
  plan_whole f a (decide_disconnect f a) /\ liftKillSwitch (decide_disconnect f a) = false.
Proof.
  destruct (decide_disconnect_spec f a) as (H1 & H2 & H3 & H4 & H5 & _ & H6 & H7). unfold plan_whole.
  rewrite H1, H2, H3. split; [|done]. do 2 (split; [by intros []|]). split; [done|]. split; [done|by split].
Qed.

Lemma Decide_whole g f a :
  plan_whole f a (Decide g f a) /\ (liftKillSwitch (Decide g f a) = true -> g = LiftKillSwitch).
Proof.
  assert (forall p, plan_whole f a p /\ liftKillSwitch p = false ->
    plan_whole f a p /\ (liftKillSwitch p = true -> g = LiftKillSwitch)) as Hn by (intros p [? ->]; done).
  destruct g; [apply Hn, decide_connect_whole|apply Hn, decide_connect_whole|apply Hn, decide_disconnect_whole| |
    apply Hn, decide_connect_whole| |].
  - rewrite Decide_toggle. apply Hn.
    destruct (ActionIsDisconnect f (health a)); [apply decide_disconnect_whole|apply decide_connect_whole].
  - unfold Decide. cbn [bool_decide decide_rel]. cbv iota. unfold plan_whole.
    destruct (pipeUp f); cbn [negb only stopTunnel startTunnel sdkConnect sdkDisconnect tearDownDevice liftKillSwitch why];
      (split; [|done]); do 2 (split; [by intros []|]); (split; [done|]); (split; [done|]); by split.
  - unfold Decide. cbn [bool_decide decide_rel]. cbv iota. unfold plan_whole. split; [|done].
    destruct (pipeUp f), (KillSwitchIsLiftable f);
      cbn [negb only stopTunnel startTunnel sdkConnect sdkDisconnect tearDownDevice liftKillSwitch why];
      do 2 (split; [by intros []|]); (split; [done|]); (split; [done|]); by split.
Qed.

(** * Properties *)

(** Every plan is whole.  Whatever the facts, a gesture never both stops and starts a
    tunnel nor drives the connect controller both ways; a stop takes this side's device
    with it, and nothing drops a device there is not; the kill switch is lifted only by
    its own gesture, alone, and only when the service can lift it; a plan says why; and
    the user's kill-switch preference changes nothing. *)
Theorem every_plan_is_whole g f a :
  let p := Decide g f a in
  ~ (stopTunnel p = true /\ startTunnel p = true) /\ ~ (sdkConnect p = true /\ sdkDisconnect p = true) /\
  (stopTunnel p = true -> tearDownDevice p = haveDevice a) /\
  (tearDownDevice p = true -> haveDevice a = true) /\
  (liftKillSwitch p = true ->
    g = LiftKillSwitch /\ KillSwitchIsLiftable f = true /\ stopTunnel p = false /\ startTunnel p = false /\
    sdkConnect p = false /\ sdkDisconnect p = false /\ tearDownDevice p = false) /\
  why p <> [] /\
  (forall k, Decide g f (mkApp (haveDevice a) k (wantsTunnel a) (userDisconnected a) (health a)) = p).
Proof.
  destruct (Decide_whole g f a) as [(H1 & H2 & H3 & H4 & H5 & H6) H7]. cbv zeta.
  split; [done|]. split; [done|]. split; [done|]. split; [done|]. split; [auto|]. split; [done|]. by destruct a.
Qed.

(** A captured machine always has its way out.  With a service that answers, a
    disconnect sends the stop exactly when there is something of ours on the machine -
    routes, a policy in force, or a tunnel session - and also when the service could not
    be asked; the tray's one item does the same whenever the machine is captured by
    anything but the armed kill switch; and neither ever starts or connects anything. *)
Theorem captured_machine_has_a_way_out f a :
  pipeUp f = true ->
  (stopTunnel (Decide Disconnect f a) = true <->
    known f = false \/ MachineIsCaptured f = true \/ (IsSessionLive (state f) = true /\ mode f = ModeTunnel)) /\
  (MachineIsCaptured f = true -> BlockedByKillSwitch f = false ->
    ActionIsDisconnect f (health a) = true /\ stopTunnel (Decide TrayToggle f a) = true) /\
  startTunnel (Decide Disconnect f a) = false /\ sdkConnect (Decide Disconnect f a) = false.
Proof.
  intros Hp. destruct (decide_disconnect_spec f a) as (H1 & H2 & _ & _ & _ & H3 & _).
  assert (Decide Disconnect f a = decide_disconnect f a) as Hd by done. rewrite Hd.
  split; [rewrite H3; tauto|]. split; [|by split].
  intros Hc Hb. assert (ActionIsDisconnect f (health a) = true) as Ha.
  { unfold ActionIsDisconnect. rewrite Hc, Hb. cbv zeta. by rewrite orb_true_r. }
  split; [done|]. rewrite Decide_toggle, Ha, Hd, H3. auto.
Qed.

Lemma captured_machine_has_a_way_out_witness :
  let f := mkService true true StateError ModeTunnel false (txt "connected") [] in
  let a := mkApp false true true false Disconnected in
  stopTunnel (Decide Disconnect f a) = true /\ stopTunnel (Decide TrayToggle f a) = true.
Proof.
  intros f a. destruct (captured_machine_has_a_way_out f a eq_refl) as (H1 & H2 & _). split.
  - apply H1. right. left. reflexivity.
  - by apply H2.
Defined.

(** C27: a connect never drives a session that is gone.  A pass of the worker drives the
    connect controller only after a bootstrap of its own succeeded, or on a device it
    kept whose service was asked and runs what the gesture needs, or could not be asked;
    it does so only for the user's own connect, signed in; and it starts a tunnel, not
    merely attaches to one, only for such a gesture. *)
Theorem connect_never_into_a_dead_session s kind i :
  let calls := (session_pass s kind i).2 in
  let f := facts_of i in
  (PSdkConnect ∈ calls ->
    is_connect kind = true /\ signed_in i = true /\
    (PBootstrap false ∈ calls /\ bootstrap_ok i = true \/
     ~ PBootstrap false ∈ calls /\ device_after_dead_check s i = true /\
     (pipeUp f = false \/ known f = false \/
      IsSessionLive (state f) = true /\
      (a_wantsTunnel i = true -> ServingRpcOnly f = false -> routesInstalled f = true \/ state f = Preparing)))) /\
  (PBootstrap false ∈ calls -> is_connect kind = true).
Proof.
  cbv zeta. destruct (session_pass_calls s kind i) as (_ & Hb & Hc). rewrite Hc.
  destruct (GestureOf_spec kind) as (_ & Hn & _ & Hk). specialize (Hb false). split.
  - intros (H1 & H2 & H3 & H4). pose proof (plan_of_starts s kind i (or_intror H1)) as Hd.
    assert (is_connect kind = true) as Hi by (destruct kind; done).
    split; [done|]. unfold Admits in H3. rewrite Hi in H3. split; [by destruct (signed_in i)|].
    assert (GestureOf kind <> EnsureSession) as Hg by (rewrite Hn; done).
    rewrite bool_decide_eq_false_2 in Hb by done. rewrite Hb. rewrite (plan_of_connect _ _ _ Hd) in *.
    set (a := app_of s kind i) in *.
    destruct (decide_connect_spec (GestureOf kind) (facts_of i) a) as (_ & _ & _ & _ & _ & Ht & Hs & _).
    destruct (startTunnel _); [left; auto|]. right. split; [by intros []|].
    destruct (tearDownDevice _) eqn:Et; [by destruct Ht|]. cbn [andb] in H4. split; [done|].
    destruct (Hs eq_refl) as [[_ [?|[?|H]]]|[? _]]; auto; [|done]. right. right.
    unfold service_has_what_we_need in H. subst a. cbn [wantsTunnel app_of] in H. apply andb_true_iff in H as [-> H].
    split; [done|]. intros Hw Hr. rewrite Hw, Hr in H. cbn in H.
    apply orb_true_iff in H as [?|H%bool_decide_eq_true]; auto.
  - rewrite Hb. intros [H1 H2]. symmetry in H2. apply bool_decide_eq_false in H2.
    pose proof (plan_of_starts s kind i (or_introl H1)). by destruct kind.
Qed.

(** The calls of a pass are some of these, in this order. *)
Definition in_this_order (attachOnly : bool) : list PassCall :=
  [PTearDown; PStopTunnel; PSdkDisconnect; PTearDown; PBootstrap attachOnly; PSdkConnect].

Lemma sublist_push {A} (x : A) (c : bool) l k : l `sublist_of` k -> (if c then l ++ [x] else l) `sublist_of` (k ++ [x]).
Proof.
  intros H. destruct c; [by apply sublist_app|]. by apply sublist_inserts_r.
Qed.

(** The machine first.  The calls of a pass come in one order: the stop, which gives
    the machine back, before anything of the SDK's, the stale device's end before a
    bootstrap, and a connect last; and after a stop no device is left whose listener it
    ended, unless its teardown failed. *)
Theorem machine_first s kind i :
  (session_pass s kind i).2 `sublist_of` in_this_order (bool_decide (GestureOf kind = EnsureSession)) /\
  (PStopTunnel ∈ (session_pass s kind i).2 -> teardown_done i = true -> device_ (session_pass s kind i).1 = false).
Proof.
  split.
  - unfold session_pass. cbv zeta. cbn [snd].
    change (in_this_order ?b) with ((((([PTearDown] ++ [PStopTunnel]) ++ [PSdkDisconnect]) ++ [PTearDown]) ++ [PBootstrap b]) ++ [PSdkConnect]).
    do 5 apply sublist_push. by destruct (_ && _); [|apply sublist_nil_l].
  - destruct (session_pass_calls s kind i) as (-> & _). intros Hs Ht.
    destruct (Decide_whole (GestureOf kind) (facts_of i) (app_of s kind i)) as [(H1 & _ & H3 & _) _]. fold (plan_of s kind i) in *.
    unfold session_pass. cbv zeta. cbn [fst device_]. rewrite (H3 Hs). cbn [haveDevice app_of].
    destruct (startTunnel _); [by destruct H1|]. by destruct (device_after_dead_check s i); cbn; rewrite ?Ht.
Qed.

Lemma machine_first_witness :
  let i := mkAnswers true true true (mkStatus Up ModeTunnel true (txt "connected") []) true true false true Connected
             true false false true in
  (session_pass (mkSession true false) KindDisconnect i).2 = [PStopTunnel; PSdkDisconnect; PTearDown] /\
  device_ (session_pass (mkSession true false) KindDisconnect i).1 = false.
Proof.
  intros i. split; [reflexivity|].
  apply (proj2 (machine_first (mkSession true false) KindDisconnect i)); [|reflexivity].
  apply list_elem_of_In. left. reflexivity.
Defined.

(** An ensure or a disconnect, on a service that runs no session. *)
Definition nobody_asks (p : ConnectKind * Answers) : Prop :=
  (p.1 = KindNone \/ p.1 = KindDisconnect) /\ IsSessionLive (state (facts_of p.2)) = false.

Lemma session_run_off s l :
  userDisconnected_ s = true -> Forall nobody_asks l ->
  userDisconnected_ (session_run s l).1 = true /\
  Forall (fun calls => (forall b, PBootstrap b ∉ calls) /\ PSdkConnect ∉ calls) (session_run s l).2.
Proof.
  intros Hs F. revert s Hs. induction F as [|[kind i] l [Hk Hl] F IH]; intros s Hs; cbn [session_run]; [by split|].
  cbn [fst snd] in *. pose proof (session_pass_calls s kind i) as (_ & Hb & Hc).
  assert (userDisconnected_ (session_pass s kind i).1 = true) as Hu.
  { unfold session_pass. cbv zeta. cbn [fst userDisconnected_]. by destruct Hk as [-> | ->]. }
  assert (startTunnel (plan_of s kind i) = false) as Ht.
  { destruct (startTunnel (plan_of s kind i)) eqn:E; [|done].
    pose proof (plan_of_starts s kind i (or_introl E)) as Hd. rewrite (plan_of_connect _ _ _ Hd) in E.
    destruct Hk as [-> | ?]; [|done].
    destruct (decide_connect_spec (GestureOf KindNone) (facts_of i) (app_of s KindNone i)) as (_ & _ & _ & _ & _ & _ & _ & H).
    rewrite H in E; done. }
  destruct (session_pass s kind i) as [s' calls] eqn:Ep. cbn [fst snd] in *.
  specialize (IH s' Hu). destruct (session_run s' l) as [s'' rest]. cbn [fst snd] in *. destruct IH as [IH1 IH2].
  split; [done|]. constructor; [|done]. split.
  - intros b [H _]%Hb. congruence.
  - intros (H1 & H2 & _)%Hc. pose proof (plan_of_starts s kind i (or_intror H1)) as Hd. by destruct Hk.
Qed.

(** Off stays off.  After the user's disconnect, however the app is resumed, the
    network changes or the service comes back, no pass bootstraps a session or connects
    on a service that runs none, and the user's word is kept, until the user connects. *)
Theorem off_stays_off s i l :
  Forall nobody_asks l ->
  let s1 := (session_pass s KindDisconnect i).1 in
  userDisconnected_ (session_run s1 l).1 = true /\
  Forall (fun calls => (forall b, PBootstrap b ∉ calls) /\ PSdkConnect ∉ calls) (session_run s1 l).2.
Proof. intros F. by apply session_run_off. Qed.

Lemma off_stays_off_witness :
  let back := mkAnswers true true true default_status true true true true Disconnected true true true true in
  Forall (fun calls => (forall b, PBootstrap b ∉ calls) /\ PSdkConnect ∉ calls)
    (session_run (session_pass (mkSession true false) KindDisconnect back).1 [(KindNone, back); (KindNone, back)]).2.
Proof.
  intros back. apply off_stays_off.
  repeat (apply List.Forall_cons; [split; [by left|reflexivity]|]). apply List.Forall_nil.
Defined.
