(* ===== verification/Provide.v ===== *)
(** Providing without a tunnel (ProvideLifecycle.h, and the identities of Protocol.h): what
    each control mode earns, when the service refuses to provide, what the app asks for
    while disconnected, and whether a device can pass between a provider and a session.
    The JSON library is a parameter. *)

From S2P Require Import Prelude.
From S2P Require Import CxxText.

(** * Modes and tiers *)

Inductive ControlMode := Never | Always | Network | Auto | Unknown.
#[export] Instance ControlMode_eq_dec : EqDecision ControlMode.
Proof. solve_decision. Defined.

Definition ControlModeFrom (mode : text) : ControlMode :=
  if teqb mode (txt "never") then Never else
  if teqb mode (txt "always") then Always else
  if teqb mode (txt "network") then Network else
  if teqb mode (txt "auto") then Auto else
  Unknown.

Definition mode_name (mode : ControlMode) : text :=
  match mode with
  | Never => txt "never" | Always => txt "always" | Network => txt "network" | Auto => txt "auto" | Unknown => txt "unknown"
  end.

Inductive Tier := TierNone | TierNetwork | TierPublic.
#[export] Instance Tier_eq_dec : EqDecision Tier.
Proof. solve_decision. Defined.

Definition tier_value (t : Tier) : Z := match t with TierNone => 0 | TierNetwork => 1 | TierPublic => 3 end.

Definition SdkTierFor (mode : ControlMode) (connected : bool) : Tier :=
  match mode with
  | Always => TierPublic
  | Network => TierNetwork
  | Auto => if connected then TierPublic else TierNetwork
  | Never | Unknown => TierNone
  end.

Definition ProviderRuns (mode : ControlMode) (connected : bool) : bool :=
  negb (bool_decide (SdkTierFor mode connected = TierNone)).

(** * The service's refusals *)

Record ServiceProviderState := mkProviderState {
  tunnelSession : bool; firewallInForce : bool; deviceStillHeld : bool; restartPending : bool }.

Inductive ProviderRefusal :=
  | RefusalNone | ModeDoesNotProvide | TunnelSession | KillSwitchArmed | DeviceStillHeld | RestartPending.
#[export] Instance ProviderRefusal_eq_dec : EqDecision ProviderRefusal.
Proof. solve_decision. Defined.

Definition ProviderStartRefusal (mode : ControlMode) (state : ServiceProviderState) : ProviderRefusal :=
  if negb (ProviderRuns mode false) then ModeDoesNotProvide else
  if tunnelSession state then TunnelSession else
  if firewallInForce state then KillSwitchArmed else
  if deviceStillHeld state then DeviceStillHeld else
  if restartPending state then RestartPending else
  RefusalNone.

Definition RefusalReason (refusal : ProviderRefusal) : text :=
  match refusal with
  | ModeDoesNotProvide => txt "the provide mode does not provide while disconnected"
  | TunnelSession => txt "a tunnel session exists, and its device is already the provider"
  | KillSwitchArmed => txt "the kill switch is holding this machine blocked; providing resumes after you reconnect or turn the kill switch off"
  | DeviceStillHeld => txt "a previous teardown is still holding this device's identity"
  | RestartPending => txt "this service is restarting itself"
  | RefusalNone => []
  end.

(** * Where a setting goes *)

Inductive ExtenderSettingTarget := TargetProviderDevice | TargetSessionDevice | TargetNetworkSpace | TargetNone.
#[export] Instance ExtenderSettingTarget_eq_dec : EqDecision ExtenderSettingTarget.
Proof. solve_decision. Defined.

Definition ExtenderSettingTargetFor (providerDevice sessionDevice lastSpace : bool) : ExtenderSettingTarget :=
  if providerDevice then TargetProviderDevice else
  if sessionDevice then TargetSessionDevice else
  if lastSpace then TargetNetworkSpace else
  TargetNone.

Definition target_name (t : ExtenderSettingTarget) : text :=
  match t with
  | TargetProviderDevice => txt "the provider-only device"
  | TargetSessionDevice => txt "the session's device"
  | TargetNetworkSpace => txt "the last device's network space"
  | TargetNone => txt "nothing"
  end.

(** * Identities *)

Record DeviceIdentity := mkIdentity {
  jwtSubject : text; networkSpaceJson : text; instanceId : text; deviceDescription : text; deviceSpec : text;
  appVersion : text }.
#[export] Instance DeviceIdentity_eq_dec : EqDecision DeviceIdentity.
Proof. solve_decision. Defined.

Definition SameIdentity (a b : DeviceIdentity) : bool :=
  teqb (jwtSubject a) (jwtSubject b) && teqb (networkSpaceJson a) (networkSpaceJson b) &&
  teqb (instanceId a) (instanceId b) && teqb (deviceDescription a) (deviceDescription b) &&
  teqb (deviceSpec a) (deviceSpec b) && teqb (appVersion a) (appVersion b).

Definition note (names : text) (differs : bool) (name : text) : text :=
  if negb differs then names else
  (if bool_decide (names = []) then names else names ++ txt ", ") ++ name.

Definition DifferingIdentityFields (a b : DeviceIdentity) : text :=
  let names := note [] (negb (teqb (jwtSubject a) (jwtSubject b))) (txt "by_jwt") in
  let names := note names (negb (teqb (networkSpaceJson a) (networkSpaceJson b))) (txt "network_space_json") in
  let names := note names (negb (teqb (instanceId a) (instanceId b))) (txt "instance_id") in
  let names := note names (negb (teqb (deviceDescription a) (deviceDescription b))) (txt "device_description") in
  let names := note names (negb (teqb (deviceSpec a) (deviceSpec b))) (txt "device_spec") in
  note names (negb (teqb (appVersion a) (appVersion b))) (txt "app_version").

Definition PromotesProviderDevice (providerDevice : bool) (provider start : DeviceIdentity) : bool :=
  providerDevice && SameIdentity provider start.

(** ** The client a credential names *)

(** A character's six bits; [None] for the padding, which ends the text, and for a
    character that is none. *)
Definition base64_value (c : ascii) : option Z :=
  let z := ord c in
  if (65 <=? z) && (z <=? 90) then Some (z - 65) else
  if (97 <=? z) && (z <=? 122) then Some (z - 97 + 26) else
  if (48 <=? z) && (z <=? 57) then Some (z - 48 + 52) else
  if z =? 45 then Some 62 else
  if z =? 95 then Some 63 else
  None.

(** The loop; [None] is the answer false. *)
Fixpoint decode_base64url (input : text) (buffer bits : Z) (out : text) : option text :=
  match input with
  | [] => Some out
  | c :: input =>
      match base64_value c with
      | None => if ord c =? 61 then Some out else None
      | Some value =>
          let buffer := Z.lor (u32 (Z.shiftl buffer 6)) value in
          let bits := bits + 6 in
          if 8 <=? bits then
            let bits := bits - 8 in
            decode_base64url input buffer bits (out ++ [chr (Z.land (Z.shiftr buffer bits) 0xFF)])
          else decode_base64url input buffer bits out
      end
  end.

Definition DecodeBase64Url (input : text) : option text := decode_base64url input 0 0 [].

(** [nlohmann::json::parse], without exceptions, of the claims: nothing unless they are an
    object, and of an object the two members that are strings. *)
Class Json := parse_claims : text -> option (option text * option text).

Definition JwtSubject `{Json} (jwt : text) : text :=
  match find_char "."%char jwt with
  | None => jwt
  | Some first =>
      let rest := drop (S first) jwt in
      match find_char "."%char rest with
      | None => jwt
      | Some n =>
          match DecodeBase64Url (take n rest) with
          | None => jwt
          | Some payload =>
              match parse_claims payload with
              | Some (Some client, network) =>
                  if bool_decide (client = []) then jwt else
                  txt "client:" ++ default [] network ++ txt "/" ++ client
              | _ => jwt
              end
          end
      end
  end.

(** The fields of the two requests that this side of the service reads. *)
Record StartProvider := mkStartProvider {
  sp_by_jwt : text; sp_network_space_json : text; sp_instance_id : text; sp_device_description : text;
  sp_device_spec : text; sp_app_version : text; sp_provide_mode : text; sp_transport : text }.
Definition no_provider : StartProvider := mkStartProvider [] [] [] [] [] [] [] [].

Definition IdentityOf `{Json} (r : StartProvider) : DeviceIdentity :=
  mkIdentity (JwtSubject (sp_by_jwt r)) (sp_network_space_json r) (sp_instance_id r) (sp_device_description r)
    (sp_device_spec r) (sp_app_version r).

Definition SameProviderDevice `{Json} (a b : StartProvider) : bool := SameIdentity (IdentityOf a) (IdentityOf b).

(** * A disconnect that keeps the device *)

Record SessionStopFacts := mkStopFacts {
  st_sessionDevice : bool; st_disconnect : bool; st_mode : ControlMode; st_firewallInForce : bool;
  st_deviceStillHeld : bool; st_restartPending : bool }.

Definition KeepsSessionDevice (facts : SessionStopFacts) : bool :=
  if negb (st_sessionDevice facts) || negb (st_disconnect facts) then false else
  bool_decide (ProviderStartRefusal (st_mode facts)
    (mkProviderState false (st_firewallInForce facts) (st_deviceStillHeld facts) (st_restartPending facts)) = RefusalNone).

(** * The app's step while disconnected *)

Record ServiceProviderFacts := mkProviderFacts {
  pf_answered : bool; pf_tunnelSession : bool; pf_killSwitchArmed : bool; pf_providerRunning : bool }.

Inductive DisconnectedStep := DisconnectedNone | DisconnectedStart | DisconnectedStop.
#[export] Instance DisconnectedStep_eq_dec : EqDecision DisconnectedStep.
Proof. solve_decision. Defined.

Definition DisconnectedProviderStep (controlMode : text) (facts : ServiceProviderFacts) : DisconnectedStep :=
  if negb (pf_answered facts) || pf_tunnelSession facts then DisconnectedNone else
  if negb (ProviderRuns (ControlModeFrom controlMode) false) then
    if pf_providerRunning facts then DisconnectedStop else DisconnectedNone
  else if pf_killSwitchArmed facts then
    if pf_providerRunning facts then DisconnectedStop else DisconnectedNone
  else DisconnectedStart.

(** * Lemmas *)

Lemma mode_roundtrip mode : ControlModeFrom (mode_name mode) = mode.
Proof. by destruct mode. Qed.

Lemma SameIdentity_eq a b : SameIdentity a b = true <-> a = b.
Proof.
  unfold SameIdentity. rewrite !andb_true_iff, !teqb_eq. split; [|intros ->; split_and!; done].
  destruct a, b. cbn. intros (((((-> & ->) & ->) & ->) & ->) & ->). done.
Qed.

Lemma note_empty names d name : name <> [] -> note names d name = [] <-> names = [] /\ d = false.
Proof.
  intros Hn. unfold note. destruct d; cbn [negb]; [|naive_solver].
  case_bool_decide as E; [subst; cbn; naive_solver|]. split; [|naive_solver].
  intros [_ ?]%app_eq_nil. done.
Qed.

Lemma ProviderStartRefusal_none mode state :
  ProviderStartRefusal mode state = RefusalNone <->
  ProviderRuns mode false = true /\ tunnelSession state = false /\ firewallInForce state = false /\
  deviceStillHeld state = false /\ restartPending state = false.
Proof.
  unfold ProviderStartRefusal. destruct (ProviderRuns mode false), (tunnelSession state), (firewallInForce state),
    (deviceStillHeld state), (restartPending state); cbn; split; intros; try done; naive_solver.
Qed.

(** ** Base64url *)

Definition base64_char (v : Z) : ascii :=
  chr (if v <? 26 then v + 65 else if v <? 52 then v - 26 + 97 else if v <? 62 then v - 52 + 48 else if v =? 62 then 45 else 95).

(** A test of the 64 values of a digit. *)
Lemma sixty_four (p : Z -> bool) : forallb p (map Z.of_nat (seq 0 64)) = true -> forall v, 0 <= v < 64 -> p v = true.
Proof.
  rewrite forallb_forall. intros Hp v Hv. apply Hp, in_map_iff. exists (Z.to_nat v). split; [lia|]. apply in_seq. lia.
Qed.

Lemma base64_value_char v : 0 <= v < 64 -> base64_value (base64_char v) = Some v.
Proof.
  intros Hv. apply (bool_decide_eq_true_1 _). revert v Hv. apply sixty_four. vm_compute. reflexivity.
Qed.

(** RFC 4648's encoder, without padding: the reference. *)
Fixpoint encode_base64url (s : text) : text :=
  match s with
  | [] => []
  | [a] => [base64_char (ord a / 4); base64_char (ord a mod 4 * 16)]
  | [a; b] =>
      [base64_char (ord a / 4); base64_char (ord a mod 4 * 16 + ord b / 16); base64_char (ord b mod 16 * 4)]
  | a :: b :: c :: s =>
      [base64_char (ord a / 4); base64_char (ord a mod 4 * 16 + ord b / 16);
       base64_char (ord b mod 16 * 4 + ord c / 64); base64_char (ord c mod 64)] ++ encode_base64url s
  end.

Lemma push_bits buffer v : 0 <= v < 64 -> Z.lor (u32 (Z.shiftl buffer 6)) v = wrap 26 buffer * 64 + v.
Proof.
  intros Hv. assert (u32 (Z.shiftl buffer 6) = wrap 26 buffer * 64) as E.
  { unfold wrap. rewrite Z.shiftl_mul_pow2 by lia. change (2 ^ 32) with (2 ^ 26 * 64). by rewrite Z.mul_mod_distr_r. }
  assert (Z.land (wrap 26 buffer * 64) v = 0) as Hd.
  { change 64 with (2 ^ 6). rewrite <- Z.shiftl_mul_pow2 by lia. apply Z.bits_inj'. intros n Hn.
    rewrite Z.land_spec, Z.bits_0. destruct (Z.lt_ge_cases n 6); [by rewrite Z.shiftl_spec_low|].
    rewrite <- (Z.mod_small v (2 ^ 6)), Z.mod_pow2_bits_high by lia. apply andb_false_r. }
  by rewrite E, Z.add_nocarry_lxor, Z.lxor_lor.
Qed.

(** The [bits] low bits of the buffer are those not yet written. *)
Definition pending (buffer bits lo : Z) : Prop := exists hi, buffer = hi * 2 ^ bits + lo.

Lemma decode_step v input buffer bits lo out :
  0 <= v < 64 -> 0 <= bits <= 6 -> 0 <= lo < 2 ^ bits -> pending buffer bits lo ->
  exists buffer', decode_base64url (base64_char v :: input) buffer bits out =
    (if 8 <=? bits + 6 then
       decode_base64url input buffer' (bits - 2) (out ++ [chr ((lo * 64 + v) / 2 ^ (bits - 2))])
     else decode_base64url input buffer' (bits + 6) out) /\
    pending buffer' (bits + 6) (lo * 64 + v) /\
    (8 <= bits + 6 -> pending buffer' (bits - 2) ((lo * 64 + v) mod 2 ^ (bits - 2))).
Proof.
  intros Hv Hb Hlo [hi ->]. cbn [decode_base64url]. rewrite base64_value_char, push_bits by done.
  assert (exists h, wrap 26 (hi * 2 ^ bits + lo) = h * 2 ^ bits + lo) as [h ->].
  { exists (hi mod 2 ^ (26 - bits)). unfold wrap. assert (0 < 2 ^ bits) by (apply Z.pow_pos_nonneg; lia).
    assert (0 < 2 ^ (26 - bits)) by (apply Z.pow_pos_nonneg; lia).
    replace (2 ^ 26) with (2 ^ bits * 2 ^ (26 - bits)) by (rewrite <- Z.pow_add_r by lia; f_equal; lia).
    rewrite Z.add_comm, Z.rem_mul_r by lia. rewrite Z.mod_add, (Z.mod_small lo), Z.div_add, (Z.div_small lo), Z.add_0_l by lia. lia. }
  exists ((h * 2 ^ bits + lo) * 64 + v). replace (bits + 6 - 8) with (bits - 2) by lia.
  assert (pending ((h * 2 ^ bits + lo) * 64 + v) (bits + 6) (lo * 64 + v)) as Hp.
  { exists h. rewrite Z.pow_add_r by lia. change (2 ^ 6) with 64. lia. }
  assert (8 <= bits + 6 -> 0 < 2 ^ (bits - 2) /\ 2 ^ (bits + 6) = 256 * 2 ^ (bits - 2) /\ lo * 64 + v < 2 ^ (bits + 6)) as Hk.
  { intros ?. split; [apply Z.pow_pos_nonneg; lia|]. split.
    - change 256 with (2 ^ 8). rewrite <- Z.pow_add_r by lia. f_equal. lia.
    - rewrite Z.pow_add_r by lia. change (2 ^ 6) with 64. lia. }
  split_and!; [|done|].
  - destruct (Z.leb_spec 8 (bits + 6)); [|done]. destruct (Hk ltac:(done)) as (K1 & K2 & K3). do 4 f_equal.
    destruct Hp as [h' ->]. rewrite Z.shiftr_div_pow2 by lia. change 0xFF with (Z.ones 8). rewrite Z.land_ones by lia.
    rewrite K2. replace (h' * (256 * 2 ^ (bits - 2)) + (lo * 64 + v)) with (h' * 256 * 2 ^ (bits - 2) + (lo * 64 + v)) by lia.
    rewrite Z.div_add_l by lia. change (2 ^ 8) with 256. rewrite Z.add_comm, Z.mod_add by lia. apply Z.mod_small.
    split; [apply Z.div_pos; lia|apply Z.div_lt_upper_bound; lia].
  - intros H8. destruct (Hk H8) as (K1 & K2 & K3). destruct Hp as [h' ->].
    exists (h' * 256 + (lo * 64 + v) / 2 ^ (bits - 2)). rewrite K2.
    pose proof (Z.div_mod (lo * 64 + v) (2 ^ (bits - 2)) ltac:(lia)). nia.
Qed.

Lemma decode_padding pad buffer bits out :
  Forall (fun c => c = "="%char) pad -> decode_base64url pad buffer bits out = Some out.
Proof. by intros [|c l ->]. Qed.

(** The four characters of a group. *)
Lemma decode_first v input buffer out :
  0 <= v < 64 -> pending buffer 0 0 ->
  exists b, decode_base64url (base64_char v :: input) buffer 0 out = decode_base64url input b 6 out /\ pending b 6 v.
Proof. intros Hv Hp. destruct (decode_step v input buffer 0 0 out) as (b & E & P & _); [done|lia|cbn; lia|done|].
  exists b. by rewrite E.
Qed.

Lemma decode_next v k bits input buffer lo out :
  0 <= v < 64 -> bits = k + 2 -> k = 4 \/ k = 2 \/ k = 0 -> 0 <= lo < 2 ^ bits -> pending buffer bits lo ->
  exists b, decode_base64url (base64_char v :: input) buffer bits out =
    decode_base64url input b k (out ++ [chr ((lo * 64 + v) / 2 ^ k)]) /\ pending b k ((lo * 64 + v) mod 2 ^ k).
Proof.
  intros Hv -> Hk Hlo Hp. destruct (decode_step v input buffer (k + 2) lo out) as (b & E & _ & P); [done|lia|done|done|].
  exists b. rewrite (proj2 (Z.leb_le _ _)) in E by lia. replace (k + 2 - 2) with k in * by lia. split; [done|].
  apply P. lia.
Qed.

Ltac dlia := Z.to_euclidean_division_equations; lia.

Lemma encode_decode s : forall pad buffer out,
  Forall (fun c => c = "="%char) pad -> pending buffer 0 0 ->
  decode_base64url (encode_base64url s ++ pad) buffer 0 out = Some (out ++ s).
Proof.
  induction s as [s IH] using (induction_ltof1 _ (@length ascii)). unfold ltof in IH. intros pad buffer out Hpad Hb.
  assert (forall c, 0 <= ord c < 256) as Ho by apply ord_range.
  assert (forall x c, x = ord c -> chr x = c) as Hc by (intros ? ? ->; apply chr_ord).
  destruct s as [|a [|b [|c s]]]; cbn [encode_base64url app]; try pose proof (Ho a) as Ha; try pose proof (Ho b) as Hb';
    try pose proof (Ho c) as Hc'.
  - by rewrite decode_padding, app_nil_r.
  - edestruct (decode_first (ord a / 4)) as (b1 & -> & P1); [dlia|exact Hb|].
    edestruct (decode_next (ord a mod 4 * 16) 4 6) as (b2 & -> & P2); [dlia|dlia|dlia| |exact P1|]; [cbn; dlia|].
    rewrite decode_padding by done. by rewrite (Hc _ a) by (change (2 ^ 4) with 16; dlia).
  - edestruct (decode_first (ord a / 4)) as (b1 & -> & P1); [dlia|exact Hb|].
    edestruct (decode_next (ord a mod 4 * 16 + ord b / 16) 4 6) as (b2 & -> & P2); [dlia|dlia|dlia| |exact P1|]; [cbn; dlia|].
    change (2 ^ 4) with 16 in *.
    edestruct (decode_next (ord b mod 16 * 4) 2 4) as (b3 & -> & P3); [dlia|dlia|dlia| |exact P2|]; [cbn; dlia|].
    rewrite decode_padding by done. change (2 ^ 2) with 4.
    rewrite (Hc _ a), (Hc _ b) by dlia. by rewrite <- app_assoc.
  - edestruct (decode_first (ord a / 4)) as (b1 & -> & P1); [dlia|exact Hb|].
    edestruct (decode_next (ord a mod 4 * 16 + ord b / 16) 4 6) as (b2 & -> & P2); [dlia|dlia|dlia| |exact P1|]; [cbn; dlia|].
    change (2 ^ 4) with 16 in *.
    edestruct (decode_next (ord b mod 16 * 4 + ord c / 64) 2 4) as (b3 & -> & P3); [dlia|dlia|dlia| |exact P2|]; [cbn; dlia|].
    change (2 ^ 2) with 4 in *.
    edestruct (decode_next (ord c mod 64) 0 2) as (b4 & -> & P4); [dlia|dlia|dlia| |exact P3|]; [cbn; dlia|].
    change (2 ^ 0) with 1 in *. rewrite Z.mod_1_r in P4.
    rewrite IH; [|cbn; lia|done|done]. rewrite (Hc _ a), (Hc _ b), (Hc _ c) by dlia. by rewrite <- !app_assoc.
Qed.

Lemma base64_char_dot v : 0 <= v < 64 -> base64_char v <> "."%char.
Proof. intros Hv E. pose proof (base64_value_char v Hv) as B. rewrite E in B. done. Qed.

Lemma encode_no_dot s : "."%char ∉ encode_base64url s.
Proof.
  assert (forall c, 0 <= ord c < 256) as Ho by apply ord_range.
  induction s as [s IH] using (induction_ltof1 _ (@length ascii)). unfold ltof in IH.
  destruct s as [|a [|b [|c s]]]; cbn [encode_base64url app]; [by intros ?%elem_of_nil|..];
    pose proof (Ho a) as Ha; try pose proof (Ho b) as Hb; try pose proof (Ho c) as Hc;
    repeat (apply not_elem_of_cons; split; [intros E; symmetry in E; apply base64_char_dot in E; [done|dlia]|]);
    first [by intros ?%elem_of_nil | apply IH; cbn; lia].
Qed.

Lemma find_char_middle c a b : c ∉ a -> find_char c (a ++ c :: b) = Some (length a).
Proof.
  induction a as [|x a IH]; intros Ha; cbn; [by rewrite bool_decide_eq_true_2|].
  apply not_elem_of_cons in Ha as [Hx Ha]. rewrite bool_decide_eq_false_2, IH by done. done.
Qed.

(** A token of three parts whose payload names a client. *)
Lemma JwtSubject_of_token `{Json} head payload rest client network :
  "."%char ∉ head -> parse_claims payload = Some (Some client, network) -> client <> [] ->
  JwtSubject (head ++ "."%char :: encode_base64url payload ++ "."%char :: rest) =
  txt "client:" ++ default [] network ++ txt "/" ++ client.
Proof.
  intros Hh Hp Hc. unfold JwtSubject. rewrite find_char_middle by done.
  rewrite (drop_app_ge _ _ (S _)) by lia. replace (S (length head) - length head)%nat with 1%nat by lia. change (drop 1 (?c :: ?l)) with l. rewrite ?drop_0.
  rewrite find_char_middle by apply encode_no_dot. rewrite take_app_length.
  pose proof (encode_decode payload [] 0 []) as E. rewrite app_nil_r in E. unfold DecodeBase64Url.
  rewrite E by (done || by exists 0). cbn [app]. by rewrite Hp, bool_decide_eq_false_2.
Qed.

(** * Properties *)

(** A refreshed token is the same device.  Two requests that differ in their credential
    alone, each a token of three parts whose payload, in base64url, is an object that names
    the same client of the same network, name the same device: the running provider
    keeps running for the second, and a session started with it takes the device
    over, whatever the tokens' headers, other claims and signatures are. *)
Theorem refreshed_token_keeps_the_device `{Json} head1 payload1 rest1 head2 payload2 rest2 client network r t :
  "."%char ∉ head1 -> "."%char ∉ head2 -> client <> [] ->
  parse_claims payload1 = Some (Some client, network) -> parse_claims payload2 = Some (Some client, network) ->
  let with_jwt jwt := mkStartProvider jwt (sp_network_space_json r) (sp_instance_id r) (sp_device_description r)
    (sp_device_spec r) (sp_app_version r) in
  let a := with_jwt (head1 ++ "."%char :: encode_base64url payload1 ++ "."%char :: rest1) (sp_provide_mode r) (sp_transport r) in
  let b := with_jwt (head2 ++ "."%char :: encode_base64url payload2 ++ "."%char :: rest2) (sp_provide_mode t) (sp_transport t) in
  SameProviderDevice a b = true /\ PromotesProviderDevice true (IdentityOf a) (IdentityOf b) = true.
Proof.
  intros H1 H2 Hc P1 P2 with_jwt a b.
  assert (IdentityOf a = IdentityOf b) as E.
  { unfold IdentityOf, a, b, with_jwt. cbn. by rewrite !(JwtSubject_of_token _ _ _ client network). }
  unfold SameProviderDevice, PromotesProviderDevice. by rewrite (proj2 (SameIdentity_eq _ _) E).
Qed.

Definition demo_json : Json := fun payload => if bool_decide (payload = []) then None else Some (Some (txt "c1"), Some (txt "n1")).

Lemma refreshed_token_keeps_the_device_witness :
  let with_jwt jwt := mkStartProvider jwt (txt "{}") (txt "i") [] [] (txt "1") in
  let a := with_jwt (txt "h" ++ "."%char :: encode_base64url (txt "{old}") ++ "."%char :: txt "sig") (txt "always") [] in
  let b := with_jwt (txt "g" ++ "."%char :: encode_base64url (txt "{new}") ++ "."%char :: txt "sag") (txt "network") [] in
  @SameProviderDevice demo_json a b = true /\
  PromotesProviderDevice true (@IdentityOf demo_json a) (@IdentityOf demo_json b) = true.
Proof.
  apply (@refreshed_token_keeps_the_device demo_json (txt "h") (txt "{old}") (txt "sig") (txt "g") (txt "{new}") (txt "sag")
    (txt "c1") (Some (txt "n1"))
    (mkStartProvider [] (txt "{}") (txt "i") [] [] (txt "1") (txt "always") [])
    (mkStartProvider [] [] [] [] [] [] (txt "network") [])); try reflexivity; try discriminate;
    apply (bool_decide_unpack _); vm_compute; exact I.
Defined.

(** The app asks for a start exactly when the service would not refuse one for a reason
    the app can see, and asks for a stop exactly of a running provider whose mode or
    kill switch the service would refuse: while a tunnel session exists, or the service
    has not answered, it asks for nothing. *)
Theorem app_step_matches_the_service mode facts :
  let refusal := ProviderStartRefusal (ControlModeFrom mode)
    (mkProviderState (pf_tunnelSession facts) (pf_killSwitchArmed facts) false false) in
  (DisconnectedProviderStep mode facts = DisconnectedStart <-> pf_answered facts = true /\ refusal = RefusalNone) /\
  (DisconnectedProviderStep mode facts = DisconnectedStop <->
    pf_answered facts = true /\ pf_tunnelSession facts = false /\ pf_providerRunning facts = true /\
    (refusal = ModeDoesNotProvide \/ refusal = KillSwitchArmed)).
Proof.
  intros refusal. unfold refusal, DisconnectedProviderStep, ProviderStartRefusal.
  cbn [tunnelSession firewallInForce deviceStillHeld restartPending]. destruct facts as [a s k r].
  cbn [pf_answered pf_tunnelSession pf_killSwitchArmed pf_providerRunning].
  destruct (ProviderRuns _ _), a, s, k, r; cbn; naive_solver.
Qed.

(** What a disconnect keeps may go on.  The session's device survives a disconnect exactly
    when there is one, the stop was a disconnect, and a start of a provider in its mode
    would be refused for no reason once the session is gone; and the app, told of it with
    the kill switch's floor out of force, asks for the start the service accepts. *)
Theorem kept_device_may_provide facts mode :
  st_mode facts = ControlModeFrom mode ->
  KeepsSessionDevice facts = true ->
  st_sessionDevice facts = true /\ st_disconnect facts = true /\
  ProviderStartRefusal (ControlModeFrom mode) (mkProviderState false (st_firewallInForce facts)
    (st_deviceStillHeld facts) (st_restartPending facts)) = RefusalNone /\
  st_firewallInForce facts = false /\
  forall running, DisconnectedProviderStep mode (mkProviderFacts true false (st_firewallInForce facts) running) = DisconnectedStart.
Proof.
  intros Hm. unfold KeepsSessionDevice. rewrite Hm. destruct (st_sessionDevice facts), (st_disconnect facts); cbn; try done.
  intros E%bool_decide_eq_true. pose proof E as (R & _ & F & _)%ProviderStartRefusal_none.
  cbn in F. split_and!; try done. intros running. unfold DisconnectedProviderStep. cbn. by rewrite R, F.
Qed.

Lemma kept_device_may_provide_witness :
  let facts := mkStopFacts true true Always false false false in
  st_mode facts = ControlModeFrom (txt "always") /\ KeepsSessionDevice facts = true /\
  st_sessionDevice facts = true /\ st_disconnect facts = true /\
  ProviderStartRefusal (ControlModeFrom (txt "always")) (mkProviderState false false false false) = RefusalNone /\
  st_firewallInForce facts = false /\
  forall running, DisconnectedProviderStep (txt "always") (mkProviderFacts true false false running) = DisconnectedStart.
Proof.
  split; [reflexivity|]. split; [reflexivity|].
  apply (kept_device_may_provide (mkStopFacts true true Always false false false) (txt "always")); reflexivity.
Defined.

(** The log line that names the fields two identities differ in names none exactly when
    they are one device. *)
Theorem differing_fields_empty_iff_same a b : DifferingIdentityFields a b = [] <-> SameIdentity a b = true.
Proof.
  unfold DifferingIdentityFields, SameIdentity. rewrite !note_empty by done. rewrite !andb_true_iff, !negb_false_iff. naive_solver.
Qed.
