(* ===== verification/WintunError.v ===== *)
(** The wording of a Wintun failure (WintunError.h): the text a user sees when the driver
    cannot be loaded or the adapter cannot be created, with the Windows error code in it. *)

From S2P Require Import Prelude.
From S2P Require Import CxxText.

Definition kAccessDenied : Z := 5.
Definition kModNotFound : Z := 126.
Definition kProcNotFound : Z := 127.
Definition kBadExeFormat : Z := 193.
Definition kInvalidImageHash : Z := 577.
Definition kDriverBlocked : Z := 1275.

(** ["{:X}"] of a code of at most [fuel] hexadecimal digits. *)
Definition hex_char (d : Z) : ascii := if d <? 10 then chr (48 + d) else chr (55 + d).
Fixpoint hexadecimal (fuel : nat) (n : Z) : text :=
  match fuel with
  | O => []
  | S fuel' => if n <? 16 then [hex_char n] else hexadecimal fuel' (n / 16) ++ [hex_char (n mod 16)]
  end.
(** A [uint32_t] has at most eight of them. *)
Definition hex (n : Z) : text := hexadecimal 8 n.

Definition CodeText (code : Z) : text := txt "Windows error " ++ to_string code ++ txt " (0x" ++ hex code ++ txt ")".

Definition LoadFailure (code : Z) : text :=
  let cause :=
    if code =? kModNotFound then
      txt "wintun.dll is missing next to urnetworkd.exe; reinstall URnetwork, and check whether antivirus quarantined it"
    else if code =? kProcNotFound then txt "wintun.dll is not the expected Wintun build; reinstall URnetwork"
    else if code =? kBadExeFormat then
      txt "wintun.dll is for a different CPU architecture; install the URnetwork build for this PC"
    else txt "is it next to urnetworkd.exe?" in
  txt "failed to load wintun.dll: " ++ CodeText code ++ txt " - " ++ cause.

Definition AdapterFailure (code : Z) : text :=
  let cause :=
    if code =? kAccessDenied then
      txt "access denied; the tunnel must run in the URnetwork service (LocalSystem) or an elevated console"
    else if code =? kInvalidImageHash then
      txt "Windows rejected the wintun driver's signature; check the driver blocklist, Memory integrity, or antivirus"
    else if code =? kDriverBlocked then txt "Windows or security software blocked the wintun driver"
    else txt "it needs the URnetwork service (LocalSystem) or administrator rights and a wintun driver Windows will load; the service log has wintun's own messages" in
  txt "failed to create the wintun adapter: " ++ CodeText code ++ txt " - " ++ cause.

Example load_failure_words : LoadFailure 1275 = txt "failed to load wintun.dll: Windows error 1275 (0x4FB) - is it next to urnetworkd.exe?".
Proof. vm_compute. reflexivity. Qed.
