(* ===== verification/Watchdog.v ===== *)
(** The watchdog of a session (TunnelWatchdog.h, TunnelWatchdog.cpp): the sampler, which
    calls the SDK and can be stranded inside it, the evaluator, which never blocks and
    makes up the failsafe's mind, and the channel they share with the egress monitor, the
    SDK's callbacks and the stop.  Every thread is a program counter of a step relation;
    a step is what a thread does between two points where another can come in: a lock, a
    wait, an SDK call or a callback.  The evaluator's reads of the sampler's stamps are
    one step. *)

From S2P Require Import Prelude.
From S2P Require Import CxxText.
From S2P Require Import DeadTunnel.
From S2P Require Import StopBudget.
From S2P Require Import NetworkNotify.
From S2P Require Import Capture.

(** * The evaluator *)

Record TunnelWatchdogSettings := mkWatchdogSettings {
  sampleIntervalMillis : Z; evaluateIntervalMillis : Z; frozenMillis : Z; freezeNetworkChangeMillis : Z;
  joinBudgetMillis : Z; joinPollMillis : Z;
  deadTunnel : DeadTunnelSettings; capture : CaptureReadinessSettings; networkNotify : NetworkNotifySettings }.

Definition default_watchdog_settings : TunnelWatchdogSettings :=
  mkWatchdogSettings 2000 1000 5000 15000 250 10 default_settings default_capture_settings default_notify_settings.

(** The locals of [RunEvaluator]. *)
Record Evaluator := mkEvaluator {
  traffic : TrafficTracker; sessionStartMillis : Z; trafficStart : Z; lastTickMillis : Z;
  connectionEpoch : ConnectionEpochTracker; outOfBalanceHold : OutOfBalanceHold }.

(** What a tick reads: the clock, the channel, the pump's counters (none in a session
    without a pump), the mirrored state, and the ticket of a watcher of a capture whose
    readiness has one. *)
Record Tick := mkTick {
  tk_now : Z; tk_generation : Z; tk_minSatisfied : bool; tk_balance : BalanceReading; tk_counters : option (Z * Z);
  tk_up : bool; tk_proven : Z; tk_lastProven : Z; tk_lastSample : Z; tk_ticket : option CaptureTicket }.

Inductive TickResult :=
  | Rebased (networkChanged : bool)
  | FreshGrace
  | Offers (ticket : CaptureTicket)
  | Judged (verdict : DeadTunnelVerdict).

Definition traffic_reset (counters : option (Z * Z)) (t : TrafficTracker) : TrafficTracker :=
  match counters with Some (outbound, inbound) => TrafficReset outbound inbound | None => t end.

Definition traffic_observe (counters : option (Z * Z)) (now : Z) (t : TrafficTracker) : TrafficTracker :=
  match counters with Some (outbound, inbound) => TrafficObserve t outbound inbound now | None => t end.

Definition new_evaluator (upSince now generation : Z) (minSatisfied : bool) (counters : option (Z * Z)) : Evaluator :=
  mkEvaluator (traffic_reset counters (mkTracker 0 0 0 (-1))) upSince upSince now
    (EpochObserve new_epoch generation minSatisfied).1 new_hold.

(** Every window starts again, and the generation read at this tick is the baseline. *)
Definition rebase_all (e : Evaluator) (hold : OutOfBalanceHold) (t : Tick) : Evaluator :=
  mkEvaluator (traffic_reset (tk_counters t) (traffic e)) (tk_now t) (tk_now t) (tk_now t)
    (EpochObserve (connectionEpoch e) (tk_generation t) (tk_minSatisfied t)).1 hold.

Definition signals_of (e : Evaluator) (t : Tick) : DeadTunnelSignals :=
  mkSignals (tk_up t) (tk_up t) (sessionStartMillis e) (trafficStart e) (FastVerdictEligible (connectionEpoch e))
    (tk_proven t) (StampInSession (tk_lastProven t) (sessionStartMillis e))
    (StampInSession (tk_lastSample t) (sessionStartMillis e)) (lastInboundMillis_ (traffic e))
    (tracker_outboundSinceInbound (traffic e)) (held_ (outOfBalanceHold e)).

(** The rest of a tick that offers no ticket. *)
Definition judge (s : TunnelWatchdogSettings) (e : Evaluator) (t : Tick) : Evaluator * TickResult :=
  let '(epoch, update) := EpochObserve (connectionEpoch e) (tk_generation t) (tk_minSatisfied t) in
  let start := if verdictClockReset update then tk_now t else sessionStartMillis e in
  let tstart := if trafficClockReset update then tk_now t else trafficStart e in
  let tr := if trafficClockReset update then traffic_reset (tk_counters t) (traffic e) else traffic e in
  let e := mkEvaluator (traffic_observe (tk_counters t) (tk_now t) tr) start tstart (lastTickMillis e) epoch (outOfBalanceHold e) in
  (e, Judged (Evaluate (signals_of e t) (tk_now t) (deadTunnel s))).

Definition eval_tick (s : TunnelWatchdogSettings) (e : Evaluator) (t : Tick) : Evaluator * TickResult :=
  let '(hold, balanceStep) := HoldObserve (outOfBalanceHold e) (tk_balance t) in
  let tickGap := tk_now t - lastTickMillis e in
  let freeze := FreezeResponseFor tickGap (frozenMillis s) (freezeNetworkChangeMillis s) in
  if rebase freeze then (rebase_all e hold t, Rebased (freeze_networkChanged freeze)) else
  match balanceStep with
  | Released => (rebase_all e hold t, FreshGrace)
  | _ =>
      let e := mkEvaluator (traffic e) (sessionStartMillis e) (trafficStart e) (tk_now t) (connectionEpoch e) hold in
      match tk_ticket t with
      | Some ticket => (e, Offers ticket)
      | None => judge s e t
      end
  end.

(** * The watch *)

Inductive SdkCall :=
  | CallNetworkChanged | CallQualityChanged | CallProbeAllExits | CallContractStatus | CallBalanceWindow | CallBefore
  | CallExits | CallAfter.

(** What an SDK call answers; any of them may throw. *)
Inductive SdkAnswer :=
  | Threw
  | Returned
  | Contract (insufficientBalance noPermission : bool)
  | Window (connectionGeneration providerStateAdded : Z)
  | Exits (exits : list CaptureExit).

(** The locals of one pass of [RunSampler]. *)
Record Pass := mkPass {
  notifyDue : bool; qualityNotifyDue : bool; networkEvent : option CaptureNetworkEpoch; proofSince : Z;
  captureSample : CaptureSample; contractStatus : option (bool * bool); balanceWindow : option (Z * Z);
  before : option (Z * Z); proofSampleMillis : Z; proven : Z; usableProven : Z; total : Z }.

Definition new_pass (notify quality : bool) (event : option CaptureNetworkEpoch) : Pass :=
  mkPass notify quality event (-1) (mkSample 0 (-1) 0) None None None 0 0 0 0.

Inductive SamplerAt :=
  | Planning
  | Sleeping (plan : SamplerSleep) (until : Z)
  | Loading (p : Pass)                   (* between the lock and [device.load()] *)
  | Calling (c : SdkCall) (p : Pass)     (* about to make the call *)
  | Inside (c : SdkCall) (p : Pass)
  | SamplerDone.

Inductive Callback := Dead (r : DeadTunnelReason) | ReadyFor (ticket : CaptureTicket).

Inductive EvaluatorAt :=
  | Starting
  | Waits (until : Z)
  | Woken (generation : Z) (minSatisfied : bool) (balance : BalanceReading)
  | Fires (r : DeadTunnelReason)
  | Copied (c : Callback)                (* the handler is copied, the lock released *)
  | EvaluatorDone.

(** What happened, in order. *)
Inductive WatchEvent := Sdk (c : SdkCall) | CalledBack (c : Callback) | CancelledHere.

(** [WatchdogChannel]; a pointer or handler is whether it is there. *)
Record WatchdogChannel := mkChannel {
  cancelled : bool; device : bool; onDead : bool; onReady : bool;
  provenCount_ : Z; exitCount_ : Z; lastSampleMillis_ : Z; lastProvenMillis_ : Z;
  connectionGeneration : Z; providerWindowMinSatisfied : bool; balance : BalanceReading;
  coalescer : NotifyCoalescer; qualityCoalescer : NotifyCoalescer }.

Record Watch := mkWatch {
  now : Z; channel : WatchdogChannel; readiness : option CaptureReadiness; forCapture : bool;
  counters : option (Z * Z); up : bool; upSince : Z;
  sampler : SamplerAt; nextSampleMillis : Z; probedNetworkMillis : Z;
  evaluator : EvaluatorAt; eval : Evaluator; began : Tick;
  happened : list WatchEvent; history : list Tick }.

Section Watch.
Context (s : TunnelWatchdogSettings).

Definition no_balance : BalanceReading := mkBalanceReading false false false 0 0.

(** ** Updates *)

Definition on_channel (f : WatchdogChannel -> WatchdogChannel) (w : Watch) : Watch :=
  mkWatch (now w) (f (channel w)) (readiness w) (forCapture w) (counters w) (up w) (upSince w) (sampler w) (nextSampleMillis w)
    (probedNetworkMillis w) (evaluator w) (eval w) (began w) (happened w) (history w).
Definition on_session (f : CaptureReadiness -> CaptureReadiness) (w : Watch) : Watch :=
  mkWatch (now w) (channel w) (f <$> readiness w) (forCapture w) (counters w) (up w) (upSince w) (sampler w) (nextSampleMillis w)
    (probedNetworkMillis w) (evaluator w) (eval w) (began w) (happened w) (history w).
Definition goes_to (pc : SamplerAt) (w : Watch) : Watch :=
  mkWatch (now w) (channel w) (readiness w) (forCapture w) (counters w) (up w) (upSince w) pc (nextSampleMillis w)
    (probedNetworkMillis w) (evaluator w) (eval w) (began w) (happened w) (history w).
Definition sampling (next probed : Z) (w : Watch) : Watch :=
  mkWatch (now w) (channel w) (readiness w) (forCapture w) (counters w) (up w) (upSince w) (sampler w) next
    probed (evaluator w) (eval w) (began w) (happened w) (history w).
Definition evaluates (pc : EvaluatorAt) (w : Watch) : Watch :=
  mkWatch (now w) (channel w) (readiness w) (forCapture w) (counters w) (up w) (upSince w) (sampler w) (nextSampleMillis w)
    (probedNetworkMillis w) pc (eval w) (began w) (happened w) (history w).
Definition logs (e : WatchEvent) (w : Watch) : Watch :=
  mkWatch (now w) (channel w) (readiness w) (forCapture w) (counters w) (up w) (upSince w) (sampler w) (nextSampleMillis w)
    (probedNetworkMillis w) (evaluator w) (eval w) (began w) (happened w ++ [e]) (history w).

Definition set_coalescers (network quality : NotifyCoalescer) (c : WatchdogChannel) : WatchdogChannel :=
  mkChannel (cancelled c) (device c) (onDead c) (onReady c) (provenCount_ c) (exitCount_ c) (lastSampleMillis_ c)
    (lastProvenMillis_ c) (connectionGeneration c) (providerWindowMinSatisfied c) (balance c) network quality.

(** ** What the others do *)

Definition publishWindowStatus (generation : Z) (minSatisfied : bool) (w : Watch) : Watch :=
  if cancelled (channel w) || (generation <? connectionGeneration (channel w)) then w else
  let w := on_channel (fun c =>
    mkChannel (cancelled c) (device c) (onDead c) (onReady c) (provenCount_ c) (exitCount_ c) (lastSampleMillis_ c)
      (lastProvenMillis_ c) generation minSatisfied (balance c) (coalescer c) (qualityCoalescer c)) w in
  if forCapture w then on_session (fun r => Invalidate r generation) w else w.

(** [NoteNetworkEvent] of this watch's session. *)
Definition NoteNetworkEvent (eventMillis : Z) (w : Watch) : Watch :=
  if cancelled (channel w) then w else
  on_channel (fun c => set_coalescers (CoalescerObserve (coalescer c) eventMillis) (qualityCoalescer c) c) w.

Definition NoteNetworkQualityEvent (w : Watch) : Watch :=
  if cancelled (channel w) then w else
  on_channel (fun c => set_coalescers (coalescer c) (CoalescerObserve (qualityCoalescer c) (now w)) c) w.

(** [Start]: the channel, the window status it publishes itself once it listens, and the
    network change an earlier watch of this session left to tell. *)
Definition Start (t : Z) (session : option CaptureReadiness) (watchesCapture hasDead : bool) (pump : option (Z * Z))
    (isUp : bool) (window : option (Z * bool)) : Watch :=
  let w := mkWatch t
    (mkChannel false true hasDead watchesCapture 0 0 (-1) (-1) 0 true no_balance
       (new_coalescer (networkNotify s)) (new_coalescer (networkNotify s)))
    session watchesCapture pump isUp t Planning t (-1) Starting (new_evaluator t t 0 true pump) (mkTick t 0 true no_balance pump isUp 0 (-1) (-1) None) [] [] in
  let w := match window with Some (generation, minSatisfied) => publishWindowStatus generation minSatisfied w | None => w end in
  match ReplayCaptureNetworkEvent session with Some eventMillis => NoteNetworkEvent eventMillis w | None => w end.

(** [Cancel], and what [Stop] does before it joins, store by store. *)
Definition CancelFlag (w : Watch) : Watch :=
  logs CancelledHere (on_channel (fun c =>
    mkChannel true (device c) (onDead c) (onReady c) (provenCount_ c) (exitCount_ c) (lastSampleMillis_ c)
      (lastProvenMillis_ c) (connectionGeneration c) (providerWindowMinSatisfied c) (balance c) (coalescer c)
      (qualityCoalescer c)) w).
Definition CancelDevice (w : Watch) : Watch :=
  on_channel (fun c =>
    mkChannel (cancelled c) false (onDead c) (onReady c) (provenCount_ c) (exitCount_ c) (lastSampleMillis_ c)
      (lastProvenMillis_ c) (connectionGeneration c) (providerWindowMinSatisfied c) (balance c) (coalescer c)
      (qualityCoalescer c)) w.
Definition CancelHandlers (w : Watch) : Watch :=
  on_channel (fun c =>
    mkChannel (cancelled c) (device c) false false (provenCount_ c) (exitCount_ c) (lastSampleMillis_ c)
      (lastProvenMillis_ c) (connectionGeneration c) (providerWindowMinSatisfied c) (balance c) (coalescer c)
      (qualityCoalescer c)) w.

(** ** The sampler *)

Definition ends_if_cancelled (w : Watch) (k : Watch) : Watch := if cancelled (channel w) then goes_to SamplerDone w else k.

(** The wait at the top of the loop, planned under the lock. *)
Definition sampler_plans (w : Watch) : Watch :=
  let plan := PlanSamplerSleep (now w) (nextSampleMillis w) (coalescer (channel w)) (qualityCoalescer (channel w)) in
  goes_to (Sleeping plan (now w + waitMillis plan)) w.

Definition sampler_may_wake (plan : SamplerSleep) (until : Z) (w : Watch) : bool :=
  cancelled (channel w) || (until <=? now w) || SamplerSleepInterrupted plan (coalescer (channel w)) (qualityCoalescer (channel w)).

(** The rest of the locked block. *)
Definition sampler_wakes (w : Watch) : Watch :=
  ends_if_cancelled w (
  let '(network, due) := TakeDue (coalescer (channel w)) (now w) in
  let '(due, event) := match readiness w with
                       | Some r => if due then match PendingNetworkEvent r with
                                               | Some e => (true, Some e) | None => (false, None) end
                                   else (false, None)
                       | None => (due, None) end in
  let '(quality, qualityDue) := TakeDue (qualityCoalescer (channel w)) (now w) in
  goes_to (Loading (new_pass due qualityDue event)) (on_channel (set_coalescers network quality) w)).

Definition sample_begins (p : Pass) (w : Watch) : Watch :=
  let sample := match readiness w with
                | Some r => if forCapture w then BeginSample r (now w) else mkSample 0 (-1) 0
                | None => mkSample 0 (-1) 0 end in
  goes_to (Calling CallContractStatus
    (mkPass (notifyDue p) (qualityNotifyDue p) (networkEvent p) (proofSince p) sample (contractStatus p) (balanceWindow p) (before p)
       (proofSampleMillis p) (proven p) (usableProven p) (total p))) w.

(** From the deadline of the next sample on. *)
Definition sample_due (p : Pass) (w : Watch) : Watch :=
  if now w <? nextSampleMillis w then goes_to Planning w else
  let w := sampling (now w + sampleIntervalMillis s) (probedNetworkMillis w) w in
  let since := match readiness w with
               | Some r => if forCapture w then proofSinceMillis_ r else -1
               | None => -1 end in
  let p := mkPass (notifyDue p) (qualityNotifyDue p) (networkEvent p) since (captureSample p) (contractStatus p)
    (balanceWindow p) (before p) (proofSampleMillis p) (proven p) (usableProven p) (total p) in
  if forCapture w && (0 <=? since) && negb (since =? probedNetworkMillis w) &&
     (probeAgeResolutionMillis (capture s) <=? now w - since)
  then goes_to (Calling CallProbeAllExits p) w else sample_begins p w.

Definition quality_or_sample (p : Pass) (w : Watch) : Watch :=
  if qualityNotifyDue p && negb (notifyDue p) then goes_to (Calling CallQualityChanged p) w else sample_due p w.

(** [channel->device.load()] and what follows it. *)
Definition sampler_loads (p : Pass) (w : Watch) : Watch :=
  if negb (device (channel w)) then goes_to SamplerDone w else
  if notifyDue p then goes_to (Calling CallNetworkChanged p) w else quality_or_sample p w.

(** The check after a call that a stop may have been waiting for. *)
Definition reloads (w : Watch) (k : Watch) : Watch :=
  ends_if_cancelled w (if negb (device (channel w)) then goes_to SamplerDone w else k).

Definition publishes_sample (p : Pass) (w : Watch) : Watch :=
  let c := channel w in
  let balance := match contractStatus p, balanceWindow p with
                 | Some (insufficient, refused), Some (generation, added) =>
                     mkBalanceReading true insufficient refused generation added
                 | _, _ => balance c end in
  goes_to Planning (on_channel (fun c =>
    mkChannel (cancelled c) (device c) (onDead c) (onReady c) (proven p) (total p) (now w)
      (if 1 <=? proven p then now w else lastProvenMillis_ c) (connectionGeneration c) (providerWindowMinSatisfied c) balance
      (coalescer c) (qualityCoalescer c)) w).

Definition window_of (a : SdkAnswer) : option (Z * Z) := match a with Window g n => Some (g, n) | _ => None end.

(** A call returns or throws. *)
Definition sampler_returns (c : SdkCall) (p : Pass) (a : SdkAnswer) (w : Watch) : Watch :=
  match c with
  | CallNetworkChanged =>
      let w := match a, networkEvent p with
               | Threw, _ => w
               | _, Some e => on_session (fun r => NetworkEventHandled r e) w
               | _, None => w end in
      reloads w (quality_or_sample p w)
  | CallQualityChanged => reloads w (sample_due p w)
  | CallProbeAllExits =>
      let w := match a with Threw => w | _ => sampling (nextSampleMillis w) (proofSince p) w end in
      ends_if_cancelled w (sample_begins p w)
  | CallContractStatus =>
      let p := mkPass (notifyDue p) (qualityNotifyDue p) (networkEvent p) (proofSince p) (captureSample p)
        (match a with Contract i n => Some (i, n) | _ => None end) (balanceWindow p) (before p) (proofSampleMillis p) (proven p)
        (usableProven p) (total p) in
      ends_if_cancelled w (goes_to (Calling CallBalanceWindow p) w)
  | CallBalanceWindow =>
      let p := mkPass (notifyDue p) (qualityNotifyDue p) (networkEvent p) (proofSince p) (captureSample p) (contractStatus p) (window_of a)
        (before p) (now w) (proven p) (usableProven p) (total p) in
      ends_if_cancelled w (goes_to (Calling (if forCapture w then CallBefore else CallExits) p) w)
  | CallBefore =>
      let p := mkPass (notifyDue p) (qualityNotifyDue p) (networkEvent p) (proofSince p) (captureSample p) (contractStatus p) (balanceWindow p)
        (window_of a) (now w) (proven p) (usableProven p) (total p) in
      ends_if_cancelled w (goes_to (Calling CallExits p) w)
  | CallExits =>
      let exits := match a with Exits l => l | _ => [] end in
      let p := mkPass (notifyDue p) (qualityNotifyDue p) (networkEvent p) (proofSince p) (captureSample p) (contractStatus p) (balanceWindow p)
        (before p) (proofSampleMillis p) (Z.of_nat (length (List.filter exit_proven exits)))
        (Z.of_nat (length (List.filter (fun e =>
           CaptureExitIsUsable e (proofSampleMillis p) (s_proofSinceMillis (captureSample p)) (capture s)) exits)))
        (Z.of_nat (length exits)) in
      ends_if_cancelled w (if forCapture w then goes_to (Calling CallAfter p) w else publishes_sample p w)
  | CallAfter =>
      ends_if_cancelled w (
      let none := mkWindow 0 0 in
      let w := on_session (fun r =>
        match before p, window_of a with
        | Some b, Some x => CompleteSample r (now w) (captureSample p) (mkWindow b.1 b.2) (mkWindow x.1 x.2) (usableProven p)
        | _, _ => CompleteSample r (now w) (captureSample p) none none 0 end) w in
      publishes_sample p w)
  end.

(** ** The evaluator's thread *)

(** What it reads before its first wait, as a tick. *)
Definition first_reading (w : Watch) : Tick :=
  let c := channel w in
  mkTick (now w) (connectionGeneration c) (providerWindowMinSatisfied c) no_balance (counters w) (up w) (provenCount_ c)
    (lastProvenMillis_ c) (lastSampleMillis_ c) None.

Definition evaluator_starts (w : Watch) : Watch :=
  let c := channel w in
  mkWatch (now w) c (readiness w) (forCapture w) (counters w) (up w) (upSince w) (sampler w) (nextSampleMillis w)
    (probedNetworkMillis w) (Waits (now w + evaluateIntervalMillis s))
    (new_evaluator (upSince w) (now w) (connectionGeneration c) (providerWindowMinSatisfied c) (counters w)) (first_reading w)
    (happened w) (history w).

(** The end of its wait, under the lock. *)
Definition evaluator_wakes (w : Watch) : Watch :=
  let c := channel w in
  if cancelled c then evaluates EvaluatorDone w
  else evaluates (Woken (connectionGeneration c) (providerWindowMinSatisfied c) (balance c)) w.

Definition tick_of (generation : Z) (minSatisfied : bool) (b : BalanceReading) (w : Watch) : Tick :=
  let c := channel w in
  mkTick (now w) generation minSatisfied b (counters w) (up w) (provenCount_ c) (lastProvenMillis_ c) (lastSampleMillis_ c)
    (if forCapture w && onReady c && negb (cancelled c)
     then match readiness w with Some r => Ready r (now w) | None => None end else None).

Definition ticked (e : Evaluator) (t : Tick) (w : Watch) : Watch :=
  mkWatch (now w) (channel w) (readiness w) (forCapture w) (counters w) (up w) (upSince w) (sampler w) (nextSampleMillis w)
    (probedNetworkMillis w) (evaluator w) e (began w) (happened w) (history w ++ [t]).

(** A tick, to the next wait or to a callback. *)
Definition evaluator_ticks (generation : Z) (minSatisfied : bool) (b : BalanceReading) (w : Watch) : Watch :=
  if cancelled (channel w) then evaluates EvaluatorDone w else
  let t := tick_of generation minSatisfied b w in
  let '(e, result) := eval_tick s (eval w) t in
  let w := ticked e t w in
  let waits w := evaluates (Waits (now w + evaluateIntervalMillis s)) w in
  match result with
  | Rebased networkChanged =>
      if networkChanged && bool_decide (readiness w <> None) then
        waits (on_channel (fun c => set_coalescers (CoalescerObserve (coalescer c) (now w)) (qualityCoalescer c) c)
                 (on_session (fun r => Capture.NetworkChanged r (now w)) w))
      else if forCapture w then waits (on_session (fun r => ProofBarrier r (now w)) w)
      else waits w
  | FreshGrace => waits w
  | Offers ticket => evaluates (Copied (ReadyFor ticket)) w
  | Judged v => if bool_decide (reason v = ReasonNone) then waits w else evaluates (Fires (reason v)) w
  end.

(** [Fire] copies the handler under the lock. *)
Definition evaluator_copies (r : DeadTunnelReason) (w : Watch) : Watch :=
  if onDead (channel w) then evaluates (Copied (Dead r)) w else evaluates EvaluatorDone w.

(** The callback is the last thing it does. *)
Definition evaluator_calls (c : Callback) (w : Watch) : Watch := evaluates EvaluatorDone (logs (CalledBack c) w).

(** ** Steps *)

Definition at_time (t : Z) (w : Watch) : Watch :=
  mkWatch t (channel w) (readiness w) (forCapture w) (counters w) (up w) (upSince w) (sampler w) (nextSampleMillis w)
    (probedNetworkMillis w) (evaluator w) (eval w) (began w) (happened w) (history w).
Definition carried (pump : option (Z * Z)) (isUp : bool) (w : Watch) : Watch :=
  mkWatch (now w) (channel w) (readiness w) (forCapture w) pump isUp (upSince w) (sampler w) (nextSampleMillis w)
    (probedNetworkMillis w) (evaluator w) (eval w) (began w) (happened w) (history w).

Inductive watch_step : Watch -> Watch -> Prop :=
  | step_clock w t : now w <= t -> watch_step w (at_time t w)
  | step_outside w pump isUp :
      (counters w = None <-> pump = None) -> watch_step w (carried pump isUp w)
  | step_window w generation minSatisfied : watch_step w (publishWindowStatus generation minSatisfied w)
  | step_network w eventMillis : watch_step w (NoteNetworkEvent eventMillis w)
  | step_quality w : watch_step w (NoteNetworkQualityEvent w)
  | step_session w op : watch_step w (on_session (fun r => run_op r op) w)
  | step_cancel_flag w : watch_step w (CancelFlag w)
  | step_cancel_device w : cancelled (channel w) = true -> watch_step w (CancelDevice w)
  | step_cancel_handlers w : cancelled (channel w) = true -> watch_step w (CancelHandlers w)
  | step_plan w : sampler w = Planning -> watch_step w (sampler_plans w)
  | step_wake w plan until :
      sampler w = Sleeping plan until -> sampler_may_wake plan until w = true -> watch_step w (sampler_wakes w)
  | step_load w p : sampler w = Loading p -> watch_step w (sampler_loads p w)
  | step_call w c p : sampler w = Calling c p -> watch_step w (logs (Sdk c) (goes_to (Inside c p) w))
  | step_return w c p a : sampler w = Inside c p -> watch_step w (sampler_returns c p a w)
  | step_begin w : evaluator w = Starting -> watch_step w (evaluator_starts w)
  | step_awake w until :
      evaluator w = Waits until -> cancelled (channel w) = true \/ until <= now w -> watch_step w (evaluator_wakes w)
  | step_tick w g m b : evaluator w = Woken g m b -> watch_step w (evaluator_ticks g m b w)
  | step_copy w r : evaluator w = Fires r -> watch_step w (evaluator_copies r w)
  | step_callback w c : evaluator w = Copied c -> watch_step w (evaluator_calls c w).

(** ** The joins of [Stop] *)

(** [JoinWithin]: rounds of [joinPollMillis], each at a reading of the clock; [done] is
    read at the head of every round and once more at the end. *)
Fixpoint JoinWithin (deadline : Z) (rounds : list (Z * bool)) (last : bool) : option bool :=
  match rounds with
  | [] => None
  | (t, finished) :: rounds =>
      if finished then Some true else if deadline <=? t then Some last else JoinWithin deadline rounds last
  end.

(** What becomes of the two threads: whether each was joined, and the process's flags. *)
Definition stop_joins (onEvaluator evaluatorDone samplerDone : bool) (b : Budget) : bool * bool * Budget :=
  (negb onEvaluator && evaluatorDone, samplerDone, if samplerDone then b else NoteTeardownAbandoned b).
End Watch.

(** * What a stretch of ticks says *)

(** The clock at the end of a list of ticks that began at [d]. *)
Definition end_of (d : Z) (l : list Tick) : Z := match last l with Some t => tk_now t | None => d end.

Lemma end_of_snoc d l t : end_of d (l ++ [t]) = tk_now t.
Proof. unfold end_of. by rewrite last_snoc. Qed.

(** The evaluator ran throughout: no two ticks in a row are a freeze apart. *)
Fixpoint awake (frozen last : Z) (l : list Tick) : Prop :=
  match l with
  | [] => True
  | t :: l => tk_now t - last < frozen /\ awake frozen (tk_now t) l
  end.

Lemma awake_snoc frozen last l t :
  awake frozen last (l ++ [t]) <-> awake frozen last l /\ tk_now t - end_of last l < frozen.
Proof.
  revert last. induction l as [|x l IH]; intros last; cbn.
  - unfold end_of. cbn. tauto.
  - rewrite IH. unfold end_of. destruct l as [|y l]; cbn; [tauto|].
    change (list.last (x :: y :: l)) with (list.last (y :: l)). destruct (list.last (y :: l)) eqn:E; [tauto|].
    apply last_None in E. done.
Qed.

Definition inbound_of (t : Tick) : Z := match tk_counters t with Some (_, i) => i | None => 0 end.

(** The counters go on at a tick that comes after the readings [l]: it is no freeze, no
    account is released at it, and the destination's epoch does not restart them. *)
Definition epoch_of (t : Tick) : Z * bool := (tk_generation t, tk_minSatisfied t).
Definition counters_go_on (s : TunnelWatchdogSettings) (l : list Tick) (t : Tick) : Prop :=
  tk_now t - end_of 0 l < frozenMillis s /\
  (HoldObserve (observe_all new_hold (map tk_balance l)) (tk_balance t)).2 <> Released /\
  trafficClockReset (EpochObserve (epoch_all new_epoch (map epoch_of l)) (tk_generation t) (tk_minSatisfied t)).2 = false.

(** The last packet that came in: the reading [x] is above each one before it, none after it
    is above [x], and the counters go on from it to the end. *)
Definition last_packet (s : TunnelWatchdogSettings) (l : list Tick) (x : Tick) : Prop :=
  exists k0 k1, l = k0 ++ x :: k1 /\ k0 <> [] /\ Forall (fun y => inbound_of y < inbound_of x) k0 /\
    Forall (fun y => inbound_of y <= inbound_of x) k1 /\
    forall k y k', x :: k1 = k ++ y :: k' -> counters_go_on s (k0 ++ k) y.

(** ** The evaluator's clocks *)

Section Clocks.
Context (s : TunnelWatchdogSettings) (up0 : Z) (b : Tick) (pumped : bool).

(** Whether the session has a pump, and with it counters. *)
Definition reads_pump (t : Tick) : Prop := tk_counters t <> None <-> pumped = true.

(** Where the windows of a state begin in its history: at a tick or at the start, with
    the evaluator awake ever since; the epoch and the hold are what its readings from the
    first on make of them; and the tracker's stamp is the last packet's. *)
Record clocks (e : Evaluator) (h : list Tick) : Prop := {
  ck_session : exists h0 h1, h = h0 ++ h1 /\ sessionStartMillis e = end_of up0 h0 /\ awake (frozenMillis s) (end_of (tk_now b) h0) h1;
  ck_epoch : connectionEpoch e = epoch_all new_epoch (map epoch_of (b :: h));
  ck_hold : outOfBalanceHold e = observe_all new_hold (map tk_balance (b :: h));
  ck_tick : lastTickMillis e = end_of 0 (b :: h);
  ck_pump : Forall reads_pump (b :: h);
  ck_read : lastInbound_ (traffic e) ∈ map inbound_of (b :: h);
  ck_packet : forall x, last_packet s (b :: h) x ->
    lastInbound_ (traffic e) = inbound_of x /\ lastInboundMillis_ (traffic e) = tk_now x }.

Lemma end_of_start d l : end_of d (b :: l) = end_of (tk_now b) l.
Proof.
  unfold end_of. destruct l as [|x l]; [done|]. change (list.last (b :: x :: l)) with (list.last (x :: l)).
  destruct (list.last (x :: l)) eqn:E; [done|]. by apply last_None in E.
Qed.

Lemma new_evaluator_clocks :
  reads_pump b -> tk_balance b = no_balance ->
  clocks (new_evaluator up0 (tk_now b) (tk_generation b) (tk_minSatisfied b) (tk_counters b)) [].
Proof.
  intros Hp Hb. split; cbn; [by exists [], []|done|by rewrite Hb|done|by apply Forall_singleton| |].
  - unfold inbound_of. destruct (tk_counters b) as [[o i]|]; apply list_elem_of_singleton; done.
  - intros x (k0 & k1 & E & Hk & _). destruct k0 as [|y [|y' k0]]; [done|..]; discriminate E.
Qed.

Lemma traffic_observe_inbound c n t :
  lastInbound_ (traffic_observe c n t) = match c with Some (_, i) => if lastInbound_ t <? i then i else lastInbound_ t | None => lastInbound_ t end /\
  lastInboundMillis_ (traffic_observe c n t) =
    match c with Some (_, i) => if lastInbound_ t <? i then n else lastInboundMillis_ t | None => lastInboundMillis_ t end.
Proof.
  destruct c as [[o i]|]; [|done]. cbn. unfold TrafficObserve.
  destruct (lastInbound_ t <? i); cbn; destruct (_ <? o); done.
Qed.

Lemma same_pump t t' : reads_pump t -> reads_pump t' -> tk_counters t = None -> tk_counters t' = None.
Proof.
  unfold reads_pump. intros H H' E. destruct (tk_counters t') eqn:E'; [|done]. exfalso.
  assert (tk_counters t <> None) as Hn; [|done]. apply H, H'. congruence.
Qed.

Lemma without_pump t l : reads_pump t -> Forall reads_pump l -> tk_counters t = None -> Forall (fun y => inbound_of y = 0) l.
Proof. intros Ht Hl E. eapply Forall_impl; [exact Hl|]. intros y Hy. unfold inbound_of. by rewrite (same_pump t y). Qed.

Lemma read_zero e h : clocks e h -> Forall (fun y => inbound_of y = 0) (b :: h) -> lastInbound_ (traffic e) = 0.
Proof.
  intros C Hz. pose proof (ck_read _ _ C) as Hin. apply list_elem_of_In, in_map_iff in Hin as (y & <- & Hy).
  rewrite Forall_forall in Hz. apply Hz. by apply list_elem_of_In.
Qed.

(** The tracker after a reset at a tick. *)
Lemma reset_read e h t :
  reads_pump t -> clocks e h -> lastInbound_ (traffic_reset (tk_counters t) (traffic e)) = inbound_of t.
Proof.
  intros Hr C. unfold inbound_of. destruct (tk_counters t) as [[o i]|] eqn:E; [done|].
  eapply read_zero; [done|]. by eapply without_pump; [|apply C|].
Qed.

(** A last packet of a history with one more tick. *)
Lemma last_packet_snoc h t x :
  last_packet s (b :: h ++ [t]) x ->
  counters_go_on s (b :: h) t /\
  ((x = t /\ Forall (fun y => inbound_of y < inbound_of t) (b :: h)) \/ (last_packet s (b :: h) x /\ inbound_of t <= inbound_of x)).
Proof.
  intros (k0 & k1 & E & Hk & H0 & H1 & Hg). destruct k1 as [|z k1 _] using rev_ind.
  - rewrite app_comm_cons in E. apply app_inj_tail in E as [<- <-]. split; [|by left].
    specialize (Hg [] t [] eq_refl). by rewrite app_nil_r in Hg.
  - replace (k0 ++ x :: k1 ++ [z]) with ((k0 ++ x :: k1) ++ [z]) in E by (by rewrite <- app_assoc).
    rewrite app_comm_cons in E. apply app_inj_tail in E as [E <-].
    apply Forall_app in H1 as [H1 Hz]. apply Forall_cons in Hz as [Hz _]. rewrite E. split; [by apply (Hg (x :: k1) t [])|]. right.
    split; [|done]. exists k0, k1. split_and!; try done. intros k y k' Ek. apply (Hg k y (k' ++ [t])).
    rewrite (app_comm_cons k1), Ek, <- app_assoc. done.
Qed.

Lemma epoch_all_snoc e l o : epoch_all e (l ++ [o]) = (EpochObserve (epoch_all e l) o.1 o.2).1.
Proof. unfold epoch_all. by rewrite foldl_app. Qed.
Lemma observe_all_snoc h l r : observe_all h (l ++ [r]) = (HoldObserve (observe_all h l) r).1.
Proof. unfold observe_all. by rewrite foldl_app. Qed.

Lemma map_snoc {A B} (f : A -> B) l x y : map f (x :: l ++ [y]) = map f (x :: l) ++ [f y].
Proof. cbn. by rewrite map_app. Qed.

(** A tick at which every window starts again. *)
Lemma rebase_clocks e h t :
  let hold := (HoldObserve (outOfBalanceHold e) (tk_balance t)).1 in
  reads_pump t -> clocks e h -> ~ counters_go_on s (b :: h) t -> clocks (rebase_all e hold t) (h ++ [t]).
Proof.
  intros hold Hr C Hn. split; cbn [rebase_all sessionStartMillis connectionEpoch outOfBalanceHold lastTickMillis traffic].
  - exists (h ++ [t]), []. by rewrite app_nil_r, end_of_snoc.
  - by rewrite map_snoc, epoch_all_snoc, (ck_epoch _ _ C).
  - subst hold. by rewrite map_snoc, observe_all_snoc, (ck_hold _ _ C).
  - by rewrite app_comm_cons, end_of_snoc.
  - rewrite app_comm_cons. apply Forall_app. split; [apply C|by constructor].
  - rewrite (reset_read e h t Hr C), map_snoc. apply elem_of_app. right. by left.
  - intros x [Hg _]%last_packet_snoc. done.
Qed.

(** The tracker after a tick that counts on. *)
Lemma observed e h t :
  reads_pump t -> clocks e h ->
  lastInbound_ (traffic_observe (tk_counters t) (tk_now t) (traffic e)) =
    (if lastInbound_ (traffic e) <? inbound_of t then inbound_of t else lastInbound_ (traffic e)) /\
  (lastInboundMillis_ (traffic_observe (tk_counters t) (tk_now t) (traffic e)) =
    if lastInbound_ (traffic e) <? inbound_of t then tk_now t else lastInboundMillis_ (traffic e)).
Proof.
  intros Hr C. destruct (traffic_observe_inbound (tk_counters t) (tk_now t) (traffic e)) as [-> ->]. unfold inbound_of.
  destruct (tk_counters t) as [[o i]|] eqn:E; [done|]. rewrite (read_zero e h C); [done|]. by eapply without_pump; [|apply C|].
Qed.

Lemma read_below e h t : clocks e h -> Forall (fun y => inbound_of y < inbound_of t) (b :: h) -> lastInbound_ (traffic e) < inbound_of t.
Proof.
  intros C Hb. pose proof (ck_read _ _ C) as Hin. apply list_elem_of_In, in_map_iff in Hin as (y & <- & Hy).
  rewrite Forall_forall in Hb. apply Hb. by apply list_elem_of_In.
Qed.

(** A tick that is neither a freeze nor a release. *)
Lemma judge_clocks e h t :
  reads_pump t -> clocks e h -> tk_now t - lastTickMillis e < frozenMillis s ->
  let hold := (HoldObserve (outOfBalanceHold e) (tk_balance t)).1 in
  clocks (judge s (mkEvaluator (traffic e) (sessionStartMillis e) (trafficStart e) (tk_now t) (connectionEpoch e) hold) t).1
    (h ++ [t]).
Proof.
  intros Hr C Hg hold. unfold judge. cbn [connectionEpoch].
  destruct (EpochObserve (connectionEpoch e) (tk_generation t) (tk_minSatisfied t)) as [epoch [vr tr]] eqn:Ee.
  split; cbn [fst sessionStartMillis connectionEpoch outOfBalanceHold lastTickMillis traffic verdictClockReset trafficClockReset].
  - destruct vr; [exists (h ++ [t]), []; by rewrite app_nil_r, end_of_snoc|].
    destruct (ck_session _ _ C) as (h0 & h1 & -> & Es & Ha). exists h0, (h1 ++ [t]). rewrite app_assoc. split_and!; [done|done|].
    rewrite awake_snoc. split; [done|]. rewrite (ck_tick _ _ C), end_of_start in Hg. unfold end_of in *. rewrite last_app in Hg.
    by destruct (list.last h1).
  - rewrite map_snoc, epoch_all_snoc, <- (ck_epoch _ _ C). cbn. by rewrite Ee.
  - subst hold. by rewrite map_snoc, observe_all_snoc, (ck_hold _ _ C).
  - by rewrite app_comm_cons, end_of_snoc.
  - rewrite app_comm_cons. apply Forall_app. split; [apply C|by constructor].
  - rewrite map_snoc. apply elem_of_app. destruct tr.
    + right. destruct (traffic_observe_inbound (tk_counters t) (tk_now t) (traffic_reset (tk_counters t) (traffic e))) as [-> _].
      rewrite (reset_read e h t Hr C). unfold inbound_of. destruct (tk_counters t) as [[o i]|]; rewrite ?Z.ltb_irrefl; by left.
    + destruct (observed e h t Hr C) as [-> _]. destruct (_ <? _); [right; by left|left; apply C].
  - intros x ((_ & _ & Htr) & Hx)%last_packet_snoc. rewrite <- (ck_epoch _ _ C), Ee in Htr. cbn in Htr. subst tr.
    destruct (observed e h t Hr C) as [-> ->]. destruct Hx as [[-> Hb]|[Hx Hle]].
    + by rewrite (proj2 (Z.ltb_lt _ _) (read_below e h t C Hb)).
    + destruct (ck_packet _ _ C x Hx) as [-> ->]. by rewrite (proj2 (Z.ltb_ge _ _) Hle).
Qed.

Lemma eval_tick_clocks e h t e' r :
  reads_pump t -> clocks e h -> eval_tick s e t = (e', r) ->
  match r with Offers _ => True | _ => clocks e' (h ++ [t]) end.
Proof.
  intros Hr C. unfold eval_tick. pose proof (rebase_clocks e h t Hr C) as HR. pose proof (judge_clocks e h t Hr C) as HJ. cbv zeta in HR, HJ.
  destruct (HoldObserve (outOfBalanceHold e) (tk_balance t)) as [hold step] eqn:Eh. cbn [fst] in HR, HJ.
  destruct (rebase (FreezeResponseFor _ _ _)) eqn:Ef; cbn in Ef; [apply Z.leb_le in Ef|apply Z.leb_gt in Ef].
  { intros [= <- <-]. apply HR. intros [Hg _]. rewrite (ck_tick _ _ C) in Ef. lia. }
  specialize (HJ Ef). destruct step.
  3: { intros [= <- <-]. apply HR. intros (_ & Hb & _). rewrite <- (ck_hold _ _ C), Eh in Hb. done. }
  all: destruct (tk_ticket t); [by intros [= <- <-]|]; destruct (judge s _ t) as [e1 r1] eqn:Ej; intros [= <- <-]; cbn [fst] in HJ;
    unfold judge in Ej; destruct (EpochObserve _ _ _) as [epoch update]; injection Ej as <- <-; exact HJ.
Qed.

(** ** What a stop was seen through *)

Definition window_for (r : DeadTunnelReason) : Z :=
  match r with
  | ReasonNone => 0
  | NoExit => deadSlowMillis (deadTunnel s)
  | NoInbound => deadFastMillis (deadTunnel s)
  | SdkUnresponsive => sdkUnresponsiveMillis (deadTunnel s)
  end.

(** A whole window, with the evaluator awake all through it, that ends at a tick of a
    tunnel that is up, with no exit proven unless the SDK is silent; and whichever reading
    is the last packet that came in, it is as old as the fast window. *)
Definition stop_evidence (r : DeadTunnelReason) (h : list Tick) : Prop :=
  exists h0 h1 t,
    h = h0 ++ h1 /\ awake (frozenMillis s) (end_of (tk_now b) h0) h1 /\ last h = Some t /\ tk_up t = true /\
    window_for r <= tk_now t - end_of up0 h0 /\
    (r <> SdkUnresponsive -> tk_proven t = 0) /\
    forall x, last_packet s (b :: h) x -> 0 <= tk_now x -> deadFastMillis (deadTunnel s) <= tk_now t - tk_now x.

Lemma StampInSession_age stamp start n :
  AgeSince (StampInSession stamp start) start n <= n - start.
Proof. unfold AgeSince, StampInSession. destruct (start <=? stamp) eqn:E; bool_hyps; cases_if; bool_hyps; lia. Qed.

Lemma eval_tick_stops e h t e' v :
  reads_pump t -> clocks e h -> eval_tick s e t = (e', Judged v) -> reason v <> ReasonNone -> stop_evidence (reason v) (h ++ [t]).
Proof.
  intros Hr C E Hv. pose proof (eval_tick_clocks _ _ _ _ _ Hr C E) as [(h0 & h1 & Eh & Es & Ha) _ _ _ _ _ Hpk].
  assert (v = Evaluate (signals_of e' t) (tk_now t) (deadTunnel s)) as ->.
  { clear -E. unfold eval_tick in E. destruct (HoldObserve _ _) as [hold step]. destruct (rebase _); [done|].
    destruct step; [..|done]; (destruct (tk_ticket t); [done|]); unfold judge in E;
      destruct (EpochObserve _ _ _) as [epoch update]; by injection E as <- <-. }
  set (sig := signals_of e' t) in *. remember (reason (Evaluate sig (tk_now t) (deadTunnel s))) as r eqn:Er. symmetry in Er.
  apply Evaluate_reason in Er; [|done]. destruct Er as ((Hu & _ & _) & Hc & H).
  exists h0, h1, t. rewrite last_snoc. split_and!; try done.
  - rewrite <- Es. destruct r; [done|..]; cbn; unfold proven_age, sample_age in H; cbn in H;
      pose proof (StampInSession_age (tk_lastProven t) (sessionStartMillis e') (tk_now t));
      pose proof (StampInSession_age (tk_lastSample t) (sessionStartMillis e') (tk_now t)); naive_solver lia.
  - intros Hn. destruct r; [done|..]; unfold fast_applies, slow_applies in H; cbn in H; naive_solver.
  - intros x [_ Hx]%Hpk Hpos. unfold carrying in Hc. cbn in Hc. rewrite Hx in Hc. lia.
Qed.
End Clocks.

(** * Runs of a watch *)

Definition is_sdk (e : WatchEvent) : bool := match e with Sdk _ => true | _ => false end.
Definition is_callback (e : WatchEvent) : bool := match e with CalledBack _ => true | _ => false end.
Definition how_many (f : WatchEvent -> bool) (l : list WatchEvent) : nat := length (List.filter f l).

Lemma how_many_snoc f l e : how_many f (l ++ [e]) = (how_many f l + Nat.b2n (f e))%nat.
Proof. unfold how_many. rewrite List.filter_app, length_app. cbn. by destruct (f e). Qed.

Lemma how_many_none f l e : how_many f l = 0%nat -> f e = true -> e ∉ l.
Proof.
  intros H E Hin. apply list_elem_of_In in Hin. assert (In e (List.filter f l)) as Hf by (by apply filter_In).
  unfold how_many in H. by destruct (List.filter f l).
Qed.

(** What happened since the first cancellation. *)
Fixpoint since_cancel (l : list WatchEvent) : list WatchEvent :=
  match l with
  | [] => []
  | CancelledHere :: l => l
  | _ :: l => since_cancel l
  end.

Lemma since_cancel_none l : CancelledHere ∉ l -> since_cancel l = [].
Proof. induction l as [|x l IH]; [done|]. rewrite not_elem_of_cons. destruct x; naive_solver. Qed.

Lemma calls_since_snoc l e :
  (how_many is_sdk (since_cancel (l ++ [e])) <= how_many is_sdk (since_cancel l) + Nat.b2n (is_sdk e))%nat.
Proof.
  induction l as [|x l IH]; [destruct e; cbn; lia|]. destruct x; [done|done|].
  change (how_many is_sdk (l ++ [e]) <= how_many is_sdk l + Nat.b2n (is_sdk e))%nat. by rewrite how_many_snoc.
Qed.

Section Runs.
Context (s : TunnelWatchdogSettings).

(** The calls a sampler may have made after a cancellation. *)
Definition spent (pc : SamplerAt) : nat := match pc with Inside _ _ | SamplerDone => 1 | _ => 0 end.

Definition callback_reason (w : Watch) (c : Callback) : Prop :=
  match c with
  | Dead r => stop_evidence s (upSince w) (began w) r (history w)
  | ReadyFor ticket => exists t, last (history w) = Some t /\ tk_ticket t = Some ticket
  end.

Record watch_inv (pumped : bool) (w : Watch) : Prop := {
  wi_mark : cancelled (channel w) = true <-> CancelledHere ∈ happened w;
  wi_calls : (how_many is_sdk (since_cancel (happened w)) <= spent (sampler w))%nat;
  wi_callbacks : (how_many is_callback (happened w) <= match evaluator w with EvaluatorDone => 1 | _ => 0 end)%nat;
  wi_pump : counters w <> None <-> pumped = true;
  wi_eval : match evaluator w with
            | Starting => history w = []
            | Waits _ | Woken _ _ _ => clocks s (upSince w) (began w) pumped (eval w) (history w)
            | Fires r => stop_evidence s (upSince w) (began w) r (history w)
            | Copied c => callback_reason w c
            | EvaluatorDone => True
            end;
  wi_called : forall c, CalledBack c ∈ happened w -> callback_reason w c }.

(** All of a watch the invariant reads but the sampler's program counter. *)
Definition control (w : Watch) :=
  (cancelled (channel w), bool_decide (counters w = None), happened w, (evaluator w, eval w, history w), (upSince w, began w)).

Lemma inv_frame pumped w w' :
  control w' = control w -> (how_many is_sdk (since_cancel (happened w)) <= spent (sampler w'))%nat ->
  watch_inv pumped w -> watch_inv pumped w'.
Proof.
  unfold control. intros [= Ec Ep Eh Ee Ev Ehi Eu Eb] Hs [Hm _ Hcb Hp He Hd].
  split; unfold callback_reason in *; rewrite ?Ec, ?Eh, ?Ee, ?Ev, ?Ehi, ?Eu, ?Eb; try done.
  rewrite <- Hp. clear -Ep. do 2 case_bool_decide; naive_solver.
Qed.

Lemma inv_calls pumped w : watch_inv pumped w -> cancelled (channel w) = false -> how_many is_sdk (since_cancel (happened w)) = 0%nat.
Proof.
  intros [Hm _ _ _ _ _] E. rewrite since_cancel_none; [done|]. rewrite <- Hm. congruence.
Qed.

(** ** The sampler's steps *)

Lemma sampler_wakes_frame w : control (sampler_wakes w) = control w.
Proof.
  unfold sampler_wakes, ends_if_cancelled. destruct (cancelled _); [done|].
  destruct (TakeDue (coalescer (channel w)) (now w)) as [n due].
  destruct (readiness w) as [r|]; [destruct due; [destruct (PendingNetworkEvent r)|]|];
    destruct (TakeDue (qualityCoalescer (channel w)) (now w)); done.
Qed.

Lemma sample_due_frame p w : control (sample_due s p w) = control w.
Proof. unfold sample_due. repeat case_match; done. Qed.

Lemma quality_or_sample_frame p w : control (quality_or_sample s p w) = control w.
Proof. unfold quality_or_sample. destruct (_ && _); [done|apply sample_due_frame]. Qed.

Lemma sampler_loads_frame p w : control (sampler_loads s p w) = control w.
Proof. unfold sampler_loads. destruct (negb _); [done|]. destruct (notifyDue p); [done|apply quality_or_sample_frame]. Qed.

(** A call that returns after a cancellation is the sampler's last. *)
Lemma sampler_returns_frame c p a w :
  control (sampler_returns s c p a w) = control w /\
  (cancelled (channel w) = true -> sampler (sampler_returns s c p a w) = SamplerDone).
Proof.
  assert (forall w' k, control w' = control w -> control k = control w -> control (ends_if_cancelled w' k) = control w /\
    (cancelled (channel w) = true -> sampler (ends_if_cancelled w' k) = SamplerDone)) as HE.
  { intros w' k Ew Ek. unfold ends_if_cancelled. assert (cancelled (channel w') = cancelled (channel w)) as -> by (unfold control in Ew; congruence).
    destruct (cancelled (channel w)); [|done]. split; [|done]. unfold control in *. cbn. congruence. }
  assert (forall w' k, control w' = control w -> control k = control w -> control (reloads w' k) = control w /\
    (cancelled (channel w) = true -> sampler (reloads w' k) = SamplerDone)) as HR.
  { intros w' k Ew Ek. unfold reloads. apply HE; [done|]. by destruct (negb _). }
  destruct c; cbn [sampler_returns].
  - destruct a, (networkEvent p); apply HR; try done; by rewrite quality_or_sample_frame.
  - apply HR; [done|apply sample_due_frame].
  - destruct a; apply HE; try done; unfold sample_begins; by repeat case_match.
  - by apply HE.
  - by apply HE.
  - by apply HE.
  - apply HE; [done|]. by destruct (forCapture w).
  - apply HE; done.
Qed.

(** ** The evaluator's steps *)

Lemma no_callback pumped w c : watch_inv pumped w -> evaluator w <> EvaluatorDone -> CalledBack c ∉ happened w.
Proof.
  intros [_ _ Hcb _ _ _] Hn. apply (how_many_none is_callback); [|done]. destruct (evaluator w); try done; lia.
Qed.

(** A step of the evaluator that calls nothing. *)
Lemma inv_evaluates pumped w w' :
  watch_inv pumped w -> evaluator w <> EvaluatorDone ->
  cancelled (channel w') = cancelled (channel w) -> happened w' = happened w -> sampler w' = sampler w ->
  (counters w' <> None <-> counters w <> None) ->
  match evaluator w' with
  | Starting => history w' = []
  | Waits _ | Woken _ _ _ => clocks s (upSince w') (began w') pumped (eval w') (history w')
  | Fires r => stop_evidence s (upSince w') (began w') r (history w')
  | Copied c => callback_reason w' c
  | EvaluatorDone => True
  end -> watch_inv pumped w'.
Proof.
  intros I Hn Ec Eh Es Ep He. pose proof (fun c => no_callback _ _ c I Hn) as Hno. destruct I as [Hm Hc Hcb Hp _ _].
  split; rewrite ?Ec, ?Eh, ?Es; try done.
  - destruct (evaluator w), (evaluator w'); try done; lia.
  - by rewrite Ep.
  - intros c Hc'. by destruct (Hno c).
Qed.

Lemma evaluator_starts_inv pumped w : watch_inv pumped w -> evaluator w = Starting -> watch_inv pumped (evaluator_starts s w).
Proof.
  intros I E. apply (inv_evaluates pumped w); try done; [congruence|]. cbn.
  assert (history w = []) as -> by (pose proof (wi_eval _ _ I) as H; by rewrite E in H).
  apply (new_evaluator_clocks s _ (first_reading w)); [apply I|done].
Qed.

Lemma evaluator_wakes_inv pumped w until : watch_inv pumped w -> evaluator w = Waits until -> watch_inv pumped (evaluator_wakes w).
Proof.
  intros I E. unfold evaluator_wakes. destruct (cancelled (channel w)) eqn:Ec; (apply (inv_evaluates pumped w); try done; try congruence).
  cbn. pose proof (wi_eval _ _ I) as H. by rewrite E in H.
Qed.

Lemma evaluator_ticks_inv pumped w g m b : watch_inv pumped w -> evaluator w = Woken g m b -> watch_inv pumped (evaluator_ticks s g m b w).
Proof.
  intros I E. pose proof (wi_eval _ _ I) as C. rewrite E in C. pose proof (wi_pump _ _ I) as Hp.
  unfold evaluator_ticks. destruct (cancelled (channel w)) eqn:Ec.
  { apply (inv_evaluates pumped w); try done. congruence. }
  set (t := tick_of g m b w). assert (reads_pump pumped t) as Hr by done.
  destruct (eval_tick s (eval w) t) as [e result] eqn:Et.
  pose proof (eval_tick_clocks s _ _ pumped _ _ _ _ _ Hr C Et) as C'.
  assert (evaluator w <> EvaluatorDone) as Hn by congruence.
  destruct result as [moved| |ticket|v].
  - destruct (moved && _); [|destruct (forCapture _)]; by apply (inv_evaluates pumped w).
  - by apply (inv_evaluates pumped w).
  - apply (inv_evaluates pumped w); try done. cbn. exists t. rewrite last_snoc. split; [done|].
    clear -Et. unfold eval_tick in Et. destruct (HoldObserve _ _) as [hold step]. destruct (rebase _); [done|].
    destruct step; [..|done]; destruct (tk_ticket t) eqn:Ek; try (by injection Et as _ ->);
      unfold judge in Et; by destruct (EpochObserve _ _ _).
  - case_bool_decide as Ev; [by apply (inv_evaluates pumped w)|].
    apply (inv_evaluates pumped w); try done. cbn.
    by apply (eval_tick_stops s _ _ pumped (eval w) (history w) t e v).
Qed.

Lemma evaluator_copies_inv pumped w r : watch_inv pumped w -> evaluator w = Fires r -> watch_inv pumped (evaluator_copies r w).
Proof.
  intros I E. pose proof (wi_eval _ _ I) as H. rewrite E in H. unfold evaluator_copies.
  destruct (onDead _); (apply (inv_evaluates pumped w); try done; congruence).
Qed.

Lemma evaluator_calls_inv pumped w c : watch_inv pumped w -> evaluator w = Copied c -> watch_inv pumped (evaluator_calls c w).
Proof.
  intros I E. pose proof (fun c => no_callback _ _ c I ltac:(congruence)) as Hno. pose proof (wi_eval _ _ I) as H. rewrite E in H.
  destruct I as [Hm Hc Hcb Hp _ _]. rewrite E in Hcb. split; cbn; try done.
  - rewrite Hm, elem_of_app, list_elem_of_singleton. naive_solver.
  - apply (Nat.le_trans _ _ _ (calls_since_snoc _ _)). rewrite Nat.add_0_r. exact Hc.
  - change (how_many is_callback (happened w ++ [CalledBack c]) <= 1)%nat. rewrite how_many_snoc. cbn [is_callback Nat.b2n]. lia.
  - intros c'. rewrite elem_of_app, list_elem_of_singleton. intros [Hin|[= ->]]; [by destruct (Hno c')|done].
Qed.

Lemma watch_step_inv pumped w w' : watch_inv pumped w -> watch_step s w w' -> watch_inv pumped w'.
Proof.
  intros I St. pose proof (wi_calls _ _ I) as Hc.
  destruct St as [w t Ht|w pump isUp Hp|w g m|w t|w|w op|w|w Hk|w Hk|w E|w plan until E _|w p E|w c p E|w c p a E|w E|w until E _|w g m b E|w r E|w c E].
  - by apply (inv_frame pumped w).
  - apply (inv_frame pumped w); [|done|done]. unfold control. cbn. repeat f_equal. do 2 case_bool_decide; naive_solver.
  - unfold publishWindowStatus. destruct (_ || _); [done|]. destruct (forCapture _); by apply (inv_frame pumped w).
  - unfold NoteNetworkEvent. destruct (cancelled _) eqn:Ec; [done|]. by apply (inv_frame pumped w).
  - unfold NoteNetworkQualityEvent. destruct (cancelled _) eqn:Ec; [done|]. by apply (inv_frame pumped w).
  - by apply (inv_frame pumped w).
  - destruct I as [Hm _ Hcb Hp He Hd]. split; cbn; try done.
    + rewrite elem_of_app, list_elem_of_singleton. naive_solver.
    + apply (Nat.le_trans _ _ _ (calls_since_snoc _ _)). rewrite Nat.add_0_r. exact Hc.
    + change (how_many is_callback (happened w ++ [CancelledHere]) <= match evaluator w with EvaluatorDone => 1 | _ => 0 end)%nat.
      rewrite how_many_snoc. by rewrite Nat.add_0_r.
    + intros c. rewrite elem_of_app, list_elem_of_singleton. intros [Hin|]; [by apply Hd|done].
  - by apply (inv_frame pumped w).
  - by apply (inv_frame pumped w).
  - apply (inv_frame pumped w); [done| |done]. rewrite E in Hc. cbn in *. lia.
  - apply (inv_frame pumped w); [apply sampler_wakes_frame| |done]. rewrite E in Hc. cbn in Hc. lia.
  - apply (inv_frame pumped w); [apply sampler_loads_frame| |done]. rewrite E in Hc. cbn in Hc. lia.
  - rewrite E in Hc. cbn in Hc. destruct I as [Hm _ Hcb Hp He Hd]. split; cbn; try done.
    + rewrite Hm, elem_of_app, list_elem_of_singleton. naive_solver.
    + apply (Nat.le_trans _ _ _ (calls_since_snoc _ _)). rewrite Nat.add_1_r. by apply le_n_S.
    + change (how_many is_callback (happened w ++ [Sdk c]) <= match evaluator w with EvaluatorDone => 1 | _ => 0 end)%nat.
      rewrite how_many_snoc. by rewrite Nat.add_0_r.
    + intros c'. rewrite elem_of_app, list_elem_of_singleton. intros [Hin|]; [by apply Hd|done].
  - destruct (sampler_returns_frame c p a w) as [Ef Ed]. apply (inv_frame pumped w); [done| |done].
    destruct (cancelled (channel w)) eqn:Ec; [rewrite Ed by done; rewrite E in Hc; done|].
    rewrite (inv_calls _ _ I Ec). lia.
  - by apply evaluator_starts_inv.
  - by eapply evaluator_wakes_inv.
  - by apply evaluator_ticks_inv.
  - by apply evaluator_copies_inv.
  - by apply evaluator_calls_inv.
Qed.

Lemma Start_inv t session capture dead pump isUp window :
  watch_inv (bool_decide (pump <> None)) (Start s t session capture dead pump isUp window).
Proof.
  assert (watch_inv (bool_decide (pump <> None)) (mkWatch t
    (mkChannel false true dead capture 0 0 (-1) (-1) 0 true no_balance (new_coalescer (networkNotify s)) (new_coalescer (networkNotify s)))
    session capture pump isUp t Planning t (-1) Starting (new_evaluator t t 0 true pump) (mkTick t 0 true no_balance pump isUp 0 (-1) (-1) None) [] [])) as I.
  { split; cbn; try done; [split; [done|by intros ?%not_elem_of_nil]|by rewrite bool_decide_eq_true|by intros c ?%not_elem_of_nil]. }
  unfold Start. match goal with |- context [publishWindowStatus _ _ ?w0] => set (w := w0) in * end.
  assert (watch_inv (bool_decide (pump <> None)) (match window with Some (g, m) => publishWindowStatus g m w | None => w end)) as I1.
  { destruct window as [[g m]|]; [|done]. eapply watch_step_inv; [exact I|constructor]. }
  destruct (ReplayCaptureNetworkEvent session); [|done]. eapply watch_step_inv; [exact I1|constructor].
Qed.

Lemma reachable_inv t session capture dead pump isUp window w :
  star (watch_step s) (Start s t session capture dead pump isUp window) w -> watch_inv (bool_decide (pump <> None)) w.
Proof. intros R. eapply star_invariant; [|exact R|apply Start_inv]. intros x y. apply watch_step_inv. Qed.
End Runs.

(** * Properties *)

(** A cancelled watch goes quiet.  After the cancellation the sampler begins at most one
    more call into the SDK, the one it was committed to, and over its whole life a watch
    calls back at most once, whether for a dead tunnel or for a capture, as the
    evaluator's last act. *)
Theorem cancelled_watch_goes_quiet s t session capture dead pump isUp window w :
  star (watch_step s) (Start s t session capture dead pump isUp window) w ->
  (how_many is_sdk (since_cancel (happened w)) <= 1)%nat /\
  (how_many is_callback (happened w) <= 1)%nat /\
  (forall c, CalledBack c ∈ happened w -> evaluator w = EvaluatorDone) /\
  (CancelledHere ∈ happened w -> cancelled (channel w) = true).
Proof.
  intros R. pose proof (reachable_inv _ _ _ _ _ _ _ _ _ R) as I. split_and!.
  - pose proof (wi_calls _ _ _ I). destruct (sampler w); cbn in *; lia.
  - pose proof (wi_callbacks _ _ _ I). destruct (evaluator w); lia.
  - intros c Hc. destruct (evaluator w) eqn:E; try done; by destruct (no_callback _ _ _ c I ltac:(congruence)).
  - apply I.
Qed.


(** A session of the default settings that gets one packet and whose SDK never answers. *)
Definition demo_start : Watch := Start default_watchdog_settings 1000 None false true (Some (0, 0)) true (Some (1, true)).
Definition demo_lap (w : Watch) : Watch :=
  let w := at_time (now w + 4900) w in
  match evaluator (evaluator_wakes w) with
  | Woken g m b => evaluator_ticks default_watchdog_settings g m b (evaluator_wakes w)
  | _ => evaluator_wakes w
  end.
Definition demo_watch : Watch :=
  CancelFlag (evaluator_calls (Dead SdkUnresponsive) (evaluator_copies SdkUnresponsive
    (Nat.iter 7 demo_lap (carried (Some (3, 1)) true (evaluator_starts default_watchdog_settings demo_start))))).

Lemma demo_lap_star w until :
  evaluator w = Waits until -> until <= now w + 4900 -> star (watch_step default_watchdog_settings) w (demo_lap w).
Proof.
  intros E Hu. unfold demo_lap. set (w1 := at_time (now w + 4900) w).
  eapply star_step; [apply (step_clock _ w (now w + 4900)); lia|]. fold w1.
  eapply star_step; [by apply (step_awake _ w1 until); [done|right]|].
  destruct (evaluator (evaluator_wakes w1)) eqn:E1; try apply star_refl.
  eapply star_step; [by apply (step_tick _ _ _ _ _ E1)|]. apply star_refl.
Qed.

Lemma demo_laps_star n w :
  (forall k, (k < n)%nat -> exists until, evaluator (Nat.iter k demo_lap w) = Waits until /\ until <= now (Nat.iter k demo_lap w) + 4900) ->
  star (watch_step default_watchdog_settings) w (Nat.iter n demo_lap w).
Proof.
  induction n as [|n IH]; intros H; [apply star_refl|]. eapply star_trans; [apply IH; intros k Hk; apply H; lia|].
  destruct (H n ltac:(lia)) as (until & E & Hu). by eapply demo_lap_star.
Qed.

Lemma demo_watch_star : star (watch_step default_watchdog_settings) demo_start demo_watch.
Proof.
  unfold demo_watch. set (w0 := carried (Some (3, 1)) true (evaluator_starts default_watchdog_settings demo_start)).
  eapply star_step; [by apply step_begin|]. eapply star_step; [by apply (step_outside _ _ (Some (3, 1)) true)|]. fold w0.
  eapply star_trans; [apply (demo_laps_star 7)|].
  { intros k Hk. do 7 (destruct k as [|k]; [eexists; split; [vm_compute; reflexivity|by vm_compute]|]). lia. }
  eapply star_step; [apply (step_copy _ _ SdkUnresponsive); by vm_compute|].
  eapply star_step; [apply (step_callback _ _ (Dead SdkUnresponsive)); by vm_compute|].
  eapply star_step; [apply step_cancel_flag|]. apply star_refl.
Qed.

Lemma cancelled_watch_goes_quiet_witness :
  star (watch_step default_watchdog_settings) demo_start demo_watch /\
  CancelledHere ∈ happened demo_watch /\
  (how_many is_sdk (since_cancel (happened demo_watch)) <= 1)%nat /\
  (how_many is_callback (happened demo_watch) <= 1)%nat /\
  (forall c, CalledBack c ∈ happened demo_watch -> evaluator demo_watch = EvaluatorDone) /\
  (CancelledHere ∈ happened demo_watch -> cancelled (channel demo_watch) = true).
Proof.
  split; [exact demo_watch_star|]. split; [vm_compute; apply list_elem_of_further, list_elem_of_here|].
  exact (cancelled_watch_goes_quiet default_watchdog_settings 1000 None false true (Some (0, 0)) true (Some (1, true)) demo_watch demo_watch_star).
Defined.


(** The packet of that session: it is the last one, and thirty seconds old. *)
Example demo_packet :
  let x := mkTick 5900 1 true no_balance (Some (3, 1)) true 0 (-1) (-1) None in
  last_packet default_watchdog_settings (began demo_watch :: history demo_watch) x /\
  (fun t => tk_now t - tk_now x) <$> last (history demo_watch) = Some 29400.
Proof.
  split; [|by vm_compute].
  exists [began demo_watch], (tail (history demo_watch)). split; [by vm_compute|]. split; [done|].
  split; [repeat constructor|]. split; [vm_compute; repeat (constructor; [discriminate|]); constructor|]. intros k y k' E. vm_compute in E.
  do 7 (destruct k as [|? k]; [injection E as <- _; split_and!; by vm_compute|cbn in E; injection E as <- E]). by destruct k.
Qed.

(** ** A dead SDK is noticed *)

Definition eval_all (s : TunnelWatchdogSettings) (e : Evaluator) (l : list Tick) : Evaluator :=
  foldl (fun e t => (eval_tick s e t).1) e l.

(** A tick at which nothing is new but the time: the tunnel is up, the same destination and
    balance, the SDK's last answer the same as before, and no packet in. *)
Definition nothing_new (e : Evaluator) (stamp : Z) (t : Tick) : Prop :=
  tk_up t = true /\ tk_ticket t = None /\ tk_lastSample t = stamp /\
  HoldObserve (outOfBalanceHold e) (tk_balance t) = (outOfBalanceHold e, StepNone) /\
  EpochObserve (connectionEpoch e) (tk_generation t) (tk_minSatisfied t) = (connectionEpoch e, mkUpdate false false) /\
  match tk_counters t with Some (_, i) => i <= lastInbound_ (traffic e) | None => True end.

(** What such ticks leave as it was. *)
Definition same_evidence (e e' : Evaluator) : Prop :=
  sessionStartMillis e' = sessionStartMillis e /\ outOfBalanceHold e' = outOfBalanceHold e /\
  connectionEpoch e' = connectionEpoch e /\ lastInbound_ (traffic e') = lastInbound_ (traffic e) /\
  lastInboundMillis_ (traffic e') = lastInboundMillis_ (traffic e).

Lemma nothing_new_tick s e stamp t :
  nothing_new e stamp t -> tk_now t - lastTickMillis e < frozenMillis s ->
  let r := eval_tick s e t in
  same_evidence e r.1 /\ lastTickMillis r.1 = tk_now t /\
  r.2 = Judged (Evaluate (signals_of r.1 t) (tk_now t) (deadTunnel s)).
Proof.
  intros (Hu & Hk & _ & Hb & He & Hi) Hg. unfold eval_tick. rewrite Hb. cbn.
  rewrite (proj2 (Z.leb_gt _ _)) by lia. rewrite Hk. unfold judge. cbn. rewrite He. cbn.
  destruct (tk_counters t) as [[o i]|]; cbn in Hi |- *; [|done]. unfold TrafficObserve.
  rewrite (proj2 (Z.ltb_ge (lastInbound_ (traffic e)) i)) by done. by destruct (_ <? o).
Qed.

Lemma nothing_new_same e e' stamp t : same_evidence e e' -> nothing_new e stamp t -> nothing_new e' stamp t.
Proof. intros (_ & Eh & Ee & Ei & _). unfold nothing_new. by rewrite Eh, Ee, Ei. Qed.

Lemma eval_all_nothing_new s stamp l : forall e,
  Forall (nothing_new e stamp) l -> awake (frozenMillis s) (lastTickMillis e) l ->
  same_evidence e (eval_all s e l) /\ lastTickMillis (eval_all s e l) = end_of (lastTickMillis e) l.
Proof.
  induction l as [|t l IH]; intros e Hl Ha; [done|]. cbn in Ha. destruct Ha as [Hg Ha].
  apply Forall_cons in Hl as [Ht Hl]. destruct (nothing_new_tick s e stamp t Ht Hg) as (S & Ek & _).
  change (eval_all s e (t :: l)) with (eval_all s (eval_tick s e t).1 l).
  destruct (eval_tick s e t) as [e1 r1]. cbn [fst snd] in *. destruct (IH e1) as [S' Ek'].
  - eapply Forall_impl; [exact Hl|]. intros x. by apply nothing_new_same.
  - by rewrite Ek.
  - split; [destruct S as (? & ? & ? & ? & ?), S' as (? & ? & ? & ? & ?); repeat split; congruence|]. rewrite Ek'. unfold end_of. rewrite Ek.
    destruct l; [done|]. change (list.last (t :: t0 :: l)) with (list.last (t0 :: l)). destruct (list.last (t0 :: l)) eqn:E; [done|].
    by apply last_None in E.
Qed.

(** C34: a tunnel whose SDK has stopped answering is stopped.  As long as the evaluator is
    awake and nothing is new at its ticks, with the tunnel up, no packet in, no change of
    the balance or the destination's epoch, no answer of the SDK and no ticket, then the
    first tick that comes a whole window after the SDK's last answer in the session, and no
    sooner than the fast window after the last packet, calls for the stop, whatever the
    account's balance and whatever the SDK had said of its exits. *)
Theorem silent_sdk_is_stopped s e stamp l t :
  0 < sessionStartMillis e ->
  Forall (nothing_new e stamp) (l ++ [t]) -> awake (frozenMillis s) (lastTickMillis e) (l ++ [t]) ->
  sdkUnresponsiveMillis (deadTunnel s) <= tk_now t - Z.max (sessionStartMillis e) stamp ->
  lastInboundMillis_ (traffic e) < 0 \/ deadFastMillis (deadTunnel s) <= tk_now t - lastInboundMillis_ (traffic e) ->
  exists v, (eval_tick s (eval_all s e l) t).2 = Judged v /\ reason v = SdkUnresponsive.
Proof.
  intros H0 [Hl Ht]%Forall_app [Ha Hg]%awake_snoc Hw Hi. apply (proj1 (Forall_singleton _ _)) in Ht.
  destruct (eval_all_nothing_new s stamp l e Hl Ha) as [S Ek].
  destruct (nothing_new_tick s (eval_all s e l) stamp t) as ((Es & _ & _ & _ & Em) & _ & Er).
  - by apply (nothing_new_same e).
  - by rewrite Ek.
  - destruct S as (Es' & _ & _ & _ & Em'). eexists. split; [exact Er|]. apply Evaluate_reason; [done|].
    destruct Ht as (Hu & _ & Hs & _). set (e' := (eval_tick s (eval_all s e l) t).1) in *.
    split_and!; unfold judged, carrying, sample_age; cbn; rewrite ?Es, ?Es', ?Em, ?Em', ?Hu; [done|lia|].
    unfold AgeSince, StampInSession. rewrite Hs. destruct (Z.leb_spec (sessionStartMillis e) stamp);
      destruct (Z.ltb_spec stamp 0); try lia; rewrite ?(proj2 (Z.ltb_lt (-1) 0)) by lia; lia.
Qed.

Definition demo_evaluator : Evaluator := new_evaluator 1000 1000 1 true (Some (0, 0)).
Definition demo_tick (k : Z) : Tick := mkTick (1000 + k * 1000) 1 true no_balance (Some (9, 0)) true 3 900 900 None.

Lemma silent_sdk_is_stopped_witness :
  let l := map demo_tick (seqZ 1 29) in
  let t := demo_tick 30 in
  0 < sessionStartMillis demo_evaluator /\ tk_proven t = 3 /\
  exists v, (eval_tick default_watchdog_settings (eval_all default_watchdog_settings demo_evaluator l) t).2 = Judged v /\
    reason v = SdkUnresponsive.
Proof.
  intros l t. split; [reflexivity|]. split; [reflexivity|].
  apply (silent_sdk_is_stopped default_watchdog_settings demo_evaluator 900 l t); [reflexivity|..].
  - apply Forall_forall. intros x Hx. assert (x ∈ map demo_tick (seqZ 1 30)) as Hx' by (vm_compute in Hx |- *; exact Hx).
    apply list_elem_of_In, in_map_iff in Hx' as (k & <- & _). unfold nothing_new. repeat split; try reflexivity; try discriminate.
  - vm_compute. repeat split; reflexivity.
  - vm_compute. discriminate.
  - left. reflexivity.
Defined.

(** ** The veto that is forgotten *)

(** A second of a session that receives a packet every second while its first window is
    still forming, and whose SDK has answered nothing since the fifth. *)
Definition busy_tick (k : Z) (minSatisfied : bool) : Tick :=
  mkTick (1000 + k * 1000) 1 minSatisfied no_balance (Some (k, k)) true 0 (-1) 5000 None.

(** Packets that come in do not always keep a tunnel from being stopped.  When the
    destination's window is first satisfied the counters start again, but not the clock of
    the SDK's silence, so a session in which a packet came in at every tick, the last one
    included, is called unresponsive at that tick; the same tick without that edge calls
    for nothing. *)
Theorem first_ready_edge_forgets_the_packets :
  let busy := map (fun k => busy_tick k false) (seqZ 1 39) in
  let e := eval_all default_watchdog_settings (new_evaluator 1000 1000 1 false (Some (0, 0))) busy in
  (exists v, (eval_tick default_watchdog_settings e (busy_tick 40 true)).2 = Judged v /\ reason v = SdkUnresponsive) /\
  (exists v, (eval_tick default_watchdog_settings e (busy_tick 40 false)).2 = Judged v /\ reason v = ReasonNone) /\
  lastInboundMillis_ (traffic e) = 40000.
Proof. vm_compute. split_and!; [eexists; split; reflexivity..|reflexivity]. Qed.
