(* ===== verification/NetworkCountry.v ===== *)
(** The country of the mobile network this PC is on (Common/NetworkCountry.h): the facts of
    the mobile broadband adapter, the table of mobile country codes and its search, the
    election of the default route, and what the service accepts of a reading. *)

From S2P Require Import Prelude.
From S2P Require Import CxxText.

(** * The reading *)

Definition kSourceMobileBroadband : text := txt "mobile-broadband".
Definition kSourceNoDefaultRoute : text := txt "no-default-route".
Definition kSourceNotMobileBroadband : text := txt "not-mobile-broadband".
Definition kSourceUnreadable : text := txt "mobile-broadband-unreadable".
Definition kSourceNot3gpp : text := txt "mobile-broadband-not-3gpp".
Definition kSourceNotRegistered : text := txt "mobile-broadband-not-registered".
Definition kSourceUnknownMcc : text := txt "mobile-broadband-unknown-mcc".
Definition kSourceUnknown : text := txt "unknown".

Record Reading := mkReading { code : text; source : text }.

Definition letter (c : ascii) : option ascii :=
  if in_range 65 90 c then Some (ascii_lower c) else if in_range 97 122 c then Some c else None.

Definition CodeOrEmpty (s : text) : text :=
  match s with
  | [a; b] => match letter a, letter b with Some x, Some y => [x; y] | _, _ => [] end
  | _ => []
  end.

Definition known_sources : list text :=
  [kSourceMobileBroadband; kSourceNoDefaultRoute; kSourceNotMobileBroadband; kSourceUnreadable; kSourceNot3gpp;
   kSourceNotRegistered; kSourceUnknownMcc].

Definition SourceOrUnknown (s : text) : text := if existsb (teqb s) known_sources then s else kSourceUnknown.

Definition Normalized (c s : text) : Reading := mkReading (CodeOrEmpty c) (SourceOrUnknown s).

(** * The mobile country code *)

Record MccCountry := mkMcc { mcc : Z; mcc_code : string }.

#[local] Notation entries l := (map (fun e : Z * string => mkMcc e.1 e.2) l).

(** The table, in two halves. *)
Definition kMccCountries_to_438 : list MccCountry := entries [
    (202, "gr"); (204, "nl"); (206, "be"); (208, "fr"); (212, "mc"); (213, "ad"); (214, "es"); (216, "hu");
    (218, "ba"); (219, "hr"); (220, "rs"); (221, "xk"); (222, "it"); (225, "va"); (226, "ro"); (228, "ch");
    (230, "cz"); (231, "sk"); (232, "at"); (234, "gb"); (235, "gb"); (238, "dk"); (240, "se"); (242, "no");
    (244, "fi"); (246, "lt"); (247, "lv"); (248, "ee"); (250, "ru"); (255, "ua"); (257, "by"); (259, "md");
    (260, "pl"); (262, "de"); (266, "gi"); (268, "pt"); (270, "lu"); (272, "ie"); (274, "is"); (276, "al");
    (278, "mt"); (280, "cy"); (282, "ge"); (283, "am"); (284, "bg"); (286, "tr"); (288, "fo"); (289, "ge");
    (290, "gl"); (292, "sm"); (293, "si"); (294, "mk"); (295, "li"); (297, "me"); (302, "ca"); (308, "pm");
    (310, "us"); (311, "us"); (312, "us"); (313, "us"); (314, "us"); (315, "us"); (316, "us"); (330, "pr");
    (332, "vi"); (334, "mx"); (338, "jm"); (340, "gp"); (342, "bb"); (344, "ag"); (346, "ky"); (348, "vg");
    (350, "bm"); (352, "gd"); (354, "ms"); (356, "kn"); (358, "lc"); (360, "vc"); (362, "cw"); (363, "aw");
    (364, "bs"); (365, "ai"); (366, "dm"); (368, "cu"); (370, "do"); (372, "ht"); (374, "tt"); (376, "tc");
    (400, "az"); (401, "kz"); (402, "bt"); (404, "in"); (405, "in"); (406, "in"); (410, "pk"); (412, "af");
    (413, "lk"); (414, "mm"); (415, "lb"); (416, "jo"); (417, "sy"); (418, "iq"); (419, "kw"); (420, "sa");
    (421, "ye"); (422, "om"); (423, "ps"); (424, "ae"); (425, "il"); (426, "bh"); (427, "qa"); (428, "mn");
    (429, "np"); (430, "ae"); (431, "ae"); (432, "ir"); (434, "uz"); (436, "tj"); (437, "kg"); (438, "tm")].

Definition kMccCountries_from_440 : list MccCountry := entries [
    (440, "jp"); (441, "jp"); (450, "kr"); (452, "vn"); (454, "hk"); (455, "mo"); (456, "kh"); (457, "la");
    (460, "cn"); (461, "cn"); (466, "tw"); (467, "kp"); (470, "bd"); (472, "mv"); (502, "my"); (505, "au");
    (510, "id"); (514, "tl"); (515, "ph"); (520, "th"); (525, "sg"); (528, "bn"); (530, "nz"); (534, "mp");
    (535, "gu"); (536, "nr"); (537, "pg"); (539, "to"); (540, "sb"); (541, "vu"); (542, "fj"); (543, "wf");
    (544, "as"); (545, "ki"); (546, "nc"); (547, "pf"); (548, "ck"); (549, "ws"); (550, "fm"); (551, "mh");
    (552, "pw"); (553, "tv"); (554, "tk"); (555, "nu"); (602, "eg"); (603, "dz"); (604, "ma"); (605, "tn");
    (606, "ly"); (607, "gm"); (608, "sn"); (609, "mr"); (610, "ml"); (611, "gn"); (612, "ci"); (613, "bf");
    (614, "ne"); (615, "tg"); (616, "bj"); (617, "mu"); (618, "lr"); (619, "sl"); (620, "gh"); (621, "ng");
    (622, "td"); (623, "cf"); (624, "cm"); (625, "cv"); (626, "st"); (627, "gq"); (628, "ga"); (629, "cg");
    (630, "cd"); (631, "ao"); (632, "gw"); (633, "sc"); (634, "sd"); (635, "rw"); (636, "et"); (637, "so");
    (638, "dj"); (639, "ke"); (640, "tz"); (641, "ug"); (642, "bi"); (643, "mz"); (645, "zm"); (646, "mg");
    (647, "re"); (648, "zw"); (649, "na"); (650, "mw"); (651, "ls"); (652, "bw"); (653, "sz"); (654, "km");
    (655, "za"); (657, "er"); (658, "sh"); (659, "ss"); (702, "bz"); (704, "gt"); (706, "sv"); (708, "hn");
    (710, "ni"); (712, "cr"); (714, "pa"); (716, "pe"); (722, "ar"); (724, "br"); (730, "cl"); (732, "co");
    (734, "ve"); (736, "bo"); (738, "gy"); (740, "ec"); (742, "gf"); (744, "py"); (746, "sr"); (748, "uy");
    (750, "fk")].

Definition kMccCountries : list MccCountry := kMccCountries_to_438 ++ kMccCountries_from_440.

(** [std::lower_bound]: the first entry of [count] from [first] on that is not below
    [value], by halving; [fuel] bounds the halvings. *)
Fixpoint lower_bound (fuel : nat) (table : list MccCountry) (value : Z) (first count : nat) : nat :=
  match fuel with
  | O => first
  | S fuel =>
      if (count =? 0)%nat then first else
      let half := (count / 2)%nat in
      match table !! (first + half)%nat with
      | Some e => if mcc e <? value then lower_bound fuel table value (first + half + 1) (count - half - 1)
                  else lower_bound fuel table value first half
      | None => first
      end
  end.

Definition find_mcc (table : list MccCountry) (value : Z) : option MccCountry :=
  match table !! lower_bound (length table) table value 0 (length table) with
  | Some e => if mcc e =? value then Some e else None
  | None => None
  end.

Definition CountryForMcc (s : text) : text :=
  if negb (size s =? 3) || negb (forallb is_digit s) then [] else
  match find_mcc kMccCountries (digits_value s) with Some e => txt (mcc_code e) | None => [] end.

Definition CountryForProviderId (s : text) : text :=
  if negb (size s =? 5) && negb (size s =? 6) then [] else
  if negb (forallb is_digit s) then [] else CountryForMcc (take 3 s).

(** * The default route *)

Record DefaultRoute := mkRoute { ifIndex : Z; metric : Z; connected : bool }.

(** [best] and [bestMetric] of the loop. *)
Definition elect (best : Z * Z) (route : DefaultRoute) : Z * Z :=
  if negb (connected route) || (ifIndex route =? 0) then best else
  if (best.1 =? 0) || (metric route <? best.2) then (ifIndex route, metric route) else best.

Definition ElectDefaultRoute (routes : list DefaultRoute) : Z := (foldl elect (0, 0) routes).1.

(** * The mobile broadband adapter *)

Definition kIfTypeWwanPp : Z := 243.
Definition kIfTypeWwanPp2 : Z := 244.
Definition kPhysicalMediumWirelessWan : Z := 8.
Definition IsMobileBroadbandInterface (ifType physicalMedium : Z) : bool :=
  (ifType =? kIfTypeWwanPp) || (ifType =? kIfTypeWwanPp2) || (physicalMedium =? kPhysicalMediumWirelessWan).

Definition kRegisterStateHome : Z := 3.
Definition kRegisterStateRoaming : Z := 4.
Definition kRegisterStatePartner : Z := 5.
Definition IsRegistered (registerState : Z) : bool :=
  (registerState =? kRegisterStateHome) || (registerState =? kRegisterStateRoaming) || (registerState =? kRegisterStatePartner).

Definition kDataClass3gpp : Z := 0x000000FF.
Definition kDataClass3gpp2 : Z := 0x007F0000.
Definition Is3gppDataClass (dataClass : Z) : bool :=
  negb (Z.land dataClass kDataClass3gpp =? 0) && (Z.land dataClass kDataClass3gpp2 =? 0).

Definition bare (s : text) : text :=
  match s, last s with
  | "{"%char :: t, Some "}"%char => if 2 <=? size s then take (length t - 1) t else s
  | _, _ => s
  end.

Definition SameInterfaceGuid (a b : text) : bool :=
  let a := bare a in
  let b := bare b in
  if bool_decide (a = []) || negb (size a =? size b) then false
  else forallb (fun p => teqb [ascii_upper p.1] [ascii_upper p.2]) (zip a b).

(** * The decision *)

Record MobileBroadbandFacts := mkFacts {
  defaultRoute : bool; mobileBroadband : bool; readable : bool; registerState : Z; dataClass : Z; providerId : text }.

Definition ReadingFor (facts : MobileBroadbandFacts) : Reading :=
  let none source := mkReading [] source in
  if negb (defaultRoute facts) then none kSourceNoDefaultRoute else
  if negb (mobileBroadband facts) then none kSourceNotMobileBroadband else
  if negb (readable facts) then none kSourceUnreadable else
  if negb (IsRegistered (registerState facts)) then none kSourceNotRegistered else
  if negb (Is3gppDataClass (dataClass facts)) then none kSourceNot3gpp else
  let code := CountryForProviderId (providerId facts) in
  if bool_decide (code = []) then none kSourceUnknownMcc else mkReading code kSourceMobileBroadband.

(** * The search of the table *)

Definition ascending (table : list MccCountry) : Prop :=
  forall i j a b, (i < j)%nat -> table !! i = Some a -> table !! j = Some b -> mcc a < mcc b.

(** The same on adjacent entries, as a test. *)
Fixpoint ascendingb (table : list MccCountry) : bool :=
  match table with
  | a :: ((b :: _) as t) => (mcc a <? mcc b) && ascendingb t
  | _ => true
  end.

Lemma ascendingb_head a t e : ascendingb (a :: t) = true -> e ∈ t -> mcc a < mcc e.
Proof.
  revert a. induction t as [|b t IH]; intros a Ht He; [by apply not_elem_of_nil in He|].
  cbn in Ht. bool_hyps. apply elem_of_cons in He as [->|He]; [lia|]. specialize (IH b ltac:(done) He). lia.
Qed.

Lemma ascendingb_spec table : ascendingb table = true -> ascending table.
Proof.
  induction table as [|a t IH]; intros Ht i j x y Hij Hx Hy; [done|].
  destruct j as [|j]; [lia|]. destruct i as [|i].
  - injection Hx as <-. eapply ascendingb_head; [done|]. eapply list_elem_of_lookup_2, Hy.
  - eapply (IH _ i j); [lia|done|done]. Unshelve. destruct t; [done|]. cbn in Ht. bool_hyps. done.
Qed.

(** What the search promises: everything before its answer is below the value,
    nothing from its answer on is. *)
Lemma lower_bound_spec fuel table value first count :
  ascending table -> (count <= fuel)%nat -> (first + count <= length table)%nat ->
  (forall i e, (i < first)%nat -> table !! i = Some e -> mcc e < value) ->
  (forall i e, (first + count <= i)%nat -> table !! i = Some e -> value <= mcc e) ->
  let r := lower_bound fuel table value first count in
  (forall i e, (i < r)%nat -> table !! i = Some e -> mcc e < value) /\
  (forall i e, (r <= i)%nat -> table !! i = Some e -> value <= mcc e).
Proof.
  intros Ha. revert first count. induction fuel as [|fuel IH]; intros first count Hf Hl Hlo Hhi; cbn [lower_bound].
  - split; intros i e Hi; [apply Hlo; lia|apply Hhi; lia].
  - destruct (Nat.eqb_spec count 0) as [->|Hn].
    { split; intros i e Hi; [apply Hlo; lia|apply Hhi; lia]. }
    assert (count / 2 < count)%nat by (apply Nat.div_lt; lia).
    destruct (table !! (first + count / 2)%nat) as [m|] eqn:Em; [|apply lookup_ge_None in Em; lia].
    destruct (Z.ltb_spec (mcc m) value).
    + apply IH; [lia|lia| |intros i e ?; apply Hhi; lia].
      intros i e Hi He. destruct (decide (i = first + count / 2)%nat) as [->|]; [by simplify_eq|].
      assert (mcc e < mcc m) by (eapply (Ha i); [|done|done]; lia). lia.
    + apply IH; [lia|lia|done|]. intros i e Hi He.
      destruct (decide (i = first + count / 2)%nat) as [->|]; [by simplify_eq|].
      assert (mcc m < mcc e) by (eapply (Ha _ i); [|done|done]; lia). lia.
Qed.

Lemma find_mcc_spec table value e :
  ascending table -> find_mcc table value = Some e <-> e ∈ table /\ mcc e = value.
Proof.
  intros Ha. unfold find_mcc.
  destruct (lower_bound_spec (length table) table value 0 (length table) Ha) as [Hlo Hhi];
    [lia|lia|intros; lia|intros i x Hi Hx; apply lookup_lt_Some in Hx; lia|].
  set (r := lower_bound _ _ _ _ _) in *. split.
  - destruct (table !! r) as [x|] eqn:Ex; [|done]. destruct (Z.eqb_spec (mcc x) value); [|done].
    intros [= <-]. split; [eapply list_elem_of_lookup_2, Ex|done].
  - intros [[i Hi]%list_elem_of_lookup He].
    assert (r <= i)%nat by (destruct (decide (i < r)%nat) as [Hlt|]; [specialize (Hlo i e Hlt Hi); lia|lia]).
    destruct (table !! r) as [x|] eqn:Ex; [|apply lookup_ge_None in Ex; apply lookup_lt_Some in Hi; lia].
    assert (value <= mcc x) by (eapply Hhi; [|done]; lia).
    destruct (decide (r = i)) as [->|]; [simplify_eq; by rewrite Z.eqb_refl|].
    assert (mcc x < mcc e) by (eapply (Ha r i); [|done|done]; lia). lia.
Qed.

Lemma kMccCountries_ascending : ascending kMccCountries.
Proof. apply ascendingb_spec. vm_compute. reflexivity. Qed.

(** The assigned codes have three digits, and the countries two lower-case letters. *)
Lemma kMccCountries_wf :
  Forall (fun e => 200 <= mcc e <= 999 /\ CodeOrEmpty (txt (mcc_code e)) = txt (mcc_code e) /\
                   txt (mcc_code e) <> []) kMccCountries.
Proof.
  assert (forallb (fun e => (200 <=? mcc e) && (mcc e <=? 999) && teqb (CodeOrEmpty (txt (mcc_code e))) (txt (mcc_code e)) &&
            negb (teqb (txt (mcc_code e)) [])) kMccCountries = true) as H by (vm_compute; reflexivity).
  rewrite forallb_forall in H. apply Forall_forall. intros e He.
  assert (List.In e kMccCountries) as Hin by (by apply list_elem_of_In).
  specialize (H e Hin). bool_hyps. split_and!; [lia|lia|by apply teqb_eq|].
  intros Hn. rewrite Hn in *. done.
Qed.

Lemma forallb_all_digits s : forallb is_digit s = true <-> all_digits s.
Proof.
  unfold all_digits. rewrite forallb_forall, Forall_forall. setoid_rewrite list_elem_of_In. done.
Qed.

Lemma to_string_three n : 200 <= n <= 999 -> length (to_string n) = 3%nat.
Proof.
  intros Hn. assert (20 <= n / 10 <= 99) by (split; [apply Z.div_le_lower_bound|apply Z.lt_succ_r, Z.div_lt_upper_bound]; lia).
  assert (2 <= n / 10 / 10 <= 9) by (split; [apply Z.div_le_lower_bound|apply Z.lt_succ_r, Z.div_lt_upper_bound]; lia).
  rewrite to_string_step, to_string_step, to_string_digit by lia. done.
Qed.

(** The digits of an assigned code. *)
Lemma assigned_digits e :
  e ∈ kMccCountries ->
  length (to_string (mcc e)) = 3%nat /\ all_digits (to_string (mcc e)) /\ digits_value (to_string (mcc e)) = mcc e.
Proof.
  intros He. destruct (proj1 (Forall_forall _ _) kMccCountries_wf e He) as [Hr _].
  destruct (to_string_nonneg (mcc e) ltac:(lia)) as (Hd & Hv & Hn). split_and!; [|done|done].
  apply to_string_three. lia.
Qed.

Lemma country_for_mcc_spec s c :
  CountryForMcc s = c /\ c <> [] <-> exists e, e ∈ kMccCountries /\ s = to_string (mcc e) /\ c = txt (mcc_code e).
Proof.
  unfold CountryForMcc. split.
  - intros [H Hc]. destruct (negb _ || negb _) eqn:E; [congruence|]. bool_hyps.
    destruct (find_mcc _ _) as [e|] eqn:Ef; [|congruence].
    apply find_mcc_spec in Ef as [He Hv]; [|apply kMccCountries_ascending]. exists e. split_and!; [done| |done].
    destruct (assigned_digits e He) as (Hl & Hd & Hv').
    apply digits_value_inj; [unfold size in *; lia|by apply forallb_all_digits|done|lia].
  - intros (e & He & -> & ->). destruct (assigned_digits e He) as (Hl & Hd & Hv).
    destruct (proj1 (Forall_forall _ _) kMccCountries_wf e He) as (_ & _ & Hc). split; [|done].
    unfold size. rewrite Hl. change (Z.of_nat 3 =? 3) with true. rewrite (proj2 (forallb_all_digits _) Hd), Hv. cbn [negb orb].
    rewrite (proj2 (find_mcc_spec kMccCountries (mcc e) e kMccCountries_ascending)); done.
Qed.

Lemma country_for_mcc_code s : CodeOrEmpty (CountryForMcc s) = CountryForMcc s.
Proof.
  destruct (decide (CountryForMcc s = [])) as [->|Hn]; [done|].
  destruct (proj1 (country_for_mcc_spec s _) (conj eq_refl Hn)) as (e & He & _ & ->).
  by apply (proj1 (Forall_forall _ _) kMccCountries_wf e He).
Qed.

Lemma country_for_provider_id_code s : CodeOrEmpty (CountryForProviderId s) = CountryForProviderId s.
Proof. unfold CountryForProviderId. cases_if; try done. apply country_for_mcc_code. Qed.

(** * The decision's properties *)

(** A provider id names a country exactly when it is the decimal digits of an assigned
    mobile country code followed by a two- or three-digit network code; the country is then
    the one the table assigns to that code. The binary search loses no entry. *)
Theorem provider_id_names_its_country id c :
  CountryForProviderId id = c /\ c <> [] <->
  exists e n, e ∈ kMccCountries /\ id = to_string (mcc e) ++ n /\ all_digits n /\ (size n = 2 \/ size n = 3) /\
              c = txt (mcc_code e).
Proof.
  unfold CountryForProviderId. split.
  - intros [H Hc]. cases_if_in H; [congruence|congruence|..].
    all: destruct (proj1 (country_for_mcc_spec _ _) (conj H Hc)) as (e & He & Ht & ->).
    all: exists e, (drop 3 id); rewrite <- Ht; split_and!; [done|by rewrite take_drop| |unfold size in *; rewrite length_drop; lia|done].
    all: apply Forall_drop, forallb_all_digits; done.
  - intros (e & n & He & -> & Hn & Hs & ->). destruct (assigned_digits e He) as (Hl & Hd & _).
    assert (size (to_string (mcc e) ++ n) = 3 + size n) as Hsz by (unfold size; rewrite length_app, Hl; lia).
    rewrite Hsz, (proj2 (forallb_all_digits _)) by (apply Forall_app; split; [apply Hd|apply Hn]).
    destruct (_ && _) eqn:E; [bool_hyps; lia|]. cbn [negb].
    rewrite take_app_length' by done. apply country_for_mcc_spec. eauto.
Qed.

(** What the app reads of the mobile network crosses the pipe unchanged: the service's
    cleaning of a reading is the identity on every reading the app can make. A reading has a
    country exactly when it says it came from mobile broadband. *)
Theorem reading_survives_the_pipe f :
  Normalized (code (ReadingFor f)) (source (ReadingFor f)) = ReadingFor f /\
  (code (ReadingFor f) <> [] <-> source (ReadingFor f) = kSourceMobileBroadband).
Proof.
  unfold ReadingFor. pose proof (country_for_provider_id_code (providerId f)) as Hc.
  generalize dependent (CountryForProviderId (providerId f)). intros c Hc. cases_if; cbn [code source].
  all: unfold Normalized; rewrite ?Hc; split; [reflexivity|].
  all: split; [try congruence; intros ?; done|try done; vm_compute; congruence].
Qed.

(** ** The default route *)

Definition usable (r : DefaultRoute) : Prop := connected r = true /\ ifIndex r <> 0.

(** [best] is what the loop holds after the routes [seen]. *)
Definition elected (seen : list DefaultRoute) (best : Z * Z) : Prop :=
  (best.1 = 0 /\ Forall (fun r => ~ usable r) seen) \/
  exists i r, seen !! i = Some r /\ usable r /\ best = (ifIndex r, metric r) /\
    forall j r', seen !! j = Some r' -> usable r' -> metric r <= metric r' /\ ((j < i)%nat -> metric r < metric r').

Lemma elect_step seen best r : elected seen best -> elected (seen ++ [r]) (elect best r).
Proof.
  intros H. unfold elect. destruct (negb (connected r) || (ifIndex r =? 0)) eqn:Eu.
  - assert (~ usable r) as Hu.
    { intros [Hc Hi]. apply orb_true_iff in Eu as [Eu|Eu]; bool_hyps; congruence. }
    destruct H as [[Hb Hs]|(i & x & Hi & Hx & Hb & Hm)]; [left; split; [done|by apply Forall_app; split; [|constructor]]|].
    right. exists i, x. split_and!; [by apply lookup_app_l_Some|done|done|].
    intros j r' Hj Hr'. apply lookup_app_Some in Hj as [Hj|[_ Hj]]; [by apply (Hm j)|].
    apply list_lookup_singleton_Some in Hj as [_ <-]. done.
  - bool_hyps. assert (usable r) as Hu by (by split).
    destruct H as [[Hb Hs]|(i & x & Hi & Hx & -> & Hm)]; cbn [fst snd] in *.
    + rewrite Hb. cbn. right. exists (length seen), r.
      split_and!; [by rewrite lookup_app_r, Nat.sub_diag|done|done|].
      intros j r' Hj Hr'. apply lookup_app_Some in Hj as [Hj|[? Hj]].
      * rewrite Forall_forall in Hs. destruct (Hs r'); [by eapply list_elem_of_lookup_2|done].
      * apply list_lookup_singleton_Some in Hj as [? <-]. lia.
    + destruct Hx as [Hxc Hxi]. rewrite (proj2 (Z.eqb_neq _ _) Hxi). cbn [orb]. destruct (Z.ltb_spec (metric r) (metric x)).
      * right. exists (length seen), r. split_and!; [by rewrite lookup_app_r, Nat.sub_diag|done|done|].
        intros j r' Hj Hr'. apply lookup_app_Some in Hj as [Hj|[? Hj]].
        -- destruct (Hm j r' Hj Hr'). lia.
        -- apply list_lookup_singleton_Some in Hj as [? <-]. lia.
      * right. exists i, x. split_and!; [by apply lookup_app_l_Some|done|done|].
        intros j r' Hj Hr'. apply lookup_app_Some in Hj as [Hj|[? Hj]]; [by apply (Hm j)|].
        apply list_lookup_singleton_Some in Hj as [? <-]. apply lookup_lt_Some in Hi. lia.
Qed.

Lemma elect_all routes : elected routes (foldl elect (0, 0) routes).
Proof.
  induction routes as [|r routes IH] using rev_ind; [left; split; [done|constructor]|].
  rewrite foldl_app. cbn [foldl]. by apply elect_step.
Qed.

(** The elected interface is none exactly when no connected route names one, and otherwise
    it is the interface of the first of the connected routes of the least metric. *)
Theorem elected_route_is_the_least routes :
  (ElectDefaultRoute routes = 0 <-> Forall (fun r => ~ usable r) routes) /\
  (ElectDefaultRoute routes <> 0 ->
   exists i r, routes !! i = Some r /\ usable r /\ ElectDefaultRoute routes = ifIndex r /\
     forall j r', routes !! j = Some r' -> usable r' -> metric r <= metric r' /\ ((j < i)%nat -> metric r < metric r')).
Proof.
  unfold ElectDefaultRoute. destruct (elect_all routes) as [[Hb Hs]|(i & r & Hi & Hr & Hb & Hm)].
  { rewrite Hb. done. }
  rewrite Hb. cbn [fst]. split; [split|eauto 10].
  - destruct Hr. done.
  - intros Hs. rewrite Forall_forall in Hs. destruct (Hs r); [by eapply list_elem_of_lookup_2|done].
Qed.

Example elected_route_is_the_least_witness :
  let routes := [mkRoute 3 20 false; mkRoute 4 30 true; mkRoute 0 1 true; mkRoute 5 25 true; mkRoute 6 25 true] in
  ElectDefaultRoute routes = 5 /\ exists i r, routes !! i = Some r /\ ifIndex r = 5.
Proof.
  split; [reflexivity|].
  destruct (proj2 (elected_route_is_the_least [mkRoute 3 20 false; mkRoute 4 30 true; mkRoute 0 1 true; mkRoute 5 25 true; mkRoute 6 25 true]))
    as (i & r & Hi & _ & Hr & _); [done|]. by exists i, r.
Defined.
