(* ===== verification/Workers.v ===== *)
(** The two worker threads of the client: Common/CoalescedWorker.h, whose requests fold into
    one more run, and App/OrderedWorker.h, whose jobs all run in the order posted. The two
    share their thread: started by the first request, joined before the next one starts, and
    joined by Stop. They differ in what waits under the lock, which is the interface here. *)

From S2P Require Import Prelude.

(** What waits for the thread: how a request is put down, what the thread takes at the top of
    its loop ([None]: it leaves), and what Stop does to it. The laws are what the thread's
    theorems need. *)
Class WorkerQueue (Q R J : Type) := {
  put : Q -> R -> Q;
  take_next : bool -> Q -> option (J * Q);
  on_stop : Q -> Q;
  weight : Q -> nat;
  take_lighter stopped q j q' : take_next stopped q = Some (j, q') -> (weight q' < weight q)%nat;
  put_taken q r : take_next false (put q r) <> None;
  stop_takes_no_more stopped q : take_next stopped q = None -> take_next true (on_stop q) = None
}.

(** Where a thread is: at the top of [Loop], in a job, past its last use of the lock, over. *)
Inductive Pc (J : Type) := AtTop | InJob (j : J) | Leaving | Ended.
Arguments AtTop {J}. Arguments InJob {J}. Arguments Leaving {J}. Arguments Ended {J}.
#[export] Instance Pc_eq_dec {J} `{EqDecision J} : EqDecision (Pc J).
Proof. solve_decision. Defined.

(** What happens: a request and whether it was taken; a thread takes a job, ends it, leaves its
    loop, is over; Stop sets the flag, and returns. *)
Inductive Event (R J : Type) :=
| Post (r : R) (taken : bool) | Took (i : nat) (j : J) | Did (i : nat) (j : J) | Left (i : nat) | Over (i : nat)
| StopAsked | StopReturned.
Arguments Post {R J}. Arguments Took {R J}. Arguments Did {R J}. Arguments Left {R J}. Arguments Over {R J}.
Arguments StopAsked {R J}. Arguments StopReturned {R J}.

Section Worker.
Context {Q R J : Type} `{EqDecision J} `{WorkerQueue Q R J}.

(** The worker, with every thread it ever started; [thread_] is the joinable one. [joining] is
    the thread in Stop, past the flag. *)
Record Worker := mkWorker {
  waiting : Q; running_ : bool; stopped_ : bool; thread_ : option nat; threads : list (Pc J); joining : bool }.

Definition new_worker (q : Q) : Worker := mkWorker q false false None [] false.

Definition at_pc (w : Worker) (i : nat) (p : Pc J) : Worker :=
  mkWorker (waiting w) (running_ w) (stopped_ w) (thread_ w) (<[i := p]> (threads w)) (joining w).

(** A [join] of [thread_] returns. *)
Definition joined (w : Worker) : bool :=
  match thread_ w with
  | None => true
  | Some i => match threads w !! i with Some Ended => true | _ => false end
  end.

(** One step, [None] where it cannot happen. A request waits for the thread it joins with the
    lock held, so its whole body is one step, possible once the join returns. *)
Definition step (w : Worker) (e : Event R J) : option Worker :=
  match e with
  | Post r taken =>
      if stopped_ w then (if taken then None else Some w) else
      if negb taken then None else
      if running_ w then Some (mkWorker (put (waiting w) r) true false (thread_ w) (threads w) (joining w)) else
      if joined w then
        Some (mkWorker (put (waiting w) r) true false (Some (length (threads w))) (threads w ++ [AtTop]) (joining w))
      else None
  | Took i j =>
      match threads w !! i, take_next (stopped_ w) (waiting w) with
      | Some AtTop, Some (j', q) =>
          if decide (j = j') then
            Some (mkWorker q (running_ w) (stopped_ w) (thread_ w) (<[i := InJob j]> (threads w)) (joining w))
          else None
      | _, _ => None
      end
  | Left i =>
      match threads w !! i, take_next (stopped_ w) (waiting w) with
      | Some AtTop, None =>
          Some (mkWorker (waiting w) false (stopped_ w) (thread_ w) (<[i := Leaving]> (threads w)) (joining w))
      | _, _ => None
      end
  | Did i j =>
      match threads w !! i with
      | Some (InJob j') => if decide (j = j') then Some (at_pc w i AtTop) else None
      | _ => None
      end
  | Over i => match threads w !! i with Some Leaving => Some (at_pc w i Ended) | _ => None end
  | StopAsked =>
      if joining w then None else
      Some (mkWorker (on_stop (waiting w)) (running_ w) true (thread_ w) (threads w) true)
  | StopReturned =>
      if joining w && joined w then
        Some (mkWorker (waiting w) (running_ w) (stopped_ w) None (threads w) false)
      else None
  end.

Definition steps (w : Worker) (tr : list (Event R J)) : option Worker :=
  foldl (fun ow e => ow ≫= fun w => step w e) (Some w) tr.

Lemma steps_app w a b : steps w (a ++ b) = steps w a ≫= fun w => steps w b.
Proof.
  unfold steps. rewrite foldl_app. destruct (foldl _ (Some w) a); [done|]. cbn.
  induction b; [done|]. done.
Qed.

Lemma steps_cons w e tr : steps w (e :: tr) = step w e ≫= fun w => steps w tr.
Proof. apply (steps_app w [e]). Qed.

Lemma steps_snoc w tr e w' : steps w (tr ++ [e]) = Some w' <-> exists v, steps w tr = Some v /\ step v e = Some w'.
Proof.
  rewrite steps_app, bind_Some. done.
Qed.

(** ** The threads *)

Definition live (p : Pc J) : Prop := match p with AtTop | InJob _ => True | _ => False end.

(** At most the last thread is not over, it is the joinable one, and it is in its loop exactly
    while [running_] says so. With nothing in the loop there is nothing to take. *)
Definition Inv (w : Worker) : Prop :=
  (exists over cur, threads w = over ++ cur /\ Forall (eq Ended) over /\
     match thread_ w with
     | None => cur = [] /\ running_ w = false
     | Some n => n = length over /\ exists p, cur = [p] /\ (running_ w = true <-> live p)
     end) /\
  (running_ w = false -> take_next (stopped_ w) (waiting w) = None) /\
  (joining w = true -> stopped_ w = true).

Lemma Inv_new q : take_next false q = None -> Inv (new_worker q).
Proof. intros Hq. split_and!; [|done|done]. exists [], []. cbn. by split_and!. Qed.

(** In such a state a thread that is not over is the last one. *)
Lemma Inv_last w i p :
  Inv w -> threads w !! i = Some p -> p <> Ended ->
  exists over, threads w = over ++ [p] /\ Forall (eq Ended) over /\ i = length over /\ thread_ w = Some i /\
    (running_ w = true <-> live p).
Proof.
  intros [(over & cur & Ht & Ho & Hc) _] Hi Hp. rewrite Ht in Hi.
  apply lookup_app_Some in Hi as [Hi|[Hl Hi]].
  - rewrite Forall_lookup in Ho. by destruct Hp; rewrite (Ho i p Hi).
  - destruct (thread_ w) as [n|].
    + destruct Hc as (-> & q & -> & Hr). apply list_lookup_singleton_Some in Hi as [Hi <-].
      exists over. assert (i = length over) as -> by lia. done.
    + destruct Hc as [-> _]. done.
Qed.

(** Moving the last thread. *)
Lemma Inv_move w w' i p p' :
  Inv w -> threads w !! i = Some p -> p <> Ended ->
  threads w' = <[i := p']> (threads w) -> thread_ w' = thread_ w ->
  (running_ w' = true <-> live p') ->
  (running_ w' = false -> take_next (stopped_ w') (waiting w') = None) ->
  (joining w' = true -> stopped_ w' = true) -> Inv w'.
Proof.
  intros Hw Hi Hp Ht Hth Hr Hq Hj. split_and!; [|done|done].
  destruct (Inv_last w i p Hw Hi Hp) as (over & E & Ho & -> & Ei & _).
  exists over, [p']. rewrite Ht, Hth, E, Ei.
  replace (length over) with (length over + 0)%nat at 1 by lia. rewrite insert_app_r. eauto 10.
Qed.

Lemma Inv_step w e w' : Inv w -> step w e = Some w' -> Inv w'.
Proof.
  intros Hw He. pose proof Hw as [(over & cur & Ht & Ho & Hc) [Hq Hj]].
  destruct e as [r taken|i j|i j|i|i| |]; cbn in He.
  - destruct (stopped_ w) eqn:Es; [by destruct taken; simplify_eq|]. destruct taken; [|done]. cbn in He.
    destruct (running_ w) eqn:Er; simplify_eq.
    + split_and!; [|done|done]. by exists over, cur.
    + destruct (joined w) eqn:Ej; [|done]. simplify_eq. split_and!; [|done|done].
      exists (threads w), [AtTop]. cbn. split_and!; [done| |done|by eexists].
      unfold joined in Ej. rewrite Ht in *. destruct (thread_ w) as [n|].
      * destruct Hc as (-> & p & -> & _). rewrite lookup_app_r, Nat.sub_diag in Ej by done. cbn in Ej.
        apply Forall_app. split; [done|]. constructor; [|constructor]. by destruct p.
      * destruct Hc as [-> _]. by rewrite app_nil_r.
  - destruct (threads w !! i) as [[]|] eqn:Ei; try done. destruct (take_next _ _) as [[j' q]|] eqn:Et; [|done].
    destruct (decide _); simplify_eq. destruct (Inv_last w i _ Hw Ei) as (? & _ & _ & _ & _ & Hr); [done|].
    eapply (Inv_move w _ i AtTop (InJob j')); cbn; try done.
    intros Hf. destruct Hr as [_ Hr]. specialize (Hr I). congruence.
  - destruct (threads w !! i) as [[]|] eqn:Ei; try done. destruct (decide _); simplify_eq.
    destruct (Inv_last w i _ Hw Ei) as (? & _ & _ & _ & _ & Hr); [done|].
    by eapply (Inv_move w _ i (InJob j0) AtTop).
  - destruct (threads w !! i) as [[]|] eqn:Ei; try done. destruct (take_next _ _) eqn:Et; simplify_eq.
    by eapply (Inv_move w _ i AtTop Leaving).
  - destruct (threads w !! i) as [[]|] eqn:Ei; simplify_eq.
    destruct (Inv_last w i _ Hw Ei) as (? & _ & _ & _ & _ & Hr); [done|].
    by eapply (Inv_move w _ i Leaving Ended).
  - destruct (joining w); simplify_eq. split_and!; [by exists over, cur| |done].
    cbn. intros Hr. eapply stop_takes_no_more. by apply Hq.
  - destruct (joining w && joined w) eqn:E; simplify_eq. apply andb_true_iff in E as [E1 E2].
    split_and!; [|done|done]. exists (threads w), []. cbn. unfold joined in E2. rewrite app_nil_r. split; [done|].
    rewrite Ht. destruct (thread_ w) as [n|].
    + destruct Hc as (-> & p & -> & Hr). rewrite Ht, lookup_app_r, Nat.sub_diag in E2 by done. cbn in E2.
      destruct p; try done. split_and!; [apply Forall_app; split; [done|by constructor]|done|].
      destruct (running_ w); [|done]. destruct Hr as [Hr _]. by destruct Hr.
    + destruct Hc as [-> ->]. by rewrite app_nil_r.
Qed.

Lemma Inv_steps w tr w' : Inv w -> steps w tr = Some w' -> Inv w'.
Proof.
  revert w. induction tr as [|e tr IH]; intros w Hw Hs; [by injection Hs as <-|].
  rewrite steps_cons in Hs. apply bind_Some in Hs as (v & Hv & Hs). eapply IH, Hs. by eapply Inv_step.
Qed.
(** ** What has been asked, begun and ended *)

Definition accepted (tr : list (Event R J)) : list R := omap (fun e => match e with Post r true => Some r | _ => None end) tr.
Definition begun (tr : list (Event R J)) : list J := omap (fun e => match e with Took _ j => Some j | _ => None end) tr.
Definition ended (tr : list (Event R J)) : list J := omap (fun e => match e with Did _ j => Some j | _ => None end) tr.

Definition job_of (p : Pc J) : option J := match p with InJob j => Some j | _ => None end.
Definition in_hand (w : Worker) : list J := omap job_of (threads w).

Lemma in_hand_over l : Forall (eq Ended) l -> omap job_of l = [].
Proof. induction 1 as [|p l <- _ IH]; [done|]. apply IH. Qed.

Lemma in_hand_at w i p :
  Inv w -> threads w !! i = Some p -> p <> Ended ->
  in_hand w = option_list (job_of p) /\ forall p', omap job_of (<[i := p']> (threads w)) = option_list (job_of p').
Proof.
  intros Hw Hi Hp. destruct (Inv_last w i p Hw Hi Hp) as (over & E & Ho & -> & _).
  unfold in_hand. rewrite E. split; [|intros p'; rewrite insert_app_r_alt, Nat.sub_diag by done]; cbn.
  all: rewrite omap_app, in_hand_over by done; cbn; by destruct (job_of _).
Qed.

Lemma in_hand_step w e w' :
  Inv w -> step w e = Some w' -> in_hand w ++ begun [e] = ended [e] ++ in_hand w'.
Proof.
  intros Hw He. destruct e as [r taken|i j|i j|i|i| |]; cbn in He |- *; rewrite ?app_nil_r.
  - destruct (stopped_ w); [by destruct taken; simplify_eq|]. destruct taken; [|done]. cbn in He.
    destruct (running_ w); [by simplify_eq|]. destruct (joined w); simplify_eq.
    unfold in_hand. cbn. by rewrite omap_app, app_nil_r.
  - destruct (threads w !! i) as [[]|] eqn:Ei; try done. destruct (take_next _ _) as [[j' q]|]; [|done].
    destruct (decide _); simplify_eq. destruct (in_hand_at w i _ Hw Ei) as [-> Hi]; [done|]. symmetry. apply (Hi (InJob j')).
  - destruct (threads w !! i) as [[]|] eqn:Ei; try done. destruct (decide _); simplify_eq.
    destruct (in_hand_at w i _ Hw Ei) as [-> Hi]; [done|]. unfold in_hand. cbn. by rewrite Hi.
  - destruct (threads w !! i) as [[]|] eqn:Ei; try done. destruct (take_next _ _); simplify_eq.
    destruct (in_hand_at w i _ Hw Ei) as [-> Hi]; [done|]. symmetry. apply (Hi Leaving).
  - destruct (threads w !! i) as [[]|] eqn:Ei; simplify_eq.
    destruct (in_hand_at w i _ Hw Ei) as [-> Hi]; [done|]. symmetry. apply (Hi Ended).
  - by destruct (joining w); simplify_eq.
  - by destruct (joining w && joined w); simplify_eq.
Qed.

(** Every job begun has ended or is in hand. *)
Lemma begun_ended w tr w' :
  Inv w -> steps w tr = Some w' -> in_hand w ++ begun tr = ended tr ++ in_hand w'.
Proof.
  intros Hw. revert w'. induction tr as [|e tr IH] using rev_ind; intros w' Hs.
  - injection Hs as <-. by rewrite app_nil_r.
  - apply steps_snoc in Hs as (v & Hv & He). unfold begun, ended in *. rewrite !omap_app, app_assoc, (IH v Hv), <- !app_assoc.
    f_equal. eapply in_hand_step, He. by eapply Inv_steps.
Qed.

(** One job at a time. *)
Lemma in_hand_one w : Inv w -> (length (in_hand w) <= 1)%nat.
Proof.
  intros [(over & cur & Ht & Ho & Hc) _]. unfold in_hand. rewrite Ht, omap_app, in_hand_over by done. cbn.
  destruct (thread_ w); [destruct Hc as (_ & p & -> & _); cbn; by destruct (job_of p); cbn; lia|destruct Hc as [-> _]; cbn; lia].
Qed.

(** ** The thread's own steps end *)

Definition of_thread (e : Event R J) : Prop := match e with Took _ _ | Did _ _ | Left _ | Over _ => True | _ => False end.

Definition pc_weight (p : Pc J) : nat := match p with InJob _ => 3 | AtTop => 2 | Leaving => 1 | Ended => 0 end.
Definition measure (w : Worker) : nat := (3 * weight (waiting w) + sum_list_with pc_weight (threads w))%nat.

Lemma sum_list_insert (f : Pc J -> nat) l i p q :
  l !! i = Some p -> (sum_list_with f (<[i := q]> l) + f p = sum_list_with f l + f q)%nat.
Proof.
  revert i. induction l as [|x l IH]; intros [|i] Hi; try done; [cbn in *; simplify_eq; lia|].
  change (f x + sum_list_with f (<[i := q]> l) + f p = f x + sum_list_with f l + f q)%nat. specialize (IH i Hi). lia.
Qed.

Lemma of_thread_lighter w e w' : of_thread e -> step w e = Some w' -> (measure w' < measure w)%nat.
Proof.
  intros Hi He. destruct e as [r taken|i j|i j|i|i| |]; try done; cbn in He; unfold measure.
  all: destruct (threads w !! i) as [[]|] eqn:Ei; try done.
  - destruct (take_next _ _) as [[j' q]|] eqn:Et; [|done]. destruct (decide _); simplify_eq. cbn.
    pose proof (take_lighter _ _ _ _ Et). pose proof (sum_list_insert pc_weight _ i _ (InJob j') Ei). cbn in *. lia.
  - destruct (decide _); simplify_eq. pose proof (sum_list_insert pc_weight _ i _ AtTop Ei). cbn in *. lia.
  - destruct (take_next _ _); simplify_eq. pose proof (sum_list_insert pc_weight _ i _ Leaving Ei). cbn in *. lia.
  - simplify_eq. pose proof (sum_list_insert pc_weight _ i _ Ended Ei). cbn in *. lia.
Qed.

Lemma of_thread_bounded w tr w' :
  Forall of_thread tr -> steps w tr = Some w' -> (length tr + measure w' <= measure w)%nat.
Proof.
  intros Hf. revert w. induction Hf as [|e tr He Hf IH]; intros w Hs; [injection Hs as <-; cbn [length]; lia|].
  rewrite steps_cons in Hs. apply bind_Some in Hs as (v & Hv & Hs). pose proof (of_thread_lighter w e v He Hv).
  specialize (IH v Hs). cbn [length]. lia.
Qed.

(** Nothing of the thread's own can happen any more. *)
Definition at_rest (w : Worker) : Prop := forall e, of_thread e -> step w e = None.

Lemma over_at_rest w : Forall (eq Ended) (threads w) -> at_rest w.
Proof.
  intros Ho e He. rewrite Forall_lookup in Ho. destruct e as [r t|i j|i j|i|i| |]; try done; cbn.
  all: destruct (threads w !! i) as [p|] eqn:Ei; [by rewrite <- (Ho i p Ei)|done].
Qed.

Lemma at_rest_over w : at_rest w -> Forall (eq Ended) (threads w).
Proof.
  intros Hr. apply Forall_lookup. intros i p Hi. destruct p; try done; exfalso.
  - destruct (take_next (stopped_ w) (waiting w)) as [[j q]|] eqn:Et.
    + specialize (Hr (Took i j) I). cbn in Hr. rewrite Hi, Et in Hr. by rewrite decide_True in Hr.
    + specialize (Hr (Left i) I). cbn in Hr. by rewrite Hi, Et in Hr.
  - specialize (Hr (Did i j) I). cbn in Hr. rewrite Hi in Hr. by rewrite decide_True in Hr.
  - specialize (Hr (Over i) I). cbn in Hr. by rewrite Hi in Hr.
Qed.

(** At rest nothing waits: the thread takes all there is before it leaves. *)
Lemma at_rest_empty w :
  Inv w -> at_rest w -> in_hand w = [] /\ take_next (stopped_ w) (waiting w) = None.
Proof.
  intros Hw Hr%at_rest_over. split; [by apply in_hand_over|]. destruct Hw as [(over & cur & Ht & _ & Hc) [Hq _]].
  apply Hq. destruct (thread_ w); [|by destruct Hc]. destruct Hc as (_ & p & -> & Hl).
  rewrite Ht in Hr. apply Forall_app in Hr as [_ Hr]. apply (proj1 (Forall_singleton _ _)) in Hr as <-.
  destruct (running_ w); [|done]. by destruct Hl as [[] _].
Qed.

(** A thread is at rest or has a step. *)
Lemma threads_rest_or_step w : at_rest w \/ exists e v, of_thread e /\ step w e = Some v.
Proof.
  destruct (decide (Forall (eq Ended) (threads w))) as [Ho|Hn]; [left; by apply over_at_rest|].
  - right. apply not_Forall_Exists in Hn; [|apply _]. apply Exists_exists in Hn as (p & [i Hi]%list_elem_of_lookup & Hp).
    destruct p.
    + destruct (take_next (stopped_ w) (waiting w)) as [[j q]|] eqn:Et.
      * exists (Took i j). cbn. rewrite Hi, Et, decide_True by done. eauto.
      * exists (Left i). cbn. rewrite Hi, Et. eauto.
    + exists (Did i j). cbn. rewrite Hi, decide_True by done. eauto.
    + exists (Over i). cbn. rewrite Hi. eauto.
    + by destruct Hp.
Qed.

(** A thread that is let run does come to rest. *)
Lemma rest_is_reached w : exists tr w', Forall of_thread tr /\ steps w tr = Some w' /\ at_rest w'.
Proof.
  induction w as [w IH] using (induction_ltof1 _ measure).
  destruct (threads_rest_or_step w) as [Hr|(e & v & He & Hv)].
  - by exists [], w.
  - destruct (IH v) as (tr & w' & Hf & Hs & Hr); [by eapply of_thread_lighter|].
    exists (e :: tr), w'. split_and!; [by constructor| |done]. rewrite steps_cons, Hv. done.
Qed.

(** ** Stop *)

Lemma stopped_stays w tr w' :
  steps w tr = Some w' -> stopped_ w = true -> stopped_ w' = true /\ accepted tr = [].
Proof.
  revert w. induction tr as [|e tr IH]; intros w Hs Hw; [by injection Hs as <-|].
  rewrite steps_cons in Hs. apply bind_Some in Hs as (v & Hv & Hs).
  assert (stopped_ v = true /\ accepted [e] = []) as [Hsv He].
  { destruct e as [r []|i j|i j|i|i| |]; cbn in Hv; rewrite ?Hw in Hv; repeat case_match; by simplify_eq. }
  destruct (IH v Hs Hsv) as [H1 H2]. split; [done|]. change (e :: tr) with ([e] ++ tr).
  unfold accepted in *. by rewrite omap_app, He, H2.
Qed.

(** Once Stop has returned no thread is left and none starts. *)
Lemma stop_returned_over w w' : Inv w -> step w StopReturned = Some w' -> Inv w' /\ stopped_ w' = true /\ thread_ w' = None.
Proof.
  intros Hw He. split; [by eapply Inv_step|]. cbn in He. destruct (joining w && joined w) eqn:E; simplify_eq. cbn.
  apply andb_true_iff in E as [E _]. split; [|done]. destruct Hw as (_ & _ & Hj). by apply Hj.
Qed.

Lemma over_stays_over w tr w' :
  Inv w -> stopped_ w = true -> thread_ w = None -> steps w tr = Some w' ->
  thread_ w' = None /\ begun tr = [] /\ ended tr = [].
Proof.
  revert w. induction tr as [|e tr IH]; intros w Hw Hst Hth Hs; [by injection Hs as <-|].
  rewrite steps_cons in Hs. apply bind_Some in Hs as (v & Hv & Hs).
  assert (Forall (eq Ended) (threads w)) as Ho.
  { destruct Hw as [(over & cur & -> & Ho & Hc) _]. rewrite Hth in Hc. destruct Hc as [-> _]. by rewrite app_nil_r. }
  assert (forall i p, threads w !! i = Some p -> p = Ended) as Hi.
  { intros i p Hi. rewrite Forall_lookup in Ho. symmetry. by eapply Ho. }
  assert (thread_ v = None /\ stopped_ v = true /\ begun [e] = [] /\ ended [e] = []) as (Ht & Hsv & Hb & He).
  { destruct e as [r []|i j|i j|i|i| |]; cbn in Hv; rewrite ?Hst in Hv.
    3-6: destruct (threads w !! i) as [p|] eqn:Ei; [specialize (Hi i p Ei) as ->; done|done].
    all: repeat case_match; by simplify_eq. }
  destruct (IH v) as (H1 & H2 & H3); [by eapply Inv_step|done|done|done|]. split_and!; [done|..];
    change (e :: tr) with ([e] ++ tr); unfold begun, ended in *; rewrite omap_app, ?Hb, ?H2, ?He, ?H3; done.
Qed.
(** What Stop has waited for. *)
Lemma stop_returned_facts q tr tr' w :
  take_next false q = None -> steps (new_worker q) (tr ++ StopReturned :: tr') = Some w ->
  exists v, steps (new_worker q) tr = Some v /\ stopped_ v = true /\ at_rest v /\ in_hand v = [] /\
            take_next true (waiting v) = None /\ accepted tr' = [] /\ begun tr' = [] /\ ended tr' = [].
Proof.
  intros Hq Hs. rewrite steps_app in Hs. apply bind_Some in Hs as (v & Hv & Hs).
  rewrite steps_cons in Hs. apply bind_Some in Hs as (u & Hu & Hs).
  pose proof (Inv_steps _ _ _ (Inv_new q Hq) Hv) as Iv.
  destruct (stop_returned_over v u Iv Hu) as (Iu & Su & Tu).
  destruct (over_stays_over u tr' w Iu Su Tu Hs) as (_ & Hb & He).
  destruct (stopped_stays u tr' w Hs Su) as [_ Ha].
  assert (stopped_ v = true /\ Forall (eq Ended) (threads v)) as [Sv Tv].
  { destruct Iu as [(over & cur & E & Ho & Hc) _]. rewrite Tu in Hc. destruct Hc as [-> _]. rewrite app_nil_r in E.
    cbn in Hu. destruct (joining v && joined v); [|done]. injection Hu as <-. cbn in E, Su. by rewrite E. }
  pose proof (over_at_rest v Tv) as Rv.
  destruct (at_rest_empty v Iv Rv) as [Hh Ht]. rewrite Sv in Ht. by exists v.
Qed.

(** Every job taken makes what waits lighter. *)
Lemma begun_bounded w tr w' :
  Forall of_thread tr -> steps w tr = Some w' -> (length (begun tr) + weight (waiting w') <= weight (waiting w))%nat.
Proof.
  intros Hf. revert w. induction Hf as [|e tr He Hf IH]; intros w Hs; [injection Hs as <-; cbn [begun omap length]; done|].
  rewrite steps_cons in Hs. apply bind_Some in Hs as (v & Hv & Hs). specialize (IH v Hs).
  assert (length (begun [e]) + weight (waiting v) <= weight (waiting w))%nat.
  { destruct e as [r t|i j|i j|i|i| |]; try done; cbn in Hv; destruct (threads w !! i) as [[]|]; try done.
    - destruct (take_next _ _) as [[j' q]|] eqn:Et; [|done]. destruct (decide _); simplify_eq. cbn.
      pose proof (take_lighter _ _ _ _ Et). lia.
    - destruct (decide _); simplify_eq. cbn. lia.
    - destruct (take_next _ _); simplify_eq. cbn. lia.
    - simplify_eq. cbn. lia. }
  change (e :: tr) with ([e] ++ tr). unfold begun in *. rewrite omap_app, length_app. lia.
Qed.

Lemma over_weightless l : Forall (eq Ended) l -> sum_list_with pc_weight l = 0%nat.
Proof. induction 1 as [|p l <- _ IH]; [done|apply IH]. Qed.

(** The threads weigh at most one job. *)
Lemma Inv_weight w : Inv w -> (sum_list_with pc_weight (threads w) <= 3)%nat.
Proof.
  intros [(over & cur & -> & Ho & Hc) _]. rewrite sum_list_with_app.
  rewrite (over_weightless over Ho).
  destruct (thread_ w); [destruct Hc as (_ & p & -> & _); destruct p; cbn; lia|destruct Hc as [-> _]; cbn; lia].
Qed.

Lemma accepted_of_thread tr : Forall of_thread tr -> accepted tr = [].
Proof. induction 1 as [|e tr He _ IH]; [done|]. by destruct e. Qed.

(** A thread that takes nothing leaves what waits as it is. *)
Lemma not_begun_waits w tr w' :
  Forall of_thread tr -> steps w tr = Some w' -> begun tr = [] -> waiting w' = waiting w /\ stopped_ w' = stopped_ w.
Proof.
  intros Hf. revert w. induction Hf as [|e tr He Hf IH]; intros w Hs Hb; [by injection Hs as <-|].
  rewrite steps_cons in Hs. apply bind_Some in Hs as (v & Hv & Hs).
  change (e :: tr) with ([e] ++ tr) in Hb. unfold begun in Hb. rewrite omap_app in Hb. apply app_nil in Hb as [Hb1 Hb2].
  destruct (IH v Hs Hb2) as [-> ->].
  destruct e as [r t|i j|i j|i|i| |]; try done; cbn in Hv; destruct (threads w !! i) as [[]|]; try done.
  - destruct (decide _); by simplify_eq.
  - destruct (take_next _ _); by simplify_eq.
  - by simplify_eq.
Qed.
End Worker.
Arguments Worker : clear implicits.

(** * CoalescedWorker *)

Module CoalescedWorker.

(** [dirty_]: a request came since the run in flight began. *)
Definition CoalescedRequest (dirty_ : bool) (_ : unit) : bool := true.
Definition CoalescedStop (dirty_ : bool) : bool := false.
Definition CoalescedLoop (stopped_ dirty_ : bool) : option (unit * bool) :=
  if stopped_ || negb dirty_ then None else Some (tt, false).

#[export] Program Instance dirty : WorkerQueue bool unit unit := {
  put := CoalescedRequest;
  take_next := CoalescedLoop;
  on_stop := CoalescedStop;
  weight dirty_ := if dirty_ then 1%nat else 0%nat
}.
Next Obligation. unfold CoalescedLoop. intros [] [] ? ? ?; simplify_eq/=; lia. Qed.
Next Obligation. done. Qed.
Next Obligation. done. Qed.

Definition new_coalesced : Worker bool unit := new_worker false.

Lemma nothing_asked : take_next false false = None.
Proof. done. Qed.

Lemma Inv_coalesced tr w : steps new_coalesced tr = Some w -> Inv w.
Proof. apply Inv_steps, Inv_new, nothing_asked. Qed.

(** A request that was taken is followed by a run that starts after it: however the thread
    goes on from there, by the time it has nothing more to do it has begun a run. *)
Theorem last_request_is_served tr w tr' w' :
  steps new_coalesced (tr ++ [Post tt true]) = Some w -> Forall of_thread tr' -> steps w tr' = Some w' -> at_rest w' ->
  begun tr' <> [].
Proof.
  intros Hw Hf Hs Hr Hb. pose proof (Inv_steps _ _ _ (Inv_coalesced _ _ Hw) Hs) as Hi.
  destruct (at_rest_empty w' Hi Hr) as [_ Ht]. destruct (not_begun_waits w tr' w' Hf Hs Hb) as [Ew Es].
  rewrite Ew, Es in Ht. apply steps_snoc in Hw as (v & _ & Hv). cbn in Hv.
  destruct (stopped_ v); [done|]. cbn in Hv. destruct (running_ v); [by simplify_eq|]. by destruct (joined v); simplify_eq.
Qed.

(** A burst of requests, however many, that arrives before a run has ended costs at most two
    runs; with a run in flight at its start, one. Runs never overlap. *)
Theorem burst_costs_two_runs tr w burst v tr' v' :
  steps new_coalesced tr = Some w -> steps w burst = Some v -> ended burst = [] ->
  Forall of_thread tr' -> steps v tr' = Some v' ->
  (length (in_hand w) + length (begun burst) + length (begun tr') <= 2)%nat /\ (length (in_hand v') <= 1)%nat.
Proof.
  intros Hw Hv He Hf Hs. pose proof (Inv_coalesced _ _ Hw) as Iw. pose proof (Inv_steps _ _ _ Iw Hv) as Iv.
  pose proof (Inv_steps _ _ _ Iv Hs) as Iv'.
  pose proof (begun_ended w burst v Iw Hv) as E. rewrite He in E.
  apply (f_equal length) in E. rewrite length_app in E. cbn in E. pose proof (in_hand_one v Iv).
  pose proof (begun_bounded v tr' v' Hf Hs) as B. split; [|by apply in_hand_one].
  cbn [weight dirty] in B. destruct (waiting v), (waiting v'); lia.
Qed.

(** Once Stop has returned, the run that was in flight has ended and none begins, whatever
    is asked later. *)
Theorem nothing_runs_after_stop tr tr' w :
  steps new_coalesced (tr ++ StopReturned :: tr') = Some w -> begun tr = ended tr /\ begun tr' = [] /\ accepted tr' = [].
Proof.
  intros Hs. destruct (stop_returned_facts false tr tr' w nothing_asked Hs) as (v & Hv & _ & _ & Hh & _ & Ha & Hb & _).
  pose proof (begun_ended _ tr v (Inv_new false nothing_asked) Hv) as E. rewrite Hh, app_nil_r in E. done.
Qed.

Example last_request_is_served_witness :
  exists w w', steps new_coalesced ([Post tt true; Took 0 tt] ++ [Post tt true]) = Some w /\
    steps w [Did 0 tt; Took 0 tt; Did 0 tt; Left 0; Over 0] = Some w' /\
    begun [Did 0 tt; Took 0 tt; Did 0 tt; Left 0; Over 0 : Event unit unit] <> [].
Proof.
  eexists _, _. split_and!; [reflexivity|reflexivity|].
  eapply (last_request_is_served [Post tt true; Took 0 tt]); [reflexivity| |reflexivity|].
  - repeat constructor.
  - apply over_at_rest. repeat constructor.
Defined.

Example burst_costs_two_runs_witness :
  exists w v v', steps new_coalesced [Post tt true] = Some w /\
    steps w [Took 0 tt; Post tt true; Post tt true] = Some v /\ steps v [Did 0 tt; Took 0 tt; Did 0 tt] = Some v' /\
    (length (in_hand w) + 1 + 1 <= 2)%nat /\ (length (in_hand v') <= 1)%nat.
Proof.
  eexists _, _, _. do 3 (split; [reflexivity|]).
  eapply (burst_costs_two_runs [Post tt true] _ [Took 0 tt; Post tt true; Post tt true] _ [Did 0 tt; Took 0 tt; Did 0 tt] _);
    first [reflexivity|repeat constructor].
Defined.

Example nothing_runs_after_stop_witness :
  exists w, steps new_coalesced ([Post tt true; Took 0 tt; StopAsked; Did 0 tt; Left 0; Over 0] ++ StopReturned :: [Post tt false]) = Some w /\
    begun [Post tt false : Event unit unit] = [].
Proof.
  eexists. split; [reflexivity|].
  eapply (nothing_runs_after_stop [Post tt true; Took 0 tt; StopAsked; Did 0 tt; Left 0; Over 0]). reflexivity.
Defined.
End CoalescedWorker.

(** * OrderedWorker *)

Module OrderedWorker.
Section OrderedWorker.
Context {Job : Type} `{EqDecision Job}.

Definition OrderedPost (jobs_ : list Job) (job : Job) : list Job := jobs_ ++ [job].
Definition OrderedStop (jobs_ : list Job) : list Job := jobs_.
Definition OrderedLoop (stopped_ : bool) (jobs_ : list Job) : option (Job * list Job) :=
  match jobs_ with [] => None | job :: rest => Some (job, rest) end.

#[export] Program Instance jobs : WorkerQueue (list Job) Job Job := {
  put := OrderedPost;
  take_next := OrderedLoop;
  on_stop := OrderedStop;
  weight := length
}.
Next Obligation. intros ? [|j q] ? ? ?; simplify_eq/=; lia. Qed.
Next Obligation. by intros [|? ?] ?. Qed.
Next Obligation. by intros ? [|? ?] ?. Qed.

Definition new_ordered : Worker (list Job) Job := new_worker [].

Lemma nothing_posted : take_next false (@nil Job) = None.
Proof. done. Qed.

Lemma Inv_ordered tr w : steps new_ordered tr = Some w -> Inv w.
Proof. apply Inv_steps, Inv_new, nothing_posted. Qed.

(** What is posted joins the queue, what is begun leaves it. *)
Lemma queue_step (w : Worker (list Job) Job) e w' :
  step w e = Some w' -> waiting w ++ accepted [e] = begun [e] ++ waiting w'.
Proof.
  intros He. destruct e as [r taken|i j|i j|i|i| |]; cbn in He |- *; rewrite ?app_nil_r.
  - destruct (stopped_ w); [destruct taken; by simplify_eq/=; rewrite ?app_nil_r|]. destruct taken; [|done]. cbn in He.
    destruct (running_ w); [by simplify_eq|]. by destruct (joined w); simplify_eq.
  - destruct (threads w !! i) as [[]|]; try done. destruct (waiting w) as [|k q]; [done|]. cbn in He.
    destruct (decide _); by simplify_eq.
  - destruct (threads w !! i) as [[]|]; try done. destruct (decide _); by simplify_eq.
  - destruct (threads w !! i) as [[]|]; try done. destruct (waiting w); cbn in He; by simplify_eq.
  - destruct (threads w !! i) as [[]|]; by simplify_eq.
  - by destruct (joining w); simplify_eq.
  - by destruct (joining w && joined w); simplify_eq.
Qed.

Lemma queue_steps (w : Worker (list Job) Job) tr w' :
  steps w tr = Some w' -> waiting w ++ accepted tr = begun tr ++ waiting w'.
Proof.
  revert w'. induction tr as [|e tr IH] using rev_ind; intros w' Hs.
  - injection Hs as <-. by rewrite app_nil_r.
  - apply steps_snoc in Hs as (v & Hv & He). unfold begun, accepted in *. rewrite !omap_app, app_assoc, (IH v Hv), <- !app_assoc.
    f_equal. by apply queue_step.
Qed.

Lemma accounted tr w : steps new_ordered tr = Some w -> accepted tr = ended tr ++ in_hand w ++ waiting w.
Proof.
  intros Hs. pose proof (queue_steps _ _ _ Hs) as Q. pose proof (begun_ended _ _ _ (Inv_new [] nothing_posted) Hs) as B.
  cbn in Q, B. rewrite Q, B. by rewrite app_assoc.
Qed.

(** The jobs posted are the jobs done, the one running and the ones queued, in that order:
    each runs once, after those posted before it, and never two at a time. *)
Theorem posted_jobs_run_in_order tr w :
  steps new_ordered tr = Some w ->
  accepted tr = ended tr ++ in_hand w ++ waiting w /\ (length (in_hand w) <= 1)%nat.
Proof.
  intros Hs. split; [by apply accounted|by eapply in_hand_one, Inv_ordered].
Qed.

(** Stop returns only once every job taken has run to its end, and a job posted after it is
    refused. *)
Theorem stop_runs_what_was_posted tr tr' w :
  steps new_ordered (tr ++ StopReturned :: tr') = Some w ->
  ended tr = accepted (tr ++ tr') /\ begun tr' = [].
Proof.
  intros Hs. destruct (stop_returned_facts [] tr tr' w nothing_posted Hs) as (v & Hv & _ & _ & Hh & Ht & Ha & Hb & _).
  split; [|done]. unfold accepted in *. rewrite omap_app, Ha, app_nil_r.
  pose proof (accounted tr v Hv) as E. unfold accepted in E. rewrite E, Hh. destruct (waiting v); [by rewrite app_nil_r|done].
Qed.

(** C30: the queue drains. However the thread is scheduled it takes a bounded number of steps on
    its own, and where it has none left every job posted has run, in order; such a run exists
    from every state the worker can reach. *)
Theorem posted_jobs_all_run tr w :
  steps new_ordered tr = Some w ->
  (forall tr' w', Forall of_thread tr' -> steps w tr' = Some w' ->
     (length tr' <= 3 * length (waiting w) + 3)%nat /\ (at_rest w' -> ended (tr ++ tr') = accepted tr)) /\
  exists tr' w', Forall of_thread tr' /\ steps w tr' = Some w' /\ at_rest w'.
Proof.
  intros Hw. pose proof (Inv_ordered _ _ Hw) as Iw. split; [|apply rest_is_reached].
  intros tr' w' Hf Hs. split.
  - pose proof (of_thread_bounded w tr' w' Hf Hs) as Hm. pose proof (Inv_weight w Iw) as Hx.
    unfold measure in Hm. cbn [weight jobs] in Hm. lia.
  - intros Hr. destruct (at_rest_empty w' (Inv_steps _ _ _ Iw Hs) Hr) as [Hh Ht].
    assert (steps new_ordered (tr ++ tr') = Some w') as Ha by (by rewrite steps_app, Hw).
    pose proof (accounted _ _ Ha) as E. rewrite Hh in E. destruct (waiting w'); [|done].
    rewrite app_nil_r in E. rewrite <- E. unfold accepted. rewrite omap_app. pose proof (accepted_of_thread tr' Hf) as E'. unfold accepted in E'. by rewrite E', app_nil_r.
Qed.
End OrderedWorker.

Example posted_jobs_run_in_order_witness :
  exists w : Worker (list nat) nat, steps new_ordered [Post 1%nat true; Took 0 1%nat; Post 2%nat true; Post 3%nat true; Did 0 1%nat; Took 0 2%nat] = Some w /\
    [1; 2; 3]%nat = [1]%nat ++ in_hand w ++ waiting w.
Proof.
  eexists. split; [reflexivity|].
  apply (posted_jobs_run_in_order [Post 1%nat true; Took 0 1%nat; Post 2%nat true; Post 3%nat true; Did 0 1%nat; Took 0 2%nat]). reflexivity.
Defined.

Example stop_runs_what_was_posted_witness :
  exists w : Worker (list nat) nat,
    steps new_ordered ([Post 1%nat true; StopAsked; Post 2%nat false; Took 0 1%nat; Did 0 1%nat; Left 0; Over 0] ++ StopReturned :: []) = Some w /\
    [1%nat] = accepted (R := nat) (J := nat) [Post 1%nat true; Post 2%nat false].
Proof.
  eexists. split; [reflexivity|].
  eapply (stop_runs_what_was_posted [Post 1%nat true; StopAsked; Post 2%nat false; Took 0 1%nat; Did 0 1%nat; Left 0; Over 0] []). reflexivity.
Defined.

Example posted_jobs_all_run_witness :
  exists w : Worker (list nat) nat, steps new_ordered [Post 1%nat true; StopAsked] = Some w /\
    ended (R := nat) ([Post 1%nat true; StopAsked] ++ [Took 0 1%nat; Did 0 1%nat; Left 0; Over 0]) = [1%nat].
Proof.
  eexists. split; [reflexivity|].
  eapply (posted_jobs_all_run [Post 1%nat true; StopAsked]); [reflexivity|repeat constructor|reflexivity|].
  apply over_at_rest. repeat constructor.
Defined.
End OrderedWorker.
