(* ===== verification/SignOut.v ===== *)
(** The sign-out the service is owed (Common/SignOut.h), as the session worker of the app
    delivers it (App/SdkHost.cpp: SignOutTailLocked, SettleSignOutLocked, and the owed checks
    of BootstrapSession and ReconcileProviderLocked), over the launches of the app: the process
    may die between any two of its actions, and the next launch reads the marker. *)

From S2P Require Import Prelude.

(** * The obligation *)

Inductive Request := StopTunnel | StopProvider | Logout.
Definition kRequests : list Request := [StopTunnel; StopProvider; Logout].

Inductive Delivery := Delivered | Unreachable | Refused.

#[export] Instance Request_eq_dec : EqDecision Request.
Proof. solve_decision. Defined.

(** The service as a delivery sees it, and what the file system does to the marker: [saved] is
    whether a write of this value took effect. *)
Record Service := mkService { reach : bool; send : Request -> bool; saved : bool -> bool }.

(** What the app does that outlives or leaves it, in order: [owed_] is stored, the marker
    written, the control channel dialled, a request sent and answered, [start_tunnel] or
    [start_provider] sent; and a launch reads the marker. *)
Inductive Act :=
| StoreOwed (owed : bool)
| WriteMarker (owed took_effect : bool)
| Reach (up : bool)
| Send (request : Request) (did : bool)
| Start
| Load.

#[export] Instance Act_eq_dec : EqDecision Act.
Proof. solve_decision. Defined.

Record Obligation := mkObligation { owed_ : bool; marker_ : bool }.

Definition act (o : Obligation) (a : Act) : Obligation :=
  match a with
  | StoreOwed b => mkObligation b (marker_ o)
  | WriteMarker b true => mkObligation (owed_ o) b
  | Load => mkObligation (marker_ o) (marker_ o)
  | _ => o
  end.

Definition acts (o : Obligation) (l : list Act) : Obligation := foldl act o l.

Definition Settle (owed : bool) (s : Service) : list Act * Delivery :=
  if negb owed then ([], Delivered) else
  if negb (reach s) then ([Reach false], Unreachable) else
  let requests := map (fun r => Send r (send s r)) kRequests in
  let done := forallb (send s) kRequests in
  if negb done then (Reach true :: requests, Refused) else
  (Reach true :: requests ++ [StoreOwed false; WriteMarker false (saved s false)], Delivered).

Definition Begin (s : Service) : list Act * Delivery :=
  let '(l, d) := Settle true s in (StoreOwed true :: WriteMarker true (saved s true) :: l, d).

(** * What the app does *)

(** A sign-out's tail, or a pass of the session worker; [starts] says the pass would start a
    session or the provider were nothing owed. *)
Inductive AppOp := SignsOut (s : Service) | Pass (s : Service) (starts : bool).

Definition SettleSignOutLocked (owed : bool) (s : Service) : list Act :=
  if negb owed then [] else (Settle owed s).1.

Definition owed_after (owed : bool) (s : Service) : bool :=
  if negb owed then false else match (Settle owed s).2 with Delivered => false | _ => true end.

Definition op_acts (owed : bool) (op : AppOp) : list Act :=
  match op with
  | SignsOut s => (Begin s).1
  | Pass s starts =>
      SettleSignOutLocked owed s ++ (if starts && negb (owed_after owed s) then [Start] else [])
  end.

(** An operation runs to its end, or the process dies after its first [n] actions and the next
    launch loads the marker. *)
Definition run_app_op (st : list Act * Obligation) (x : AppOp * option nat) : list Act * Obligation :=
  let '(tr, o) := st in
  let whole := op_acts (owed_ o) x.1 in
  let l := match x.2 with None => whole | Some n => take n whole ++ [Load] end in
  (tr ++ l, acts o l).

Definition run (o : Obligation) (ops : list (AppOp * option nat)) : list Act * Obligation := foldl run_app_op ([], o) ops.

(** * The promise *)

Definition delivery : list Act := [Send StopTunnel true; Send StopProvider true; Send Logout true].

Definition delivered (l : list Act) : Prop := exists a b, l = a ++ delivery ++ b.

(** The app died before it had written the sign-out down. *)
Definition lost (l : list Act) : Prop := exists a b, l = a ++ Load :: b /\ WriteMarker true true ∉ a.

(** What is true after every operation, of every sign-out of the trace. *)
Definition kept (tr : list Act) (o : Obligation) : Prop :=
  forall a b, tr = a ++ StoreOwed true :: b ->
    delivered b \/ lost b \/ (owed_ o = true /\ (WriteMarker true true ∈ b -> marker_ o = true)).

Lemma acts_app o a b : acts o (a ++ b) = acts (acts o a) b.
Proof. apply foldl_app. Qed.

Lemma delivered_app_l a b : delivered a -> delivered (a ++ b).
Proof. intros (x & y & ->). exists x, (y ++ b). by rewrite <- !app_assoc. Qed.

Lemma lost_app_l a b : lost a -> lost (a ++ b).
Proof. intros (x & y & -> & H). exists x, (y ++ b). split; [by rewrite <- app_assoc|done]. Qed.

(** The trace ends in the three requests, with no sign-out begun since. *)
Definition just_delivered (tr : list Act) : Prop := exists x z, tr = x ++ delivery ++ z /\ StoreOwed true ∉ z.

Lemma just_delivered_app tr l : just_delivered l -> just_delivered (tr ++ l).
Proof. intros (x & z & -> & Hz). exists (tr ++ x), z. by rewrite <- app_assoc. Qed.

Lemma just_delivered_split a b : just_delivered (a ++ StoreOwed true :: b) -> delivered b.
Proof.
  intros (x & z & E & Hz). apply app_eq_app in E as (k & [[-> E]|[-> E]]).
  - destruct k as [|c k]; [done|]. injection E as <- E. exfalso. cbn in E.
    repeat (destruct k as [|? k]; [by simplify_eq|]; injection E as <- E).
    apply Hz. rewrite E. set_solver.
  - destruct k as [|c k]; [done|]. injection E as <- ->. by exists k, z.
Qed.

(** What takes the obligation back. *)
Definition clears (c : Act) : Prop := match c with StoreOwed false | WriteMarker false _ => True | _ => False end.

(** A continuation [l] of the trace [tr], which left the state [o]: the obligation is taken back
    only after the three requests, and nothing starts while it is owed. *)
Fixpoint guarded (tr : list Act) (o : Obligation) (l : list Act) : Prop :=
  match l with
  | [] => True
  | c :: l => (clears c -> just_delivered tr) /\ (c = Start -> owed_ o = false) /\ guarded (tr ++ [c]) (act o c) l
  end.

Lemma guarded_app tr o a b : guarded tr o (a ++ b) <-> guarded tr o a /\ guarded (tr ++ a) (acts o a) b.
Proof.
  revert tr o. induction a as [|c a IH]; intros tr o; cbn; [rewrite app_nil_r; naive_solver|].
  rewrite IH, <- app_assoc. cbn. naive_solver.
Qed.

Lemma guarded_take tr o l n : guarded tr o l -> guarded tr o (take n l ++ [Load]).
Proof. intros H. rewrite <- (take_drop n l) in H. apply guarded_app in H as [H _]. apply guarded_app. by cbn. Qed.

Lemma kept_act tr o c : kept tr o -> (clears c -> just_delivered tr) -> kept (tr ++ [c]) (act o c).
Proof.
  intros Hk Hc a b E. destruct b as [|d b' _] using rev_ind.
  - apply app_inj_tail in E as [_ ->]. right; right. cbn. split; [done|]. by intros ?%not_elem_of_nil.
  - rewrite app_comm_cons, app_assoc in E. apply app_inj_tail in E as [-> <-].
    destruct (Hk a b' eq_refl) as [Hd|[Hl|[Ho Hm]]]; [left; by apply delivered_app_l|right; left; by apply lost_app_l|].
    assert (clears c -> delivered (b' ++ [c])) as Hc' by (intros ?; apply delivered_app_l; eapply just_delivered_split; eauto).
    destruct c as [[]|[] []|u|r d| |]; cbn in *; try (left; by apply Hc').
    1-6: right; right; split; [done|]; rewrite elem_of_app, list_elem_of_singleton; naive_solver.
    destruct (decide (WriteMarker true true ∈ b')) as [Hw|Hw].
    + right; right. rewrite (Hm Hw). split; [done|]. intros _. done.
    + right; left. exists b', []. done.
Qed.

Lemma kept_guarded tr o l : kept tr o -> guarded tr o l -> kept (tr ++ l) (acts o l).
Proof.
  revert tr o. induction l as [|c l IH]; intros tr o Hk Hg; [by rewrite app_nil_r|].
  destruct Hg as (Hc & _ & Hg). replace (tr ++ c :: l) with ((tr ++ [c]) ++ l) by (by rewrite <- app_assoc).
  apply IH; [by apply kept_act|done].
Qed.

Lemma settle_guarded tr o s : guarded tr o (Settle (owed_ o) s).1.
Proof.
  unfold Settle. destruct (owed_ o); [|done]. destruct (reach s); [|by cbn]. cbn.
  destruct (send s StopTunnel), (send s StopProvider), (send s Logout); cbn; split_and!; try done; intros _.
  - exists (tr ++ [Reach true]), []. cbn. rewrite <- !app_assoc. split; [done|set_solver].
  - exists (tr ++ [Reach true]), [StoreOwed false]. cbn. rewrite <- !app_assoc. split; [done|set_solver].
Qed.

(** What the pass reads after the delivery is what the delivery left. *)
Lemma owed_after_settle o s : owed_ (acts o (SettleSignOutLocked (owed_ o) s)) = owed_after (owed_ o) s.
Proof.
  unfold SettleSignOutLocked, owed_after, Settle. destruct (owed_ o) eqn:E; [|done].
  destruct (reach s); [|done]. cbn. destruct (send s StopTunnel), (send s StopProvider), (send s Logout); try done.
  cbn. by destruct (saved s false).
Qed.

Lemma op_guarded tr o op : guarded tr o (op_acts (owed_ o) op).
Proof.
  destruct op as [s|s starts]; cbn.
  - unfold Begin. set (o' := act (act o (StoreOwed true)) (WriteMarker true (saved s true))).
    assert (owed_ o' = true) as Ho by (cbn; by destruct (saved s true)).
    pose proof (settle_guarded ((tr ++ [StoreOwed true]) ++ [WriteMarker true (saved s true)]) o' s) as H.
    rewrite Ho in H. destruct (Settle true s) as [l d]. by split_and!.
  - apply guarded_app. split; [unfold SettleSignOutLocked; destruct (owed_ o) eqn:E; [rewrite <- E at 2; apply settle_guarded|done]|].
    rewrite <- owed_after_settle. destruct (starts && negb _) eqn:E; [|done]. bool_hyps. by split_and!.
Qed.

Lemma run_guarded o ops : guarded [] o (run o ops).1 /\ (run o ops).2 = acts o (run o ops).1.
Proof.
  induction ops as [|x ops [IH1 IH2]] using rev_ind; [done|].
  unfold run in *. rewrite foldl_app. destruct (foldl run_app_op ([], o) ops) as [tr o']. cbn [fst snd] in *. subst o'. cbn.
  split; [|by rewrite acts_app]. apply guarded_app. split; [done|].
  destruct x.2; [apply guarded_take|]; apply op_guarded.
Qed.

(** * The properties *)

(** C25: after a sign-out nothing starts before the service has done all three requests. In any
    history of sign-outs, passes, crashes and relaunches, and whatever each call answers, every
    start that follows a sign-out is preceded by a delivery of stop_tunnel, stop_provider and
    logout, in that order and each done; or else the app was loaded again before any write of
    the sign-out to the marker had gone through, having died first or failed to write it. *)
Theorem no_start_before_the_sign_out_is_done o ops a b c :
  (run o ops).1 = a ++ StoreOwed true :: b ++ Start :: c -> delivered b \/ lost b.
Proof.
  intros E. pose proof (proj1 (run_guarded o ops)) as Hg. rewrite E in Hg.
  replace (a ++ StoreOwed true :: b ++ Start :: c) with ((a ++ StoreOwed true :: b) ++ Start :: c) in Hg
    by (by rewrite <- app_assoc).
  apply guarded_app in Hg as [Hg (_ & Hs & _)].
  assert (kept [] o) as H0 by (intros x y Hxy; by destruct x).
  destruct (kept_guarded [] o _ H0 Hg a b eq_refl) as [?|[?|[Ho _]]]; [by left|by right|].
  rewrite Hs in Ho; done.
Qed.

(** A sign-out that is owed is delivered by the first pass the service answers, before that
    pass starts anything, and stays owed, with its marker, through every pass it does not. *)
Theorem owed_sign_out_is_settled o s starts :
  owed_ o = true -> marker_ o = true -> saved s false = true ->
  let o' := acts o (op_acts (owed_ o) (Pass s starts)) in
  if reach s && forallb (send s) kRequests then
    op_acts (owed_ o) (Pass s starts) =
      Reach true :: delivery ++ [StoreOwed false; WriteMarker false true] ++ (if starts then [Start] else []) /\
    o' = mkObligation false false
  else Start ∉ op_acts (owed_ o) (Pass s starts) /\ o' = o.
Proof.
  intros Ho Hm Hs. destruct o as [ow mk]. cbn in Ho, Hm. subst ow mk.
  cbn [op_acts owed_]. unfold SettleSignOutLocked, owed_after, Settle. cbn [negb].
  destruct (reach s); cbn; [|rewrite andb_false_r; cbn; split; [set_solver|done]].
  destruct (send s StopTunnel), (send s StopProvider), (send s Logout); cbn; rewrite ?andb_false_r, ?Hs; cbn.
  1: destruct starts; by cbn.
  all: split; [set_solver|done].
Qed.

(** ** Witnesses *)

(** Unreachable, then a crash, then a refused provider stop, then the three requests. *)
Example no_start_before_the_sign_out_is_done_witness :
  let down := mkService false (fun _ => true) (fun _ => true) in
  let half := mkService true (fun r => bool_decide (r <> StopProvider)) (fun _ => true) in
  let good := mkService true (fun _ => true) (fun _ => true) in
  let ops := [(SignsOut down, None); (Pass down true, Some 0%nat); (Pass half true, None); (Pass good true, None)] in
  exists b, (run (mkObligation false false) ops).1 = [] ++ StoreOwed true :: b ++ Start :: [] /\ (delivered b \/ lost b).
Proof.
  intros down half good ops. eexists. split.
  - vm_compute. match goal with |- _ :: ?l = _ => change l with (removelast l ++ [Start]) end. reflexivity.
  - apply (no_start_before_the_sign_out_is_done (mkObligation false false) ops [] _ []). vm_compute. reflexivity.
Defined.

Example owed_sign_out_is_settled_witness :
  let good := mkService true (fun _ => true) (fun _ => true) in
  op_acts true (Pass good true) = Reach true :: delivery ++ [StoreOwed false; WriteMarker false true; Start].
Proof. exact (proj1 (owed_sign_out_is_settled (mkObligation true true) (mkService true (fun _ => true) (fun _ => true)) true eq_refl eq_refl eq_refl)). Defined.
