(* ===== verification/SignOutRun.v ===== *)
(** A sign-out on a thread of its own and the sign-ins it orders after it (App/SignOutRun.h),
    with the parts of App/SdkHost.cpp that run against it: Logout on the UI thread, SignOutTail
    on its worker's, and RegisterNetworkClient with its callback on the sdk's. The threads
    interleave at every lock and every store. *)

From S2P Require Import Prelude.

(** * The order *)

Section Run.
Context {SignIn : Type}.

Record SignOutRun := mkRun { running_ : bool; epoch_ : Z; deferred_ : option SignIn }.

Definition Begin (r : SignOutRun) : bool * SignOutRun :=
  if running_ r then (false, r) else (true, mkRun true (u64 (epoch_ r + 1)) (deferred_ r)).

Definition Finish (r : SignOutRun) : option SignIn * SignOutRun := (deferred_ r, mkRun false (epoch_ r) None).

(** Whether the sign-in waits, the one it replaced, and the run. *)
Definition Defer (r : SignOutRun) (signIn : SignIn) (epoch : Z) : bool * option SignIn * SignOutRun :=
  if negb (epoch =? epoch_ r) then (false, None, r) else
  if negb (running_ r) then (false, None, r) else
  (true, deferred_ r, mkRun (running_ r) (epoch_ r) (Some signIn)).

Definition ApplyIfCurrent (r : SignOutRun) (epoch : Z) : bool := epoch =? epoch_ r.
End Run.
Arguments SignOutRun : clear implicits.

(** * The host *)

(** A sign-in attempt: at the door of [RegisterNetworkClient], waiting for a tail, past
    [Defer], in the first section of [mutex_] before and after its epoch check, waiting for
    the api, in the second section before and after its check, about to commit, over. *)
Inductive RegPc := AtDoor | Waits | Free | Check1 | Install1 | Dispatched | Check2 | Install2 | Completes | Over.

Record Registration := mkReg { reg_epoch : Z; reg_pc : RegPc }.

(** [Logout] on the UI thread: not in it, past [Begin], past the [loggedIn_] store. *)
Inductive UiPc := Quiet | Began | SignedOut.

(** The tail: none, its worker asked for it, it wants [mutex_], it holds it before and after
    each of its clears, it is past its last statement, it has let the lock go. *)
Inductive TailPc := NoTail | Asked | Wants | Locked | LocalCleared | ApiCleared | Ends | Unlocked.

Inductive Holder := ByTail | ByReg (i : nat).

#[export] Instance RegPc_eq_dec : EqDecision RegPc. Proof. solve_decision. Defined.
#[export] Instance UiPc_eq_dec : EqDecision UiPc. Proof. solve_decision. Defined.
#[export] Instance TailPc_eq_dec : EqDecision TailPc. Proof. solve_decision. Defined.
#[export] Instance Holder_eq_dec : EqDecision Holder. Proof. solve_decision. Defined.

(** The credentials carry the epoch of the attempt that installed them: [api] the one the api
    sends, [local] the stored one. *)
Record Host := mkHost {
  run : SignOutRun nat; ui : UiPc; tail : TailPc; mutex_ : option Holder;
  api : option Z; local : option Z; loggedIn_ : bool; regs : list Registration }.

Inductive Ev :=
| LogoutBegins | LogoutSignsOut | LogoutAsks
| TailRuns | TailLocks | TailClearsLocal | TailClearsApi | TailDelivers | TailThrows | TailUnlocks | TailFinishes
| AttemptBegins | AttemptEnds (i : nat) | Registers (i : nat)
| Locks1 (i : nat) | Checks1 (i : nat) | Installs1 (i : nat)
| Locks2 (i : nat) | Checks2 (i : nat) | Installs2 (i : nat) (stored ok : bool)
| Commits (i : nat).

Definition with_ui (h : Host) (r : SignOutRun nat) (u : UiPc) (t : TailPc) (l : bool) : Host :=
  mkHost r u t (mutex_ h) (api h) (local h) l (regs h).
Definition with_tail (h : Host) (t : TailPc) (m : option Holder) (a l : option Z) : Host :=
  mkHost (run h) (ui h) t m a l (loggedIn_ h) (regs h).
Definition set_pc (i : nat) (p : RegPc) (l : list Registration) : list Registration :=
  alter (fun r => mkReg (reg_epoch r) p) i l.
Definition with_reg (h : Host) (i : nat) (p : RegPc) (m : option Holder) (a l : option Z) : Host :=
  mkHost (run h) (ui h) (tail h) m a l (loggedIn_ h) (set_pc i p (regs h)).
Definition with_run (h : Host) (r : SignOutRun nat) (t : TailPc) (rs : list Registration) : Host :=
  mkHost r (ui h) t (mutex_ h) (api h) (local h) (loggedIn_ h) rs.

(** [i] is at [p]. *)
Definition reg_at (h : Host) (i : nat) (p : RegPc) : option Registration :=
  match regs h !! i with Some r => if decide (reg_pc r = p) then Some r else None | None => None end.

Definition opt_pc (o : option nat) (p : RegPc) (l : list Registration) : list Registration :=
  match o with Some i => set_pc i p l | None => l end.

Definition step (h : Host) (e : Ev) : option Host :=
  match e with
  (* Logout *)
  | LogoutBegins =>
      if decide (ui h = Quiet) then
        let '(began, r) := Begin (run h) in
        Some (if began then with_ui h r Began (tail h) (loggedIn_ h) else h)
      else None
  | LogoutSignsOut => if decide (ui h = Began) then Some (with_ui h (run h) SignedOut (tail h) false) else None
  | LogoutAsks =>
      if decide (ui h = SignedOut /\ tail h = NoTail) then Some (with_ui h (run h) Quiet Asked (loggedIn_ h)) else None
  (* SignOutTail *)
  | TailRuns => if decide (tail h = Asked) then Some (with_tail h Wants (mutex_ h) (api h) (local h)) else None
  | TailLocks =>
      if decide (tail h = Wants /\ mutex_ h = None) then Some (with_tail h Locked (Some ByTail) (api h) (local h)) else None
  | TailClearsLocal => if decide (tail h = Locked) then Some (with_tail h LocalCleared (mutex_ h) (api h) None) else None
  | TailClearsApi => if decide (tail h = LocalCleared) then Some (with_tail h ApiCleared (mutex_ h) None (local h)) else None
  | TailDelivers => if decide (tail h = ApiCleared) then Some (with_tail h Ends (mutex_ h) (api h) (local h)) else None
  | TailThrows =>
      if decide (tail h = Locked \/ tail h = LocalCleared \/ tail h = ApiCleared)
      then Some (with_tail h Ends (mutex_ h) (api h) (local h)) else None
  | TailUnlocks => if decide (tail h = Ends) then Some (with_tail h Unlocked None (api h) (local h)) else None
  | TailFinishes =>
      if decide (tail h = Unlocked) then
        let '(next, r) := Finish (run h) in Some (with_run h r NoTail (opt_pc next AtDoor (regs h)))
      else None
  (* a sign-in attempt *)
  | AttemptBegins => Some (with_run h (run h) (tail h) (regs h ++ [mkReg (epoch_ (run h)) AtDoor]))
  | AttemptEnds i => match reg_at h i AtDoor with Some _ => Some (with_reg h i Over (mutex_ h) (api h) (local h)) | None => None end
  | Registers i =>
      match reg_at h i AtDoor with
      | Some r =>
          let '(waits, replaced, r') := Defer (run h) i (reg_epoch r) in
          Some (with_run h r' (tail h) (set_pc i (if waits : bool then Waits else Free) (opt_pc replaced Over (regs h))))
      | None => None
      end
  | Locks1 i =>
      match reg_at h i Free, mutex_ h with
      | Some _, None => Some (with_reg h i Check1 (Some (ByReg i)) (api h) (local h)) | _, _ => None end
  | Checks1 i =>
      match reg_at h i Check1 with
      | Some r => Some (if reg_epoch r =? epoch_ (run h) then with_reg h i Install1 (mutex_ h) (api h) (local h)
                        else with_reg h i Over None (api h) (local h))
      | None => None
      end
  | Installs1 i =>
      match reg_at h i Install1 with Some r => Some (with_reg h i Dispatched None (Some (reg_epoch r)) (local h)) | None => None end
  (* its callback *)
  | Locks2 i =>
      match reg_at h i Dispatched, mutex_ h with
      | Some _, None => Some (with_reg h i Check2 (Some (ByReg i)) (api h) (local h)) | _, _ => None end
  | Checks2 i =>
      match reg_at h i Check2 with
      | Some r => Some (if reg_epoch r =? epoch_ (run h) then with_reg h i Install2 (mutex_ h) (api h) (local h)
                        else with_reg h i Over None (api h) (local h))
      | None => None
      end
  | Installs2 i stored ok =>
      match reg_at h i Install2 with
      | Some r => Some (with_reg h i (if ok then Completes else Over) None (api h) (if stored then Some (reg_epoch r) else local h))
      | None => None
      end
  | Commits i =>
      match reg_at h i Completes with
      | Some r =>
          let h' := with_reg h i Over (mutex_ h) (api h) (local h) in
          Some (if ApplyIfCurrent (run h) (reg_epoch r) then with_ui h' (run h') (ui h') (tail h') true else h')
      | None => None
      end
  end.

Definition steps (h : Host) (tr : list Ev) : option Host := foldl (fun oh e => oh ≫= fun h => step h e) (Some h) tr.

(** A launch: nobody is signed in, or the stored account is. *)
Definition launch (stored : bool) : Host :=
  mkHost (mkRun false 0 None) Quiet NoTail None (if stored then Some 0 else None) (if stored then Some 0 else None) stored [].

Lemma executed_snoc h tr e h' : steps h (tr ++ [e]) = Some h' <-> exists v, steps h tr = Some v /\ step v e = Some h'.
Proof. unfold steps. rewrite foldl_app. cbn. by rewrite bind_Some. Qed.

(** * The invariant *)

(** Past [Defer], with the credential yet to be installed or committed. *)
Definition past_defer (p : RegPc) : Prop := match p with AtDoor | Waits | Over => False | _ => True end.
(** In [mutex_], and in it past the check. *)
Definition in_mutex (p : RegPc) : Prop := match p with Check1 | Install1 | Check2 | Install2 => True | _ => False end.
Definition installing (p : RegPc) : Prop := match p with Install1 | Install2 => True | _ => False end.
Definition tail_locked (t : TailPc) : Prop := match t with Locked | LocalCleared | ApiCleared | Ends => True | _ => False end.

Definition older (E : Z) (c : option Z) : Prop := forall e, c = Some e -> e < E.

Record Inv (h : Host) : Prop := {
  inv_idle : running_ (run h) = false -> ui h = Quiet /\ tail h = NoTail;
  inv_phase : running_ (run h) = true -> (ui h <> Quiet <-> tail h = NoTail);
  inv_mutex_tail : mutex_ h = Some ByTail <-> tail_locked (tail h);
  inv_mutex_reg : forall i r, regs h !! i = Some r -> in_mutex (reg_pc r) -> mutex_ h = Some (ByReg i);
  inv_epochs : forall i r, regs h !! i = Some r -> reg_epoch r <= epoch_ (run h);
  inv_past : running_ (run h) = true -> forall i r, regs h !! i = Some r -> past_defer (reg_pc r) -> reg_epoch r < epoch_ (run h);
  inv_creds : running_ (run h) = true -> older (epoch_ (run h)) (api h) /\ older (epoch_ (run h)) (local h);
  inv_creds_le : older (epoch_ (run h) + 1) (api h) /\ older (epoch_ (run h) + 1) (local h);
  inv_flag : running_ (run h) = true -> ui h <> Began -> loggedIn_ h = false
}.

Lemma Inv_launch stored : Inv (launch stored).
Proof. split; try done; cbn; try naive_solver lia. destruct stored; split; intros e [= <-]; lia. Qed.

Lemma reg_at_Some h i p r : reg_at h i p = Some r <-> regs h !! i = Some r /\ reg_pc r = p.
Proof. unfold reg_at. destruct (regs h !! i); [destruct (decide _)|]; naive_solver. Qed.

Lemma set_pc_Some i p l j r :
  set_pc i p l !! j = Some r ->
  (j <> i /\ l !! j = Some r) \/ (j = i /\ exists r0, l !! i = Some r0 /\ r = mkReg (reg_epoch r0) p).
Proof.
  unfold set_pc. rewrite list_lookup_alter. destruct (decide (i = j)) as [->|]; [|by left].
  intros (r0 & H0 & ->)%fmap_Some. right. eauto.
Qed.

(** What becomes of the lock when a registration moves from [i] to [p]: kept, taken or let go. *)
Definition lock_move (h : Host) (i : nat) (p : RegPc) (m : option Holder) : Prop :=
  (m = mutex_ h /\ (in_mutex p -> mutex_ h = Some (ByReg i))) \/
  (mutex_ h = None /\ m = Some (ByReg i)) \/
  (mutex_ h = Some (ByReg i) /\ m = None /\ ~ in_mutex p).

Lemma Inv_reg h i r p m a l :
  Inv h -> regs h !! i = Some r -> lock_move h i p m ->
  (running_ (run h) = true -> past_defer p -> reg_epoch r < epoch_ (run h)) ->
  (running_ (run h) = true -> older (epoch_ (run h)) a /\ older (epoch_ (run h)) l) ->
  older (epoch_ (run h) + 1) a /\ older (epoch_ (run h) + 1) l ->
  Inv (with_reg h i p m a l).
Proof.
  intros [] Hi Hm Hp Ha Hl. split; cbn; try done.
  - destruct Hm as [[-> _]|[[Hm ->]|(Hm & -> & _)]]; [done|..]; rewrite <- inv_mutex_tail0, Hm; naive_solver.
  - intros j q [[Hne Hj]|(-> & r0 & Hr & ->)]%set_pc_Some Hq; cbn in *.
    + destruct Hm as [[-> _]|[[Hm ->]|(Hm & -> & Hn)]]; [by eapply inv_mutex_reg0|..];
        pose proof (inv_mutex_reg0 j q Hj Hq) as E; rewrite Hm in E; [done|]. by injection E as <-.
    + destruct Hm as [[-> Hm]|[[Hm ->]|(Hm & -> & Hn)]]; [by apply Hm|done|done].
  - intros j q [[Hne Hj]|(-> & r0 & Hr & ->)]%set_pc_Some; cbn; [by eapply inv_epochs0|by eapply inv_epochs0].
  - intros Hr j q [[Hne Hj]|(-> & r0 & Hr0 & ->)]%set_pc_Some Hq; cbn in *; [by eapply inv_past0|]. simplify_eq. by apply Hp.
Qed.

(** A registration past [Defer] moves on, and may install its credential. *)
Lemma Inv_reg_on h i r p m a l :
  Inv h -> regs h !! i = Some r -> lock_move h i p m -> past_defer (reg_pc r) ->
  (a = api h \/ a = Some (reg_epoch r)) -> (l = local h \/ l = Some (reg_epoch r)) -> Inv (with_reg h i p m a l).
Proof.
  intros Hi Hr Hm Hp Ha Hl. pose proof Hi as []. pose proof (inv_epochs0 i r Hr).
  eapply Inv_reg; try done.
  - intros Hrun _. by eapply inv_past0.
  - intros Hrun. pose proof (inv_past0 Hrun i r Hr Hp). destruct (inv_creds0 Hrun).
    destruct Ha as [->| ->], Hl as [->| ->]; split; try done; intros e [= <-]; lia.
  - destruct inv_creds_le0. destruct Ha as [->| ->], Hl as [->| ->]; split; try done; intros e [= <-]; lia.
Qed.

(** The events of the tail and of Logout leave the registrations where they are. *)
Lemma Inv_tail h t m a l :
  Inv h -> tail h <> NoTail -> t <> NoTail ->
  (m = mutex_ h /\ (tail_locked t <-> tail_locked (tail h)) \/
   mutex_ h = None /\ m = Some ByTail /\ tail_locked t \/ mutex_ h = Some ByTail /\ m = None /\ ~ tail_locked t) ->
  (a = api h \/ a = None) -> (l = local h \/ l = None) -> Inv (with_tail h t m a l).
Proof.
  intros [] Ht Ht' Hm Ha Hl. split; cbn; try done.
  - intros Hr. by destruct (inv_idle0 Hr).
  - intros Hr. specialize (inv_phase0 Hr). tauto.
  - destruct Hm as [[-> Hm]|[(Hm & -> & Hl')|(Hm & -> & Hl')]]; [by rewrite Hm|done|naive_solver].
  - intros i r Hi Hp. pose proof (inv_mutex_reg0 i r Hi Hp) as E.
    destruct Hm as [[-> Hm]|[(Hm & -> & Hl')|(Hm & -> & Hl')]]; congruence.
  - intros Hr. destruct (inv_creds0 Hr). destruct Ha as [->| ->], Hl as [->| ->]; by split.
  - destruct inv_creds_le0. destruct Ha as [->| ->], Hl as [->| ->]; by split.
Qed.

Lemma older_mono a b c : older a c -> a <= b -> older b c.
Proof. intros H Hab e He. specialize (H e He). lia. Qed.

Lemma Inv_running_tail h : Inv h -> tail h <> NoTail -> running_ (run h) = true.
Proof. intros [] Ht. destruct (running_ (run h)); [done|]. by destruct inv_idle0. Qed.

Lemma u64_succ n : 0 <= n < 2 ^ 64 - 1 -> u64 (n + 1) = n + 1.
Proof. intros. apply wrap_small. lia. Qed.

Lemma Inv_begins h h' : Inv h -> 0 <= epoch_ (run h) < 2 ^ 64 - 1 -> step h LogoutBegins = Some h' -> Inv h'.
Proof.
  intros Hi He Hs. cbn in Hs. destruct (decide _) as [Hu|]; [|done]. unfold Begin in Hs.
  destruct (running_ (run h)) eqn:Er; injection Hs as <-; [done|]. destruct Hi.
  destruct (inv_idle0 Er) as [_ Ht]. split; cbn; rewrite ?u64_succ by done; try done.
  - intros i r Hi. specialize (inv_epochs0 i r Hi). lia.
  - intros _ i r Hi _. specialize (inv_epochs0 i r Hi). lia.
  - destruct inv_creds_le0. split; eapply older_mono; try done; lia.
Qed.

Lemma Inv_registers h i h' : Inv h -> step h (Registers i) = Some h' -> Inv h'.
Proof.
  intros Hi Hs. cbn in Hs. destruct (reg_at h i AtDoor) as [r|] eqn:Er; [|done]. apply reg_at_Some in Er as [Er Hp].
  destruct (Defer (run h) i (reg_epoch r)) as [[waits replaced] r'] eqn:Ed. injection Hs as <-.
  assert (running_ r' = running_ (run h) /\ epoch_ r' = epoch_ (run h) /\
          (waits = false -> running_ (run h) = true -> reg_epoch r < epoch_ (run h))) as (E1 & E2 & E3).
  { pose proof (inv_epochs h Hi i r Er). unfold Defer in Ed.
    destruct (Z.eqb_spec (reg_epoch r) (epoch_ (run h))); cbn in Ed; [destruct (running_ (run h)) eqn:E; cbn in Ed|];
      injection Ed as <- <- <-; split_and!; try done; intros; lia. }
  assert (forall j q, set_pc i (if waits then Waits else Free) (opt_pc replaced Over (regs h)) !! j = Some q ->
          (regs h !! j = Some q) \/ (exists q0, regs h !! j = Some q0 /\ reg_epoch q0 = reg_epoch q /\ ~ in_mutex (reg_pc q) /\
             (past_defer (reg_pc q) -> reg_epoch q = reg_epoch r /\ waits = false))) as Hq.
  { intros j q [[Hne Hj]|(-> & r0 & Hr & ->)]%set_pc_Some; cbn.
    - destruct replaced as [k|]; [|by left].
      apply set_pc_Some in Hj as [[_ Hj]|(-> & r0 & Hr & ->)]; [by left|right]. exists r0. cbn. split_and!; [done|done|by intros []|by intros []].
    - right. assert (exists r1, regs h !! i = Some r1 /\ reg_epoch r1 = reg_epoch r0) as (r1 & H1 & H2).
      { destruct replaced as [k|]; [|eauto]. apply set_pc_Some in Hr as [[_ Hr]|(-> & r1 & Hr & ->)]; eauto. }
      simplify_eq. exists r. split_and!; [done|done|by destruct waits; cbn; intros []|]. destruct waits; cbn; [by intros []|done]. }
  destruct Hi. split; cbn; rewrite ?E1, ?E2; try done.
  - intros j q [Hj|(q0 & Hj & _ & Hn & _)]%Hq Hm; [by eapply inv_mutex_reg0|done].
  - intros j q [Hj|(q0 & Hj & <- & _)]%Hq; by eapply inv_epochs0.
  - intros Hr j q [Hj|(q0 & Hj & He & _ & Hpd)]%Hq Hpq; [by eapply inv_past0|].
    destruct (Hpd Hpq) as [-> ->]. by apply E3.
Qed.

Lemma Inv_finishes h h' : Inv h -> step h TailFinishes = Some h' -> Inv h'.
Proof.
  intros Hi Hs. cbn in Hs. destruct (decide _) as [Ht|]; [|done]. injection Hs as <-.
  pose proof (Inv_running_tail h Hi ltac:(congruence)) as Er. destruct Hi.
  assert (forall j q, opt_pc (deferred_ (run h)) AtDoor (regs h) !! j = Some q ->
            exists q0, regs h !! j = Some q0 /\ reg_epoch q0 = reg_epoch q /\ (in_mutex (reg_pc q) -> q0 = q)) as Hq.
  { intros j q Hj. destruct (deferred_ (run h)); [|eauto].
    apply set_pc_Some in Hj as [[_ Hj]|(-> & r0 & Hr & ->)]; [eauto|exists r0; cbn; naive_solver]. }
  assert (ui h = Quiet) as Hu by (destruct (ui h) eqn:E; [done|..]; exfalso; apply inv_phase0 in Er; naive_solver congruence).
  split; cbn; try done.
  - rewrite inv_mutex_tail0, Ht. cbn. tauto.
  - intros j q (q0 & Hj & _ & Hm)%Hq Hin. rewrite (Hm Hin) in *. by eapply inv_mutex_reg0.
  - intros j q (q0 & Hj & <- & _)%Hq. by eapply inv_epochs0.
Qed.

Lemma Inv_stepped h e h' : Inv h -> 0 <= epoch_ (run h) < 2 ^ 64 - 1 -> step h e = Some h' -> Inv h'.
Proof.
  intros Hi He Hs. destruct e; try (by eapply Inv_begins); try (by eapply Inv_finishes); try (by eapply Inv_registers); cbn in Hs.
  (* Logout *)
  - destruct (decide _) as [Hu|]; simplify_eq. pose proof Hi as []. split; cbn; try done.
    + intros Hr. destruct (inv_idle0 Hr). congruence.
    + intros Hr. specialize (inv_phase0 Hr). rewrite Hu in inv_phase0. naive_solver.
  - destruct (decide _) as [[Hu Ht]|]; simplify_eq. pose proof Hi as []. split; cbn; try done.
    + intros Hr. destruct (inv_idle0 Hr). congruence.
    + rewrite inv_mutex_tail0, Ht. cbn. tauto.
    + intros Hr _. apply inv_flag0; congruence.
  (* the tail *)
  - destruct (decide _) as [Ht|]; simplify_eq. apply Inv_tail; rewrite ?Ht; cbn; auto; tauto.
  - destruct (decide _) as [[Ht Hm]|]; simplify_eq. apply Inv_tail; rewrite ?Ht; cbn; auto 6.
  - destruct (decide _) as [Ht|]; simplify_eq. apply Inv_tail; rewrite ?Ht; cbn; auto; tauto.
  - destruct (decide _) as [Ht|]; simplify_eq. apply Inv_tail; rewrite ?Ht; cbn; auto; tauto.
  - destruct (decide _) as [Ht|]; simplify_eq. apply Inv_tail; rewrite ?Ht; cbn; auto; tauto.
  - destruct (decide _) as [[Ht|[Ht|Ht]]|]; simplify_eq; apply Inv_tail; rewrite ?Ht; cbn; auto; tauto.
  - destruct (decide _) as [Ht|]; simplify_eq. pose proof (inv_mutex_tail h Hi) as E. rewrite Ht in E.
    apply Inv_tail; rewrite ?Ht; cbn; auto. right; right. split_and!; [by apply E|done|tauto].
  (* an attempt *)
  - simplify_eq. pose proof Hi as []. split; cbn; try done.
    + intros j q [Hj|[_ Hj]]%lookup_app_Some Hq; [by eapply inv_mutex_reg0|].
      apply list_lookup_singleton_Some in Hj as [_ <-]. done.
    + intros j q [Hj|[_ Hj]]%lookup_app_Some; [by eapply inv_epochs0|].
      apply list_lookup_singleton_Some in Hj as [_ <-]. done.
    + intros Hr j q [Hj|[_ Hj]]%lookup_app_Some Hq; [by eapply inv_past0|].
      apply list_lookup_singleton_Some in Hj as [_ <-]. done.
  - destruct (reg_at h i _) as [r|] eqn:Er; simplify_eq. apply reg_at_Some in Er as [Er Hp]. pose proof Hi as [].
    eapply Inv_reg; try done. left. by split.
  - destruct (reg_at h i _) as [r|] eqn:Er; [|done]. destruct (mutex_ h) eqn:Em; simplify_eq.
    apply reg_at_Some in Er as [Er Hp]. eapply Inv_reg_on; try done; [right; left; done|by rewrite Hp|by left|by left].
  - destruct (reg_at h i _) as [r|] eqn:Er; simplify_eq. apply reg_at_Some in Er as [Er Hp].
    pose proof (inv_mutex_reg h Hi i r Er ltac:(by rewrite Hp)) as Em.
    destruct (_ =? _); eapply Inv_reg_on; try done; try (by rewrite Hp); try (by left); first [left; by split|right; right; split_and!; [done|done|by intros []]].
  - destruct (reg_at h i _) as [r|] eqn:Er; simplify_eq. apply reg_at_Some in Er as [Er Hp].
    pose proof (inv_mutex_reg h Hi i r Er ltac:(by rewrite Hp)) as Em.
    eapply Inv_reg_on; try done; [right; right; split_and!; [done|done|by intros []]|by rewrite Hp|by right|by left].
  - destruct (reg_at h i _) as [r|] eqn:Er; [|done]. destruct (mutex_ h) eqn:Em; simplify_eq.
    apply reg_at_Some in Er as [Er Hp]. eapply Inv_reg_on; try done; [right; left; done|by rewrite Hp|by left|by left].
  - destruct (reg_at h i _) as [r|] eqn:Er; simplify_eq. apply reg_at_Some in Er as [Er Hp].
    pose proof (inv_mutex_reg h Hi i r Er ltac:(by rewrite Hp)) as Em.
    destruct (_ =? _); eapply Inv_reg_on; try done; try (by rewrite Hp); try (by left); first [left; by split|right; right; split_and!; [done|done|by intros []]].
  - destruct (reg_at h i _) as [r|] eqn:Er; simplify_eq. apply reg_at_Some in Er as [Er Hp].
    pose proof (inv_mutex_reg h Hi i r Er ltac:(by rewrite Hp)) as Em.
    eapply Inv_reg_on; try done; [right; right; split_and!; [done|done|by destruct ok; intros []]|by rewrite Hp|by left|by destruct stored; [right|left]].
  - destruct (reg_at h i _) as [r|] eqn:Er; simplify_eq. apply reg_at_Some in Er as [Er Hp].
    assert (Inv (with_reg h i Over (mutex_ h) (api h) (local h))) as Hi'
      by (eapply Inv_reg_on; try done; [left; by split|by rewrite Hp|by left|by left]).
    unfold ApplyIfCurrent. destruct (Z.eqb_spec (reg_epoch r) (epoch_ (run h))) as [Ee|]; [|done].
    assert (running_ (run h) = false) as Er'.
    { destruct (running_ (run h)) eqn:E; [|done]. pose proof (inv_past h Hi E i r Er ltac:(by rewrite Hp)). lia. }
    destruct Hi'. split; try done. cbn. congruence.
Qed.

(** ** Where the credentials end up *)

Definition exactly (E : Z) (c : option Z) : Prop := forall e, c = Some e -> e = E.
Definition local_cleared (t : TailPc) : Prop := match t with LocalCleared | ApiCleared | Ends | Unlocked => True | _ => False end.
Definition api_cleared (t : TailPc) : Prop := match t with ApiCleared | Ends | Unlocked => True | _ => False end.

(** A tail that has not thrown leaves no credential, and nobody past a check to install one. *)
Record Clean (h : Host) : Prop := {
  cl_local : local_cleared (tail h) -> local h = None;
  cl_api : api_cleared (tail h) -> api h = None;
  cl_none : tail h = Unlocked -> forall i r, regs h !! i = Some r -> ~ installing (reg_pc r);
  cl_idle : running_ (run h) = false ->
    exactly (epoch_ (run h)) (api h) /\ exactly (epoch_ (run h)) (local h) /\
    forall i r, regs h !! i = Some r -> installing (reg_pc r) -> reg_epoch r = epoch_ (run h)
}.

Lemma installing_in_mutex p : installing p -> in_mutex p.
Proof. by destruct p. Qed.

(** A registration past its check keeps the tail out. *)
Lemma installing_no_tail h i r :
  Inv h -> Clean h -> regs h !! i = Some r -> installing (reg_pc r) -> ~ local_cleared (tail h) /\ ~ api_cleared (tail h).
Proof.
  intros Hi Hc Hr Hp. pose proof (inv_mutex_reg h Hi i r Hr (installing_in_mutex _ Hp)) as Em.
  pose proof (inv_mutex_tail h Hi) as Et. rewrite Em in Et. pose proof (cl_none h Hc) as Hn.
  destruct (tail h); cbn in *; try (split; by intros []);
    try (destruct Et as [_ Et]; by specialize (Et I)).
  by destruct (Hn eq_refl i r Hr Hp).
Qed.

Lemma Clean_reg h i r p m a l :
  Inv h -> Clean h -> regs h !! i = Some r ->
  (installing p -> reg_epoch r = epoch_ (run h) /\ past_defer (reg_pc r)) ->
  (a = api h \/ a = Some (reg_epoch r) /\ installing (reg_pc r)) ->
  (l = local h \/ l = Some (reg_epoch r) /\ installing (reg_pc r)) -> Clean (with_reg h i p m a l).
Proof.
  intros Hi Hc Hr Hp Ha Hl.
  assert (installing (reg_pc r) -> ~ local_cleared (tail h) /\ ~ api_cleared (tail h)) as Hno by (intros; by eapply installing_no_tail).
  pose proof Hc as []. split; cbn.
  - intros Ht. destruct Hl as [->|[_ Hx]]; [by apply cl_local0|]. by destruct (Hno Hx).
  - intros Ht. destruct Ha as [->|[_ Hx]]; [by apply cl_api0|]. by destruct (Hno Hx).
  - intros Ht j q [[Hne Hj]|(-> & r0 & Hr0 & ->)]%set_pc_Some Hq; [by eapply cl_none0|]. cbn in Hq.
    destruct (Hp Hq) as [He Hpd]. pose proof (Inv_running_tail h Hi ltac:(congruence)) as Hrun.
    pose proof (inv_past h Hi Hrun i r Hr Hpd). lia.
  - intros Hrun. destruct (cl_idle0 Hrun) as (H1 & H2 & H3). split_and!.
    + destruct Ha as [->|[-> Hx]]; [done|]. intros e [= <-]. by eapply H3.
    + destruct Hl as [->|[-> Hx]]; [done|]. intros e [= <-]. by eapply H3.
    + intros j q [[Hne Hj]|(-> & r0 & Hr0 & ->)]%set_pc_Some Hq; [by eapply H3|]. cbn in *. simplify_eq. by destruct (Hp Hq).
Qed.

Lemma Clean_launch stored : Clean (launch stored).
Proof. split; try done. intros _. cbn. split_and!; [destruct stored; by intros e [= <-]..|done]. Qed.

Lemma Clean_registers h i h' : Inv h -> Clean h -> step h (Registers i) = Some h' -> Clean h'.
Proof.
  intros Hi Hc Hs. cbn in Hs. destruct (reg_at h i AtDoor) as [r|] eqn:Er; [|done].
  destruct (Defer (run h) i (reg_epoch r)) as [[waits replaced] r'] eqn:Ed. injection Hs as <-.
  assert (running_ r' = running_ (run h) /\ epoch_ r' = epoch_ (run h)) as [E1 E2].
  { unfold Defer in Ed. destruct (negb (_ =? _)), (running_ (run h)) eqn:E; cbn in Ed; by injection Ed as <- <- <-. }
  assert (forall j q, set_pc i (if waits then Waits else Free) (opt_pc replaced Over (regs h)) !! j = Some q ->
          installing (reg_pc q) -> regs h !! j = Some q) as Hq.
  { intros j q [[Hne Hj]|(-> & r0 & Hr & ->)]%set_pc_Some Hin; [|by destruct waits].
    destruct replaced as [k|]; [|done]. by apply set_pc_Some in Hj as [[_ Hj]|(-> & r0 & Hr & ->)]. }
  destruct Hc. split; cbn; rewrite ?E1, ?E2; try done.
  - intros Ht j q Hj Hin. by eapply cl_none0; [..|by apply Hq|].
  - intros Hrun. destruct (cl_idle0 Hrun) as (? & ? & H3). split_and!; [done|done|]. intros j q Hj Hin. by eapply H3; [by apply Hq|].
Qed.

Lemma Clean_finishes h h' : Clean h -> step h TailFinishes = Some h' -> Clean h'.
Proof.
  intros Hc Hs. cbn in Hs. destruct (decide _) as [Ht|]; [|done]. injection Hs as <-. destruct Hc.
  split; cbn; try done. intros _. split_and!.
  - rewrite cl_api0; [done|by rewrite Ht].
  - rewrite cl_local0; [done|by rewrite Ht].
  - intros j q Hj Hin. destruct (deferred_ (run h)) as [k|]; cbn in Hj; [|by destruct (cl_none0 Ht j q Hj)].
    apply set_pc_Some in Hj as [[_ Hj]|(-> & r0 & Hr & ->)]; [by destruct (cl_none0 Ht j q Hj)|done].
Qed.

(** The tail moves on, with what it has cleared. *)
Lemma Clean_tail h t m a l :
  Inv h -> Clean h -> tail h <> NoTail -> (t = Unlocked -> tail h = Ends) ->
  (local_cleared t -> l = None) -> (api_cleared t -> a = None) -> Clean (with_tail h t m a l).
Proof.
  intros Hi Hc Ht Hu Hl Ha. pose proof (Inv_running_tail h Hi Ht) as Hrun. split; cbn; try done.
  - intros Et i r Hr Hp. pose proof (inv_mutex_reg h Hi i r Hr (installing_in_mutex _ Hp)) as Em.
    pose proof (inv_mutex_tail h Hi) as Eh. rewrite (Hu Et), Em in Eh. destruct Eh as [_ Eh]. by specialize (Eh I).
  - congruence.
Qed.

Lemma Clean_step h e h' :
  Inv h -> Clean h -> e <> TailThrows -> step h e = Some h' -> Clean h'.
Proof.
  intros Hi Hc He Hs. pose proof (cl_local h Hc) as Cl. pose proof (cl_api h Hc) as Ca.
  destruct e; try done; try (by eapply Clean_finishes); try (by eapply Clean_registers); cbn in Hs.
  - destruct (decide _) as [Hu|]; [|done]. unfold Begin in Hs. destruct (running_ (run h)) eqn:Er; simplify_eq; [done|].
    destruct (inv_idle h Hi Er) as [_ Et]. split; cbn; rewrite ?Et; done.
  - destruct (decide _) as [Hu|]; simplify_eq. by destruct Hc.
  - destruct (decide _) as [[Hu Ht]|]; simplify_eq. destruct Hc. split; cbn; try done.
  - destruct (decide _) as [Ht|]; simplify_eq. apply Clean_tail; rewrite ?Ht; done.
  - destruct (decide _) as [[Ht Hm]|]; simplify_eq. apply Clean_tail; rewrite ?Ht; done.
  - destruct (decide _) as [Ht|]; simplify_eq. apply Clean_tail; rewrite ?Ht; done.
  - destruct (decide _) as [Ht|]; simplify_eq. rewrite Ht in Cl. apply Clean_tail; rewrite ?Ht; auto; done.
  - destruct (decide _) as [Ht|]; simplify_eq. rewrite Ht in Cl, Ca. apply Clean_tail; rewrite ?Ht; auto; done.
  - destruct (decide _) as [Ht|]; simplify_eq. rewrite Ht in Cl, Ca. apply Clean_tail; rewrite ?Ht; auto; done.
  - simplify_eq. destruct Hc. split; cbn; try done.
    + intros Ht j q [Hj|[_ Hj]]%lookup_app_Some Hq; [by eapply cl_none0|]. by apply list_lookup_singleton_Some in Hj as [_ <-].
    + intros Hr. destruct (cl_idle0 Hr) as (? & ? & H3). split_and!; [done|done|].
      intros j q [Hj|[_ Hj]]%lookup_app_Some Hq; [by eapply H3|]. by apply list_lookup_singleton_Some in Hj as [_ <-].
  - destruct (reg_at h i _) as [r|] eqn:Er; simplify_eq. apply reg_at_Some in Er as [Er Hp]. eapply Clean_reg; try done; by left.
  - destruct (reg_at h i _) as [r|] eqn:Er; [|done]. destruct (mutex_ h); simplify_eq.
    apply reg_at_Some in Er as [Er Hp]. eapply Clean_reg; try done; by left.
  - destruct (reg_at h i _) as [r|] eqn:Er; simplify_eq. apply reg_at_Some in Er as [Er Hp].
    destruct (Z.eqb_spec (reg_epoch r) (epoch_ (run h))); eapply Clean_reg; try done; try (by left). by rewrite Hp.
  - destruct (reg_at h i _) as [r|] eqn:Er; simplify_eq. apply reg_at_Some in Er as [Er Hp].
    eapply Clean_reg; try done; [|by left]. right. by rewrite Hp.
  - destruct (reg_at h i _) as [r|] eqn:Er; [|done]. destruct (mutex_ h); simplify_eq.
    apply reg_at_Some in Er as [Er Hp]. eapply Clean_reg; try done; by left.
  - destruct (reg_at h i _) as [r|] eqn:Er; simplify_eq. apply reg_at_Some in Er as [Er Hp].
    destruct (Z.eqb_spec (reg_epoch r) (epoch_ (run h))); eapply Clean_reg; try done; try (by left). by rewrite Hp.
  - destruct (reg_at h i _) as [r|] eqn:Er; simplify_eq. apply reg_at_Some in Er as [Er Hp].
    eapply Clean_reg; try done; [by destruct ok|by left|]. destruct stored; [|by left]. right. by rewrite Hp.
  - destruct (reg_at h i _) as [r|] eqn:Er; simplify_eq. apply reg_at_Some in Er as [Er Hp].
    assert (Clean (with_reg h i Over (mutex_ h) (api h) (local h))) as Hx by (eapply Clean_reg; try done; by left).
    destruct (ApplyIfCurrent _ _); [|done]. by destruct Hx.
Qed.

(** ** The sign-in that waits *)

(** The waiting sign-in is the one the run holds, and it began under the epoch in force. *)
Definition Waiting (h : Host) : Prop :=
  forall i, deferred_ (run h) = Some i ->
    running_ (run h) = true /\ exists r, regs h !! i = Some r /\ reg_pc r = Waits /\ reg_epoch r = epoch_ (run h).

Lemma Waiting_reg h i r p m a l :
  Waiting h -> regs h !! i = Some r -> reg_pc r <> Waits -> Waiting (with_reg h i p m a l).
Proof.
  intros Hw Hr Hp k Hk. destruct (Hw k Hk) as (Hrun & q & Hq & Hqp & Hqe). split; [done|]. exists q.
  split_and!; [|done|done]. cbn. unfold set_pc. rewrite list_lookup_alter_ne; [done|]. intros ->. congruence.
Qed.

Lemma Waiting_step h e h' : Inv h -> Waiting h -> step h e = Some h' -> Waiting h'.
Proof.
  intros Hi Hw Hs. destruct e; cbn in Hs; try (destruct (decide _); [|done]).
  all: try (destruct (reg_at h i _) as [r|] eqn:Er; [|done]; apply reg_at_Some in Er as [Er Hp]).
  all: try (injection Hs as <-; exact Hw).
  all: try (injection Hs as <-; eapply Waiting_reg; [done|done|congruence]).
  all: try (destruct (mutex_ h); [done|]; injection Hs as <-; eapply Waiting_reg; [done|done|congruence]).
  all: try (injection Hs as <-; destruct (_ =? _); eapply Waiting_reg; [done|done|congruence|done|done|congruence]).
  - unfold Begin in Hs. destruct (running_ (run h)) eqn:E; injection Hs as <-; [done|].
    intros i Hd. cbn in Hd. destruct (Hw i Hd). congruence.
  - injection Hs as <-. by intros i Hd.
  - injection Hs as <-. intros i Hd. destruct (Hw i Hd) as (Hr & q & Hq & Hp & He). split; [done|].
    exists q. split_and!; [by apply lookup_app_l_Some|done|done].
  - unfold Defer in Hs. destruct (Z.eqb_spec (reg_epoch r) (epoch_ (run h))) as [Ee|]; cbn in Hs;
      [destruct (running_ (run h)) eqn:E; cbn in Hs|]; injection Hs as <-.
    + intros k [= <-]. split; [done|]. exists (mkReg (reg_epoch r) Waits). split_and!; [|done|done]. cbn.
      unfold set_pc. rewrite list_lookup_alter_eq.
      assert (opt_pc (deferred_ (run h)) Over (regs h) !! i = Some r) as ->; [|done].
      destruct (deferred_ (run h)) as [k|] eqn:Ek; [|done]. destruct (Hw k Ek) as (_ & q & Hq & Hqp & _). cbn.
      unfold set_pc. rewrite list_lookup_alter_ne; [done|]. intros ->. congruence.
    + intros k Hk. destruct (Hw k Hk). congruence.
    + intros k Hk. destruct (Hw k Hk) as (Hr & q & Hq & Hqp & Hqe). split; [done|]. exists q. split_and!; [|done|done].
      cbn. unfold set_pc. rewrite list_lookup_alter_ne; [done|]. intros ->. congruence.
  - injection Hs as <-.
    assert (Waiting (with_reg h i Over (mutex_ h) (api h) (local h))) as Hx by (eapply Waiting_reg; [done|done|congruence]).
    destruct (ApplyIfCurrent _ _); done.
Qed.

(** ** Reachable states *)

(** Fewer events than the epoch has values. *)
Definition in_range (tr : list Ev) : Prop := Z.of_nat (length tr) < 2 ^ 64 - 1.

Lemma epoch_step h e h' :
  0 <= epoch_ (run h) < 2 ^ 64 - 1 -> step h e = Some h' -> epoch_ (run h) <= epoch_ (run h') <= epoch_ (run h) + 1.
Proof.
  intros He Hs. destruct e; cbn in Hs; try (destruct (decide _); [|done]); try (destruct (reg_at h i _) as [r|]; [|done]).
  all: try (destruct (mutex_ h); [done|]).
  all: try (injection Hs as <-; repeat match goal with |- context [if ?b then _ else _] => destruct b end; cbn; lia).
  - unfold Begin in Hs. destruct (running_ (run h)); injection Hs as <-; cbn; rewrite ?u64_succ by done; lia.
  - unfold Defer in Hs. destruct (negb (_ =? _)), (running_ (run h)); cbn in Hs; injection Hs as <-; cbn; lia.
Qed.

Lemma reachable stored tr h :
  steps (launch stored) tr = Some h -> in_range tr ->
  Inv h /\ Waiting h /\ 0 <= epoch_ (run h) <= Z.of_nat (length tr) /\ (TailThrows ∉ tr -> Clean h).
Proof.
  unfold in_range. revert h. induction tr as [|e tr IH] using rev_ind; intros h Hs Hb.
  - injection Hs as <-. split_and!; [apply Inv_launch|by intros i|cbn; lia|cbn; lia|intros _; apply Clean_launch].
  - apply executed_snoc in Hs as (v & Hv & Hs). rewrite length_app in *. cbn [length] in *.
    destruct (IH v Hv) as (Iv & Wv & Ev & Cv); [lia|]. assert (0 <= epoch_ (run v) < 2 ^ 64 - 1) as Hr by lia.
    pose proof (epoch_step v e h Hr Hs). split_and!; [by eapply Inv_stepped|by eapply Waiting_step|lia|lia|].
    intros Hn. rewrite elem_of_app, list_elem_of_singleton in Hn. eapply Clean_step; [..|done]; [done|apply Cv|]; tauto || naive_solver.
Qed.

(** * The properties *)

(** C17: a sign-out never takes away the account that signed in after it began: whatever the
    interleaving, a credential its tail clears, stored or in the api, was installed by an
    attempt that began before the click. *)
Theorem tail_spares_the_next_account stored tr h e h' c :
  steps (launch stored) tr = Some h -> in_range tr -> step h e = Some h' ->
  (e = TailClearsLocal /\ local h = Some c) \/ (e = TailClearsApi /\ api h = Some c) -> c < epoch_ (run h).
Proof.
  intros Hs Hb He Hc. destruct (reachable stored tr h Hs Hb) as (Hi & _).
  assert (running_ (run h) = true) as Hr.
  { apply Inv_running_tail; [done|]. intros Ht. destruct Hc as [[-> _]|[-> _]]; cbn in He; by rewrite Ht in He. }
  destruct (inv_creds h Hi Hr) as [Ha Hl]. destruct Hc as [[_ Hc]|[_ Hc]]; [by apply Hl|by apply Ha].
Qed.


(** One step of a registration that nothing disturbs. *)
Ltac advance_thread H Hra Hss := subst H; cbn -[reg_at set_pc]; unfold Defer, ApplyIfCurrent; rewrite Hra; cbn -[reg_at set_pc];
  rewrite ?Z.eqb_refl; unfold with_reg, with_run, with_ui; cbn -[reg_at set_pc]; rewrite ?Hss; reflexivity.

(** The sign-in that waited is not lost: once the tail has let the session lock go, and
    nobody else has taken it, ending the tail lets the sign-in register, install its
    credential in both places and sign the app in. *)
Theorem waiting_sign_in_goes_through stored tr h i :
  steps (launch stored) tr = Some h -> in_range tr ->
  tail h = Unlocked -> mutex_ h = None -> deferred_ (run h) = Some i ->
  exists h', steps h [TailFinishes; Registers i; Locks1 i; Checks1 i; Installs1 i; Locks2 i; Checks2 i; Installs2 i true true; Commits i] = Some h' /\
    api h' = Some (epoch_ (run h)) /\ local h' = Some (epoch_ (run h)) /\ loggedIn_ h' = true /\ running_ (run h') = false.
Proof.
  intros Hs Hb Ht Hm Hd. destruct (reachable stored tr h Hs Hb) as (_ & Hw & _ & _).
  destruct (Hw i Hd) as (_ & r & Hr & _ & He).
  destruct h as [rn u t m a l f rs]. cbn in *. subst t m. destruct rn as [rg ep df]. cbn in *. subst df.
  assert (forall p p', set_pc i p' (set_pc i p rs) = set_pc i p' rs) as Hss.
  { intros p p'. apply list_eq. intros j. unfold set_pc. rewrite !list_lookup_alter.
    repeat destruct (decide _); try done. by destruct (rs !! i). }
  assert (forall p, set_pc i p rs !! i = Some (mkReg ep p)) as Hat.
  { intros p. unfold set_pc. rewrite list_lookup_alter_eq, Hr. cbn. by rewrite He. }
  assert (forall rn u t m a l f p, reg_at (mkHost rn u t m a l f (set_pc i p rs)) i p = Some (mkReg ep p)) as Hra.
  { intros. apply reg_at_Some. cbn. by rewrite Hat. }
  set (H p m a l f := mkHost (mkRun false ep (@None nat)) u NoTail m a l f (set_pc i p rs)).
  assert (forall p m a l f e h', step (H p m a l f) e = Some h' -> forall tr, steps (H p m a l f) (e :: tr) = steps h' tr) as Hgo.
  { intros * Hx tr'. unfold steps. cbn [foldl]. by rewrite <- Hx. }
  exists (H Over None (Some ep) (Some ep) true). split; [|done].
  change (steps (H AtDoor None a l f) [Registers i; Locks1 i; Checks1 i; Installs1 i; Locks2 i; Checks2 i; Installs2 i true true; Commits i] = Some (H Over None (Some ep) (Some ep) true)).
  rewrite (Hgo _ _ _ _ _ _ (H Free None a l f)) by advance_thread H Hra Hss.
  rewrite (Hgo _ _ _ _ _ _ (H Check1 (Some (ByReg i)) a l f)) by advance_thread H Hra Hss.
  rewrite (Hgo _ _ _ _ _ _ (H Install1 (Some (ByReg i)) a l f)) by advance_thread H Hra Hss.
  rewrite (Hgo _ _ _ _ _ _ (H Dispatched None (Some ep) l f)) by advance_thread H Hra Hss.
  rewrite (Hgo _ _ _ _ _ _ (H Check2 (Some (ByReg i)) (Some ep) l f)) by advance_thread H Hra Hss.
  rewrite (Hgo _ _ _ _ _ _ (H Install2 (Some (ByReg i)) (Some ep) l f)) by advance_thread H Hra Hss.
  rewrite (Hgo _ _ _ _ _ _ (H Completes None (Some ep) (Some ep) f)) by advance_thread H Hra Hss.
  rewrite (Hgo _ _ _ _ _ _ (H Over None (Some ep) (Some ep) true)) by advance_thread H Hra Hss. reflexivity.
Qed.






(** ** Witnesses *)

Definition clicked : list Ev := [LogoutBegins; LogoutSignsOut; LogoutAsks; TailRuns; TailLocks].

Definition reach (tr : list Ev) : Host := match steps (launch true) tr with Some h => h | None => launch true end.
Definition cleared : list Ev := [TailClearsLocal; TailClearsApi; TailDelivers; TailUnlocks].

Example tail_spares_the_next_account_witness : 0 < epoch_ (run (reach clicked)).
Proof.
  eapply (tail_spares_the_next_account true clicked _ TailClearsLocal); [vm_compute; reflexivity..|]. left. vm_compute. by split.
Defined.


Example waiting_sign_in_goes_through_witness :
  let h := reach (clicked ++ [AttemptBegins; Registers 0] ++ cleared) in
  local h = None /\ exists h', local h' = Some (epoch_ (run h)) /\ loggedIn_ h' = true.
Proof.
  split; [vm_compute; reflexivity|].
  edestruct (waiting_sign_in_goes_through true (clicked ++ [AttemptBegins; Registers 0] ++ cleared)
    (reach (clicked ++ [AttemptBegins; Registers 0] ++ cleared)) 0%nat) as (h' & _ & _ & Hl & Hf & _); [vm_compute; reflexivity..|].
  by exists h'.
Defined.


