(* ===== verification/AuthLink.v ===== *)
(** The return of a sign-in approved in the browser, urnetwork://auth, read strictly, and the
    redaction that keeps links out of the log (App/AuthLink.h). *)

From S2P Require Import Prelude.
From S2P Require Import CxxText.

(** * The contract *)

Record Contract := mkContract { prefix : text; tolerateEmptyPath : bool; maxUrlBytes : Z; maxValueBytes : Z; maxPairs : Z }.

Definition kAuthPrefix : text := txt "urnetwork://auth".
Definition kApprovalV1 : Contract := mkContract kAuthPrefix true 4096 2048 6.
Definition kStateChars : Z := 43.
Definition kDeniedValue : text := txt "access_denied".

Inductive Kind := Invalid | Sealed | Denied.
#[export] Instance Kind_eq_dec : EqDecision Kind.
Proof. solve_decision. Defined.

Inductive Reject :=
| NotRejected | NotAuthHost | BadPath | Authority | Delimiter | TooLong | Control | UnexpectedEscape | EmptyPair
| Duplicate | UnknownKey | MixedShapes | BadState | BadValue | BadError.

Record Return := mkReturn { kind : Kind; reject : Reject; state : text; epk : text; nonce : text; data : text }.

Definition fail (why : Reject) : Return := mkReturn Invalid why [] [] [] [].

(** * Characters *)

Definition IsBase64UrlChar (c : ascii) : bool :=
  in_range 65 90 c || in_range 97 122 c || in_range 48 57 c || bool_decide (c = "-"%char) || bool_decide (c = "_"%char).

Definition IsBase58Char (c : ascii) : bool :=
  let digit := in_range 49 57 c in
  let upper := in_range 65 90 c && negb (bool_decide (c = "I"%char)) && negb (bool_decide (c = "O"%char)) in
  let lower := in_range 97 122 c && negb (bool_decide (c = "l"%char)) in
  digit || upper || lower.

Definition IsBase58 (value : text) (maxBytes : Z) : bool :=
  if bool_decide (value = []) || (maxBytes <? size value) then false else forallb IsBase58Char value.

Definition is_plain (c : ascii) : bool :=
  in_range 65 90 c || in_range 97 122 c || in_range 48 57 c || bool_decide (c = "."%char) || bool_decide (c = "_"%char) ||
  bool_decide (c = "+"%char) || bool_decide (c = "-"%char).

Definition IsPlainToken (token : text) (maxBytes : Z) : bool :=
  if maxBytes <? size token then false else forallb is_plain token.

(** * Routing *)

Definition EqualsLowerText (s lower : text) : bool := bool_decide (length s = length lower) && teqb (map ascii_lower s) lower.

Definition IsAuthHost (url : text) : bool :=
  let n := length kAuthPrefix in
  if negb (EqualsLowerText (take n url) kAuthPrefix) then false else
  match drop n url with
  | [] => true
  | next :: _ => bool_decide (next = "?"%char) || bool_decide (next = "/"%char) || bool_decide (next = "#"%char)
  end.

(** * The parser *)

(** The segments between the ampersands. *)
Fixpoint split_amp (s : text) : list text :=
  match s with
  | [] => [[]]
  | c :: s =>
      if bool_decide (c = "&"%char) then [] :: split_amp s else
      match split_amp s with p :: ps => (c :: p) :: ps | [] => [[c]] end
  end.

(** The pairs as written; [n] of them have been read. *)
Fixpoint read_pairs (contract : Contract) (n : Z) (parts : list text) : Reject + list (text * text) :=
  match parts with
  | [] => inr []
  | part :: parts =>
      match find_char "="%char part with
      | None => inl EmptyPair
      | Some O => inl EmptyPair
      | Some eq =>
          if maxPairs contract <? n + 1 then inl TooLong else
          match read_pairs contract (n + 1) parts with
          | inl why => inl why
          | inr pairs => inr ((take eq part, drop (S eq) part) :: pairs)
          end
      end
  end.

(** What the pairs have set so far. *)
Record Fields := mkFields {
  f_state : option text; f_epk : option text; f_nonce : option text; f_data : option text; f_error : option text }.

Definition no_fields : Fields := mkFields None None None None None.

Inductive Key := KState | KEpk | KNonce | KData | KError.

Definition key_name (k : Key) : text :=
  match k with KState => txt "state" | KEpk => txt "epk" | KNonce => txt "n" | KData => txt "d" | KError => txt "error" end.

Definition key_of (name : text) : option Key :=
  if teqb name (txt "state") then Some KState else
  if teqb name (txt "epk") then Some KEpk else
  if teqb name (txt "n") then Some KNonce else
  if teqb name (txt "d") then Some KData else
  if teqb name (txt "error") then Some KError else None.

Definition get (k : Key) (f : Fields) : option text :=
  match k with KState => f_state f | KEpk => f_epk f | KNonce => f_nonce f | KData => f_data f | KError => f_error f end.

Definition set (k : Key) (v : text) (f : Fields) : Fields :=
  match f with
  | mkFields s e n d r =>
      match k with
      | KState => mkFields (Some v) e n d r
      | KEpk => mkFields s (Some v) n d r
      | KNonce => mkFields s e (Some v) d r
      | KData => mkFields s e n (Some v) r
      | KError => mkFields s e n d (Some v)
      end
  end.

Fixpoint read_fields (contract : Contract) (f : Fields) (pairs : list (text * text)) : Reject + Fields :=
  match pairs with
  | [] => inr f
  | (key, value) :: pairs =>
      match key_of key with
      | None => inl UnknownKey
      | Some k =>
          if bool_decide (is_Some (get k f)) then inl Duplicate else
          if maxValueBytes contract <? size value then inl TooLong else read_fields contract (set k value f) pairs
      end
  end.

(** The shapes. *)
Definition judge (contract : Contract) (f : Fields) : Return :=
  match f_state f with
  | None => fail MixedShapes
  | Some s =>
      if negb (size s =? kStateChars) then fail BadState else
      if negb (forallb IsBase64UrlChar s) then fail BadState else
      match f_epk f, f_nonce f, f_data f, f_error f with
      | Some e, Some n, Some d, None =>
          if negb (IsBase58 e 64) || negb (IsBase58 n 64) || negb (IsBase58 d (maxValueBytes contract)) then fail BadValue
          else mkReturn Sealed NotRejected s e n d
      | None, None, None, Some r =>
          if negb (teqb r kDeniedValue) then fail BadError else mkReturn Denied NotRejected s [] [] []
      | _, _, _, _ => fail MixedShapes
      end
  end.

Definition parse_query (contract : Contract) (rest : text) : Return :=
  if bool_decide (is_Some (find_first_of (txt "#?") rest)) then fail Delimiter else
  match read_pairs contract 0 (split_amp rest) with
  | inl why => fail why
  | inr pairs => match read_fields contract no_fields pairs with inl why => fail why | inr f => judge contract f end
  end.

Definition Parse (url : text) (contract : Contract) : Return :=
  if maxUrlBytes contract <? size url then fail TooLong else
  if existsb (fun c => (ord c <=? 0x20) || (0x7F <=? ord c)) url then fail Control else
  if negb (has_prefix (prefix contract) url) then fail NotAuthHost else
  if bool_decide (is_Some (find_char "%"%char url)) then fail UnexpectedEscape else
  let rest := drop (length (prefix contract)) url in
  let '(rest, strippedSlash) :=
    match rest with
    | "/"%char :: t => if tolerateEmptyPath contract then (t, true) else (rest, false)
    | _ => (rest, false)
    end in
  match rest with
  | [] => fail EmptyPair
  | "?"%char :: query => parse_query contract query
  | first :: _ =>
      if bool_decide (first = "#"%char) then fail Delimiter else
      if strippedSlash || bool_decide (first = "/"%char) then fail BadPath else
      if bool_decide (first = ":"%char) || bool_decide (first = "@"%char) then fail Authority else fail NotAuthHost
  end.

(** * What the page may write *)

Definition render_pair (p : text * text) : text := p.1 ++ "="%char :: p.2.

Fixpoint join (parts : list text) : text :=
  match parts with [] => [] | [p] => p | p :: parts => p ++ "&"%char :: join parts end.

Definition render (contract : Contract) (slash : bool) (pairs : list (text * text)) : text :=
  prefix contract ++ (if slash then txt "/" else []) ++ "?"%char :: join (map render_pair pairs).

Definition pairs_of (r : Return) : list (text * text) :=
  match kind r with
  | Sealed => [(txt "state", state r); (txt "epk", epk r); (txt "n", nonce r); (txt "d", data r)]
  | Denied => [(txt "state", state r); (txt "error", kDeniedValue)]
  | Invalid => []
  end.

Definition base58 (v : text) (maxBytes : Z) : Prop := v <> [] /\ size v <= maxBytes /\ Forall (fun c => IsBase58Char c = true) v.

(** An answer of one of the two shapes. *)
Definition well_formed (contract : Contract) (r : Return) : Prop :=
  reject r = NotRejected /\ size (state r) = kStateChars /\ Forall (fun c => IsBase64UrlChar c = true) (state r) /\
  match kind r with
  | Sealed => base58 (epk r) 64 /\ base58 (nonce r) 64 /\ base58 (data r) (maxValueBytes contract)
  | Denied => epk r = [] /\ nonce r = [] /\ data r = []
  | Invalid => False
  end.

(** * Splitting and joining *)

Lemma split_amp_nonempty s : split_amp s <> [].
Proof. destruct s as [|c s]; [done|]. cbn. case_bool_decide; [done|]. by destruct (split_amp s). Qed.

Lemma join_cons p parts : parts <> [] -> join (p :: parts) = p ++ "&"%char :: join parts.
Proof. by destruct parts. Qed.

Lemma join_split_amp s : join (split_amp s) = s.
Proof.
  induction s as [|c s IH]; [done|]. cbn [split_amp]. pose proof (split_amp_nonempty s). case_bool_decide as Hc.
  - subst c. rewrite join_cons by done. by rewrite IH.
  - destruct (split_amp s) as [|p ps]; [done|]. destruct ps; cbn in *; by rewrite <- IH.
Qed.

Lemma split_amp_part p : "&"%char ∉ p -> split_amp p = [p].
Proof.
  induction p as [|c p IH]; intros Hp; [done|]. cbn. rewrite bool_decide_eq_false_2 by set_solver. by rewrite IH by set_solver.
Qed.

Lemma split_amp_app p s : "&"%char ∉ p -> split_amp (p ++ "&"%char :: s) = p :: split_amp s.
Proof.
  induction p as [|c p IH]; intros Hp; [done|]. cbn. rewrite bool_decide_eq_false_2 by set_solver. by rewrite IH by set_solver.
Qed.

Lemma split_amp_join parts : parts <> [] -> Forall (fun p => "&"%char ∉ p) parts -> split_amp (join parts) = parts.
Proof.
  intros Hn Hp. induction Hp as [|p parts Hp _ IH]; [done|]. destruct parts as [|q parts].
  - by apply split_amp_part.
  - cbn [join] in *. rewrite split_amp_app by done. by rewrite IH.
Qed.

Lemma read_pairs_inr contract n parts pairs :
  read_pairs contract n parts = inr pairs <->
  parts = map render_pair pairs /\ (parts <> [] -> n + Z.of_nat (length parts) <= maxPairs contract) /\
  Forall (fun p => p.1 <> [] /\ "="%char ∉ p.1) pairs.
Proof.
  revert n pairs. induction parts as [|part parts IH]; intros n pairs; cbn [read_pairs].
  - split; [by intros [= <-]|]. intros (H & _). by destruct pairs.
  - split.
    + destruct (find_char "="%char part) as [[|eq]|] eqn:Ef; [done| |done].
      destruct (Z.ltb_spec (maxPairs contract) (n + 1)); [done|].
      destruct (read_pairs contract (n + 1) parts) as [|ps] eqn:Er; [done|]. intros [= <-].
      apply IH in Er as (-> & Hn & Hf). apply find_char_Some in Ef as [Hs Hc]. split_and!.
      * cbn. unfold render_pair at 1. cbn [fst snd]. by rewrite <- Hs.
      * intros _. cbn [length]. destruct ps; [cbn; lia|]. specialize (Hn ltac:(done)). lia.
      * constructor; [|done]. cbn [fst]. split; [|done]. by destruct part.
    + intros (Hp & Hn & Hf). destruct pairs as [|[key value] pairs]; [done|]. injection Hp as -> ->.
      apply Forall_cons in Hf as [[Hk Hc] Hf]. cbn in Hk, Hc. specialize (Hn ltac:(done)). cbn [length] in Hn.
      unfold render_pair at 1. cbn [fst snd]. rewrite find_char_app by done.
      destruct (length key) as [|m] eqn:Em; [by apply nil_length_inv in Em|].
      destruct (Z.ltb_spec (maxPairs contract) (n + 1)); [lia|].
      rewrite (proj2 (IH (n + 1) pairs)).
      * unfold render_pair. cbn [fst snd]. rewrite take_app_length' by done.
        do 3 f_equal. replace (S (S m)) with (length (key ++ ["="%char])) by (rewrite length_app; cbn; lia).
        change ("="%char :: value) with (["="%char] ++ value). by rewrite app_assoc, drop_app_length.
      * split_and!; [done| |done]. intros _. lia.
Qed.

(** * The fields *)

Lemma key_of_Some name k : key_of name = Some k <-> name = key_name k.
Proof.
  unfold key_of, teqb. split.
  - repeat case_bool_decide; intros [= <-]; done.
  - intros ->. by destruct k.
Qed.

Definition field (k : Key) (o : option text) : list (text * text) := match o with Some v => [(key_name k, v)] | None => [] end.
Definition to_pairs (f : Fields) : list (text * text) :=
  field KState (f_state f) ++ field KEpk (f_epk f) ++ field KNonce (f_nonce f) ++ field KData (f_data f) ++ field KError (f_error f).

Lemma put_in {A} (x : A) a b : a ++ x :: b ≡ₚ (a ++ b) ++ [x].
Proof. by rewrite <- Permutation_middle, Permutation_cons_append. Qed.

Lemma to_pairs_set k v f : get k f = None -> to_pairs (set k v f) ≡ₚ to_pairs f ++ [(key_name k, v)].
Proof.
  destruct f as [s e n d r]. unfold to_pairs. destruct k; cbn [get set f_state f_epk f_nonce f_data f_error]; intros ->; cbn [field app].
  - apply (put_in _ []).
  - apply put_in.
  - rewrite !(app_assoc (field KState s)). apply put_in.
  - rewrite !(app_assoc (field KState s)), !(app_assoc (field KState s ++ _)). apply put_in.
  - rewrite app_nil_r, <- !app_assoc. done.
Qed.

Lemma get_to_pairs k v f : get k f = Some v <-> (key_name k, v) ∈ to_pairs f.
Proof.
  destruct f as [s e n d r]. unfold to_pairs. cbn [f_state f_epk f_nonce f_data f_error]. rewrite !elem_of_app. unfold field.
  split.
  - destruct k; cbn; intros ->; rewrite list_elem_of_singleton; tauto.
  - intros H. destruct_or!; match type of H with _ ∈ match ?o with _ => _ end => destruct o; [|by apply not_elem_of_nil in H] end;
      apply list_elem_of_singleton in H; injection H as Hk ->; by destruct k.
Qed.

Lemma read_fields_perm contract f pairs f' :
  read_fields contract f pairs = inr f' -> to_pairs f' ≡ₚ to_pairs f ++ pairs.
Proof.
  revert f. induction pairs as [|[key value] pairs IH]; intros f Hf; cbn in Hf.
  - injection Hf as <-. by rewrite app_nil_r.
  - destruct (key_of key) as [k|] eqn:Ek; [|done]. apply key_of_Some in Ek as ->. case_bool_decide as Hg; [done|].
    destruct (_ <? _); [done|]. apply IH in Hf. rewrite Hf, to_pairs_set by (by apply eq_None_not_Some). by rewrite <- app_assoc.
Qed.

Lemma read_fields_ok contract f pairs :
  Forall (fun p => (exists k, p.1 = key_name k) /\ size p.2 <= maxValueBytes contract) pairs ->
  NoDup (map fst (to_pairs f ++ pairs)) -> exists f', read_fields contract f pairs = inr f'.
Proof.
  revert f. induction pairs as [|[key value] pairs IH]; intros f Hp Hd; [by exists f|].
  apply Forall_cons in Hp as [[[k Hk] Hs] Hp]. cbn in Hk, Hs. subst key. cbn [read_fields].
  rewrite (proj2 (key_of_Some _ k)) by done. rewrite map_app in Hd. cbn [map fst] in Hd.
  assert (get k f = None) as Hg.
  { destruct (get k f) as [v|] eqn:E; [|done]. apply get_to_pairs in E. exfalso.
    apply NoDup_app in Hd as (_ & Hd & _). apply (Hd (key_name k)); [|by left].
    apply list_elem_of_fmap. by exists (key_name k, v). }
  rewrite Hg, bool_decide_eq_false_2 by (by intros [? ?]). rewrite (proj2 (Z.ltb_ge _ _)) by lia.
  apply IH; [done|]. eapply NoDup_Permutation_proper; [apply Permutation_map, Permutation_app_tail, to_pairs_set, Hg|].
  rewrite !map_app, <- app_assoc. exact Hd.
Qed.

(** * The shapes *)

Definition field_of (r : Return) (k : Key) : option text :=
  match kind r, k with
  | Sealed, KState => Some (state r) | Sealed, KEpk => Some (epk r) | Sealed, KNonce => Some (nonce r)
  | Sealed, KData => Some (data r)
  | Denied, KState => Some (state r) | Denied, KError => Some kDeniedValue
  | _, _ => None
  end.

Lemma pairs_of_field r k v : (key_name k, v) ∈ pairs_of r <-> field_of r k = Some v.
Proof.
  unfold pairs_of, field_of. destruct (kind r); [rewrite elem_of_nil; by destruct k|..].
  all: rewrite !elem_of_cons, elem_of_nil; destruct k; cbn; split; intros H; destruct_or?; simplify_eq; try done; tauto.
Qed.

Lemma fields_determined f r : to_pairs f ≡ₚ pairs_of r -> forall k, get k f = field_of r k.
Proof.
  intros Hp k. apply option_eq. intros v. by rewrite get_to_pairs, Hp, pairs_of_field.
Qed.

Lemma to_pairs_of f r : (forall k, get k f = field_of r k) -> to_pairs f = pairs_of r.
Proof.
  intros H. pose proof (H KState). pose proof (H KEpk). pose proof (H KNonce). pose proof (H KData). pose proof (H KError).
  destruct f. unfold to_pairs, pairs_of, field_of in *. cbn in *. subst. by destruct (kind r).
Qed.

Lemma forallb_Forall {A} (p : A -> bool) l : forallb p l = true <-> Forall (fun x => p x = true) l.
Proof. rewrite forallb_forall, Forall_forall. setoid_rewrite list_elem_of_In. done. Qed.

Lemma IsBase58_spec v n : IsBase58 v n = true <-> base58 v n.
Proof.
  unfold IsBase58, base58. case_bool_decide; cbn; [naive_solver|]. destruct (Z.ltb_spec n (size v)); [naive_solver lia|].
  rewrite forallb_Forall. naive_solver.
Qed.

(** Which fields make an answer, and which answer they make. *)
Lemma judge_spec contract f r :
  judge contract f = r /\ kind r <> Invalid <-> well_formed contract r /\ forall k, get k f = field_of r k.
Proof.
  unfold judge, well_formed. destruct f as [s e n d x]. cbn [f_state f_epk f_nonce f_data f_error]. split.
  - intros [<- Hk]. destruct s as [s|]; [|done]. destruct (Z.eqb_spec (size s) kStateChars); [|done]. cbn [negb] in *.
    destruct (forallb IsBase64UrlChar s) eqn:Es; [|done]. cbn [negb] in *. apply forallb_Forall in Es.
    destruct e as [e|], n as [n|], d as [d|], x as [x|]; try done; cbn [negb] in *.
    + destruct (IsBase58 e 64) eqn:E1, (IsBase58 n 64) eqn:E2, (IsBase58 d (maxValueBytes contract)) eqn:E3; try done.
      cbn. rewrite !IsBase58_spec in *. split_and!; try done; by intros [].
    + destruct (teqb x kDeniedValue) eqn:Ex; [|done]. apply teqb_eq in Ex as ->. cbn. split_and!; try done; by intros [].
  - intros [(Hr & Hs & Hc & Hw) Hg]. pose proof (Hg KState) as G1. pose proof (Hg KEpk) as G2. pose proof (Hg KNonce) as G3.
    pose proof (Hg KData) as G4. pose proof (Hg KError) as G5. destruct r as [k w st ep no da]. cbn in *. subst w.
    apply forallb_Forall in Hc. destruct k; [done|..]; cbn in *; simplify_eq; rewrite Hs, Hc; cbn [negb].
    + destruct Hw as (W1 & W2 & W3). apply IsBase58_spec in W1, W2, W3. by rewrite W1, W2, W3.
    + by destruct Hw as (-> & -> & ->).
Qed.

(** * Plain characters *)

Lemma in_range_spec lo hi c : in_range lo hi c = true <-> lo <= ord c <= hi.
Proof. unfold in_range. rewrite andb_true_iff, !Z.leb_le. lia. Qed.

Lemma char_ord_eq c d : c = d <-> ord c = ord d.
Proof. split; [by intros ->|apply ord_inj]. Qed.

Lemma base64url_ord c :
  IsBase64UrlChar c = true <-> 65 <= ord c <= 90 \/ 97 <= ord c <= 122 \/ 48 <= ord c <= 57 \/ ord c = 45 \/ ord c = 95.
Proof.
  unfold IsBase64UrlChar. rewrite !orb_true_iff, !in_range_spec, !bool_decide_eq_true, !char_ord_eq.
  change (ord "-") with 45. change (ord "_") with 95. tauto.
Qed.

Lemma base58_base64url c : IsBase58Char c = true -> IsBase64UrlChar c = true.
Proof.
  rewrite base64url_ord. unfold IsBase58Char. rewrite !orb_true_iff, !andb_true_iff, !in_range_spec. lia.
Qed.

Definition plain_text (s : text) : Prop := Forall (fun c => IsBase64UrlChar c = true) s.

Lemma plain_not_in c s : plain_text s -> IsBase64UrlChar c = false -> c ∉ s.
Proof. intros Hs Hc Hin. unfold plain_text in Hs. rewrite Forall_forall in Hs. specialize (Hs c Hin). congruence. Qed.

Lemma key_name_plain k : plain_text (key_name k).
Proof. apply forallb_Forall. by destruct k. Qed.

Lemma well_formed_pairs r :
  well_formed kApprovalV1 r ->
  Forall (fun p => (exists k, p.1 = key_name k) /\ size p.2 <= maxValueBytes kApprovalV1 /\ plain_text p.2) (pairs_of r).
Proof.
  intros (_ & Hs & Hc & Hw). assert (forall v n, n <= 2048 -> base58 v n -> size v <= 2048 /\ plain_text v) as Hb.
  { intros v n Hn (_ & Hv & Hf). split; [lia|]. eapply Forall_impl; [done|]. intros c. apply base58_base64url. }
  unfold kStateChars in Hs. unfold pairs_of. destruct (kind r); [done|destruct Hw as (W1 & W2 & W3)|].
  - apply (Hb _ 64) in W1 as [? ?]; [|lia]. apply (Hb _ 64) in W2 as [? ?]; [|lia]. apply (Hb _ 2048) in W3 as [? ?]; [|lia].
    rewrite !Forall_cons. cbn [fst snd kApprovalV1 maxValueBytes].
    split_and!; first [done|lia|by exists KState|by exists KEpk|by exists KNonce|by exists KData].
  - rewrite !Forall_cons. cbn [fst snd kApprovalV1 maxValueBytes].
    split_and!; first [done|lia|by exists KState|by exists KError|by apply (forallb_Forall IsBase64UrlChar)].
Qed.

(** * The parser accepts what the page may write *)

Lemma render_pair_Forall (P : ascii -> Prop) ps :
  P "="%char -> P "&"%char -> Forall (fun p => Forall P p.1 /\ Forall P p.2) ps -> Forall P (join (map render_pair ps)).
Proof.
  intros He Ha Hp. induction Hp as [|p ps [H1 H2] Hp IH]; [constructor|].
  assert (Forall P (render_pair p)) as Hr by (unfold render_pair; apply Forall_app; split; [done|by constructor]).
  destruct ps as [|q ps]; [done|]. cbn [map] in *. rewrite join_cons by done. apply Forall_app. split; [done|by constructor].
Qed.

(** The characters of a rendered query. *)
Definition query_char (c : ascii) : Prop := IsBase64UrlChar c = true \/ c = "="%char \/ c = "&"%char.

Lemma query_char_ord c :
  query_char c -> 0x21 <= ord c < 0x7F /\ c <> "%"%char /\ c <> "#"%char /\ c <> "?"%char.
Proof.
  unfold query_char. rewrite base64url_ord, !char_ord_eq. change (ord "=") with 61. change (ord "&") with 38.
  change (ord "%") with 37. change (ord "#") with 35. change (ord "?") with 63. lia.
Qed.

Lemma rendered_plain r ps :
  well_formed kApprovalV1 r -> ps ≡ₚ pairs_of r -> Forall query_char (join (map render_pair ps)).
Proof.
  intros Hw Hp. apply render_pair_Forall; [unfold query_char; tauto|unfold query_char; tauto|].
  rewrite Hp. eapply Forall_impl; [by apply well_formed_pairs|]. intros [key v] ([k ->] & _ & Hv).
  split; (eapply Forall_impl; [|intros c Hc; left; exact Hc]); [apply key_name_plain|done].
Qed.

Lemma not_in_query c s : Forall query_char s -> ~ query_char c -> c ∉ s.
Proof. intros Hs Hc Hin. rewrite Forall_forall in Hs. by destruct Hc; apply Hs. Qed.

Lemma find_first_of_None set s : Forall (fun c => c ∉ set) s -> find_first_of set s = None.
Proof. induction 1 as [|c s Hc _ IH]; [done|]. cbn. by rewrite bool_decide_eq_false_2, IH. Qed.

Lemma pairs_of_NoDup r : NoDup (map fst (pairs_of r)).
Proof. unfold pairs_of. destruct (kind r); cbn; [constructor|apply (bool_decide_unpack _); by vm_compute..]. Qed.

Lemma parse_query_spec q r :
  parse_query kApprovalV1 q = r /\ kind r <> Invalid <->
  well_formed kApprovalV1 r /\ exists ps, ps ≡ₚ pairs_of r /\ q = join (map render_pair ps).
Proof.
  unfold parse_query. split.
  - intros [E Hk]. case_bool_decide; [by subst|].
    destruct (read_pairs _ _ _) as [|pairs] eqn:Ep; [by subst|]. destruct (read_fields _ _ _) as [|f] eqn:Ef; [by subst|].
    destruct (proj1 (judge_spec _ _ _) (conj E Hk)) as [Hw Hg]. split; [done|]. exists pairs. split.
    + apply read_fields_perm in Ef. rewrite (to_pairs_of f r Hg) in Ef. done.
    + apply read_pairs_inr in Ep as [Ep _]. by rewrite <- Ep, join_split_amp.
  - intros (Hw & ps & Hp & ->). pose proof (rendered_plain r ps Hw Hp) as Hq. pose proof (well_formed_pairs r Hw) as Hwp.
    rewrite <- Hp in Hwp.
    assert (kind r <> Invalid) as Hk by (destruct Hw as (_ & _ & _ & Hx); by destruct (kind r)).
    rewrite find_first_of_None, bool_decide_eq_false_2; [|by intros [? ?]|].
    2: { eapply Forall_impl; [done|]. intros c Hc%query_char_ord. change (txt "#?") with ["#"%char; "?"%char]. set_solver. }
    assert (Forall (fun p => p.1 <> [] /\ "="%char ∉ p.1 /\ "&"%char ∉ render_pair p) ps) as Hps.
    { eapply Forall_impl; [exact Hwp|]. intros [key v] ([k Hkey] & _ & Hv). cbn in Hkey, Hv. subst key. cbn [fst].
      split; [by destruct k|]. split; [by destruct k; cbn; set_solver|].
      unfold render_pair. cbn [fst snd]. rewrite elem_of_app, elem_of_cons.
      pose proof (plain_not_in "&"%char v Hv eq_refl). pose proof (plain_not_in "&"%char _ (key_name_plain k) eq_refl). naive_solver. }
    rewrite split_amp_join; [| |by apply Forall_map; eapply Forall_impl; [exact Hps|]; intros ? (_ & _ & ?)].
    2: { intros Hn%map_eq_nil. subst ps. unfold pairs_of in Hp. destruct (kind r); [done|..]; by apply Permutation_nil in Hp. }
    rewrite (proj2 (read_pairs_inr kApprovalV1 0 _ ps)).
    2: { split_and!; [done| |by eapply Forall_impl; [exact Hps|]; intros ? (? & ? & _)].
         intros _. rewrite length_map, (Permutation_length Hp). unfold pairs_of. destruct (kind r); cbn; lia. }
    destruct (read_fields_ok kApprovalV1 no_fields ps) as [f Hf].
    { eapply Forall_impl; [exact Hwp|]. intros ? (? & ? & _). done. }
    { cbn. rewrite Hp. apply pairs_of_NoDup. }
    rewrite Hf. apply judge_spec. split; [done|]. apply fields_determined. apply read_fields_perm in Hf. by rewrite Hf.
Qed.

Lemma existsb_false {A} (p : A -> bool) l : Forall (fun x => p x = false) l -> existsb p l = false.
Proof. induction 1 as [|x l Hx _ IH]; [done|]. cbn. by rewrite Hx. Qed.

(** What [Parse] does, shared with the gate. *)
Lemma parse_spec url r :
  Parse url kApprovalV1 = r /\ kind r <> Invalid <->
  well_formed kApprovalV1 r /\ size url <= maxUrlBytes kApprovalV1 /\
  exists slash ps, ps ≡ₚ pairs_of r /\ url = render kApprovalV1 slash ps.
Proof.
  unfold Parse. split.
  - intros [E Hk]. destruct (Z.ltb_spec (maxUrlBytes kApprovalV1) (size url)); [by subst|].
    destruct (existsb _ _); [by subst|]. destruct (has_prefix _ _) eqn:Ep; [|by subst]. apply has_prefix_drop in Ep.
    cbn [negb] in E. case_bool_decide; [by subst|]. set (rest := drop _ _) in *. clearbody rest. subst url.
    assert (exists slash q, rest = (if slash : bool then txt "/" else []) ++ "?"%char :: q /\ parse_query kApprovalV1 q = r) as (slash & q & -> & Eq).
    { destruct rest as [|c t]; [by subst|].
      destruct (decide (c = "/"%char)) as [->|Hc].
      - cbn [tolerateEmptyPath kApprovalV1] in E. destruct t as [|d t]; [by subst|].
        destruct (decide (d = "?"%char)) as [->|Hd]; [by exists true, t|]. exfalso. revert E.
        destruct d as [[] [] [] [] [] [] [] []]; cbn; intros <-; done.
      - destruct (decide (c = "?"%char)) as [->|Hd]; [by exists false, t|]. exfalso. revert E.
        destruct c as [[] [] [] [] [] [] [] []]; cbn; intros <-; done. }
    destruct (proj1 (parse_query_spec q r) (conj Eq Hk)) as (Hw & ps & Hp & ->). split_and!; [done|lia|]. by exists slash, ps.
  - intros (Hw & Hs & slash & ps & Hp & ->). rewrite (proj2 (Z.ltb_ge _ _)) by lia.
    pose proof (rendered_plain r ps Hw Hp) as Hq.
    assert (Forall (fun c => 0x21 <= ord c < 0x7F /\ c <> "%"%char) (render kApprovalV1 slash ps)) as Hc.
    { unfold render. rewrite !Forall_app, Forall_cons. split_and!; try done.
      - repeat constructor; done.
      - destruct slash; repeat constructor; done.
      - eapply Forall_impl; [done|]. intros c H%query_char_ord. tauto. }
    rewrite existsb_false by (eapply Forall_impl; [exact Hc|]; intros c [? _]; apply orb_false_iff; rewrite !Z.leb_gt; lia).
    rewrite (proj2 (has_prefix_spec _ _)) by (by eexists). cbn [negb].
    rewrite bool_decide_eq_false_2 by (rewrite <- eq_None_not_Some; apply find_char_None; intros Hin; rewrite Forall_forall in Hc; by apply (Hc "%"%char)).
    unfold render. rewrite drop_app_length.
    destruct (proj2 (parse_query_spec (join (map render_pair ps)) r)) as [Eq Hk]; [eauto|].
    destruct slash; cbn -[parse_query]; done.
Qed.

(** C21: the parser accepts exactly the links the page may write: an answer is returned if and
    only if it is well formed and the link is its rendering, with its pairs in some order and
    at most one slash after the host, within the size cap. Everything else is refused. *)
Theorem parse_accepts_exactly url r :
  Parse url kApprovalV1 = r /\ kind r <> Invalid <->
  well_formed kApprovalV1 r /\ size url <= maxUrlBytes kApprovalV1 /\
  exists slash ps, ps ≡ₚ pairs_of r /\ url = render kApprovalV1 slash ps.
Proof. apply parse_spec. Qed.

(** * Links in a line *)

(** [url.find(p)]: the first position where [p] occurs. *)
Fixpoint find_text (p s : text) : option nat :=
  if has_prefix p s then Some O else
  match s with [] => None | _ :: s => S <$> find_text p s end.

Definition RedactUrl (url : text) : text :=
  let head :=
    match find_text (txt "://") url with
    | Some schemeEnd =>
        if (0 <? schemeEnd)%nat && IsPlainToken (take schemeEnd url) 16 then
          let tail := drop (schemeEnd + 3) url in
          let '(host, plainStop) :=
            match find_first_of (txt "/?#:@") tail with
            | None => (tail, true)
            | Some stop =>
                (take stop tail,
                 match drop stop tail with
                 | c :: _ => bool_decide (c = "/"%char) || bool_decide (c = "?"%char) || bool_decide (c = "#"%char)
                 | [] => true
                 end)
            end in
          take schemeEnd url ++ txt "://" ++ (if plainStop && IsPlainToken host 32 then host else txt "*") ++ txt " "
        else []
    | None => []
    end in
  head ++ txt "[redacted " ++ to_string (size url) ++ txt " chars]".

(** Text [RedactUrl] wrote: the link and what follows it. *)
Definition IsRedactedAlready (link after : text) : bool :=
  match find_text (txt "://") link with
  | None => false
  | Some schemeEnd =>
      if (schemeEnd =? 0)%nat || negb (IsPlainToken (take schemeEnd link) 16) then false else
      let host := drop (schemeEnd + 3) link in
      if negb (teqb host (txt "*")) && negb (IsPlainToken host 32) then false else
      if negb (has_prefix (txt " [redacted ") after) then false else
      let '(digits, rest) := span is_digit (drop 11 after) in
      negb (bool_decide (digits = [])) && has_prefix (txt " chars]") rest
  end.

(** The templates over the character: a byte of a log, a unit of a command line. *)
Class LinkChar (Char : Type) := {
  #[global] char_eq_dec :: EqDecision Char;
  Lower : Char -> Char;
  ascii_only : Char -> ascii;
  of_ascii : ascii -> Char
}.

Section Links.
Context {Char : Type} `{LinkChar Char}.

Definition EqualsLower (s lower : list Char) : bool := bool_decide (length s = length lower) && bool_decide (map Lower s = lower).

Fixpoint FindSchemeIgnoringCase (line lowerScheme : list Char) : option nat :=
  if EqualsLower (take (length lowerScheme) line) lowerScheme then Some O else
  match line with [] => None | _ :: line => S <$> FindSchemeIgnoringCase line lowerScheme end.

(** A link and what follows it: it ends at the first of [enders]. *)
Definition LinkEnd (enders : list Char) (link : list Char) : list Char * list Char :=
  span (fun c => negb (bool_decide (c ∈ enders))) link.

Definition AsciiOnly (s : list Char) : text := map ascii_only s.

(** [None] where the fuel runs out. *)
Fixpoint RedactLinks (fuel : nat) (s lowerScheme enders : list Char) : option (list Char) :=
  match fuel, s with
  | _, [] => Some []
  | O, _ => None
  | S fuel, _ =>
      match FindSchemeIgnoringCase s lowerScheme with
      | None => Some s
      | Some found =>
          let '(link, rest) := LinkEnd enders (drop found s) in
          let narrow := AsciiOnly link in
          let written := if IsRedactedAlready narrow (AsciiOnly (take 40 rest)) then link else map of_ascii (RedactUrl narrow) in
          redacted ← RedactLinks fuel rest lowerScheme enders;
          Some (take found s ++ written ++ redacted)
      end
  end.
End Links.

#[export] Instance narrow_char : LinkChar ascii := {
  Lower := ascii_lower; ascii_only c := if ord c <? 0x80 then c else "~"%char; of_ascii c := c }.
#[export] Instance wide_char : LinkChar Z := {
  Lower c := if (65 <=? c) && (c <=? 90) then c - 65 + 97 else c;
  ascii_only c := if c <? 0x80 then chr c else "~"%char; of_ascii := ord }.

Definition kScheme : text := txt "urnetwork:".
Definition kLogEnders : text := txt " " ++ [chr 9; chr 34; chr 13; chr 10].
Definition kLineEnders : wtext := [32; 9; 34].

Definition RedactLogText (s : text) : option text := RedactLinks (length s) s kScheme kLogEnders.
Definition RedactCommandLine (line : wtext) : option wtext := RedactLinks (length line) line (map ord kScheme) kLineEnders.

Definition LinkInCommandLine (line : wtext) : wtext :=
  match FindSchemeIgnoringCase line (wtxt "urnetwork://") with
  | None => []
  | Some found => (LinkEnd kLineEnders (drop found line)).1
  end.

(** * What the log keeps of a link *)

(** Everything behind [p] is a secret of the link: [p] reaches past the host of a
    scheme://host link, or shows that it has no [://] where a scheme ends. *)
Inductive secret_behind : text -> Prop :=
| behind_host sch host c :
    ":"%char ∉ sch -> Forall (fun d => d ∉ txt "/?#:@") host -> c ∈ txt "/?#:@" -> secret_behind (sch ++ txt "://" ++ host ++ [c])
| behind_scheme sch c : ":"%char ∉ sch -> c <> "/"%char -> secret_behind (sch ++ [":"%char; c])
| behind_slash sch c : ":"%char ∉ sch -> c <> "/"%char -> secret_behind (sch ++ [":"%char; "/"%char; c]).

Lemma has_prefix_cons c p d s : has_prefix (c :: p) (d :: s) = bool_decide (c = d) && has_prefix p s.
Proof.
  unfold has_prefix. cbn [length take]. destruct (decide (c = d)) as [->|Hn].
  - rewrite (bool_decide_eq_true_2 (d = d)) by done. cbn [andb]. apply bool_decide_ext. split; [by intros [= ->]|by intros ->].
  - rewrite (bool_decide_eq_false_2 (c = d)) by done. by rewrite bool_decide_eq_false_2 by congruence.
Qed.

Lemma find_text_here p s : has_prefix p s = true -> find_text p s = Some O.
Proof. intros H. by destruct s; cbn [find_text]; rewrite H. Qed.

Lemma find_text_skip c p a s : c ∉ a -> find_text (c :: p) (a ++ s) = (fun n => length a + n)%nat <$> find_text (c :: p) s.
Proof.
  induction a as [|d a IH]; intros Hc.
  - cbn [app length]. by destruct (find_text (c :: p) s).
  - cbn [app length find_text]. rewrite has_prefix_cons, bool_decide_eq_false_2 by set_solver. cbn [andb].
    rewrite IH by set_solver. by destruct (find_text (c :: p) s).
Qed.

Lemma find_text_scheme sch s : ":"%char ∉ sch -> find_text (txt "://") (sch ++ txt "://" ++ s) = Some (length sch).
Proof.
  intros Hc. change (txt "://") with (":"%char :: txt "//"). rewrite find_text_skip by done.
  rewrite find_text_here by (apply has_prefix_spec; by exists s). cbn. f_equal. lia.
Qed.

(** With no [://] where the scheme ends, what comes before a later one holds the colon. *)
Lemma colon_not_plain sch t k :
  ":"%char ∉ sch -> has_prefix (txt "://") (":"%char :: t) = false ->
  find_text (txt "://") (sch ++ ":"%char :: t) = Some k -> IsPlainToken (take k (sch ++ ":"%char :: t)) 16 = false.
Proof.
  intros Hc Hp Hk. change (txt "://") with (":"%char :: txt "//") in Hk, Hp. rewrite find_text_skip in Hk by done.
  cbn [find_text] in Hk. rewrite Hp in Hk. destruct (find_text _ t) as [n|]; [|done]. cbn in Hk. injection Hk as <-.
  rewrite take_app_ge by lia. replace (length sch + S n - length sch)%nat with (S n) by lia. cbn [take].
  unfold IsPlainToken. destruct (_ <? _); [done|]. rewrite forallb_app. cbn [forallb]. by rewrite andb_false_r.
Qed.

Lemma IsPlainToken_stop host c s n : c ∈ txt "/?#:@" -> IsPlainToken (host ++ c :: s) n = false.
Proof.
  intros Hc. unfold IsPlainToken. destruct (_ <? _); [done|]. rewrite forallb_app. cbn [forallb].
  assert (is_plain c = false) as ->; [|by rewrite andb_false_r].
  change (txt "/?#:@") with ["/"; "?"; "#"; ":"; "@"]%char in Hc. rewrite !elem_of_cons, elem_of_nil in Hc.
  by destruct_or!; subst c.
Qed.

Lemma secret_behind_cases p :
  secret_behind p ->
  (exists sch host c, p = sch ++ txt "://" ++ host ++ [c] /\ ":"%char ∉ sch /\ Forall (fun d => d ∉ txt "/?#:@") host /\ c ∈ txt "/?#:@") \/
  (exists sch t, p = sch ++ ":"%char :: t /\ ":"%char ∉ sch /\ forall s, has_prefix (txt "://") (":"%char :: t ++ s) = false).
Proof.
  intros [sch host c H1 H2 H3|sch c H1 H2|sch c H1 H2]; [left; eauto 10|right; exists sch, [c]|right; exists sch, ["/"%char; c]].
  all: split_and!; [done|done|]; intros s; change (txt "://") with [":"; "/"; "/"]%char; cbn [app];
    rewrite !has_prefix_cons; rewrite (bool_decide_eq_false_2 ("/"%char = c)) by done; by rewrite ?andb_false_r.
Qed.

Lemma RedactUrl_secret p s1 s2 : secret_behind p -> length s1 = length s2 -> RedactUrl (p ++ s1) = RedactUrl (p ++ s2).
Proof.
  intros Hp Hl. unfold RedactUrl. replace (size (p ++ s2)) with (size (p ++ s1)) by (unfold size; rewrite !length_app; lia). f_equal.
  destruct (secret_behind_cases p Hp) as [(sch & host & c & -> & Hc & Hh & Hs)|(sch & t & -> & Hc & Ht)].
  - rewrite <- !app_assoc. cbn [app]. rewrite !find_text_scheme by done. rewrite !take_app_length.
    rewrite !(drop_app_add' _ _ (length sch)) by done. rewrite !skipn_app.
    change (drop 3 (txt "://")) with (@nil ascii). cbn [app length txt]. cbn [skipn].
    replace (3 - length (txt "://"))%nat with 0%nat by done. rewrite !drop_0.
    rewrite !find_first_of_app by done. by rewrite !take_app_length, !drop_app_length.
  - rewrite <- !app_assoc. cbn [app].
    destruct (find_text _ (sch ++ _ :: t ++ s1)) as [k1|] eqn:E1, (find_text _ (sch ++ _ :: t ++ s2)) as [k2|] eqn:E2.
    all: rewrite ?(colon_not_plain _ _ _ Hc (Ht s1) E1), ?(colon_not_plain _ _ _ Hc (Ht s2) E2), ?andb_false_r; done.
Qed.

Lemma not_redacted_already p s after : secret_behind p -> IsRedactedAlready (p ++ s) after = false.
Proof.
  intros Hp. unfold IsRedactedAlready.
  destruct (secret_behind_cases p Hp) as [(sch & host & c & -> & Hc & Hh & Hs)|(sch & t & -> & Hc & Ht)].
  - rewrite <- !app_assoc. cbn [app]. rewrite find_text_scheme by done. destruct (_ || _); [done|].
    assert (drop (length sch + 3) (sch ++ txt "://" ++ host ++ c :: s) = host ++ c :: s) as ->.
    { rewrite (drop_app_add' _ _ (length sch)) by done. by rewrite (drop_app_length' (txt "://")). }
    rewrite IsPlainToken_stop by done. unfold teqb. rewrite bool_decide_eq_false_2; [done|].
    intros E. destruct host as [|d host]; [|by destruct host]. injection E as -> _. revert Hs.
    change (txt "/?#:@") with ["/"; "?"; "#"; ":"; "@"]%char. rewrite !elem_of_cons, elem_of_nil. intros Hs. by destruct_or!.
  - rewrite <- !app_assoc. cbn [app]. destruct (find_text _ _) as [k|] eqn:E; [|done].
    rewrite (colon_not_plain _ _ _ Hc (Ht s) E). by rewrite orb_true_r.
Qed.

Section Redaction.
Context {Char : Type} `{LinkChar Char} (scheme enders : list Char).

(** A link does not end where it starts. *)
Hypothesis scheme_starts : exists d t, scheme = d :: t /\ forall c, Lower c = d -> c ∉ enders.

Lemma find_scheme_Some s k : FindSchemeIgnoringCase s scheme = Some k -> exists c t, drop k s = c :: t /\ c ∉ enders.
Proof.
  destruct scheme_starts as (d & t & Es & Hd). revert k. induction s as [|x s IH]; intros k Hk; cbn [FindSchemeIgnoringCase] in Hk.
  - rewrite Es in Hk. cbn in Hk. unfold EqualsLower in Hk. cbn in Hk. done.
  - destruct (EqualsLower _ _) eqn:E.
    + injection Hk as <-. exists x, s. split; [done|]. apply Hd. rewrite Es in E. unfold EqualsLower in E. cbn [length take map] in E.
      apply andb_true_iff in E as [_ E]. apply bool_decide_eq_true in E. by injection E.
    + destruct (FindSchemeIgnoringCase s scheme) as [n|]; [|done]. injection Hk as <-. by apply IH.
Qed.

(** What follows a link is shorter than the line. *)
Lemma link_end_lt s k : FindSchemeIgnoringCase s scheme = Some k -> (length (LinkEnd enders (drop k s)).2 < length s)%nat.
Proof.
  intros Hk. destruct (find_scheme_Some s k Hk) as (c & t & E & Hc).
  assert (length (drop k s) <= length s)%nat as Hl by (rewrite length_drop; lia). rewrite E in *. cbn in Hl.
  unfold LinkEnd. cbn [span]. rewrite bool_decide_eq_false_2 by done. cbn [negb].
  pose proof (span_app (fun c => negb (bool_decide (c ∈ enders))) t) as Ha. destruct (span _ t) as [l r]. cbn in *.
  apply (f_equal length) in Ha. rewrite length_app in Ha. lia.
Qed.

Definition redact (s : list Char) : option (list Char) := RedactLinks (length s) s scheme enders.

(** Enough fuel is the length of the line: the loop ends, with one answer. *)
Lemma redact_total s : exists r, forall fuel, (length s <= fuel)%nat -> RedactLinks fuel s scheme enders = Some r.
Proof.
  remember (length s) as n eqn:En. revert s En. induction (lt_wf n) as [n _ IH]. intros s ->.
  destruct s as [|x s]; [by exists []; intros []|].
  destruct (FindSchemeIgnoringCase (x :: s) scheme) as [k|] eqn:Ek.
  - pose proof (link_end_lt _ _ Ek) as Hl. destruct (LinkEnd enders (drop k (x :: s))) as [link rest] eqn:El.
    destruct (IH _ Hl rest eq_refl) as [r Hr]. eexists. intros [|fuel] Hf; [cbn in Hf; lia|].
    cbn [RedactLinks]. rewrite Ek, El. rewrite Hr by (cbn [snd length] in *; lia). reflexivity.
  - exists (x :: s). intros [|fuel] Hf; [cbn in Hf; lia|]. cbn [RedactLinks]. by rewrite Ek.
Qed.

Lemma redact_Some s : exists r, redact s = Some r.
Proof. destruct (redact_total s) as [r Hr]. exists r. apply Hr. lia. Qed.

Lemma redact_unfold s k :
  FindSchemeIgnoringCase s scheme = Some k ->
  let '(link, rest) := LinkEnd enders (drop k s) in
  let written := if IsRedactedAlready (AsciiOnly link) (AsciiOnly (take 40 rest)) then link else map of_ascii (RedactUrl (AsciiOnly link)) in
  redact s = (fun r => take k s ++ written ++ r) <$> redact rest.
Proof.
  intros Hk. pose proof (link_end_lt s k Hk) as Hl. destruct (LinkEnd enders (drop k s)) as [link rest] eqn:El. cbn [snd] in Hl.
  unfold redact. destruct s as [|x s]; [cbn in Hl; lia|]. cbn [length RedactLinks]. rewrite Hk, El.
  destruct (redact_total rest) as [r Hr]. rewrite !Hr by (cbn [length] in Hl; lia). done.
Qed.

Lemma LinkEnd_link l b : Forall (fun c => c ∉ enders) l -> stops (fun c => negb (bool_decide (c ∈ enders))) b -> LinkEnd enders (l ++ b) = (l, b).
Proof.
  intros Hl Hb. unfold LinkEnd. apply span_unique; [|done]. eapply Forall_impl; [exact Hl|]. intros c Hc. cbn. by rewrite bool_decide_eq_false_2.
Qed.

(** Two lines that differ in nothing but the secrets of their links. *)
Inductive same_but_secrets : list Char -> list Char -> Prop :=
| same_rest s : same_but_secrets s s
| same_link a p s1 s2 b1 b2 :
    FindSchemeIgnoringCase (a ++ p ++ s1 ++ b1) scheme = Some (length a) ->
    FindSchemeIgnoringCase (a ++ p ++ s2 ++ b2) scheme = Some (length a) ->
    secret_behind (AsciiOnly p) -> length s1 = length s2 ->
    Forall (fun c => c ∉ enders) (p ++ s1 ++ s2) ->
    stops (fun c => negb (bool_decide (c ∈ enders))) b1 -> stops (fun c => negb (bool_decide (c ∈ enders))) b2 ->
    same_but_secrets b1 b2 -> same_but_secrets (a ++ p ++ s1 ++ b1) (a ++ p ++ s2 ++ b2).

Lemma redact_link a p s b :
  FindSchemeIgnoringCase (a ++ p ++ s ++ b) scheme = Some (length a) -> secret_behind (AsciiOnly p) ->
  Forall (fun c => c ∉ enders) (p ++ s) -> stops (fun c => negb (bool_decide (c ∈ enders))) b ->
  redact (a ++ p ++ s ++ b) = (fun r => a ++ map of_ascii (RedactUrl (AsciiOnly p ++ AsciiOnly s)) ++ r) <$> redact b.
Proof.
  intros Hk Hp Hs Hb. pose proof (redact_unfold _ _ Hk) as Hu. rewrite drop_app_length, take_app_length in Hu.
  rewrite (app_assoc p s b), LinkEnd_link in Hu by done. rewrite (app_assoc p s b).
  unfold AsciiOnly in *. rewrite map_app, not_redacted_already in Hu by done. exact Hu.
Qed.

Lemma redact_secrets x y : same_but_secrets x y -> redact x = redact y.
Proof.
  induction 1 as [s|a p s1 s2 b1 b2 H1 H2 Hp Hl Hs Hb1 Hb2 _ IH]; [done|].
  rewrite !Forall_app in Hs. destruct Hs as (Hs & Hs1 & Hs2).
  rewrite !redact_link; try done; try (by apply Forall_app). rewrite IH.
  rewrite (RedactUrl_secret (AsciiOnly p) (AsciiOnly s1) (AsciiOnly s2)); [done|done|].
  unfold AsciiOnly. by rewrite !length_map.
Qed.
End Redaction.

Lemma log_scheme_starts : exists d t, kScheme = d :: t /\ forall c, Lower c = d -> c ∉ kLogEnders.
Proof.
  exists "u"%char, (tail kScheme). split; [done|]. intros c Hc Hin. revert Hc. unfold kLogEnders in Hin. cbn in Hin.
  rewrite !elem_of_cons, elem_of_nil in Hin. by destruct_or!; subst c.
Qed.

Lemma line_scheme_starts : exists d t, map ord kScheme = d :: t /\ forall c, Lower c = d -> c ∉ kLineEnders.
Proof.
  exists 117, (tail (map ord kScheme)). split; [done|]. intros c Hc Hin. revert Hc. unfold kLineEnders in Hin.
  rewrite !elem_of_cons, elem_of_nil in Hin. by destruct_or!; subst c.
Qed.

(** C26: the log never says what is behind a link's host. Two texts of a log, or two command
    lines, that differ only in what stands behind the hosts of their urnetwork: links, in
    whatever case and with or without slashes, and not in its length, are redacted to the same
    text; and the redaction always ends with an answer. *)
Theorem redaction_hides_the_secrets x y v w :
  (same_but_secrets kScheme kLogEnders x y -> exists r, RedactLogText x = Some r /\ RedactLogText y = Some r) /\
  (same_but_secrets (map ord kScheme) kLineEnders v w -> exists r, RedactCommandLine v = Some r /\ RedactCommandLine w = Some r).
Proof.
  split; intros Hs.
  - destruct (redact_Some _ _ log_scheme_starts x) as [r Hr]. exists r. split; [exact Hr|].
    rewrite <- Hr. symmetry. apply (redact_secrets _ _ log_scheme_starts x y Hs).
  - destruct (redact_Some _ _ line_scheme_starts v) as [r Hr]. exists r. split; [exact Hr|].
    rewrite <- Hr. symmetry. apply (redact_secrets _ _ line_scheme_starts v w Hs).
Qed.

Example redaction_hides_the_secrets_witness :
  exists r, RedactLogText (txt "at urnetwork://auth?state=ONE&d=two end") = Some r /\
            RedactLogText (txt "at urnetwork://auth?state=two&d=ONE end") = Some r.
Proof.
  apply (redaction_hides_the_secrets _ _ [] []).
  apply (same_link _ _ (txt "at ") (txt "urnetwork://auth?") (txt "state=ONE&d=two") (txt "state=two&d=ONE") (txt " end") (txt " end")).
  - vm_compute. reflexivity.
  - vm_compute. reflexivity.
  - apply (behind_host (txt "urnetwork") (txt "auth") "?"%char).
    + apply find_char_None. vm_compute. reflexivity.
    + apply (bool_decide_unpack _). vm_compute. exact I.
    + apply (bool_decide_unpack _). vm_compute. exact I.
  - vm_compute. reflexivity.
  - apply (bool_decide_unpack _). vm_compute. exact I.
  - intros c. vm_compute. intros [= <-]. reflexivity.
  - intros c. vm_compute. intros [= <-]. reflexivity.
  - apply same_rest.
Defined.
