(* ===== verification/Approval.v ===== *)
(** The sign-in approved in the browser: which network a request names (App/ApprovalNetwork.h),
    the attempt and its gate (App/UrIoApproval.h), the opening of the page's answer
    (App/ApprovalUnseal.h), and the app's side of it (App/AppController.cpp: HandleAuthLink,
    BeginApproval, CancelApproval, OnAuthState, OnApprovalTimer). The keys, the boxes and the
    JSON are the sdk's and a library's: parameters. *)

From S2P Require Import Prelude.
From S2P Require Import CxxText.
From S2P Require Import AuthLink.
From S2P Require Import Provide.

(** * The network a request names *)

Definition kContract : Z := 1.
Definition kContractNamed : Z := 2.
Definition kMaxApiChars : Z := 200.
Definition kMaxApiLabelChars : Z := 63.
Definition kMaxApiPort : Z := 65535.
Definition kHttpsPort : Z := 443.

Definition IsLowerOrDigit (c : ascii) : bool := in_range 97 122 c || is_digit c.

Definition IsAllDigits (s : text) : bool := forallb is_digit s && negb (bool_decide (s = [])).

Definition IsHexNumber (s : text) : bool :=
  match s with
  | "0"%char :: "x"%char :: t => forallb (fun c => is_digit c || in_range 97 102 c) t
  | _ => false
  end.

Definition IsApiLabel (label : text) : bool :=
  match label, last label with
  | c :: _, Some d =>
      if kMaxApiLabelChars <? size label then false else
      if negb (IsLowerOrDigit c) || negb (IsLowerOrDigit d) then false else
      forallb (fun c => IsLowerOrDigit c || bool_decide (c = "-"%char)) label
  | _, _ => false
  end.

Definition IsApiPort (port : text) : bool :=
  if negb (IsAllDigits port) || (5 <? size port) || bool_decide (head port = Some "0"%char) then false else
  let value := digits_value port in (value <=? kMaxApiPort) && negb (value =? kHttpsPort).

(** The labels between the dots. *)
Fixpoint split_dot (s : text) : list text :=
  match s with
  | [] => [[]]
  | c :: s =>
      if bool_decide (c = "."%char) then [] :: split_dot s else
      match split_dot s with p :: ps => (c :: p) :: ps | [] => [[c]] end
  end.

(** The host's name and port. *)
Definition name_of (host : text) : option text :=
  match find_char ":"%char host with
  | None => Some host
  | Some colon => if IsApiPort (drop (S colon) host) then Some (take colon host) else None
  end.

Definition IsValidApiHost (host : text) : bool :=
  if bool_decide (host = []) || (kMaxApiChars <? size host) then false else
  match name_of host with
  | None => false
  | Some name =>
      let labels := split_dot name in
      if negb (forallb IsApiLabel labels) then false else
      match last labels with
      | Some l => (2 <=? Z.of_nat (length labels)) && negb (IsAllDigits l) && negb (IsHexNumber l)
      | None => false
      end
  end.

Definition ApiHostOfUrl (apiUrl : text) : text :=
  let url := map ascii_lower apiUrl in
  if negb (has_prefix (txt "https://") url) then [] else
  let host := drop 8 url in
  let host := match last host with Some "/"%char => take (length host - 1) host | _ => host end in
  let host :=
    if (4 <? size host) && has_suffix (txt ":443") host then
      let name := take (length host - 4) host in
      match find_char ":"%char name with None => name | Some _ => host end
    else host in
  if IsValidApiHost host then host else [].

Inductive NetworkKind := NoNetwork | Official | Custom.
Record Network := mkNetwork { network_kind : NetworkKind; api : text }.

Definition NetworkOf (officialSpace : bool) (liveApiUrl operatorHost : text) : Network :=
  let a := ApiHostOfUrl liveApiUrl in
  if bool_decide (a = []) then mkNetwork NoNetwork [] else
  if officialSpace && teqb a (txt "api." ++ operatorHost) then mkNetwork Official [] else mkNetwork Custom a.

Definition ContractFor (k : NetworkKind) : Z :=
  match k with Official => kContract | Custom => kContractNamed | NoNetwork => 0 end.

(** * The attempt *)

(** The clocks, in nanoseconds. *)
Definition second : Z := 1000000000.
Definition kLife : Z := 300 * second.
Definition kReopenWindow : Z := 200 * second.
Definition kWallSkew : Z := 60 * second.
Definition kNeutralEvery : Z := 30 * second.
Definition kKeyPairTries : nat := 8.
Definition kMinPublicKeyChars : Z := 43.
Definition kMaxPublicKeyChars : Z := 44.

Record Clocks := mkClocks { steady : Z; wall : Z }.
Record Context := mkContext { signedIn : bool; ctx_flow : Z }.

Inductive Verdict := Ignored | Stray | VDenied | Accepted.
Inductive Why := Ok | WhySignedIn | NoAttempt | Expired | WhySuperseded | InvalidShape | WrongState | BadSeal.
Inductive ClearReason :=
| CBegin | Cancel | TimedOut | SignInStarted | CSignedIn | CSignedOut | Superseded | Consumed | CDenied | Shutdown.

Record Decision := mkDecision { verdict : Verdict; why : Why }.

(** RFC 4648 section 5, by the shifts of the code. *)
Definition kAlphabet (v : Z) : ascii :=
  default "A"%char (txt "ABCDEFGHIJKLMNOPQRSTUVWXYZabcdefghijklmnopqrstuvwxyz0123456789-_" !! Z.to_nat v).

Fixpoint Base64Url (d : text) : text :=
  match d with
  | [] => []
  | a :: d =>
      let b := match d with b :: _ => ord b | [] => 0 end in
      let c := match d with _ :: c :: _ => ord c | _ => 0 end in
      let chunk := Z.lor (Z.lor (Z.shiftl (ord a) 16) (Z.shiftl b 8)) c in
      let at_ n := kAlphabet (Z.land (Z.shiftr chunk n) 63) in
      match d with
      | [] => [at_ 18; at_ 12]
      | [_] => [at_ 18; at_ 12; at_ 6]
      | _ :: _ :: d => [at_ 18; at_ 12; at_ 6; at_ 0] ++ Base64Url d
      end
  end.

(** Compared without an early exit. *)
Definition SameSecret (a b : text) : bool :=
  if negb (size a =? size b) then false else
  foldl (fun difference p => u8 (Z.lor difference (Z.lxor (ord p.1) (ord p.2)))) 0 (zip a b) =? 0.

Record KeyPair := mkKeyPair { publicKey : text; secretKey : text }.

Definition usable_pair (drawn : KeyPair) : bool :=
  (kMinPublicKeyChars <=? size (publicKey drawn)) && (size (publicKey drawn) <=? kMaxPublicKeyChars) &&
  negb (bool_decide (secretKey drawn = [])) && forallb IsBase58Char (publicKey drawn).

(** The draws of the source, in order: at most [tries] of them are looked at. *)
Fixpoint FreshKeyPair (tries : nat) (draws : list (option KeyPair)) : option KeyPair :=
  match tries, draws with
  | S tries, Some drawn :: draws => if usable_pair drawn then Some drawn else FreshKeyPair tries draws
  | S tries, None :: draws => FreshKeyPair tries draws
  | _, _ => None
  end.

Record Params := mkParams { p_publicKey : text; p_secretKey : text; p_now : Clocks; p_flow : Z; p_api : text }.

(** The slot; its fields are wiped when the attempt ends. *)
Record Slot := mkSlot {
  live_ : bool; state_ : text; publicKey_ : text; secretKey_ : text; api_ : text; begun_ : Clocks; flow_ : Z }.

Record View := mkView { v_state : text; v_publicKey : text; startedUnix : Z; deadline : Z; v_api : text }.

Definition WipeAll (s : Slot) : Slot := mkSlot false [] [] [] [] (begun_ s) (flow_ s).
Definition Clear (s : Slot) : Slot := WipeAll s.

Definition ViewOf (s : Slot) : View :=
  mkView (state_ s) (publicKey_ s) (Z.quot (wall (begun_ s)) second) (steady (begun_ s) + kLife) (api_ s).

(** [drawn]: the 32 random bytes, none without entropy. *)
Definition Begin (s : Slot) (params : Params) (drawn : option text) : Slot * option View :=
  let s := Clear s in
  match drawn with
  | None => (s, None)
  | Some raw =>
      let s := mkSlot true (Base64Url raw) (p_publicKey params) (p_secretKey params) (p_api params) (p_now params) (p_flow params) in
      (s, Some (ViewOf s))
  end.

Definition ExpiredAt (s : Slot) (now : Clocks) : bool :=
  (kLife <=? steady now - steady (begun_ s)) || (kLife <=? wall now - wall (begun_ s)) ||
  (kWallSkew <? wall (begun_ s) - wall now).

Definition Peek (s : Slot) (now : Clocks) : option View :=
  if negb (live_ s) || ExpiredAt s now then None else Some (ViewOf s).

Definition Reopenable (s : Slot) (now : Clocks) : bool :=
  live_ s && negb (ExpiredAt s now) && (steady now - steady (begun_ s) <? kReopenWindow) &&
  (wall now - wall (begun_ s) <? kReopenWindow).

Definition Check (s : Slot) (link : Return) (now : Clocks) (context : Context) : Slot * Decision :=
  if signedIn context then (s, mkDecision Ignored WhySignedIn) else
  if negb (live_ s) then (s, mkDecision Stray NoAttempt) else
  if ExpiredAt s now then (Clear s, mkDecision Stray Expired) else
  if negb (ctx_flow context =? flow_ s) then (Clear s, mkDecision Stray WhySuperseded) else
  if bool_decide (kind link = Invalid) then (s, mkDecision Stray InvalidShape) else
  if negb (SameSecret (AuthLink.state link) (state_ s)) then (s, mkDecision Stray WrongState) else
  if bool_decide (kind link = Denied) then (Clear s, mkDecision VDenied Ok) else
  (s, mkDecision Accepted Ok).

Definition Consume (s : Slot) (st : text) : Slot * bool :=
  if negb (live_ s) || negb (SameSecret st (state_ s)) then (s, false) else (Clear s, true).

Definition SecretKey (s : Slot) : text := if live_ s then secretKey_ s else [].
Definition Flow (s : Slot) : Z := if live_ s then flow_ s else 0.

Definition BuildRequestUrl (pageUrl : text) (view : View) : text :=
  let ts := to_string (startedUnix view) in
  let allowed := forallb IsBase64UrlChar in
  let pageOk := negb (bool_decide (pageUrl = [])) && (size pageUrl <=? 200) &&
    forallb (fun c => (0x20 <? ord c) && (ord c <? 0x7F) && negb (bool_decide (c = "#"%char)) && negb (bool_decide (c = "%"%char))) pageUrl in
  let publicKeyOk := (kMinPublicKeyChars <=? size (v_publicKey view)) && (size (v_publicKey view) <=? kMaxPublicKeyChars) &&
    forallb IsBase58Char (v_publicKey view) in
  let tsOk := (size ts =? 10) && forallb is_digit ts in
  let named := negb (bool_decide (v_api view = [])) in
  if negb pageOk || negb (size (v_state view) =? kStateChars) || negb (allowed (v_state view)) || negb publicKeyOk ||
     negb (allowed (v_publicKey view)) || negb tsOk || (named && negb (IsValidApiHost (v_api view))) then [] else
  pageUrl ++ (if named then txt "#v=2&platform=windows&state=" else txt "#v=1&platform=windows&state=") ++ v_state view ++
  txt "&pk=" ++ v_publicKey view ++ txt "&ts=" ++ ts ++ (if named then txt "&api=" ++ v_api view else []).

Record NeutralLine := mkNeutral { shown_ : bool; last_ : Z }.
Definition Allow (n : NeutralLine) (now : Z) : NeutralLine * bool :=
  if shown_ n && (now - last_ n <? kNeutralEvery) then (n, false) else (mkNeutral true now, true).

(** * Opening the answer *)

(** The sdk's crypto, and the strings under "c" and "s" of a JSON object; [None] is a throw or
    a refusal. *)
Class Sdk := {
  decodeBase58 : text -> option text;
  encodeBase58 : text -> text;
  generateSharedSecret : text -> text -> option text;
  decryptData : text -> text -> text -> option text;
  answer_strings : text -> option (text * text)
}.

Section App.
Context `{Sdk}.

(** What a small-order key makes of the secret. *)
Definition constant_secret (secret : text) : option text := generateSharedSecret secret (replicate 32 (chr 0)).

Definition Unseal (ownSecret : text) (link : Return) : option text :=
  secret ← decodeBase58 ownSecret;
  sealedBy ← decodeBase58 (epk link);
  shared ← generateSharedSecret secret sealedBy;
  constant ← constant_secret secret;
  if bool_decide (shared = []) || SameSecret shared constant then None else
  plain ← decryptData (AuthLink.data link) (nonce link) (encodeBase58 shared);
  '(code, st) ← answer_strings plain;
  if negb (SameSecret st (AuthLink.state link)) then None else
  if bool_decide (code = []) || (2048 <? size code) then None else Some code.

(** * The app *)

Inductive AuthState := LoggedOut | Authenticating | LoggedIn | Error.

Record App := mkApp {
  slot : Slot; authState_ : AuthState; sdkLoggedIn : bool; currentFlow : Z;
  freshProcessLaunch_ : bool; neutralLine_ : NeutralLine; quitting_ : bool }.

(** What the app does: an attempt begins and ends, the window is raised, the login page is told,
    a code is handed on, with the link it came in and the moment. *)
Inductive Out :=
| Began (params : Params) (raw : text) | EndedBy (reason : ClearReason)
| Raised | ToldExpired | ToldDenied | ShownStray
| Handed (code : text) (link : Return) (now : Clocks) (context : Context).

Definition with_slot (a : App) (s : Slot) : App :=
  mkApp s (authState_ a) (sdkLoggedIn a) (currentFlow a) (freshProcessLaunch_ a) (neutralLine_ a) (quitting_ a).

Definition ended (s : Slot) (reason : ClearReason) : list Out := if live_ s then [EndedBy reason] else [].

Definition CancelApproval (a : App) (reason : ClearReason) : App * list Out :=
  (if live_ (slot a) then with_slot a (Clear (slot a)) else a, ended (slot a) reason).

Definition ApprovalContext (a : App) : Context :=
  mkContext (match authState_ a with LoggedIn => true | _ => sdkLoggedIn a end) (currentFlow a).

Definition ShowStrayNotice (a : App) (now : Clocks) : App * list Out :=
  if negb (freshProcessLaunch_ a) then (a, []) else
  let '(n, allowed) := Allow (neutralLine_ a) (steady now) in
  (mkApp (slot a) (authState_ a) (sdkLoggedIn a) (currentFlow a) false n (quitting_ a), if allowed then [Raised; ShownStray] else []).

Definition HandleAuthLink (a : App) (url : text) (now : Clocks) : App * list Out :=
  if quitting_ a then (a, []) else
  let link := Parse url kApprovalV1 in
  let context := ApprovalContext a in
  let '(s, decision) := Check (slot a) link now context in
  let a' := with_slot a s in
  let code := match verdict decision with Accepted => Unseal (SecretKey s) link | _ => None end in
  let decision := match verdict decision, code with Accepted, None => mkDecision Stray BadSeal | _, _ => decision end in
  match verdict decision, code with
  | Ignored, _ => (a', [])
  | Stray, _ =>
      let told := match why decision with
                  | Expired => ended (slot a) TimedOut ++ [ToldExpired]
                  | WhySuperseded => ended (slot a) Superseded ++ [ToldExpired]
                  | _ => []
                  end in
      let '(a'', shown) := ShowStrayNotice a' now in (a'', told ++ shown)
  | VDenied, _ => (a', ended (slot a) CDenied ++ [Raised; ToldDenied])
  | Accepted, Some code =>
      let '(s, consumed) := Consume s (AuthLink.state link) in
      if consumed then (with_slot a s, ended (slot a) Consumed ++ [Raised; Handed code link now context]) else (a', [])
  | Accepted, None => (a', [])
  end.

(** What the rest of the app, the page and the machine say as an attempt would begin. *)
Inductive Handler := Ours | Absent | Foreign | Unsafe | Failed.
Record Offer := mkOffer {
  enabled : bool; network : Network; elevated : bool; pageLive : bool; pageLists : Z -> bool; handler : Handler;
  ensured : bool; draws : list (option KeyPair); drawn : option text; later : Clocks }.

Definition ApprovalOfferedIn (a : App) (o : Offer) : bool :=
  if negb (enabled o) then false else
  match network_kind (network o) with
  | NoNetwork => false
  | k =>
      if elevated o || signedIn (ApprovalContext a) || negb (pageLive o) || negb (pageLists o (ContractFor k)) then false else
      match handler o with Ours | Absent => true | _ => false end
  end.

(** What an attempt of its own does to the flows before it. The rest of
    [BeginBrowserApproval] is not the attempt's: it forgets a network approved earlier, and
    reports an abandoned Authenticating as LoggedOut, which reaches this window as any
    [AuthStateIs] does. *)
Definition BeginBrowserApproval (a : App) : App :=
  mkApp (slot a) (authState_ a) (sdkLoggedIn a) (u64 (currentFlow a + 1)) (freshProcessLaunch_ a) (neutralLine_ a) (quitting_ a).

Definition begin_fresh (a : App) (o : Offer) : App * list Out * option View :=
  if negb (ApprovalOfferedIn a o) then (a, [], None) else
  if negb (ensured o) then (a, [], None) else
  match FreshKeyPair kKeyPairTries (draws o) with
  | None => (a, [], None)
  | Some keys =>
      let a := BeginBrowserApproval a in
      let params := mkParams (publicKey keys) (secretKey keys) (later o) (currentFlow a) (api (network o)) in
      let '(s, view) := Begin (slot a) params (drawn o) in
      (with_slot a s, ended (slot a) CBegin ++ match drawn o with Some raw => [Began params raw] | None => [] end, view)
  end.

Definition BeginApproval (a : App) (now : Clocks) (o : Offer) : App * list Out * option View :=
  match Peek (slot a) now with
  | Some live =>
      if (Flow (slot a) =? currentFlow a) && Reopenable (slot a) now then (a, [], Some live) else
      let '(a, out1) := CancelApproval a Superseded in
      let '(a, out2, view) := begin_fresh a o in (a, out1 ++ out2, view)
  | None => begin_fresh a o
  end.

Definition OnAuthState (a : App) (st : AuthState) : App * list Out :=
  let wasLoggedIn := match authState_ a with LoggedIn => true | _ => false end in
  let a := mkApp (slot a) st (sdkLoggedIn a) (currentFlow a) (freshProcessLaunch_ a) (neutralLine_ a) (quitting_ a) in
  let other := if live_ (slot a) && negb (Flow (slot a) =? currentFlow a) then CancelApproval a Superseded else (a, []) in
  match st with
  | Authenticating => CancelApproval a SignInStarted
  | LoggedIn => CancelApproval a CSignedIn
  | LoggedOut => if wasLoggedIn then CancelApproval a CSignedOut else other
  | Error => other
  end.

Inductive Ev :=
| Link (url : text) (now : Clocks)
| Click (now : Clocks) (o : Offer)
| AuthStateIs (st : AuthState)
| SdkLoggedInIs (b : bool)
| FlowStarts
| CancelClicked
| TimerFires
| Quits.

Definition handle (a : App) (e : Ev) : App * list Out :=
  match e with
  | Link url now => HandleAuthLink a url now
  | Click now o => (BeginApproval a now o).1
  | AuthStateIs st => OnAuthState a st
  | SdkLoggedInIs b => (mkApp (slot a) (authState_ a) b (currentFlow a) (freshProcessLaunch_ a) (neutralLine_ a) (quitting_ a), [])
  | FlowStarts => (BeginBrowserApproval a, [])
  | CancelClicked => CancelApproval a Cancel
  | TimerFires => let '(a, out) := CancelApproval a TimedOut in (a, out ++ [ToldExpired])
  | Quits =>
      CancelApproval (mkApp (slot a) (authState_ a) (sdkLoggedIn a) (currentFlow a) (freshProcessLaunch_ a) (neutralLine_ a) true) Shutdown
  end.

Definition run (a : App) (evs : list Ev) : App * list Out :=
  foldl (fun st e => let '(a, out) := handle st.1 e in (a, st.2 ++ out)) (a, []) evs.
End App.

(** A process that has just started. *)
Definition launched (fresh : bool) (st : AuthState) (loggedIn : bool) : App :=
  mkApp (mkSlot false [] [] [] [] (mkClocks 0 0) 0) st loggedIn 0 fresh (mkNeutral false 0) false.

(** * Secrets are compared whole *)

Lemma u8_bits n : u8 n = Z.land n 255.
Proof. unfold wrap. change 255 with (Z.ones 8). by rewrite Z.land_ones by lia. Qed.

Lemma u8_lor a b : u8 (Z.lor a b) = Z.lor (u8 a) (u8 b).
Proof. rewrite !u8_bits. apply Z.land_lor_distr_l. Qed.

Lemma u8_lxor_ord c d : u8 (Z.lxor (ord c) (ord d)) = Z.lxor (ord c) (ord d).
Proof.
  rewrite u8_bits. pose proof (ord_range c) as Hc. pose proof (ord_range d) as Hd. apply Z.bits_inj'. intros n Hn.
  rewrite Z.land_spec, Z.lxor_spec. destruct (Z.lt_ge_cases n 8).
  - change 255 with (Z.ones 8). rewrite Z.ones_spec_low by lia. by rewrite andb_true_r.
  - rewrite <- (Z.mod_small (ord c) (2 ^ 8)), <- (Z.mod_small (ord d) (2 ^ 8)) by done.
    by rewrite !Z.mod_pow2_bits_high by lia.
Qed.

Lemma difference_zero d l :
  0 <= d < 256 ->
  foldl (fun difference (p : ascii * ascii) => u8 (Z.lor difference (Z.lxor (ord p.1) (ord p.2)))) d l = 0 <->
  d = 0 /\ Forall (fun p => p.1 = p.2) l.
Proof.
  revert d. induction l as [|p l IH]; intros d Hd; cbn [foldl]; [split; [by split; [|constructor]|by intros [-> _]]|].
  rewrite IH by (apply wrap_range; lia). rewrite Forall_cons, u8_lor, u8_lxor_ord, Z.lor_eq_0_iff, Z.lxor_eq_0_iff.
  rewrite (wrap_small 8 d) by done. rewrite <- char_ord_eq. tauto.
Qed.

Lemma zip_same (a b : text) : length a = length b -> Forall (fun p : ascii * ascii => p.1 = p.2) (zip a b) <-> a = b.
Proof.
  revert b. induction a as [|c a IH]; intros [|d b] Hl; try done.
  cbn [zip zip_with]. rewrite Forall_cons. cbn [fst snd]. specialize (IH b ltac:(cbn in Hl; lia)). unfold zip in IH. rewrite IH. naive_solver.
Qed.

(** The loop without an early exit is equality. *)
Lemma SameSecret_spec a b : SameSecret a b = true <-> a = b.
Proof.
  unfold SameSecret. destruct (Z.eqb_spec (size a) (size b)) as [Hs|Hs]; cbn [negb].
  - rewrite Z.eqb_eq, difference_zero, zip_same by (unfold size in Hs; lia). naive_solver.
  - split; [done|]. intros ->. done.
Qed.

Lemma SameSecret_false a b : SameSecret a b = false <-> a <> b.
Proof. rewrite <- SameSecret_spec. by destruct (SameSecret a b). Qed.

(** * The gate *)

Section Gate.
Context `{Sdk}.

Definition quiet (l : list Out) : Prop := Forall (fun o => match o with Began _ _ | EndedBy _ => False | _ => True end) l.
Definition not_handed (l : list Out) : Prop := Forall (fun o => match o with Handed _ _ _ _ => False | _ => True end) l.

Definition slot_of (params : Params) (raw : text) : Slot :=
  mkSlot true (Base64Url raw) (p_publicKey params) (p_secretKey params) (p_api params) (p_now params) (p_flow params).

(** An answer to the attempt of these parameters and random bytes, at this moment. *)
Record answers (params : Params) (raw code : text) (link : Return) (now : Clocks) (context : Context) : Prop := {
  ans_signed_out : signedIn context = false;
  ans_sealed : kind link = Sealed;
  ans_state : AuthLink.state link = Base64Url raw;
  ans_flow : ctx_flow context = p_flow params;
  ans_steady : steady now - steady (p_now params) < kLife;
  ans_wall : wall now - wall (p_now params) < kLife;
  ans_skew : wall (p_now params) - wall now <= kWallSkew;
  ans_opened : Unseal (p_secretKey params) link = Some code
}.

(** What a handler may do to the slot. *)
Inductive move (s : Slot) : Slot -> list Out -> Prop :=
| move_keep out : quiet out -> not_handed out -> move s s out
| move_end s' out : live_ s' = false -> not_handed out -> move s s' out
| move_begin params raw out : not_handed out -> move s (slot_of params raw) (out ++ [Began params raw])
| move_hand s' code link now context :
    live_ s = true -> live_ s' = false ->
    (forall params raw, s = slot_of params raw -> answers params raw code link now context) ->
    move s s' [EndedBy Consumed; Raised; Handed code link now context].

Lemma not_handed_ended s reason : not_handed (ended s reason).
Proof. unfold ended. destruct (live_ s); repeat constructor. Qed.

Lemma move_cancel a reason : move (slot a) (slot (CancelApproval a reason).1) (CancelApproval a reason).2.
Proof.
  unfold CancelApproval, ended. destruct (live_ (slot a)) eqn:E; cbn; [apply move_end; [done|repeat constructor]|apply move_keep; constructor].
Qed.

Lemma stray_slot a now : slot (ShowStrayNotice a now).1 = slot a /\ quiet (ShowStrayNotice a now).2 /\ not_handed (ShowStrayNotice a now).2.
Proof.
  unfold ShowStrayNotice. destruct (freshProcessLaunch_ a); cbn; [|by repeat constructor].
  destruct (Allow _ _) as [n []]; repeat constructor.
Qed.

Lemma move_link a url now : move (slot a) (slot (HandleAuthLink a url now).1) (HandleAuthLink a url now).2.
Proof.
  unfold HandleAuthLink. destruct (quitting_ a); [apply move_keep; constructor|].
  set (link := Parse url kApprovalV1). set (ctx := ApprovalContext a). clearbody link ctx. unfold Check.
  assert (forall s told, (told = [] -> s = slot a) -> (told <> [] -> live_ s = false) -> not_handed told ->
            move (slot a) (slot (let '(a'', shown) := ShowStrayNotice (with_slot a s) now in (a'', told ++ shown)).1)
                          (let '(a'', shown) := ShowStrayNotice (with_slot a s) now in (a'', told ++ shown)).2) as Hstray.
  { intros s told Hk He Hn. destruct (stray_slot (with_slot a s) now) as (E & Q & N).
    destruct (ShowStrayNotice (with_slot a s) now) as [a'' shown]. cbn in *. rewrite E.
    destruct told as [|o told]; [rewrite Hk by done; by apply move_keep|].
    apply move_end; [by apply He|]. by apply Forall_app. }
  pose proof (Hstray (slot a) [] (fun _ => eq_refl) (fun h => match h eq_refl with end) (Forall_nil_2 _)) as Hstray0.
  destruct (signedIn ctx) eqn:Es; cbn; [apply move_keep; constructor|].
  destruct (live_ (slot a)) eqn:El; cbn; [|exact Hstray0].
  destruct (ExpiredAt (slot a) now) eqn:Ee; cbn.
  { unfold ended. rewrite El. apply Hstray; cbn; [discriminate|done|repeat constructor]. }
  destruct (Z.eqb_spec (ctx_flow ctx) (flow_ (slot a))) as [Ef|]; cbn.
  2: { unfold ended. rewrite El. apply Hstray; cbn; [discriminate|done|repeat constructor]. }
  case_bool_decide as Ek; cbn; [exact Hstray0|].
  destruct (SameSecret (AuthLink.state link) (state_ (slot a))) eqn:Ess; cbn; [|exact Hstray0].
  case_bool_decide as Ed; cbn; [apply move_end; [done|unfold ended; rewrite El; repeat constructor]|].
  destruct (Unseal _ link) as [code|] eqn:Eu; cbn; [|exact Hstray0].
  unfold Consume. rewrite El, Ess. cbn. unfold ended. rewrite El. cbn. apply move_hand; [done|done|].
  intros params raw Eq. rewrite Eq in *. cbn in *. unfold SecretKey in Eu. cbn in Eu. apply SameSecret_spec in Ess.
  unfold ExpiredAt in Ee. cbn in Ee. bool_hyps. split; try done; lia || idtac. by destruct (kind link).
Qed.

Lemma move_fresh a o : move (slot a) (slot (begin_fresh a o).1.1) (begin_fresh a o).1.2.
Proof.
  unfold begin_fresh. destruct (negb (ApprovalOfferedIn a o)); [apply move_keep; constructor|].
  destruct (negb (ensured o)); [apply move_keep; constructor|].
  destruct (FreshKeyPair _ _) as [keys|]; [|apply move_keep; constructor]. unfold Begin. destruct (drawn o) as [raw|]; cbn.
  - apply (move_begin _ (mkParams _ _ _ _ _) raw). apply not_handed_ended.
  - apply move_end; [done|]. rewrite app_nil_r. apply not_handed_ended.
Qed.

(** A second part after the attempt has ended. *)
Lemma move_after s s1 out1 s2 out2 : not_handed out1 -> live_ s1 = false -> move s1 s2 out2 -> move s s2 (out1 ++ out2).
Proof.
  intros H1 H2 Hm. destruct Hm as [out ? ?|s' out ? ?|params raw out ?|s' code link now ctx ? ? ?].
  - apply move_end; [done|by apply Forall_app].
  - apply move_end; [done|by apply Forall_app].
  - rewrite app_assoc. apply move_begin. by apply Forall_app.
  - congruence.
Qed.

Lemma cancel_dead a reason : live_ (slot (CancelApproval a reason).1) = false.
Proof. unfold CancelApproval. cbn. destruct (live_ (slot a)) eqn:E; cbn; done. Qed.

Lemma move_handle a e : move (slot a) (slot (handle a e).1) (handle a e).2.
Proof.
  destruct e as [url now|now o|st|b| | | |]; cbn [handle].
  - apply move_link.
  - unfold BeginApproval. destruct (Peek (slot a) now); [|pose proof (move_fresh a o); by destruct (begin_fresh a o) as [[? ?] ?]].
    destruct (_ && _); [apply move_keep; constructor|].
    pose proof (cancel_dead a Superseded) as Hd. destruct (CancelApproval a Superseded) as [a1 out1] eqn:Ec. cbn in Hd.
    pose proof (move_fresh a1 o) as Hf. destruct (begin_fresh a1 o) as [[a2 out2] ?]. cbn in *.
    eapply move_after; [|exact Hd|exact Hf]. unfold CancelApproval in Ec. injection Ec as _ <-. apply not_handed_ended.
  - unfold OnAuthState. set (a1 := mkApp _ _ _ _ _ _ _). change (slot a) with (slot a1).
    destruct st; try apply move_cancel; try (destruct (authState_ a)); try apply move_cancel.
    all: destruct (live_ (slot a1) && _); [apply move_cancel|apply move_keep; constructor].
  - apply move_keep; constructor.
  - apply move_keep; constructor.
  - apply move_cancel.
  - pose proof (cancel_dead a TimedOut) as Hd. destruct (CancelApproval a TimedOut) as [a1 out1] eqn:Ec. cbn in *.
    apply move_end; [done|]. apply Forall_app. split; [|by repeat constructor]. injection Ec as _ <-. apply not_handed_ended.
  - apply (move_cancel (mkApp (slot a) _ _ _ _ _ _)).
Qed.

(** What the outputs say of the slot, and of every code handed on. *)
Definition tracks (s : Slot) (outs : list Out) : Prop :=
  live_ s = true -> exists a params raw b, outs = a ++ Began params raw :: b /\ quiet b /\ s = slot_of params raw.

Definition all_answered (outs : list Out) : Prop :=
  forall a code link now context b, outs = a ++ Handed code link now context :: b ->
    exists a' params raw mid, a = a' ++ Began params raw :: mid ++ [EndedBy Consumed; Raised] /\ quiet mid /\
      answers params raw code link now context.

Lemma not_handed_split out a code link now context b : not_handed out -> out <> a ++ Handed code link now context :: b.
Proof. intros Hn ->. apply Forall_app in Hn as [_ Hn]. by apply Forall_cons in Hn as [[] _]. Qed.

Lemma all_answered_app outs out : all_answered outs -> not_handed out -> all_answered (outs ++ out).
Proof.
  intros Ha Hn a code link now context b E. apply app_eq_app in E as (k & [[-> E]|[-> E]]).
  - destruct k as [|o k]; [by apply (not_handed_split out [] code link now context b) in Hn|]. injection E as <- ->. by eapply Ha.
  - by apply (not_handed_split out k code link now context b) in Hn.
Qed.

Lemma move_tracks s s' outs out : tracks s outs -> all_answered outs -> move s s' out -> tracks s' (outs ++ out) /\ all_answered (outs ++ out).
Proof.
  intros Ht Ha Hm. destruct Hm as [out Hq Hn|s' out Hl Hn|params raw out Hn|s' code link now ctx Hl Hl' Hans].
  - split; [|by apply all_answered_app]. intros Hl. destruct (Ht Hl) as (a & params & raw & b & -> & Hb & ->).
    exists a, params, raw, (b ++ out). split_and!; [by rewrite <- app_assoc|by apply Forall_app|done].
  - split; [intros ?; congruence|by apply all_answered_app].
  - split; [|apply all_answered_app; [done|apply Forall_app; split; [done|by repeat constructor]]].
    intros _. exists (outs ++ out), params, raw, []. split_and!; [by rewrite <- app_assoc|constructor|done].
  - split; [intros ?; congruence|]. destruct (Ht Hl) as (x & params & raw & y & Eo & Hy & Es).
    intros a c l n x' b E. apply app_eq_app in E as (k & [[-> E]|[-> E]]).
    + destruct k as [|o k]; [done|]. injection E as <- ->. by eapply Ha.
    + destruct k as [|o1 [|o2 [|o3 k]]]; try done; [|by destruct k]. injection E as <- <- <- <- <- <- _.
      exists x, params, raw, y. split_and!; [by rewrite Eo, <- app_assoc|done|by apply Hans].
Qed.

Lemma run_tracks a0 evs : live_ (slot a0) = false -> tracks (slot (run a0 evs).1) (run a0 evs).2 /\ all_answered (run a0 evs).2.
Proof.
  intros Hl. induction evs as [|e evs IH] using rev_ind.
  - split; [intros ?; cbn in *; congruence|]. intros a code link now ctx b E. by destruct a.
  - unfold run in *. rewrite foldl_app. cbn [foldl]. destruct (foldl _ (a0, []) evs) as [a outs]. cbn [fst snd] in *.
    pose proof (move_handle a e) as Hm. destruct (handle a e) as [a' out]. cbn [fst snd] in *. destruct IH as [IHt IHa]. exact (move_tracks _ _ _ _ IHt IHa Hm).
Qed.

(** C6: a code is handed on only for the sign-in this app started. In any history of clicks,
    links from anywhere, sign-in states, other flows, cancels and timers, every code handed on
    is the content of a sealed link with the state of the one attempt that was live: begun by
    a click, not ended, replaced or superseded since, within its five minutes on both clocks,
    with the app signed out, and opened with that attempt's own key. Handing it on ends the
    attempt, so an attempt gives at most one code. *)
Theorem only_the_live_attempt_is_answered fresh st loggedIn evs a code link now context b :
  (run (launched fresh st loggedIn) evs).2 = a ++ Handed code link now context :: b ->
  exists a' params raw mid, a = a' ++ Began params raw :: mid ++ [EndedBy Consumed; Raised] /\ quiet mid /\
    answers params raw code link now context.
Proof. intros E. destruct (run_tracks (launched fresh st loggedIn) evs eq_refl) as [_ Ha]. by eapply Ha. Qed.
End Gate.

(** * The state is the draw *)

Lemma kAlphabet_char v : 0 <= v < 64 -> kAlphabet v = base64_char v.
Proof.
  intros Hv. apply (bool_decide_eq_true_1 _). revert v Hv. apply sixty_four. vm_compute. reflexivity.
Qed.

Lemma lor_shiftl_add a n x : 0 <= n -> 0 <= x < 2 ^ n -> Z.lor (Z.shiftl a n) x = a * 2 ^ n + x.
Proof.
  intros Hn Hx. rewrite <- Z.lxor_lor, <- Z.add_nocarry_lxor; [by rewrite Z.shiftl_mul_pow2| |].
  all: apply Z.bits_inj'; intros k Hk; rewrite Z.land_spec, Z.bits_0; destruct (Z.lt_ge_cases k n); [by rewrite Z.shiftl_spec_low|];
    rewrite <- (Z.mod_small x (2 ^ n)), Z.mod_pow2_bits_high by lia; apply andb_false_r.
Qed.

Lemma chunk_sum a b c : 0 <= b < 256 -> 0 <= c < 256 -> Z.lor (Z.lor (Z.shiftl a 16) (Z.shiftl b 8)) c = a * 65536 + b * 256 + c.
Proof.
  intros Hb Hc. rewrite <- Z.lor_assoc, (lor_shiftl_add b 8 c) by lia. rewrite lor_shiftl_add by lia. lia.
Qed.

Lemma chunk_char x n : 0 <= n -> 0 <= x -> kAlphabet (Z.land (Z.shiftr x n) 63) = base64_char (x / 2 ^ n mod 64).
Proof.
  intros Hn Hx. change 63 with (Z.ones 6). rewrite Z.land_ones, Z.shiftr_div_pow2 by lia. change (2 ^ 6) with 64.
  apply kAlphabet_char. apply Z.mod_pos_bound. lia.
Qed.

(** The shifts of the code are the encoder of RFC 4648. *)
Lemma Base64Url_encode d : Base64Url d = encode_base64url d.
Proof.
  induction d as [d IH] using (induction_ltof1 _ (@length ascii)). unfold ltof in IH.
  destruct d as [|a [|b [|c d]]]; [done|..]; cbn [Base64Url encode_base64url app]; pose proof (ord_range a) as Ha.
  - rewrite chunk_sum, !chunk_char by lia. repeat (f_equal; try dlia).
  - pose proof (ord_range b) as Hb. rewrite chunk_sum, !chunk_char by lia. repeat (f_equal; try dlia).
  - pose proof (ord_range b) as Hb. pose proof (ord_range c) as Hc. rewrite chunk_sum, !chunk_char by lia.
    rewrite (IH d) by (cbn; lia). repeat (f_equal; try dlia).
Qed.

Lemma base64_char_plain v : 0 <= v < 64 -> IsBase64UrlChar (base64_char v) = true.
Proof.
  revert v. apply sixty_four. vm_compute. reflexivity.
Qed.

Lemma encode_plain d : plain_text (encode_base64url d).
Proof.
  induction d as [d IH] using (induction_ltof1 _ (@length ascii)). unfold ltof in IH.
  destruct d as [|a [|b [|c d]]]; cbn [encode_base64url app]; [constructor|..]; pose proof (ord_range a).
  - repeat (constructor; [apply base64_char_plain; dlia|]). constructor.
  - pose proof (ord_range b). repeat (constructor; [apply base64_char_plain; dlia|]). constructor.
  - pose proof (ord_range b). pose proof (ord_range c). repeat (constructor; [apply base64_char_plain; dlia|]). apply IH. cbn. lia.
Qed.

Lemma encode_size d : size (encode_base64url d) = (size d * 4 + 2) / 3.
Proof.
  unfold size. induction d as [d IH] using (induction_ltof1 _ (@length ascii)). unfold ltof in IH.
  destruct d as [|a [|b [|c d]]]; try reflexivity. cbn [encode_base64url app length]. specialize (IH d ltac:(cbn; lia)). dlia.
Qed.

Lemma state_decodes raw : DecodeBase64Url (Base64Url raw) = Some raw /\ plain_text (Base64Url raw) /\
  (size raw = 32 -> size (Base64Url raw) = kStateChars).
Proof.
  rewrite Base64Url_encode. split_and!; [|apply encode_plain|].
  - unfold DecodeBase64Url. rewrite <- (app_nil_r (encode_base64url raw)). rewrite encode_decode; [done|constructor|by exists 0].
  - intros Hs. rewrite encode_size, Hs. done.
Qed.

(** * The host a request names *)

Definition host_char (c : ascii) : Prop := IsLowerOrDigit c = true \/ c = "-"%char \/ c = "."%char \/ c = ":"%char.

Lemma split_dot_Forall (P : ascii -> Prop) s : P "."%char -> Forall (Forall P) (split_dot s) -> Forall P s.
Proof.
  intros Hd. induction s as [|c s IH]; [constructor|]. cbn. case_bool_decide as Hc.
  - intros Hf. apply Forall_cons in Hf as [_ Hf]. subst c. constructor; auto.
  - destruct (split_dot s) as [|p ps]; intros Hf; apply Forall_cons in Hf as [Hp Hf].
    + apply Forall_cons in Hp as [Hp _]. constructor; auto.
    + apply Forall_cons in Hp as [Hc' Hp]. constructor; auto.
Qed.

Lemma IsApiLabel_chars l : IsApiLabel l = true -> Forall host_char l.
Proof.
  unfold IsApiLabel. destruct l as [|c l]; [done|]. destruct (last (c :: l)); [|done]. destruct (_ <? _); [done|].
  destruct (negb _ || negb _); [done|]. rewrite forallb_Forall. intros Hf. eapply Forall_impl; [exact Hf|].
  intros d Hd%orb_true_iff. unfold host_char. rewrite bool_decide_eq_true in Hd. tauto.
Qed.

Lemma IsValidApiHost_spec h :
  IsValidApiHost h = true -> exists name, name_of h = Some name /\ Forall host_char name.
Proof.
  unfold IsValidApiHost. destruct (_ || _); [done|]. destruct (name_of h) as [name|]; [|done].
  destruct (forallb IsApiLabel (split_dot name)) eqn:E; [|done]. intros _. exists name. split; [done|].
  apply split_dot_Forall; [unfold host_char; tauto|]. apply forallb_Forall in E. eapply Forall_impl; [exact E|]. apply IsApiLabel_chars.
Qed.

Lemma IsApiPort_digits port : IsApiPort port = true -> Forall (fun c => is_digit c = true) port.
Proof.
  unfold IsApiPort, IsAllDigits. destruct (forallb is_digit port) eqn:E; [|done]. intros _. by apply forallb_Forall.
Qed.

Lemma api_host_chars h : IsValidApiHost h = true -> Forall host_char h.
Proof.
  intros (name & Hn & Hc)%IsValidApiHost_spec. unfold name_of in Hn. destruct (find_char ":"%char h) as [k|] eqn:Ek; [|by injection Hn as ->].
  destruct (IsApiPort _) eqn:Ep; [|done]. injection Hn as <-. apply find_char_Some in Ek as [-> _].
  apply Forall_app. split; [done|]. constructor; [unfold host_char; tauto|]. apply IsApiPort_digits in Ep.
  eapply Forall_impl; [exact Ep|]. intros c Hd. left. unfold IsLowerOrDigit. by rewrite Hd, orb_true_r.
Qed.

Lemma host_char_lower c : host_char c -> ascii_lower c = c /\ c <> "/"%char.
Proof.
  unfold host_char, ascii_lower, IsLowerOrDigit. rewrite orb_true_iff, in_range_spec, is_digit_ord, !char_ord_eq.
  change (ord "-") with 45. change (ord ".") with 46. change (ord ":") with 58. change (ord "/") with 47.
  intros Hc. destruct (in_range 65 90 c) eqn:E; [apply in_range_spec in E; lia|]. split; [done|lia].
Qed.

(** A host that says https' own port is no value of the contract. *)
Lemma own_port_invalid h : IsValidApiHost h = true -> has_suffix (txt ":443") h = false.
Proof.
  intros Hv. destruct (has_suffix _ h) eqn:Es; [|done]. apply has_suffix_spec in Es as [t ->].
  apply IsValidApiHost_spec in Hv as (name & Hn & _). exfalso. unfold name_of in Hn.
  destruct (find_char ":"%char (t ++ txt ":443")) as [k|] eqn:Ek.
  - destruct (IsApiPort _) eqn:Ep; [|done]. destruct (decide (":"%char ∈ t)) as [Hin|Hin].
    + apply IsApiPort_digits in Ep. apply find_char_Some in Ek as [E Hk].
      assert (k < length t)%nat as Hlt.
      { destruct (decide (k < length t)%nat); [done|]. exfalso. apply Hk. rewrite take_app_ge by lia. set_solver. }
      assert (":"%char ∈ drop (S k) (t ++ txt ":443")) as Hc by (rewrite drop_app_le by lia; set_solver).
      rewrite Forall_forall in Ep. by specialize (Ep _ Hc).
    + change (txt ":443") with (":"%char :: txt "443") in *. rewrite find_char_app in Ek by done. injection Ek as <-.
      replace (S (length t)) with (length (t ++ [":"%char])) in Ep by (rewrite length_app; cbn; lia).
      change (":"%char :: txt "443") with ([":"%char] ++ txt "443") in Ep. rewrite app_assoc, drop_app_length in Ep. done.
  - apply find_char_None in Ek. apply Ek. set_solver.
Qed.

(** The host a request names is the host the client dials: an API url gives a value of the
    contract or none, and every value of the contract is given back by its own url. *)
Theorem api_host_roundtrip u h :
  (ApiHostOfUrl u = [] \/ IsValidApiHost (ApiHostOfUrl u) = true) /\
  (IsValidApiHost h = true -> ApiHostOfUrl (txt "https://" ++ h) = h /\ ApiHostOfUrl (txt "https://" ++ h ++ txt "/") = h).
Proof.
  split.
  { unfold ApiHostOfUrl. destruct (negb _); [by left|]. cbv zeta.
    match goal with |- context [IsValidApiHost ?x] => destruct (IsValidApiHost x) eqn:E end; [by right|by left]. }
  intros Hv. pose proof (api_host_chars h Hv) as Hc.
  assert (map ascii_lower h = h) as Hm.
  { clear Hv. induction Hc as [|c h Hx Hc IH]; [done|]. cbn. rewrite IH. by rewrite (proj1 (host_char_lower c Hx)). }
  assert (forall d, last h = Some d -> d <> "/"%char) as Hl.
  { intros d Hd. rewrite Forall_forall in Hc. apply host_char_lower, Hc. apply last_Some in Hd as [l ->]. set_solver. }
  assert (h <> []) as Hn by (intros ->; done).
  unfold ApiHostOfUrl. rewrite !map_app, Hm. change (map ascii_lower (txt "https://")) with (txt "https://").
  change (map ascii_lower (txt "/")) with (txt "/"). rewrite !(proj2 (has_prefix_spec _ _)) by (by eexists). cbn [negb].
  change 8%nat with (length (txt "https://")). rewrite !drop_app_length. split.
  - assert (match last h with Some "/"%char => take (length h - 1) h | _ => h end = h) as ->.
    { destruct (last h) as [d|]; [|done]. specialize (Hl d eq_refl). by destruct d as [[] [] [] [] [] [] [] []]. }
    rewrite own_port_invalid, andb_false_r, Hv by done. done.
  - change (txt "/") with ["/"%char]. rewrite last_snoc. rewrite length_app. cbn [length].
    replace (length h + 1 - 1)%nat with (length h) by lia. rewrite take_app_length.
    rewrite own_port_invalid, andb_false_r, Hv by done. done.
Qed.

(** * The gate's other half *)

Section Answers.
Context `{Sdk}.

(** The attempt of the slot is alive at this moment. *)
Definition alive (a : App) (now : Clocks) : Prop :=
  quitting_ a = false /\ signedIn (ApprovalContext a) = false /\ live_ (slot a) = true /\
  ExpiredAt (slot a) now = false /\ currentFlow a = flow_ (slot a).

(** The page's own answer gets through: a link that renders a sealed answer, in any order of
    its pairs and with or without the slash a browser puts in, with the state of the attempt
    that is alive and a box that opens with its key, raises the window and hands its code on;
    the page's refusal raises the window and says so. Either ends the attempt. *)
Theorem genuine_answer_gets_through a r slash ps url now :
  alive a now -> well_formed kApprovalV1 r -> AuthLink.state r = state_ (slot a) ->
  ps ≡ₚ pairs_of r -> url = render kApprovalV1 slash ps -> size url <= maxUrlBytes kApprovalV1 ->
  match kind r with
  | Denied => HandleAuthLink a url now = (with_slot a (Clear (slot a)), [EndedBy CDenied; Raised; ToldDenied])
  | _ => forall code, Unseal (secretKey_ (slot a)) r = Some code ->
           HandleAuthLink a url now =
             (with_slot a (Clear (slot a)), [EndedBy Consumed; Raised; Handed code r now (ApprovalContext a)])
  end.
Proof.
  intros (Hq & Hs & Hl & He & Hf) Hw Hst Hp Hu Hsz.
  destruct (proj2 (parse_spec url r)) as [Hparse Hk]; [eauto 10|].
  unfold HandleAuthLink, Check. rewrite Hq, Hparse, Hs, Hl, He. change (ctx_flow (ApprovalContext a)) with (currentFlow a).
  rewrite Hf, Z.eqb_refl. cbn [negb]. rewrite (bool_decide_eq_false_2 (kind r = Invalid)) by done.
  rewrite (proj2 (SameSecret_spec _ _)) by done. cbn [negb]. unfold SecretKey, ended, Consume. rewrite Hl.
  destruct (kind r) eqn:Ek; [done| |].
  - intros code Hc. rewrite bool_decide_eq_false_2 by done. cbn. rewrite Hl, Hc. cbn.
    rewrite (proj2 (SameSecret_spec _ _)) by done. done.
  - by rewrite bool_decide_eq_true_2.
Qed.

(** A link that is no answer to the attempt that is alive disturbs nothing: it leaves the
    attempt, the window and the screens as they are, whatever it says. *)
Theorem stray_link_disturbs_nothing a url now :
  alive a now -> freshProcessLaunch_ a = false ->
  (kind (Parse url kApprovalV1) = Invalid \/ AuthLink.state (Parse url kApprovalV1) <> state_ (slot a) \/
   kind (Parse url kApprovalV1) = Sealed /\ Unseal (secretKey_ (slot a)) (Parse url kApprovalV1) = None) ->
  HandleAuthLink a url now = (a, []).
Proof.
  intros (Hq & Hs & Hl & He & Hf) Hfresh Hno. assert (with_slot a (slot a) = a) as Ha by (by destruct a).
  unfold HandleAuthLink, Check. rewrite Hq. set (r := Parse url kApprovalV1) in *. clearbody r. rewrite Hs, Hl, He.
  change (ctx_flow (ApprovalContext a)) with (currentFlow a). rewrite Hf, Z.eqb_refl. cbn [negb].
  unfold ShowStrayNotice. case_bool_decide as Hk; [cbn; by rewrite Hfresh, Ha|].
  destruct (SameSecret _ _) eqn:Ess; [|cbn; by rewrite Hfresh, Ha]. apply SameSecret_spec in Ess. cbn [negb].
  destruct Hno as [?|[?|[Hsealed Hu]]]; [done|done|]. rewrite bool_decide_eq_false_2 by congruence. cbn. unfold SecretKey.
  rewrite Hl, Hu. cbn. by rewrite Hfresh, Ha.
Qed.

(** ** The request *)

Lemma FreshKeyPair_usable tries l keys : FreshKeyPair tries l = Some keys -> usable_pair keys = true.
Proof.
  revert l. induction tries as [|tries IH]; intros [|[d|] l]; cbn; try done; [|apply IH].
  destruct (usable_pair d) eqn:E; [by intros [= <-]|apply IH].
Qed.

(** What the machine and the space say as a click lands: 32 bytes, a clock in the ten-digit
    seconds, a network that was read. *)
Definition offer_ok (o : Offer) : Prop :=
  (forall raw, drawn o = Some raw -> size raw = 32) /\ 10 ^ 9 * second <= wall (later o) < 10 ^ 10 * second /\
  (api (network o) = [] \/ IsValidApiHost (api (network o)) = true).

Definition ev_ok (e : Ev) : Prop := match e with Click _ o => offer_ok o | _ => True end.

Definition begun_ok (o : Out) : Prop :=
  match o with
  | Began params raw =>
      size raw = 32 /\ 10 ^ 9 * second <= wall (p_now params) < 10 ^ 10 * second /\
      (p_api params = [] \/ IsValidApiHost (p_api params) = true) /\
      kMinPublicKeyChars <= size (p_publicKey params) <= kMaxPublicKeyChars /\ forallb IsBase58Char (p_publicKey params) = true
  | _ => True
  end.

Lemma not_began_ok l : Forall (fun o => match o with Began _ _ => False | _ => True end) l -> Forall begun_ok l.
Proof. intros Hf. eapply Forall_impl; [exact Hf|]. by intros []. Qed.

Lemma ended_ok s reason : Forall begun_ok (ended s reason).
Proof. unfold ended. destruct (live_ s); repeat constructor. Qed.

Lemma fresh_ok a o : offer_ok o -> Forall begun_ok (begin_fresh a o).1.2.
Proof.
  intros (Hr & Hw & Ha). unfold begin_fresh. destruct (negb (ApprovalOfferedIn a o)); [constructor|].
  destruct (negb (ensured o)); [constructor|]. destruct (FreshKeyPair _ _) as [keys|] eqn:Ek; [|constructor].
  apply FreshKeyPair_usable in Ek. unfold usable_pair in Ek. bool_hyps. unfold Begin.
  destruct (drawn o) as [raw|]; cbn; [|rewrite app_nil_r; apply ended_ok].
  apply Forall_app. split; [apply ended_ok|]. constructor; [|constructor]. cbn. split_and!; auto; by destruct Hw.
Qed.

Lemma handle_ok a e : ev_ok e -> Forall begun_ok (handle a e).2.
Proof.
  intros He. destruct e as [url now|now o|st|b| | | |]; cbn [handle ev_ok] in *; try apply ended_ok; try constructor.
  - apply not_began_ok. unfold HandleAuthLink. destruct (quitting_ a); [constructor|]. destruct (Check _ _ _ _) as [s d].
    assert (forall s reason, Forall (fun o => match o with Began _ _ => False | _ => True end) (ended s reason)) as Hen
      by (intros s' reason; unfold ended; destruct (live_ s'); repeat constructor).
    assert (forall x, Forall (fun o => match o with Began _ _ => False | _ => True end) (ShowStrayNotice x now).2) as Hst.
    { intros x. unfold ShowStrayNotice. destruct (negb _); [constructor|]. destruct (Allow _ _) as [n []]; repeat constructor. }
    match goal with |- context [match ?v with Accepted => _ | _ => _ end] => idtac | _ => idtac end.
    destruct d as [v w]. destruct v; cbn.
    + constructor.
    + specialize (Hst (with_slot a s)). destruct (ShowStrayNotice _ _) as [x shown]. cbn in *.
      apply Forall_app. split; [|done]. destruct w; try constructor; apply Forall_app; split; try apply Hen; repeat constructor.
    + apply Forall_app. split; [apply Hen|repeat constructor].
    + destruct (Unseal _ _) as [code|]; cbn.
      * destruct (Consume _ _) as [s' []]; [apply Forall_app; split; [apply Hen|repeat constructor]|constructor].
      * specialize (Hst (with_slot a s)). by destruct (ShowStrayNotice _ _) as [x shown].
  - unfold BeginApproval. destruct (Peek (slot a) now); [|pose proof (fresh_ok a o He); by destruct (begin_fresh a o) as [[? ?] ?]].
    destruct (_ && _); [constructor|]. cbn. pose proof (fresh_ok (if live_ (slot a) then with_slot a (Clear (slot a)) else a) o He) as Hf.
    destruct (begin_fresh _ o) as [[? ?] ?]. apply Forall_app. split; [apply ended_ok|done].
  - unfold OnAuthState. set (a1 := mkApp _ _ _ _ _ _ _).
    destruct st; try apply ended_ok; try (destruct (authState_ a)); try apply ended_ok.
    all: destruct (live_ (slot a1) && _); [apply ended_ok|constructor].
  - apply Forall_app. split; [apply ended_ok|repeat constructor].
Qed.

Lemma run_ok a0 evs : Forall ev_ok evs -> Forall begun_ok (run a0 evs).2.
Proof.
  induction evs as [|e evs IH] using rev_ind; intros Hf; [constructor|].
  apply Forall_app in Hf as [Hf He]. apply (proj1 (Forall_singleton _ _)) in He. specialize (IH Hf). unfold run in *.
  rewrite foldl_app. cbn [foldl]. destruct (foldl _ (a0, []) evs) as [a outs]. cbn [fst snd] in *.
  pose proof (handle_ok a e He) as Ho. destruct (handle a e) as [a' out]. by apply Forall_app.
Qed.

(** What the page is given for an attempt. *)
Definition request (page : text) (params : Params) (raw : text) : text :=
  page ++ (if bool_decide (p_api params = []) then txt "#v=1&platform=windows&state=" else txt "#v=2&platform=windows&state=") ++
  Base64Url raw ++ txt "&pk=" ++ p_publicKey params ++ txt "&ts=" ++ to_string (Z.quot (wall (p_now params)) second) ++
  (if bool_decide (p_api params = []) then [] else txt "&api=" ++ p_api params).

Definition page_ok (page : text) : Prop :=
  page <> [] /\ size page <= 200 /\ Forall (fun c => 0x20 < ord c < 0x7F /\ c <> "#"%char /\ c <> "%"%char) page.

Lemma forallb_plain s : plain_text s -> forallb IsBase64UrlChar s = true.
Proof. by rewrite forallb_Forall. Qed.

Lemma request_of params raw page :
  begun_ok (Began params raw) -> page_ok page -> BuildRequestUrl page (ViewOf (slot_of params raw)) = request page params raw.
Proof.
  intros (Hr & Hw & Ha & Hk & Hb) (Hp & Hs & Hc).
  destruct (state_decodes raw) as (_ & Hpl & Hsz). specialize (Hsz Hr).
  assert (10 ^ Z.of_nat 9 <= Z.quot (wall (p_now params)) second < 10 ^ Z.of_nat 10) as Ht.
  { rewrite Z.quot_div_nonneg by (unfold second in *; lia). split.
    - apply Z.div_le_lower_bound; unfold second in *; lia.
    - apply Z.div_lt_upper_bound; unfold second in *; lia. }
  pose proof (to_string_length 9 _ Ht) as Hl. destruct (to_string_nonneg (Z.quot (wall (p_now params)) second) ltac:(lia)) as (Hd & _ & _).
  unfold BuildRequestUrl, ViewOf, slot_of, request. cbn [v_state v_publicKey startedUnix v_api state_ publicKey_ api_ begun_].
  assert (forallb (fun c => (0x20 <? ord c) && (ord c <? 0x7F) && negb (bool_decide (c = "#"%char)) && negb (bool_decide (c = "%"%char))) page = true) as ->.
  { apply forallb_Forall. eapply Forall_impl; [exact Hc|]. intros c (Hx & H1 & H2).
    rewrite !bool_decide_eq_false_2, (proj2 (Z.ltb_lt _ _)), (proj2 (Z.ltb_lt _ 127)) by (done || lia). done. }
  rewrite Hsz, Z.eqb_refl, (forallb_plain _ Hpl), Hb, (proj2 (forallb_Forall is_digit _) Hd).
  rewrite (forallb_plain (p_publicKey params)) by (apply forallb_Forall in Hb; eapply Forall_impl; [exact Hb|apply base58_base64url]).
  replace (size (to_string _)) with 10 by (unfold size; rewrite Hl; done).
  rewrite (bool_decide_eq_false_2 (page = [])), (proj2 (Z.leb_le (size page) 200)), (proj2 (Z.leb_le _ (size (p_publicKey params)))),
    (proj2 (Z.leb_le (size (p_publicKey params)) _)) by (done || lia).
  cbn [negb andb orb]. destruct (bool_decide_reflect (p_api params = [])) as [|Hne]; cbn [negb andb orb]; [done|].
  destruct Ha as [?|Ha]; [done|]. by rewrite Ha.
Qed.

(** The attempt that is alive can always be asked for. Whatever happened before, on a
    machine that draws 32 bytes and has a clock in the ten-digit seconds, the url of the live
    attempt is never refused: it is the page's fragment with the draw, the public key, the
    moment and the network of the click that began it. *)
Theorem live_attempt_has_a_request fresh st loggedIn evs page :
  Forall ev_ok evs -> page_ok page -> live_ (slot (run (launched fresh st loggedIn) evs).1) = true ->
  exists params raw, Began params raw ∈ (run (launched fresh st loggedIn) evs).2 /\
    BuildRequestUrl page (ViewOf (slot (run (launched fresh st loggedIn) evs).1)) = request page params raw.
Proof.
  intros Hok Hp Hl. destruct (run_tracks (launched fresh st loggedIn) evs eq_refl) as [Ht _].
  pose proof (run_ok (launched fresh st loggedIn) evs Hok) as Hb. destruct (Ht Hl) as (a & params & raw & b & Eo & _ & Es).
  rewrite Eo in *. exists params, raw. split; [set_solver|]. rewrite Es. apply request_of; [|done].
  rewrite Forall_app, Forall_cons in Hb. tauto.
Qed.
End Answers.

(** * Examples *)

(** A stand-in for the sdk: a box opens with any key and holds the state of the draw below. *)
Definition raw_draw : text := replicate 32 "r"%char.
#[local] Instance toy_sdk : Sdk := {
  decodeBase58 s := Some s;
  encodeBase58 s := s;
  generateSharedSecret secret peer := Some (secret ++ peer);
  decryptData sealed _ _ := Some sealed;
  answer_strings plain := Some (plain, Base64Url raw_draw)
}.

Definition toy_key : text := replicate 43 "K"%char.
Definition click_time : Clocks := mkClocks 5 (1700000000 * second).
Definition answer_time : Clocks := mkClocks (5 + 60 * second) (1700000060 * second).
Definition offer : Offer :=
  mkOffer true (mkNetwork Official []) false true (fun k => k =? kContract) Absent true [None; Some (mkKeyPair toy_key (txt "secret"))]
    (Some raw_draw) click_time.

Definition box : Return := mkReturn Sealed NotRejected (Base64Url raw_draw) (txt "peer") (txt "nonce") (txt "code").
Definition box_url : text := render kApprovalV1 true (rev (pairs_of box)).
Definition forged_url : text := render kApprovalV1 false (pairs_of (mkReturn Denied NotRejected (replicate 43 "x"%char) [] [] [])).

Definition story : list Ev :=
  [AuthStateIs LoggedOut; Click click_time offer; Link forged_url answer_time; Link box_url answer_time; Link box_url answer_time].

Definition app0 : App := launched false LoggedOut false.
Definition waiting : App := (run app0 (take 2 story)).1.

Example the_story :
  (run app0 story).2 =
  [Began (mkParams toy_key (txt "secret") click_time 1 []) raw_draw] ++ [EndedBy Consumed; Raised] ++
  Handed (txt "code") box answer_time (mkContext false 1) :: [].
Proof. vm_compute. reflexivity. Qed.

Lemma only_the_live_attempt_is_answered_witness :
  exists a' params raw mid,
    [Began (mkParams toy_key (txt "secret") click_time 1 []) raw_draw] ++ [EndedBy Consumed; Raised] =
      a' ++ Began params raw :: mid ++ [EndedBy Consumed; Raised] /\ quiet mid /\
    answers params raw (txt "code") box answer_time (mkContext false 1).
Proof. apply (only_the_live_attempt_is_answered false LoggedOut false story) with (b := []). vm_compute. reflexivity. Defined.

Lemma genuine_answer_gets_through_witness :
  HandleAuthLink waiting box_url answer_time =
    (with_slot waiting (Clear (slot waiting)), [EndedBy Consumed; Raised; Handed (txt "code") box answer_time (ApprovalContext waiting)]).
Proof.
  refine (genuine_answer_gets_through waiting box true (rev (pairs_of box)) box_url answer_time _ _ _ _ _ _ (txt "code") _).
  - unfold alive. vm_compute. split_and!; reflexivity.
  - unfold well_formed, base58, box. cbn [kind reject AuthLink.state epk nonce data]. split_and!; try reflexivity; try (apply forallb_Forall; vm_compute; reflexivity); vm_compute; discriminate.
  - vm_compute. reflexivity.
  - symmetry. apply Permutation_rev.
  - reflexivity.
  - vm_compute. done.
  - vm_compute. reflexivity.
Defined.

Lemma stray_link_disturbs_nothing_witness : HandleAuthLink waiting forged_url answer_time = (waiting, []).
Proof.
  refine (stray_link_disturbs_nothing waiting forged_url answer_time _ eq_refl (or_intror (or_introl _))).
  - unfold alive. vm_compute. split_and!; reflexivity.
  - vm_compute. discriminate.
Defined.

Lemma api_host_roundtrip_witness : ApiHostOfUrl (txt "https://api.example.com:8443/") = txt "api.example.com:8443".
Proof. refine (proj2 (proj2 (api_host_roundtrip [] (txt "api.example.com:8443")) _)). vm_compute. reflexivity. Defined.

Lemma live_attempt_has_a_request_witness :
  exists params raw, Began params raw ∈ (run app0 (take 2 story)).2 /\
    BuildRequestUrl (txt "https://ur.io/app/approve") (ViewOf (slot (run app0 (take 2 story)).1)) =
      request (txt "https://ur.io/app/approve") params raw.
Proof.
  refine (live_attempt_has_a_request false LoggedOut false (take 2 story) (txt "https://ur.io/app/approve") _ _ _).
  - apply Forall_cons; split; [exact I|]. apply Forall_cons; split; [|constructor]. unfold ev_ok, offer_ok. split_and!.
    + intros raw Hr. change (drawn offer) with (Some raw_draw) in Hr. injection Hr as <-. vm_compute. reflexivity.
    + vm_compute. discriminate.
    + vm_compute. reflexivity.
    + left. reflexivity.
  - unfold page_ok. vm_compute. split_and!; try done. repeat constructor; done.
  - vm_compute. reflexivity.
Defined.
