(* ===== verification/SlowInternet.v ===== *)
(** The slow-internet surfaces (App/SlowInternet.h, App/TunnelIndicator.h): the squares of a
    quality and their fades, the formats of the numbers, the connect page's pill, and the
    dwell the tray follows, with its episodes and its one balloon. A [double] of the
    indicator is a rational, or not a number. *)

From S2P Require Import Prelude.
From S2P Require Import CxxText.
From Stdlib Require Import QArith Qround Sorted.
From stdpp Require Import sorting.
#[local] Open Scope Z_scope.

(** * The tunnel indicator *)

Definition kMaxDepth : Z := 6.
Definition kDepthByLevel : list Z := [0; 1; 2; 4; 6].
Definition kFadeInMillis : Z := 420.
Definition kFadeInStaggerMillis : Z := 110.
Definition kFadeOutMillis : Z := 320.
Definition kFadeOutStaggerMillis : Z := 90.

Definition clamp (v lo hi : Z) : Z := Z.max lo (Z.min v hi).

Definition less (a b : option Q) : bool :=
  match a, b with Some x, Some y => negb (Qle_bool y x) | _, _ => false end.

(** [std::max] on doubles. *)
Definition max_double (a b : option Q) : option Q := if less a b then b else a.

Definition level_depth (level : Z) : Z := nth (Z.to_nat level) kDepthByLevel 0.

Definition DepthForQuality (quality : option Q) : Z :=
  match quality with
  | None => 0
  | Some q =>
      if Qle_bool q 0 then 0 else
      if Qle_bool 1 q then kMaxDepth else
      let position := (q * 4)%Q in
      let below := Qfloor position in
      let fraction := (position - inject_Z below)%Q in
      let depth := (inject_Z (level_depth below) + inject_Z (level_depth (below + 1) - level_depth below) * fraction)%Q in
      clamp (Qfloor (depth + (1 # 2))) 1 kMaxDepth
  end.

Definition IconLevelForDepth (depth : Z) : Z :=
  if depth <=? 0 then 0 else
  if depth <=? level_depth 1 then 1 else
  if depth <=? level_depth 2 then 2 else
  if depth <=? level_depth 3 then 3 else 4.

Record Fade := mkFade { index : Z; fade_in : bool; beginMillis : Z; durationMillis : Z }.

Definition FadesFor (fromDepth toDepth : Z) : list Fade :=
  let fromDepth := clamp fromDepth 0 kMaxDepth in
  let toDepth := clamp toDepth 0 kMaxDepth in
  if fromDepth <? toDepth
  then map (fun i => mkFade i true ((i - fromDepth) * kFadeInStaggerMillis) kFadeInMillis) (seqZ fromDepth (toDepth - fromDepth))
  else map (fun k => mkFade (fromDepth - 1 - k) false (k * kFadeOutStaggerMillis) kFadeOutMillis) (seqZ 0 (fromDepth - toDepth)).

Definition DurationFor (fromDepth toDepth : Z) : Z :=
  foldl (fun end_ fade => Z.max end_ (beginMillis fade + durationMillis fade)) 0 (FadesFor fromDepth toDepth).

Definition ContainerHideDelayFor (fromDepth toDepth : Z) : Z :=
  if negb (clamp toDepth 0 kMaxDepth =? 0) then 0 else
  match last (FadesFor fromDepth toDepth) with Some fade => beginMillis fade | None => 0 end.

(** * The reading and its formats *)

Record Reading := mkReading {
  upQuality : option Q; downQuality : option Q; upBitsPerSecond : Z; downBitsPerSecond : Z;
  upQueueDelayMillis : Z; downQueueDelayMillis : Z; fallback : bool }.

Definition DepthOf (reading : Reading) : Z := DepthForQuality (max_double (upQuality reading) (downQuality reading)).

Definition FormatDelay (millis : Z) : text :=
  if millis <=? 0 then [] else
  if millis <? 1000 then to_string millis ++ txt " ms" else
  let tenths := (millis + 50) / 100 in
  if tenths <? 100 then to_string (tenths / 10) ++ txt "." ++ to_string (tenths mod 10) ++ txt " s" else
  to_string ((millis + 500) / 1000) ++ txt " s".

Definition FormatRate (bitsPerSecond : Z) : text :=
  if bitsPerSecond <=? 0 then [] else
  let kilobits := (bitsPerSecond + 500) / 1000 in
  if kilobits <? 1000 then to_string (Z.max 1 kilobits) ++ txt " kb/s" else
  let tenths := (bitsPerSecond + 50000) / 100000 in
  to_string (tenths / 10) ++ txt "." ++ to_string (tenths mod 10) ++ txt " Mb/s".

Definition Wide (ascii : text) : wtext := map ord ascii.

Definition DirectionNumber (delayMillis bitsPerSecond : Z) : text :=
  let delay := FormatDelay delayMillis in
  if bool_decide (delay = []) then FormatRate bitsPerSecond else delay.

(** The arrows U+2191 and U+2193, and the middle dot U+00B7. *)
Definition SummaryNumbers (reading : Reading) : wtext :=
  let up := DirectionNumber (upQueueDelayMillis reading) (upBitsPerSecond reading) in
  let down := DirectionNumber (downQueueDelayMillis reading) (downBitsPerSecond reading) in
  let summary := if bool_decide (up = []) then [] else 0x2191 :: wtxt " " ++ Wide up in
  if bool_decide (down = []) then summary else
  (if bool_decide (summary = []) then [] else summary ++ wtxt " " ++ 0xB7 :: wtxt " ") ++ 0x2193 :: wtxt " " ++ Wide down.

(** * The pill *)

Inductive Direction := Up | Down.
#[export] Instance Direction_eq_dec : EqDecision Direction.
Proof. solve_decision. Defined.

Definition WorseDirection (upDelayMillis downDelayMillis : Z) : option Direction :=
  if downDelayMillis <? upDelayMillis then Some Up else
  if upDelayMillis <? downDelayMillis then Some Down else None.

Inductive Label := PoorSignal | Fallback.
Record PillContent := mkPill { label : Label; up : text; down : text; worse : option Direction; recovered : bool }.

Definition WorseOnly (c : PillContent) : PillContent :=
  match default (if bool_decide (down c = []) then Up else Down) (worse c) with
  | Up => mkPill (label c) (up c) [] (worse c) (recovered c)
  | Down => mkPill (label c) [] (down c) (worse c) (recovered c)
  end.

Definition LabelOnly (c : PillContent) : PillContent := mkPill (label c) [] [] (worse c) (recovered c).

Definition PillContentFor (reading : Reading) : PillContent :=
  mkPill (if fallback reading then Fallback else PoorSignal)
    (DirectionNumber (upQueueDelayMillis reading) (upBitsPerSecond reading))
    (DirectionNumber (downQueueDelayMillis reading) (downBitsPerSecond reading))
    (WorseDirection (upQueueDelayMillis reading) (downQueueDelayMillis reading)) false.

Definition NextPillContent (shown : option PillContent) (reading : option Reading) (hidden : bool) : option PillContent :=
  if hidden then None else
  match reading with
  | None => None
  | Some r =>
      if 0 <? DepthOf r then Some (PillContentFor r) else
      match shown with
      | None => None
      | Some s => if recovered s then Some s else Some (mkPill (label s) [] [] None true)
      end
  end.

(** [fits]: what a form needs on screen is within the room. *)
Definition FitPill (content : PillContent) (fits : PillContent -> bool) : PillContent :=
  if fits content then content else
  let one := WorseOnly content in
  if fits one then one else LabelOnly content.

Definition PillRefreshes (shown : option PillContent) (presenting : bool) : bool :=
  presenting && match shown with Some s => negb (recovered s) | None => false end.

Definition PillName (words : wtext) (content : PillContent) (upWords downWords : wtext) : wtext :=
  words ++
  (if bool_decide (up content = []) then [] else wtxt ", " ++ upWords ++ wtxt " " ++ Wide (up content)) ++
  (if bool_decide (down content = []) then [] else wtxt ", " ++ downWords ++ wtxt " " ++ Wide (down content)).

(** * The dwell *)

Definition kDwellWindowMillis : Z := 60000.
Definition kDwellAppearMillis : Z := 30000.
Definition kDwellStayMillis : Z := 60000.
Definition kRecoveredMillis : Z := 3000.

Inductive Phase := Hidden | Slow | Recovered.
#[export] Instance Phase_eq_dec : EqDecision Phase.
Proof. solve_decision. Defined.

Record Presentation := mkPresentation { phase : Phase; depth : Z; nextMillis : Z }.
Definition no_presentation : Presentation := mkPresentation Hidden 0 (-1).

(** [start, end_) above 0; [end_] is -1 while still above 0. *)
Record Span := mkSpan { start : Z; end_ : Z }.

Record Dwell := mkDwell { spans_ : list Span; phase_ : Phase; since_ : Z; depth_ : Z }.
Definition new_dwell : Dwell := mkDwell [] Hidden 0 0.

Definition SlowMillis (spans : list Span) (nowMillis : Z) : Z :=
  let windowStart := nowMillis - kDwellWindowMillis in
  foldl (fun total span =>
    let s := Z.max (start span) windowStart in
    let e := if end_ span <? 0 then nowMillis else Z.min (end_ span) nowMillis in
    if s <? e then total + (e - s) else total) 0 spans.

Definition open (spans : list Span) : bool := match last spans with Some span => end_ span <? 0 | None => false end.

(** A span opens when the depth leaves 0 and closes when it returns. *)
Definition extend (spans : list Span) (d nowMillis : Z) : list Span :=
  let opened := open spans in
  let spans := if (0 <? d) && negb opened then spans ++ [mkSpan nowMillis (-1)] else spans in
  if (d =? 0) && opened then
    match last spans with Some span => take (length spans - 1) spans ++ [mkSpan (start span) nowMillis] | None => spans end
  else spans.

Definition stale (nowMillis : Z) (span : Span) : bool := (0 <=? end_ span) && (end_ span <=? nowMillis - kDwellWindowMillis).
Definition prune (nowMillis : Z) (spans : list Span) : list Span := List.filter (fun span => negb (stale nowMillis span)) spans.

(** The spans once this depth is observed. *)
Definition note_depth (spans : list Span) (d nowMillis : Z) : list Span := prune nowMillis (extend spans d nowMillis).

Definition next_phase (p : Phase) (since : Z) (d : Z) (appears : bool) (nowMillis : Z) : Phase * Z :=
  match p with
  | Hidden => if appears then (Slow, nowMillis) else (p, since)
  | Slow => if (d =? 0) && (kDwellStayMillis <=? nowMillis - since) then (Recovered, nowMillis) else (p, since)
  | Recovered =>
      if appears then (Slow, nowMillis) else
      if kRecoveredMillis <=? nowMillis - since then (Hidden, nowMillis) else (p, since)
  end.

Definition next_millis (p : Phase) (since d slowMillis nowMillis : Z) : Z :=
  match p with
  | Hidden => if 0 <? d then nowMillis + (kDwellAppearMillis - slowMillis) else -1
  | Slow => if d =? 0 then since + kDwellStayMillis else -1
  | Recovered =>
      if 0 <? d then Z.min (since + kRecoveredMillis) (nowMillis + (kDwellAppearMillis - slowMillis))
      else since + kRecoveredMillis
  end.

Definition Observe (w : Dwell) (d nowMillis : Z) : Dwell * Presentation :=
  let d := clamp d 0 kMaxDepth in
  let spans := note_depth (spans_ w) d nowMillis in
  let slowMillis := SlowMillis spans nowMillis in
  let appears := (0 <? d) && (kDwellAppearMillis <=? slowMillis) in
  let '(p, since) := next_phase (phase_ w) (since_ w) d appears nowMillis in
  let deep := if 0 <? d then d else depth_ w in
  (mkDwell spans p since deep,
   mkPresentation p (match p with Slow => deep | _ => 0 end) (next_millis p since d slowMillis nowMillis)).

Definition Reset (w : Dwell) : Dwell := new_dwell.

(** * The tray *)

Record TrayFacts := mkTrayFacts { presentation : Presentation; connected : bool; notify : bool; notified : bool }.
Inductive Tip := TipStatus | TipSlow | TipRecovered.
Record TrayView := mkTrayView { icon : Z; tip : Tip; balloonDue : bool; postBalloon : bool }.

Definition DecideTray (facts : TrayFacts) : TrayView :=
  if negb (connected facts) then mkTrayView 0 TipStatus false false else
  match phase (presentation facts) with
  | Hidden => mkTrayView 0 TipStatus false false
  | Slow =>
      let due := negb (notified facts) in
      mkTrayView (IconLevelForDepth (depth (presentation facts))) TipSlow due (due && notify facts)
  | Recovered => mkTrayView 0 TipRecovered false false
  end.

Record TrayEpisode := mkEpisode { dwell_ : Dwell; presentation_ : Presentation; notified_ : bool }.
Definition new_episode : TrayEpisode := mkEpisode new_dwell no_presentation false.

Definition EpisodeObserve (t : TrayEpisode) (d : option Z) (nowMillis : Z) : TrayEpisode :=
  let '(dwell, shown) :=
    match d with Some d => Observe (dwell_ t) d nowMillis | None => (Reset (dwell_ t), no_presentation) end in
  mkEpisode dwell shown (match phase shown with Hidden => false | _ => notified_ t end).

Definition EpisodeDecide (t : TrayEpisode) (conn notif : bool) : TrayEpisode * TrayView :=
  let view := DecideTray (mkTrayFacts (presentation_ t) conn notif (notified_ t)) in
  (mkEpisode (dwell_ t) (presentation_ t) (balloonDue view || notified_ t), view).

Definition kTooltipCharacters : Z := 127.

Definition SlowStatus (words : wtext) (reading : Reading) (prefixLength : Z) : wtext :=
  let numbers := SummaryNumbers reading in
  if bool_decide (numbers = []) then words else
  let withNumbers := words ++ wtxt " (" ++ numbers ++ wtxt ")" in
  if prefixLength + Z.of_nat (length withNumbers) <=? kTooltipCharacters then withNumbers else words.

(** What happens to the tray: a reading's depth, or none, and a look at it. *)
Inductive TrayOp := Observes (d : option Z) (now : Z) | Decides (conn notif : bool).

Definition tray_op (t : TrayEpisode) (op : TrayOp) : TrayEpisode * option TrayView :=
  match op with
  | Observes d now => (EpisodeObserve t d now, None)
  | Decides conn notif => let '(t, v) := EpisodeDecide t conn notif in (t, Some v)
  end.

Definition tray_run (t : TrayEpisode) (ops : list TrayOp) : TrayEpisode * list (option TrayView) :=
  foldl (fun s op => let '(t, v) := tray_op s.1 op in (t, s.2 ++ [v])) (t, []) ops.

Example the_table : map (fun q => DepthForQuality (Some q)) [0%Q; 1#4; 1#2; 3#4; 1%Q; 1#100; 5#8]%Q = [0; 1; 2; 4; 6; 1; 3].
Proof. vm_compute. reflexivity. Qed.
Example fades : DurationFor 0 6 = 970 /\ DurationFor 6 0 = 770.
Proof. vm_compute. done. Qed.
Example delays : map FormatDelay [640; 1234; 9960; 12345] = [txt "640 ms"; txt "1.2 s"; txt "10 s"; txt "12 s"].
Proof. vm_compute. done. Qed.
Example rates : map FormatRate [1; 48000; 999600; 1400000] = [txt "1 kb/s"; txt "48 kb/s"; txt "1.0 Mb/s"; txt "1.4 Mb/s"].
Proof. vm_compute. done. Qed.

(** * Time in a state *)

(** The milliseconds of [a, b) in which [p] holds. *)
Definition count (p : Z -> bool) (a b : Z) : Z := Z.of_nat (length (List.filter p (seqZ a (b - a)))).

Lemma filter_length_app {A} (p : A -> bool) l k : length (List.filter p (l ++ k)) = (length (List.filter p l) + length (List.filter p k))%nat.
Proof. by rewrite List.filter_app, length_app. Qed.

Lemma count_split p a m b : a <= m <= b -> count p a b = count p a m + count p m b.
Proof.
  intros Hm. unfold count. replace (b - a) with ((m - a) + (b - m)) by lia. rewrite seqZ_app by lia.
  rewrite filter_length_app. replace (a + (m - a)) with m by lia. lia.
Qed.

Lemma count_ext p q a b : (forall t, a <= t < b -> p t = q t) -> count p a b = count q a b.
Proof.
  intros He. unfold count. do 2 f_equal. apply List.filter_ext_in. intros t Ht%list_elem_of_In%elem_of_seqZ. apply He. lia.
Qed.

Lemma count_all p a b : a <= b -> (forall t, a <= t < b -> p t = true) -> count p a b = b - a.
Proof.
  intros Hab He. rewrite (count_ext p (fun _ => true)) by done. unfold count.
  rewrite forallb_filter_id by (apply forallb_forall; done). rewrite length_seqZ. lia.
Qed.

Lemma count_none p a b : (forall t, a <= t < b -> p t = false) -> count p a b = 0.
Proof.
  intros He. rewrite (count_ext p (fun _ => false)) by done. unfold count. by induction (seqZ a (b - a)).
Qed.

Lemma count_range p a b : 0 <= count p a b <= Z.max 0 (b - a).
Proof.
  unfold count. pose proof (List.filter_length_le p (seqZ a (b - a))) as H. rewrite length_seqZ in H. lia.
Qed.

Lemma count_or p q a b :
  (forall t, a <= t < b -> p t = true -> q t = false) -> count (fun t => p t || q t) a b = count p a b + count q a b.
Proof.
  intros Hd. unfold count. assert (forall t, t ∈ seqZ a (b - a) -> p t = true -> q t = false) as Hd'.
  { intros t Ht%elem_of_seqZ. apply Hd. lia. }
  clear Hd. induction (seqZ a (b - a)) as [|t l IH]; [done|].
  specialize (IH ltac:(set_solver)). specialize (Hd' t ltac:(set_solver)). cbn [List.filter].
  destruct (p t), (q t); cbn [orb length]; try done; lia.
Qed.

Lemma count_interval s e a b :
  a <= b -> count (fun t => (s <=? t) && (t <? e)) a b = Z.max 0 (Z.min e b - Z.max s a).
Proof.
  intros Hab. set (p := fun t => _). destruct (Z.lt_ge_cases (Z.max s a) (Z.min e b)) as [Hlt|Hge].
  - rewrite (count_split p a (Z.max s a)), (count_split p (Z.max s a) (Z.min e b)) by lia.
    rewrite (count_none p a), (count_all p (Z.max s a)), (count_none p (Z.min e b)) by (subst p; cbn; intros; lia). lia.
  - rewrite count_none by (subst p; cbn; intros; lia). lia.
Qed.

(** * The spans are the history *)

(** The readings that were observed, the last one first; a level holds until the next. *)
Fixpoint slow_at (h : list (Z * Z)) (t : Z) : bool :=
  match h with
  | [] => false
  | (d, s) :: h => if s <=? t then 0 <? d else slow_at h t
  end.

(** The milliseconds above 0 in the window that ends now. *)
Definition slow_time (h : list (Z * Z)) (now : Z) : Z := count (slow_at h) (now - kDwellWindowMillis) now.

Definition covers (s : Span) (t : Z) : bool := (start s <=? t) && ((end_ s <? 0) || (t <? end_ s)).
Definition covered (spans : list Span) (t : Z) : bool := existsb (fun s => covers s t) spans.

Definition before (a b : Span) : Prop := 0 <= end_ a <= start b.
Definition valid (now : Z) (s : Span) : Prop := 0 <= start s <= now /\ (end_ s < 0 \/ start s <= end_ s <= now).
Definition spans_ok (spans : list Span) (now : Z) : Prop := StronglySorted before spans /\ Forall (valid now) spans.

Lemma covers_valid s now t : valid now s -> t < now -> covers s t = (start s <=? t) && (t <? if end_ s <? 0 then now else end_ s).
Proof. intros [? Hv] Ht. unfold covers. destruct (Z.ltb_spec (end_ s) 0); cbn [orb]; [by rewrite (proj2 (Z.ltb_lt t now))|done]. Qed.

Lemma SlowMillis_from t0 spans now :
  foldl (fun total span =>
    let s := Z.max (start span) (now - kDwellWindowMillis) in
    let e := if end_ span <? 0 then now else Z.min (end_ span) now in
    if s <? e then total + (e - s) else total) t0 spans = t0 + SlowMillis spans now.
Proof.
  unfold SlowMillis. set (f := fun total span => _). revert t0. induction spans as [|s spans IH]; intros t0; cbn [foldl]; [lia|].
  rewrite IH, (IH (f 0 s)). subst f. cbn. case_match; lia.
Qed.

(** What the spans add up to is the time their union covers. *)
Lemma SlowMillis_count spans now : spans_ok spans now -> SlowMillis spans now = count (covered spans) (now - kDwellWindowMillis) now.
Proof.
  intros [Hs Hv]. induction Hs as [|s spans Hs IH Hb]; [by rewrite count_none|]. apply Forall_cons in Hv as [Hv Hvs].
  unfold SlowMillis. cbn [foldl]. rewrite SlowMillis_from, (IH Hvs). change (covered (s :: spans)) with (fun t => covers s t || covered spans t).
  rewrite count_or.
  - f_equal. rewrite (count_ext _ (fun t => (start s <=? t) && (t <? if end_ s <? 0 then now else end_ s)))
      by (intros; apply covers_valid; [done|lia]).
    rewrite count_interval by (unfold kDwellWindowMillis; lia).
    destruct (Z.ltb_spec (end_ s) 0); case_match; bool_hyps; unfold kDwellWindowMillis in *; lia.
  - intros t Ht Hc. unfold covered. apply not_true_iff_false. intros (k & Hk & Hkt)%existsb_exists.
    rewrite Forall_forall in Hb. apply list_elem_of_In in Hk. destruct (Hb k Hk) as [H1 H2]. unfold covers in *. lia.
Qed.

Lemma valid_mono now now' s : now <= now' -> valid now s -> valid now' s.
Proof. intros ? [? [?|?]]; split; try lia. Qed.

Lemma spans_ok_filter p spans now : spans_ok spans now -> spans_ok (List.filter p spans) now.
Proof.
  intros [Hs Hv]. split.
  - induction Hs as [|s spans Hs IH Hb]; [constructor|]. apply Forall_cons in Hv as [Hv Hvs]. cbn. destruct (p s); [|by apply IH].
    constructor; [by apply IH|]. rewrite Forall_forall in *. intros k [Hk _]%list_elem_of_In%filter_In. by apply Hb, list_elem_of_In.
  - rewrite Forall_forall in *. intros k [Hk _]%list_elem_of_In%filter_In. by apply Hv, list_elem_of_In.
Qed.

Lemma covered_app l k t : covered (l ++ k) t = covered l t || covered k t.
Proof. unfold covered. apply existsb_app. Qed.

Lemma open_snoc l s : open (l ++ [s]) = (end_ s <? 0).
Proof. unfold open. by rewrite last_snoc. Qed.

Lemma all_closed l now : spans_ok l now -> open l = false -> Forall (fun s => 0 <= end_ s <= now) l.
Proof.
  destruct l as [|s l _] using rev_ind; [constructor|]. rewrite open_snoc. intros [[Hb _]%StronglySorted_app Hv] Ho. bool_hyps.
  rewrite Forall_forall in *. intros k Hk. destruct (Hv k Hk) as [? ?].
  apply elem_of_app in Hk as [Hk|Hk%list_elem_of_singleton]; [|subst; lia]. specialize (Hb k s Hk ltac:(set_solver)) as [? ?].
  destruct (Hv s ltac:(set_solver)). lia.
Qed.

Lemma covered_past l now t : spans_ok l now -> open l = false -> now <= t -> covered l t = false.
Proof.
  intros Hok Ho Ht. apply not_true_iff_false. intros (k & Hk%list_elem_of_In & Hc)%existsb_exists.
  pose proof (all_closed l now Hok Ho) as Hall. rewrite Forall_forall in Hall. specialize (Hall k Hk). unfold covers in Hc. lia.
Qed.

Lemma opened l now : spans_ok l now -> open l = false -> 0 <= now -> spans_ok (l ++ [mkSpan now (-1)]) now.
Proof.
  intros Hok Ho Hn. pose proof (all_closed l now Hok Ho) as Hall. destruct Hok as [Hs Hv]. split.
  - apply StronglySorted_app. split_and!; [|done|repeat constructor]. intros a b Ha ->%list_elem_of_singleton.
    rewrite Forall_forall in Hall. apply (Hall a Ha).
  - apply Forall_app. split; [done|]. constructor; [|constructor]. split; cbn; lia.
Qed.

Lemma closed l s now : spans_ok (l ++ [s]) now -> spans_ok (l ++ [mkSpan (start s) now]) now.
Proof.
  intros [(Hb & Hs & _)%StronglySorted_app [Hv Hk]%Forall_app]. apply Forall_cons in Hk as [[? ?] _]. split.
  - apply StronglySorted_app. split_and!; [|done|repeat constructor]. intros a b Ha ->%list_elem_of_singleton.
    apply (Hb a s Ha). set_solver.
  - apply Forall_app. split; [done|]. constructor; [|constructor]. split; cbn; lia.
Qed.

Lemma covered_cons s l t : covered (s :: l) t = covers s t || covered l t.
Proof. done. Qed.

Lemma covered_prune now t l : now - kDwellWindowMillis <= t -> covered (prune now l) t = covered l t.
Proof.
  intros Ht. induction l as [|s l IH]; [done|]. unfold prune in *. cbn [List.filter]. destruct (stale now s) eqn:E; cbn [negb];
    rewrite !covered_cons, IH; [|done]. unfold stale, covers in *. destruct (covered l t); lia.
Qed.

Lemma open_prune now l : spans_ok l now -> open (prune now l) = open l.
Proof.
  destruct l as [|s l _] using rev_ind; [done|]. intros Hok. unfold prune. rewrite List.filter_app. cbn [List.filter].
  destruct (stale now s) eqn:E; cbn [negb]; [|by rewrite !open_snoc]. rewrite open_snoc, app_nil_r. unfold stale in E.
  transitivity false; [|lia]. unfold open. destruct (last _) as [k|] eqn:E'; [|done]. apply last_Some_elem_of in E'.
  apply list_elem_of_In, filter_In in E' as [Hk%list_elem_of_In _]. destruct Hok as [(Hb & _)%StronglySorted_app _].
  specialize (Hb k s Hk ltac:(set_solver)) as [? ?]. lia.
Qed.

(** The spans of a dwell that has observed this history. *)
Definition hist_inv (spans : list Span) (h : list (Z * Z)) : Prop :=
  match h with
  | [] => spans = []
  | (d, s) :: _ =>
      0 <= d /\ 0 <= s /\ spans_ok spans s /\ open spans = (0 <? d) /\ forall t, s - kDwellWindowMillis <= t -> covered spans t = slow_at h t
  end.

(** The clock does not go back. *)
Definition not_before (h : list (Z * Z)) (now : Z) : Prop := match h with [] => 0 <= now | (_, s) :: _ => s <= now end.

Lemma slow_at_past d now h t : t < now -> slow_at ((d, now) :: h) t = slow_at h t.
Proof. intros Ht. cbn. by rewrite (proj2 (Z.leb_gt now t)). Qed.

Lemma slow_at_now d now h t : now <= t -> slow_at ((d, now) :: h) t = (0 <? d).
Proof. intros Ht. cbn. by rewrite (proj2 (Z.leb_le now t)). Qed.

Lemma hist_weak spans h now :
  hist_inv spans h -> not_before h now ->
  0 <= now /\ spans_ok spans now /\ (forall t, now - kDwellWindowMillis <= t -> covered spans t = slow_at h t) /\
  (open spans = false -> forall t, now <= t -> slow_at h t = false).
Proof.
  destruct h as [|[d s] h]; cbn [hist_inv not_before]; [intros -> ?; split_and!; try done; by repeat constructor|].
  intros (Hd & H0 & [Hs Hv] & Ho & Hc) Hn. split_and!; [lia|split; [done|]| |].
  - eapply Forall_impl; [exact Hv|]. intros k. by apply valid_mono.
  - intros t Ht. apply Hc. lia.
  - intros Hf t Ht. rewrite slow_at_now by lia. congruence.
Qed.

Lemma extend_inv spans h d now :
  hist_inv spans h -> not_before h now -> 0 <= d -> hist_inv (extend spans d now) ((d, now) :: h).
Proof.
  intros Hi Hn Hd. destruct (hist_weak spans h now Hi Hn) as (H0 & Hok & Hc & Hf). unfold extend. cbn [hist_inv].
  split; [done|]. split; [done|].
  assert (forall t, now - kDwellWindowMillis <= t -> t < now -> covered spans t = slow_at ((d, now) :: h) t) as Hpast.
  { intros t H1 H2. rewrite slow_at_past by done. by apply Hc. }
  destruct (open spans) eqn:Eo, (Z.ltb_spec 0 d) as [Hp|Hp]; cbn [andb negb].
  - rewrite (proj2 (Z.eqb_neq d 0)) by lia. cbn [andb]. split_and!; [done|done|]. intros t Ht.
    destruct (Z.lt_ge_cases t now); [by apply Hpast|]. rewrite slow_at_now by done.
    destruct spans as [|s spans _] using rev_ind; [done|]. rewrite open_snoc in Eo. destruct Hok as [_ Hv].
    rewrite Forall_app, Forall_cons in Hv. destruct Hv as (_ & [? _] & _). rewrite covered_app. unfold covered at 2, covers. cbn [existsb]. destruct (covered spans t); cbn [orb]; lia.
  - replace d with 0 in * by lia. cbn [Z.eqb andb]. destruct spans as [|s spans _] using rev_ind; [done|]. rewrite open_snoc in Eo.
    rewrite last_snoc, length_app. cbn [length]. replace (length spans + 1 - 1)%nat with (length spans) by lia. rewrite take_app_length.
    assert (spans_ok (spans ++ [mkSpan (start s) now]) now) as Hok' by (by apply closed). split_and!; [done|rewrite open_snoc; cbn; lia|].
    intros t Ht. destruct (Z.lt_ge_cases t now).
    + rewrite <- Hpast by done. rewrite !covered_app. unfold covered at 2 4, covers. cbn [existsb start end_]. destruct (covered spans t); cbn [orb]; lia.
    + rewrite slow_at_now by done. eapply covered_past; [done|rewrite open_snoc; cbn; lia|done].
  - rewrite (proj2 (Z.eqb_neq d 0)) by lia. cbn [andb]. split_and!; [by apply opened|by rewrite open_snoc|].
    intros t Ht. destruct (Z.lt_ge_cases t now).
    + rewrite <- Hpast by done. rewrite covered_app. unfold covered at 2, covers. cbn [existsb start end_]. destruct (covered spans t); cbn [orb]; lia.
    + rewrite slow_at_now, covered_app by done. unfold covered at 2, covers. cbn [existsb start end_]. destruct (covered spans t); cbn [orb]; lia.
  - rewrite andb_false_r. split_and!; [done|done|]. intros t Ht. destruct (Z.lt_ge_cases t now); [by apply Hpast|].
    rewrite slow_at_now by done. rewrite (proj2 (Z.ltb_ge 0 d)) by done. by eapply covered_past.
Qed.

(** Observing a depth extends the history. *)
Lemma note_depth_inv spans h d now :
  hist_inv spans h -> not_before h now -> 0 <= d -> hist_inv (note_depth spans d now) ((d, now) :: h).
Proof.
  intros Hi Hn Hd. destruct (extend_inv spans h d now Hi Hn Hd) as (_ & H0 & Hok & Ho & Hc). unfold note_depth. cbn [hist_inv].
  split_and!; [done|done|by apply spans_ok_filter|by rewrite open_prune|]. intros t Ht. rewrite covered_prune by done. by apply Hc.
Qed.

Lemma clamp_range d : 0 <= clamp d 0 kMaxDepth <= kMaxDepth.
Proof. unfold clamp, kMaxDepth. lia. Qed.

Lemma clamp_pos d : (0 <? clamp d 0 kMaxDepth) = (0 <? d).
Proof. unfold clamp, kMaxDepth. lia. Qed.

Lemma slow_time_ext h k now : (forall t, slow_at h t = slow_at k t) -> slow_time h now = slow_time k now.
Proof. intros He. by apply count_ext. Qed.

(** What the dwell adds up is the time the readings were above 0. *)
Lemma slow_millis_is_time spans h d now :
  hist_inv spans h -> not_before h now -> 0 <= d ->
  SlowMillis (note_depth spans d now) now = slow_time ((d, now) :: h) now.
Proof.
  intros Hi Hn Hd. destruct (note_depth_inv spans h d now Hi Hn Hd) as (_ & _ & Hok & _ & Hc).
  rewrite SlowMillis_count by done. unfold slow_time. apply count_ext. intros t Ht. apply Hc. lia.
Qed.

(** * Runs of observations *)

Definition observes (obs : list (Z * Z)) : Dwell := foldl (fun w o => (Observe w o.1 o.2).1) new_dwell obs.
Definition history (obs : list (Z * Z)) : list (Z * Z) := rev (map (fun o => (clamp o.1 0 kMaxDepth, o.2)) obs).
Definition clock_ok (obs : list (Z * Z)) : Prop := StronglySorted Z.le (0 :: map snd obs).

Lemma history_snoc obs d now : history (obs ++ [(d, now)]) = (clamp d 0 kMaxDepth, now) :: history obs.
Proof. unfold history. by rewrite map_app, rev_app_distr. Qed.

Lemma observes_snoc obs d now : observes (obs ++ [(d, now)]) = (Observe (observes obs) d now).1.
Proof. unfold observes. by rewrite foldl_app. Qed.

Lemma clock_snoc obs d now : clock_ok (obs ++ [(d, now)]) <-> clock_ok obs /\ not_before (history obs) now.
Proof.
  unfold clock_ok. rewrite map_app, app_comm_cons, StronglySorted_app. cbn [map snd]. split.
  - intros (Hb & Hs & _). split; [done|]. destruct obs as [|[d' t] obs _] using rev_ind; cbn [history not_before].
    + apply Hb; set_solver.
    + rewrite history_snoc. cbn. apply Hb; [|set_solver]. rewrite map_app. cbn. set_solver.
  - intros (Hs & Hn). split_and!; [|done|repeat constructor]. intros a b Ha ->%list_elem_of_singleton.
    destruct obs as [|[d' t] obs _] using rev_ind; cbn [history not_before] in *.
    + cbn in *. assert (a = 0) by set_solver. lia.
    + rewrite history_snoc in Hn. cbn in Hn. rewrite map_app, app_comm_cons in *. apply StronglySorted_app in Hs as (Hb & _ & _).
      apply elem_of_app in Ha as [Ha|Ha]; [|cbn in Ha; assert (a = t) by set_solver; lia].
      specialize (Hb a t Ha). cbn in Hb. specialize (Hb ltac:(set_solver)). lia.
Qed.

Lemma spans_Observe w d now : spans_ (Observe w d now).1 = note_depth (spans_ w) (clamp d 0 kMaxDepth) now.
Proof. unfold Observe. by destruct (next_phase _ _ _ _ _). Qed.

Lemma observes_hist obs : clock_ok obs -> hist_inv (spans_ (observes obs)) (history obs).
Proof.
  induction obs as [|[d now] obs IH] using rev_ind; [done|]. intros [Hc Hn]%clock_snoc. rewrite observes_snoc, history_snoc, spans_Observe.
  apply note_depth_inv; [by apply IH|done|apply clamp_range].
Qed.

(** The rule that makes the slow state appear, on the history itself. *)
Definition appears (obs : list (Z * Z)) (d now : Z) : bool :=
  (0 <? d) && (kDwellAppearMillis <=? slow_time (history (obs ++ [(d, now)])) now).

(** What an observation does, in terms of the readings alone. *)
Lemma Observe_spec obs d now :
  clock_ok (obs ++ [(d, now)]) ->
  let w := observes obs in
  let st := next_phase (phase_ w) (since_ w) (clamp d 0 kMaxDepth) (appears obs d now) now in
  phase_ (observes (obs ++ [(d, now)])) = st.1 /\ since_ (observes (obs ++ [(d, now)])) = st.2 /\
  phase (Observe w d now).2 = st.1 /\
  nextMillis (Observe w d now).2 = next_millis st.1 st.2 (clamp d 0 kMaxDepth) (slow_time (history (obs ++ [(d, now)])) now) now.
Proof.
  intros [Hc Hn]%clock_snoc. cbn zeta. rewrite observes_snoc. unfold appears. rewrite history_snoc.
  rewrite <- (slow_millis_is_time (spans_ (observes obs))) by (done || apply clamp_range || by apply observes_hist).
  rewrite <- clamp_pos. unfold Observe. by destruct (next_phase _ _ _ _ _).
Qed.

Lemma history_clock obs : clock_ok obs -> forall t d s, history obs = (d, s) :: t -> 0 <= s.
Proof. intros Hc t d s Hh. pose proof (observes_hist obs Hc) as Hi. rewrite Hh in Hi. by destruct Hi as (_ & ? & _). Qed.

(** ** When the slow state shows *)

(** When the tray entered the phase it is in: at an observation of the run. *)
Lemma since_entered obs :
  clock_ok obs -> phase_ (observes obs) <> Hidden ->
  exists before d after, obs = before ++ (d, since_ (observes obs)) :: after /\
    phase_ (observes (before ++ [(d, since_ (observes obs))])) = phase_ (observes obs) /\
    phase_ (observes before) <> phase_ (observes obs) /\
    forall k j, after = k ++ j -> phase_ (observes (before ++ (d, since_ (observes obs)) :: k)) = phase_ (observes obs).
Proof.
  induction obs as [|[d now] obs IH] using rev_ind; [done|]. intros Hc Hp. pose proof (Observe_spec obs d now Hc) as (H1 & H2 & _).
  apply clock_snoc in Hc as [Hc _]. rewrite H1, H2 in *. set (st := next_phase _ _ _ _ _) in *.
  destruct (decide (st.1 = phase_ (observes obs))) as [He|He].
  - assert (st.2 = since_ (observes obs)) as Hs.
    { subst st. unfold next_phase in *. destruct (phase_ (observes obs)); cases_if; done. }
    rewrite He, Hs in *. destruct (IH Hc Hp) as (b & e & a & Eo & Hb & Hn & Ha). exists b, e, (a ++ [(d, now)]).
    generalize dependent (since_ (observes obs)). intros s ? ? ? ? ? Eo Hb Ha. subst obs.
    split_and!; [by rewrite <- app_assoc|done|done|]. intros k j Hkj.
    destruct j as [|x j _] using rev_ind.
    + rewrite app_nil_r in Hkj. subst k. rewrite <- app_assoc in H1. exact H1.
    + rewrite app_assoc in Hkj. apply app_inj_tail in Hkj as [Hk <-]. by eapply Ha.
  - assert (st.2 = now) as Hs.
    { subst st. unfold next_phase in *. destruct (phase_ (observes obs)); cases_if; done. }
    rewrite Hs. exists obs, d, []. split_and!; [done|by rewrite H1|congruence|].
    intros k j Hkj. symmetry in Hkj. apply app_nil in Hkj as [-> ->]. by rewrite H1.
Qed.

(** The slow state is shown only for a slow connection. *)
Lemma slow_needs_slowness obs d now :
  clock_ok (obs ++ [(d, now)]) -> phase (Observe (observes obs) d now).2 = Slow ->
  exists before e s after, obs ++ [(d, now)] = before ++ (e, s) :: after /\ 0 < e /\
    kDwellAppearMillis <= slow_time (history (before ++ [(e, s)])) s /\ (0 < d \/ now < s + kDwellStayMillis).
Proof.
  intros Hc Hp. pose proof (Observe_spec obs d now Hc) as (H1 & H2 & H3 & _). rewrite H3 in Hp. rewrite Hp in H1.
  destruct (since_entered (obs ++ [(d, now)]) Hc ltac:(congruence)) as (b & e & a & Eo & Hb & Hn & Ha).
  exists b, e, (since_ (observes (obs ++ [(d, now)]))), a. rewrite H1 in *. split; [done|].
  assert (clock_ok (b ++ [(e, since_ (observes (obs ++ [(d, now)])))])) as Hcb.
  { unfold clock_ok in *. rewrite Eo in Hc. rewrite map_app, app_comm_cons in *. apply StronglySorted_app in Hc as (Hx & Hy & Hz).
    apply StronglySorted_app. split_and!; [intros x y ? ?; apply Hx; set_solver|done|repeat constructor]. }
  pose proof (Observe_spec b e _ Hcb) as (H4 & _). rewrite Hb in H4.
  assert (appears b e (since_ (observes (obs ++ [(d, now)]))) = true) as Happ.
  { unfold next_phase in H4. destruct (appears b e _); [done|]. revert H4 Hn. destruct (phase_ (observes b)); cases_if; done. }
  unfold appears in Happ. bool_hyps. split_and!; [done|done|]. rewrite H2. revert Hp. unfold next_phase, appears.
  pose proof (clamp_pos d). pose proof (clamp_range d). destruct (phase_ (observes obs)); cases_if; cbn; try done; intros _; auto.
  all: destruct (Z.leb_spec kDwellStayMillis (now - since_ (observes obs))); lia.
Qed.

(** The run is in phase [p] since its observation at [s]. *)
Definition entered (obs : list (Z * Z)) (p : Phase) (s : Z) : Prop :=
  exists before e after, obs = before ++ (e, s) :: after /\ phase_ (observes before) <> p /\
    forall k j, after = k ++ j -> phase_ (observes (before ++ (e, s) :: k)) = p.

Lemma since_is_entered obs p :
  clock_ok obs -> phase_ (observes obs) = p -> p <> Hidden -> entered obs p (since_ (observes obs)).
Proof.
  intros Hc <- Hp. destruct (since_entered obs Hc Hp) as (b & e & a & Eo & _ & Hn & Ha). by exists b, e, a.
Qed.

(** C24: the slow state comes and goes by the readings.  From hidden, an observation shows slow
    exactly when the level is above 0 and was for 30 s of the last 60 s of the run.  From
    slow, it stays unless the level is 0 and the slow state was entered 60 s ago or more,
    and then it shows recovered: it never hides at once.  From recovered, slowness shows slow
    again, and otherwise it hides 3 s after it recovered, not earlier.  So when the tray says
    slow, the level was above 0 for 30 s of the 60 s before the slow state was entered, by a
    reading above 0; and the level is above 0 still, or the slow state is less than 60 s
    old. *)
Theorem slow_is_shown_truthfully obs d now :
  clock_ok (obs ++ [(d, now)]) ->
  let shown := phase (Observe (observes obs) d now).2 in
  match phase_ (observes obs) with
  | Hidden => shown = if appears obs d now then Slow else Hidden
  | Slow => exists s, entered obs Slow s /\ shown = if (d <=? 0) && (kDwellStayMillis <=? now - s) then Recovered else Slow
  | Recovered => exists s, entered obs Recovered s /\
      shown = if appears obs d now then Slow else if kRecoveredMillis <=? now - s then Hidden else Recovered
  end /\
  (shown = Slow -> exists before e s after, obs ++ [(d, now)] = before ++ (e, s) :: after /\ 0 < e /\
    kDwellAppearMillis <= slow_time (history (before ++ [(e, s)])) s /\ (0 < d \/ now < s + kDwellStayMillis)).
Proof.
  intros Hc shown. split; [|by apply slow_needs_slowness]. subst shown.
  pose proof (Observe_spec obs d now Hc) as (_ & _ & -> & _). apply clock_snoc in Hc as [Hc _]. unfold next_phase.
  pose proof (clamp_pos d) as Hp. pose proof (clamp_range d). destruct (phase_ (observes obs)) eqn:E.
  - by destruct (appears obs d now).
  - exists (since_ (observes obs)). split; [by apply since_is_entered|].
    replace (d <=? 0) with (clamp d 0 kMaxDepth =? 0) by lia. by destruct (_ && _).
  - exists (since_ (observes obs)). split; [by apply since_is_entered|]. destruct (appears obs d now); [done|]. by destruct (_ <=? _).
Qed.

(** ** The timer *)

(** While nothing new is read, the time above 0 grows at most as fast as the clock. *)
Lemma slow_time_grows h d now t :
  now <= t <= now + kDwellWindowMillis ->
  slow_time ((d, t) :: (d, now) :: h) t <= slow_time ((d, now) :: h) now + (if 0 <? d then t - now else 0).
Proof.
  intros Ht. unfold slow_time, kDwellWindowMillis in *.
  rewrite (count_ext (slow_at ((d, t) :: (d, now) :: h)) (slow_at ((d, now) :: h))) by (intros; by rewrite slow_at_past by lia).
  rewrite (count_split _ (t - 60000) now t), (count_split _ (now - 60000) (t - 60000) now) by lia.
  pose proof (count_range (slow_at ((d, now) :: h)) (now - 60000) (t - 60000)). destruct (Z.ltb_spec 0 d) as [Hd|Hd].
  - pose proof (count_range (slow_at ((d, now) :: h)) now t). lia.
  - rewrite (count_none _ now t); [lia|]. intros k Hk. rewrite slow_at_now by lia. lia.
Qed.

Lemma since_nonneg obs : clock_ok obs -> 0 <= since_ (observes obs).
Proof.
  induction obs as [|[d now] obs IH] using rev_ind; [done|]. intros Hc. pose proof (Observe_spec obs d now Hc) as (_ & -> & _).
  apply clock_snoc in Hc as [Hc Hn]. pose proof (hist_weak _ _ now (observes_hist obs Hc) Hn) as (H0 & _). specialize (IH Hc).
  unfold next_phase. destruct (phase_ (observes obs)); cases_if; done.
Qed.

Lemma clock_again obs d now t : clock_ok (obs ++ [(d, now)]) -> now <= t -> clock_ok ((obs ++ [(d, now)]) ++ [(d, t)]).
Proof. intros Hc Ht. apply clock_snoc. split; [done|]. by rewrite history_snoc. Qed.

(** The same, for the phases alone. *)
Lemma timer_exact p0 since0 d S T now t :
  0 <= now <= t -> 0 <= d -> 0 <= S -> (t <= now + kDwellWindowMillis -> T <= S + (if 0 <? d then t - now else 0)) ->
  let st := next_phase p0 since0 d ((0 <? d) && (kDwellAppearMillis <=? S)) now in
  let st' := next_phase st.1 st.2 d ((0 <? d) && (kDwellAppearMillis <=? T)) t in
  let next := next_millis st.1 st.2 d S now in
  0 <= st.2 -> (next = -1 \/ t < next -> st'.1 = st.1) /\ (t = next -> st'.1 <> st.1 \/ t < next_millis st'.1 st'.2 d T t).
Proof.
  intros Hn Hd HS Hg. cbn zeta. unfold next_phase, kDwellWindowMillis, kDwellStayMillis in *.
  destruct p0; destruct (Z.ltb_spec 0 d) as [Hp|Hp]; destruct (Z.leb_spec kDwellAppearMillis S); cbn [andb fst snd].
  all: repeat match goal with
       | |- context [match (if ?b then _ else _) with _ => _ end] => destruct b eqn:?; cbn [andb fst snd]; bool_hyps
       | |- context [(if ?b then _ else _).1] => destruct b eqn:?; cbn [andb fst snd]; bool_hyps
       end.
  all: unfold next_millis, kDwellAppearMillis, kDwellStayMillis, kRecoveredMillis in *.
  all: intros; rewrite ?(proj2 (Z.ltb_lt 0 d)), ?(proj2 (Z.ltb_ge 0 d)) by done.
  all: try (rewrite (proj2 (Z.eqb_neq d 0)) by lia); try (replace d with 0 in * by lia; cbn [Z.eqb]).
  all: split; [intros [?|?]|intros ?]; try done; try (exfalso; lia); try (left; done); try (right; lia).
Qed.

(** The timer misses nothing. Until the time an observation names, and for good where it
    names none, the same level observed again shows the same phase; and at that time, if it
    does not show another, the slow state needs more time and a later moment is named. *)
Theorem timer_misses_nothing obs d now t :
  clock_ok (obs ++ [(d, now)]) -> now <= t ->
  let shown := (Observe (observes obs) d now).2 in
  let again := (Observe (observes (obs ++ [(d, now)])) d t).2 in
  (nextMillis shown = -1 \/ t < nextMillis shown -> phase again = phase shown) /\
  (t = nextMillis shown -> phase again <> phase shown \/ t < nextMillis again).
Proof.
  intros Hc Ht. cbn zeta. pose proof (Observe_spec obs d now Hc) as (H1 & H2 & H3 & H4).
  pose proof (Observe_spec _ d t (clock_again obs d now t Hc Ht)) as (_ & _ & H5 & H6).
  pose proof (since_nonneg _ Hc) as Hs. apply clock_snoc in Hc as [Hc Hn].
  pose proof (hist_weak _ _ now (observes_hist obs Hc) Hn) as (H0 & _). rewrite H5, H3, H6, H4, H1. rewrite H2 in *. clear H1 H2 H3 H4 H5 H6.
  unfold appears in *. rewrite <- clamp_pos in *. apply timer_exact; [lia|apply clamp_range|apply count_range| |done].
  intros Hw. rewrite !history_snoc. apply slow_time_grows. lia.
Qed.

(** A level that is above 0 from a reading on. *)
Lemma slow_since obs e s after t :
  clock_ok (obs ++ (e, s) :: after) -> Forall (fun o => 0 < o.1) ((e, s) :: after) -> s <= t ->
  slow_at (history (obs ++ (e, s) :: after)) t = true.
Proof.
  induction after as [|[d now] after IH] using rev_ind; intros Hc Hp Ht.
  - rewrite history_snoc, slow_at_now, clamp_pos by done. apply Forall_cons in Hp as [Hp _]. cbn in Hp. lia.
  - rewrite app_comm_cons, app_assoc in *. apply clock_snoc in Hc as [Hc _]. apply Forall_app in Hp as [Hp Hd].
    apply Forall_cons in Hd as [Hd _]. rewrite history_snoc. destruct (Z.lt_ge_cases t now).
    + rewrite slow_at_past by done. by apply IH.
    + rewrite slow_at_now, clamp_pos by done. cbn in Hd. lia.
Qed.

Lemma slow_since_time obs e s after now :
  clock_ok (obs ++ (e, s) :: after) -> Forall (fun o => 0 < o.1) ((e, s) :: after) -> s <= now ->
  Z.min (now - s) kDwellWindowMillis <= slow_time (history (obs ++ (e, s) :: after)) now.
Proof.
  intros Hc Hp Hs. unfold slow_time. set (a := now - kDwellWindowMillis). set (p := slow_at _).
  pose proof (count_range p a (Z.max a s)) as Hr.
  rewrite (count_split p a (Z.max a s) now) by (subst a; unfold kDwellWindowMillis; lia).
  rewrite (count_all p (Z.max a s) now); [subst a; unfold kDwellWindowMillis in *; lia|subst a; unfold kDwellWindowMillis; lia|].
  intros t Ht. apply slow_since; [done|done|lia].
Qed.

Lemma last_time obs e s after d now : clock_ok (obs ++ (e, s) :: after) -> last ((e, s) :: after) = Some (d, now) -> s <= now.
Proof.
  intros Hc Hl. unfold clock_ok in Hc. rewrite map_app, app_comm_cons in Hc. apply StronglySorted_app in Hc as (_ & _ & Hc).
  cbn [map snd] in Hc. apply StronglySorted_cons in Hc as [Hc _]. destruct after as [|x after _] using rev_ind; [by injection Hl as <- <-|].
  rewrite app_comm_cons, last_snoc in Hl. injection Hl as ->. rewrite map_app in Hc. apply Forall_app in Hc as [_ Hc]. by apply Forall_cons in Hc as [? _].
Qed.

(** A slow connection is shown. While the level stays above 0 from a reading on, the tray
    says slow from the first observation 30 s later on; and until it does, each observation
    names a later moment no more than those 30 s away to observe again. *)
Theorem slow_is_shown_in_time obs e s after d now :
  clock_ok (obs ++ (e, s) :: after) -> Forall (fun o => 0 < o.1) ((e, s) :: after) -> last ((e, s) :: after) = Some (d, now) ->
  (s + kDwellAppearMillis <= now -> phase_ (observes (obs ++ (e, s) :: after)) = Slow) /\
  (phase_ (observes (obs ++ (e, s) :: after)) <> Slow ->
   exists w next, (Observe w d now).1 = observes (obs ++ (e, s) :: after) /\ nextMillis (Observe w d now).2 = next /\
                  now < next <= s + kDwellAppearMillis).
Proof.
  intros Hc Hp Hl. pose proof (last_time _ _ _ _ _ _ Hc Hl) as Hs. pose proof (slow_since_time obs e s after now Hc Hp Hs) as Hm.
  assert (exists k, obs ++ (e, s) :: after = k ++ [(d, now)]) as [k Ek].
  { apply last_Some in Hl as [k Hk]. exists (obs ++ k). by rewrite Hk, app_assoc. }
  assert (0 < d) as Hd. { apply last_Some_elem_of in Hl. rewrite Forall_forall in Hp. apply (Hp _ Hl). }
  rewrite Ek in *. pose proof (Observe_spec k d now Hc) as (H1 & H2 & H3 & H4). rewrite H1.
  pose proof (since_nonneg _ Hc) as Hn. rewrite H2 in Hn.
  assert (0 <? d = true) as Hb by lia. pose proof (clamp_pos d) as Hcp. rewrite Hb in Hcp.
  unfold appears in *. set (S := slow_time _ now) in *. clearbody S. rewrite Hb in *. cbn [andb] in *.
  unfold kDwellWindowMillis, next_phase in *. split.
  - intros Hle. rewrite (proj2 (Z.leb_le kDwellAppearMillis S)) by (unfold kDwellAppearMillis in *; lia).
    destruct (phase_ (observes k)); [done| |done]. cases_if; [lia|done].
  - intros Hns. exists (observes k). eexists. split; [by rewrite observes_snoc|]. split; [exact H4|].
    revert Hns Hn. unfold next_millis. rewrite Hcp.
    destruct (Z.leb_spec kDwellAppearMillis S); destruct (phase_ (observes k)); cases_if; cbn; rewrite ?Hcp;
      unfold kDwellAppearMillis, kRecoveredMillis in *; intros; try done; lia.
Qed.

(** ** The balloon *)

Definition is_due (v : option TrayView) : bool := match v with Some v => balloonDue v | None => false end.

(** The slow state is up, or going, after every one of the operations. *)
Fixpoint in_episode (t : TrayEpisode) (ops : list TrayOp) : Prop :=
  match ops with
  | [] => True
  | op :: ops => phase (presentation_ (tray_op t op).1) <> Hidden /\ in_episode (tray_op t op).1 ops
  end.

Lemma tray_run_cons t op ops : (tray_run t (op :: ops)).2 = (tray_op t op).2 :: (tray_run (tray_op t op).1 ops).2.
Proof.
  unfold tray_run. set (f := fun s op => _).
  assert (forall ops s l, (foldl f (s, l) ops).2 = l ++ (foldl f (s, []) ops).2) as Hf.
  { intros ops'. induction ops' as [|o ops' IH]; intros s l; cbn [foldl]; [by rewrite app_nil_r|].
    subst f. cbn. destruct (tray_op s o) as [x v]. rewrite IH, (IH x [v]), app_assoc. done. }
  cbn [foldl]. change (f (t, []) op) with (let '(x, v) := tray_op t op in (x, [v])). destruct (tray_op t op) as [x v]. cbn [fst snd].
  by rewrite Hf.
Qed.

Lemma notified_stays t ops :
  notified_ t = true -> in_episode t ops -> List.filter is_due (tray_run t ops).2 = [].
Proof.
  revert t. induction ops as [|op ops IH]; intros t Hn; [done|]. intros [Hp He]. rewrite tray_run_cons. cbn [List.filter].
  assert (notified_ (tray_op t op).1 = true /\ is_due (tray_op t op).2 = false) as [Hn' ->]; [|by apply IH].
  destruct op as [d now|c n]; cbn in *.
  - split; [|done]. unfold EpisodeObserve in *. destruct (match d with Some d => _ | None => _ end) as [w p]. cbn in *. by destruct (phase p).
  - rewrite Hn, orb_true_r. split; [done|]. unfold DecideTray. cbn. by destruct c, (phase (presentation_ t)).
Qed.

(** A slow episode posts its balloon at most once. However the readings, the connection and
    the setting go, from when the slow state appears until it is gone its moment comes once;
    and a balloon is posted only while the tray is connected and reads slow, with the setting
    on. *)
Theorem one_balloon_per_episode t ops :
  in_episode t ops -> (length (List.filter is_due (tray_run t ops).2) <= 1)%nat /\
  forall c n, postBalloon (EpisodeDecide t c n).2 = true -> c = true /\ n = true /\ phase (presentation_ t) = Slow.
Proof.
  intros He. split.
  - revert t He. induction ops as [|op ops IH]; intros t; [cbn; lia|]. intros [Hp He]. rewrite tray_run_cons. cbn [List.filter].
    destruct (is_due (tray_op t op).2) eqn:Ed; [|by apply IH]. cbn [length]. rewrite notified_stays; [done| |done].
    destruct op as [d now|c n]; cbn in *; [done|]. by rewrite Ed.
  - intros c n. cbn. unfold DecideTray. cbn. destruct c, (phase (presentation_ t)), n; cbn; try done. by rewrite andb_false_r.
Qed.

(** * Examples *)

Definition bad_morning : list (Z * Z) := [(3, 1000); (2, 20000); (0, 25000); (3, 26000)].

Example bad_morning_clock : clock_ok (bad_morning ++ [(3, 33000)]).
Proof. unfold clock_ok. cbn. repeat (constructor; [|repeat (constructor; [lia|]); constructor]); constructor. Qed.

Example slow_is_shown_truthfully_witness :
  let obs := bad_morning ++ [(3, 33000); (0, 50000)] in
  let shown := phase (Observe (observes obs) 0 93000).2 in
  clock_ok (obs ++ [(0, 93000)]) /\ phase_ (observes obs) = Slow /\ shown = Recovered /\
  match phase_ (observes obs) with
  | Hidden => shown = if appears obs 0 93000 then Slow else Hidden
  | Slow => exists s, entered obs Slow s /\ shown = if (0 <=? 0) && (kDwellStayMillis <=? 93000 - s) then Recovered else Slow
  | Recovered => exists s, entered obs Recovered s /\
      shown = if appears obs 0 93000 then Slow else if kRecoveredMillis <=? 93000 - s then Hidden else Recovered
  end /\
  (shown = Slow -> exists before e s after, obs ++ [(0, 93000)] = before ++ (e, s) :: after /\ 0 < e /\
    kDwellAppearMillis <= slow_time (history (before ++ [(e, s)])) s /\ (0 < 0 \/ 93000 < s + kDwellStayMillis)).
Proof.
  intros obs shown. assert (clock_ok (obs ++ [(0, 93000)])) as Hc.
  { unfold clock_ok. cbn. repeat (constructor; [|repeat (constructor; [lia|]); constructor]); constructor. }
  split; [exact Hc|]. split; [vm_compute; reflexivity|]. split; [vm_compute; reflexivity|].
  exact (slow_is_shown_truthfully obs 0 93000 Hc).
Defined.

Example timer_misses_nothing_witness :
  phase (Observe (observes (bad_morning ++ [(3, 33000)])) 3 40000).2 = Slow.
Proof.
  refine (proj1 (timer_misses_nothing bad_morning 3 33000 40000 bad_morning_clock _) _); [lia|]. left. vm_compute. reflexivity.
Defined.

Example slow_is_shown_in_time_witness : phase_ (observes [(0, 5); (1, 1000); (6, 31000)]) = Slow.
Proof.
  refine (proj1 (slow_is_shown_in_time [(0, 5)] 1 1000 [(6, 31000)] 6 31000 _ _ eq_refl) _).
  - unfold clock_ok. cbn. repeat (constructor; [|repeat (constructor; [lia|]); constructor]); constructor.
  - repeat constructor.
  - unfold kDwellAppearMillis. lia.
Defined.

Definition slow_tray : TrayEpisode := EpisodeObserve (mkEpisode (observes bad_morning) no_presentation false) (Some 3) 33000.
Definition looks : list TrayOp := [Decides true true; Observes (Some 2) 34000; Decides true true; Decides false true].

Example one_balloon_per_episode_witness : (length (List.filter is_due (tray_run slow_tray looks).2) <= 1)%nat.
Proof. refine (proj1 (one_balloon_per_episode slow_tray looks _)). vm_compute. split_and!; done. Defined.

Example one_balloon : length (List.filter is_due (tray_run slow_tray looks).2) = 1%nat.
Proof. vm_compute. reflexivity. Qed.
