(* ===== verification/LogUpload.v ===== *)
(** A feedback's logs (Common/LogUpload.h, and the upload_logs of
    Service/TunnelController.cpp): which device carries the upload, the one upload in flight,
    its thread, its callback, the finish hook, and the teardowns that release devices beside
    it. The sdk's call and callback, the clock and the lock's holder are the events of a
    schedule. *)

From S2P Require Import Prelude.
From S2P Require Import CxxText.

(** * The decisions *)

Inductive Carrier := Tunnel | Provider | Standalone.

Definition CarrierFor (sessionDevice providerDevice : bool) : Carrier :=
  if sessionDevice then Tunnel else if providerDevice then Provider else Standalone.

Inductive StandaloneRefusal := NotRefused | DeviceStillHeld | RestartPending.

Definition StandaloneRefusalFor (deviceStillHeld restartPending : bool) : StandaloneRefusal :=
  if deviceStillHeld then DeviceStillHeld else if restartPending then RestartPending else NotRefused.

Inductive FlightState := NoUpload | Running | Uploaded | Refused | Failed.
#[export] Instance FlightState_eq_dec : EqDecision FlightState.
Proof. solve_decision. Defined.

Definition state_text (state : FlightState) : text :=
  match state with
  | NoUpload => []
  | Running => txt "running"
  | Uploaded => txt "uploaded"
  | Refused => txt "refused"
  | Failed => txt "failed"
  end.

Definition FlightStateFromString (value : text) : FlightState :=
  if teqb value (txt "running") then Running else
  if teqb value (txt "uploaded") then Uploaded else
  if teqb value (txt "refused") then Refused else
  if teqb value (txt "failed") then Failed else NoUpload.

Definition IsFinished (state : FlightState) : bool :=
  match state with Uploaded | Refused | Failed => true | _ => false end.

Definition kSilentUploadMaxMillis : Z := 30 * 60 * 1000.

Inductive ServiceAnswer := Accepted | Busy | NotTaken.
Inductive AppStep := Done | DeviceRemote | Skip.

Definition AppStepAfterService (answer : ServiceAnswer) (deviceRemoteBound : bool) : AppStep :=
  match answer with NotTaken => if deviceRemoteBound then DeviceRemote else Skip | _ => Done end.

Definition CompletionFor (pendingId statusId : Z) (statusState : FlightState) : option FlightState :=
  if (pendingId =? 0) || negb (statusId =? pendingId) || negb (IsFinished statusState) then None else Some statusState.

(** * The flight *)

Record UploadReading := mkReading { id : Z; state : FlightState; carrier : Carrier }.

(** A device is its handle. [onFinished_]: a hook is set. *)
Record Flight := mkFlight {
  nextId_ : Z; reading_ : UploadReading; sinceMillis_ : Z; onFinished_ : bool; notifying_ : Z;
  calling_ : bool; releasing_ : bool; callingId_ : Z; callingDeviceHandle_ : Z; keptDevices_ : list Z }.

Definition new_flight (firstId : Z) : Flight :=
  mkFlight firstId (mkReading 0 NoUpload Standalone) 0 false 0 false false 0 0 [].

Definition with_reading (r : UploadReading) (f : Flight) : Flight :=
  mkFlight (nextId_ f) r (sinceMillis_ f) (onFinished_ f) (notifying_ f) (calling_ f) (releasing_ f) (callingId_ f) (callingDeviceHandle_ f) (keptDevices_ f).

Definition with_hook (on : bool) (notifying : Z) (f : Flight) : Flight :=
  mkFlight (nextId_ f) (reading_ f) (sinceMillis_ f) on notifying (calling_ f) (releasing_ f) (callingId_ f) (callingDeviceHandle_ f) (keptDevices_ f).

Definition with_call (calling releasing : bool) (callingId handle : Z) (kept : list Z) (f : Flight) : Flight :=
  mkFlight (nextId_ f) (reading_ f) (sinceMillis_ f) (onFinished_ f) (notifying_ f) calling releasing callingId handle kept.

Definition BusyWithLock (f : Flight) : bool := calling_ f || releasing_ f || bool_decide (state (reading_ f) = Running).

Definition ExpireSilentWithLock (nowMillis : Z) (f : Flight) : Flight :=
  if bool_decide (state (reading_ f) = Running) && (kSilentUploadMaxMillis <=? nowMillis - sinceMillis_ f)
  then with_reading (mkReading (id (reading_ f)) Failed (carrier (reading_ f))) f else f.

Definition Begin (c : Carrier) (nowMillis : Z) (f : Flight) : Flight * Z :=
  let f := ExpireSilentWithLock nowMillis f in
  if BusyWithLock f then (f, 0) else
  (mkFlight (nextId_ f + 1) (mkReading (nextId_ f) Running c) nowMillis (onFinished_ f) (notifying_ f)
     (calling_ f) (releasing_ f) (callingId_ f) (callingDeviceHandle_ f) (keptDevices_ f), nextId_ f).

(** The locked part of [Run]; the thread follows. *)
Definition Run (uploadId deviceHandle : Z) (f : Flight) : Flight :=
  with_call true (releasing_ f) uploadId deviceHandle (keptDevices_ f) f.

(** Whether the flight kept the device. *)
Definition KeepUntilReturned (deviceHandle : Z) (f : Flight) : Flight * bool :=
  if negb (calling_ f) || negb (callingDeviceHandle_ f =? deviceHandle) || (deviceHandle =? 0) then (f, false) else
  (with_call (calling_ f) (releasing_ f) (callingId_ f) (callingDeviceHandle_ f) (keptDevices_ f ++ [deviceHandle]) f, true).

(** Whether the finish hook is called. *)
Definition Finish (uploadId : Z) (st : FlightState) (f : Flight) : Flight * bool :=
  if negb (id (reading_ f) =? uploadId) || IsFinished (state (reading_ f)) || negb (IsFinished st) then (f, false) else
  let f := with_reading (mkReading (id (reading_ f)) st (carrier (reading_ f))) f in
  if onFinished_ f then (with_hook (onFinished_ f) (notifying_ f + 1) f, true) else (f, false).

Definition HookReturned (f : Flight) : Flight := with_hook (onFinished_ f) (notifying_ f - 1) f.

Definition Read (nowMillis : Z) (f : Flight) : Flight * UploadReading :=
  let f := ExpireSilentWithLock nowMillis f in (f, reading_ f).

Definition Returned (uploadId : Z) (f : Flight) : Flight * list Z :=
  if negb (callingId_ f =? uploadId) then (f, []) else (with_call false true (callingId_ f) 0 [] f, keptDevices_ f).

Definition Released (uploadId : Z) (f : Flight) : Flight :=
  if negb (callingId_ f =? uploadId) then f else
  with_call (calling_ f) false (callingId_ f) (callingDeviceHandle_ f) (keptDevices_ f) f.

(** What [WaitReturned] and [ClearOnFinished] wait for. *)
Definition returned (f : Flight) : bool := negb (calling_ f) && negb (releasing_ f).
Definition no_hook_runs (f : Flight) : bool := notifying_ f =? 0.

(** * The service around it *)

(** An upload's thread: in the sdk's call, out of it by a throw, out of it, with the kept
    devices in hand, with them released, gone. *)
Inductive UploadPc := InCall | Threw | Out | Holds (kept : list Z) | LetGo | Gone.
Record UploadThread := mkThread { t_id : Z; t_handle : Z; pc : UploadPc }.

(** A device: the controller's, taken by a teardown, kept by the flight, released. *)
Inductive Device := Live | Closing | Kept | Freed.

(** [admitted]: the upload the holder of the session lock has begun and not yet run or refused.
    [hooks]: the uploads whose finish hook is running. [cleared]: [ClearOnFinished] has not
    been called, waits, has returned. *)
Inductive ClearPc := HookSet | Clearing | Cleared.
Record Service := mkService {
  flight : Flight; threads : list UploadThread; devices : gmap Z Device; admitted : option Z; hooks : list Z; cleared : ClearPc }.

Definition start_service (firstId : Z) : Service := mkService (with_hook true 0 (new_flight firstId)) [] ∅ None [] HookSet.

Inductive ServiceEvent :=
| Builds (h : Z)                                       (* a device is built *)
| Admits (c : Carrier) (now : Z) | Refuses | Runs (h : Z)   (* the holder of the session lock *)
| Reports (uploadId : Z) (st : FlightState)            (* the sdk's callback, or a call that did not start *)
| HookEnds (uploadId : Z)
| CallReturns (i : nat) | CallThrows (i : nat) | FailsIt (i : nat) | TakesKept (i : nat) | FreesKept (i : nat) | Leaves (i : nat)
| Takes (h : Z) | Closes (h : Z)                       (* a teardown takes a device, and releases it *)
| Reads (now : Z)
| ClearsHook | ClearReturns.

Definition set_thread (i : nat) (p : UploadPc) (l : list UploadThread) : list UploadThread :=
  alter (fun t => mkThread (t_id t) (t_handle t) p) i l.

Definition on_flight (f : Flight) (s : Service) : Service :=
  mkService f (threads s) (devices s) (admitted s) (hooks s) (cleared s).
Definition on_thread (i : nat) (p : UploadPc) (f : Flight) (s : Service) : Service :=
  mkService f (set_thread i p (threads s)) (devices s) (admitted s) (hooks s) (cleared s).

Definition finishes (uploadId : Z) (st : FlightState) (s : Service) : Service :=
  let '(f, hook) := Finish uploadId st (flight s) in
  mkService f (threads s) (devices s) (admitted s) (if hook then uploadId :: hooks s else hooks s) (cleared s).

(** The controller admits, runs and refuses under the session lock, so no two uploads are
    between their admission and their end at once; a device's teardown can fall there, since
    the waiter of an older standalone device takes it without that lock.  A teardown of the
    admitted upload's own device would need the lock; the model lets it come as well. *)
Definition step (s : Service) (e : ServiceEvent) : option Service :=
  match e with
  | Builds h =>
      if (h =? 0) || bool_decide (is_Some (devices s !! h)) then None else
      Some (mkService (flight s) (threads s) (<[h := Live]> (devices s)) (admitted s) (hooks s) (cleared s))
  | Admits c now =>
      match admitted s with
      | Some _ => None
      | None =>
          let '(f, uploadId) := Begin c now (flight s) in
          Some (mkService f (threads s) (devices s) (if uploadId =? 0 then None else Some uploadId) (hooks s) (cleared s))
      end
  | Refuses =>
      uploadId ← admitted s;
      let s := finishes uploadId Failed s in
      Some (mkService (flight s) (threads s) (devices s) None (hooks s) (cleared s))
  | Runs h =>
      uploadId ← admitted s;
      match devices s !! h with
      | Some Live =>
          Some (mkService (Run uploadId h (flight s)) (threads s ++ [mkThread uploadId h InCall]) (devices s) None (hooks s) (cleared s))
      | _ => None
      end
  | Reports uploadId st => Some (finishes uploadId st s)
  | HookEnds uploadId =>
      if negb (bool_decide (uploadId ∈ hooks s)) then None else
      Some (mkService (HookReturned (flight s)) (threads s) (devices s) (admitted s)
              (match list_find (eq uploadId) (hooks s) with Some (k, _) => delete k (hooks s) | None => hooks s end) (cleared s))
  | CallReturns i =>
      t ← threads s !! i;
      match pc t with InCall => Some (on_thread i Out (flight s) s) | _ => None end
  | CallThrows i =>
      t ← threads s !! i;
      match pc t with InCall => Some (on_thread i Threw (flight s) s) | _ => None end
  | FailsIt i =>
      t ← threads s !! i;
      match pc t with Threw => let s := finishes (t_id t) Failed s in Some (on_thread i Out (flight s) s) | _ => None end
  | TakesKept i =>
      t ← threads s !! i;
      match pc t with
      | Out => let '(f, kept) := Returned (t_id t) (flight s) in Some (on_thread i (Holds kept) f s)
      | _ => None
      end
  | FreesKept i =>
      t ← threads s !! i;
      match pc t with
      | Holds kept =>
          Some (mkService (flight s) (set_thread i LetGo (threads s)) (foldr (fun h m => <[h := Freed]> m) (devices s) kept) (admitted s) (hooks s) (cleared s))
      | _ => None
      end
  | Leaves i =>
      t ← threads s !! i;
      match pc t with LetGo => Some (on_thread i Gone (Released (t_id t) (flight s)) s) | _ => None end
  | Takes h =>
      match devices s !! h with
      | Some Live => Some (mkService (flight s) (threads s) (<[h := Closing]> (devices s)) (admitted s) (hooks s) (cleared s))
      | _ => None
      end
  | Closes h =>
      match devices s !! h with
      | Some Closing =>
          let '(f, kept) := KeepUntilReturned h (flight s) in
          Some (mkService f (threads s) (<[h := if kept then Kept else Freed]> (devices s)) (admitted s) (hooks s) (cleared s))
      | _ => None
      end
  | Reads now => Some (on_flight (Read now (flight s)).1 s)
  | ClearsHook =>
      match cleared s with
      | HookSet => Some (mkService (with_hook false (notifying_ (flight s)) (flight s)) (threads s) (devices s) (admitted s) (hooks s) Clearing)
      | _ => None
      end
  | ClearReturns =>
      match cleared s with
      | Clearing => if no_hook_runs (flight s) then Some (mkService (flight s) (threads s) (devices s) (admitted s) (hooks s) Cleared) else None
      | _ => None
      end
  end.

Definition steps (s : Service) (tr : list ServiceEvent) : option Service := foldl (fun s e => s ← s; step s e) (Some s) tr.

(** A life: a tunnel device, an upload on it, a teardown in the middle of the call. *)
Definition a_life : list ServiceEvent :=
  [Builds 7; Admits Tunnel 1000; Runs 7; Takes 7; Closes 7; Reads 2000; CallReturns 0; Reports 100 Uploaded; TakesKept 0;
   HookEnds 100; FreesKept 0; Leaves 0; ClearsHook; ClearReturns].

Example a_life_ends :
  (fun s => (reading_ (flight s), devices s !! 7, pc <$> threads s, hooks s)) <$> steps (start_service 100) a_life =
  Some (mkReading 100 Uploaded Tunnel, Some Freed, [Gone], []).
Proof. vm_compute. reflexivity. Qed.

(** * The invariant *)

Definition in_call (p : UploadPc) : bool := match p with InCall | Threw | Out => true | _ => false end.
Definition lets_go (p : UploadPc) : bool := match p with Holds _ | LetGo => true | _ => false end.
Definition gone (p : UploadPc) : bool := match p with Gone => true | _ => false end.

Record Inv (s : Service) : Prop := {
  inv_next : 0 < nextId_ (flight s);
  inv_zero : devices s !! 0 = None;
  inv_one : forall i j t u, threads s !! i = Some t -> threads s !! j = Some u -> gone (pc t) = false -> gone (pc u) = false -> i = j;
  inv_call : forall i t, threads s !! i = Some t -> in_call (pc t) = true ->
    calling_ (flight s) = true /\ releasing_ (flight s) = false /\ callingId_ (flight s) = t_id t /\
    callingDeviceHandle_ (flight s) = t_handle t /\ t_handle t <> 0 /\
    (devices s !! t_handle t = Some Live \/ devices s !! t_handle t = Some Closing \/ devices s !! t_handle t = Some Kept);
  inv_go : forall i t, threads s !! i = Some t -> lets_go (pc t) = true ->
    calling_ (flight s) = false /\ releasing_ (flight s) = true /\ callingId_ (flight s) = t_id t;
  inv_calling : calling_ (flight s) = true -> exists i t, threads s !! i = Some t /\ in_call (pc t) = true;
  inv_releasing : releasing_ (flight s) = true -> exists i t, threads s !! i = Some t /\ lets_go (pc t) = true;
  inv_admitted : forall n, admitted s = Some n -> calling_ (flight s) = false /\ releasing_ (flight s) = false /\ n <> 0;
  inv_kept_call : keptDevices_ (flight s) <> [] -> calling_ (flight s) = true;
  inv_kept : forall h, devices s !! h = Some Kept ->
    h ∈ keptDevices_ (flight s) \/ exists i t kept, threads s !! i = Some t /\ pc t = Holds kept /\ h ∈ kept;
  inv_kept_dev : forall h,
    h ∈ keptDevices_ (flight s) \/ (exists i t kept, threads s !! i = Some t /\ pc t = Holds kept /\ h ∈ kept) -> devices s !! h = Some Kept;
  inv_hooks : notifying_ (flight s) = Z.of_nat (length (hooks s));
  inv_hook_off : cleared s <> HookSet -> onFinished_ (flight s) = false;
  inv_cleared : cleared s = Cleared -> hooks s = []
}.

(** What the calls leave of the flight. *)
Lemma Begin_call c now f : let f' := (Begin c now f).1 in
  calling_ f' = calling_ f /\ releasing_ f' = releasing_ f /\ callingId_ f' = callingId_ f /\
  callingDeviceHandle_ f' = callingDeviceHandle_ f /\ keptDevices_ f' = keptDevices_ f /\ notifying_ f' = notifying_ f /\ onFinished_ f' = onFinished_ f /\
  nextId_ f <= nextId_ f' /\ ((Begin c now f).2 <> 0 -> calling_ f = false /\ releasing_ f = false).
Proof.
  destruct f as [nx [n st c'] si on no [] [] ci ch ke]; unfold Begin, BusyWithLock, ExpireSilentWithLock; cbn -[kSilentUploadMaxMillis].
  all: destruct (_ && _); cbn; try case_bool_decide; cbn; split_and!; try done; try (by intros []); lia.
Qed.

Lemma Finish_call n st f : let f' := (Finish n st f).1 in
  calling_ f' = calling_ f /\ releasing_ f' = releasing_ f /\ callingId_ f' = callingId_ f /\
  callingDeviceHandle_ f' = callingDeviceHandle_ f /\ keptDevices_ f' = keptDevices_ f /\ onFinished_ f' = onFinished_ f /\
  nextId_ f' = nextId_ f /\ notifying_ f' = notifying_ f + (if (Finish n st f).2 then 1 else 0) /\ ((Finish n st f).2 = true -> onFinished_ f = true).
Proof.
  unfold Finish. destruct (_ || _); cbn; [split_and!; try done; lia|]. destruct (onFinished_ f) eqn:?; cbn; split_and!; try done; lia.
Qed.

Lemma Read_call now f : let f' := (Read now f).1 in
  calling_ f' = calling_ f /\ releasing_ f' = releasing_ f /\ callingId_ f' = callingId_ f /\
  callingDeviceHandle_ f' = callingDeviceHandle_ f /\ keptDevices_ f' = keptDevices_ f /\ notifying_ f' = notifying_ f /\ onFinished_ f' = onFinished_ f /\
  nextId_ f' = nextId_ f.
Proof. unfold Read, ExpireSilentWithLock. by destruct (_ && _). Qed.

Lemma Inv_flight_start firstId : 0 < firstId -> Inv (start_service firstId).
Proof.
  intros. constructor; cbn; try done; try (intros * Hx; by rewrite lookup_empty in Hx || by rewrite lookup_nil in Hx).
  intros h [Hh|(i & t & kept & Hi & _)]; [set_solver|by rewrite lookup_nil in Hi].
Qed.

(** A change of the flight that leaves the call as it is. *)
Lemma Inv_flight s f hs adm :
  Inv s -> calling_ f = calling_ (flight s) -> releasing_ f = releasing_ (flight s) -> callingId_ f = callingId_ (flight s) ->
  callingDeviceHandle_ f = callingDeviceHandle_ (flight s) -> keptDevices_ f = keptDevices_ (flight s) ->
  nextId_ (flight s) <= nextId_ f -> notifying_ f = Z.of_nat (length hs) ->
  (cleared s <> HookSet -> onFinished_ f = false) -> (cleared s = Cleared -> hs = []) ->
  (forall n, adm = Some n -> calling_ f = false /\ releasing_ f = false /\ n <> 0) ->
  Inv (mkService f (threads s) (devices s) adm hs (cleared s)).
Proof.
  intros [] E1 E2 E3 E4 E5 E6 E7 E8 E9 E10. constructor; cbn; rewrite ?E1, ?E2, ?E3, ?E4, ?E5; try done; try lia.
  intros n Hn. rewrite <- E1, <- E2. by apply E10.
Qed.

Lemma Inv_flight_finishes s n st : Inv s -> Inv (finishes n st s).
Proof.
  intros I. unfold finishes. pose proof (Finish_call n st (flight s)) as (H1 & H2 & H3 & H4 & H5 & H6 & H7 & H8 & H9).
  destruct (Finish n st (flight s)) as [f hook]. cbn [fst snd] in *. apply Inv_flight; try done; try lia.
  - rewrite H8, (inv_hooks s I). destruct hook; cbn [length]; lia.
  - intros Hc. rewrite H6. by apply (inv_hook_off s I).
  - intros Hc. destruct hook; [|by apply (inv_cleared s I)]. specialize (H9 eq_refl). rewrite (inv_hook_off s I) in H9 by congruence. done.
  - intros k Hk. rewrite H1, H2. by apply (inv_admitted s I).
Qed.

Lemma set_thread_lookup i p l j u :
  set_thread i p l !! j = Some u <->
  (j = i /\ exists t, l !! i = Some t /\ u = mkThread (t_id t) (t_handle t) p) \/ (j <> i /\ l !! j = Some u).
Proof.
  unfold set_thread. destruct (decide (j = i)) as [->|Hj].
  - rewrite list_lookup_alter_eq. destruct (l !! i) as [t|]; cbn; split; try naive_solver.
  - rewrite list_lookup_alter_ne by done. naive_solver.
Qed.

Lemma pc_split p : in_call p = true \/ lets_go p = true \/ gone p = true.
Proof. destruct p; auto. Qed.

(** With the call over and no device in hand, every thread is gone. *)
Lemma all_gone s : Inv s -> calling_ (flight s) = false -> releasing_ (flight s) = false ->
  forall i t, threads s !! i = Some t -> pc t = Gone.
Proof.
  intros I Hc Hr i t Hi. destruct (pc_split (pc t)) as [H|[H|H]].
  - destruct (inv_call s I i t Hi H). congruence.
  - destruct (inv_go s I i t Hi H) as (_ & ? & _). congruence.
  - by destruct (pc t).
Qed.

(** One thread moves on; the others are gone. *)
Lemma Inv_thread s i t p f d :
  Inv s -> threads s !! i = Some t -> gone (pc t) = false ->
  nextId_ f = nextId_ (flight s) -> notifying_ f = notifying_ (flight s) -> onFinished_ f = onFinished_ (flight s) -> d !! 0 = None ->
  match p with
  | InCall | Threw | Out =>
      calling_ f = true /\ releasing_ f = false /\ callingId_ f = t_id t /\ callingDeviceHandle_ f = t_handle t /\ t_handle t <> 0 /\
      (d !! t_handle t = Some Live \/ d !! t_handle t = Some Closing \/ d !! t_handle t = Some Kept)
  | Holds _ | LetGo => calling_ f = false /\ releasing_ f = true /\ callingId_ f = t_id t
  | Gone => calling_ f = false /\ releasing_ f = false
  end ->
  (keptDevices_ f <> [] -> calling_ f = true) ->
  (forall h, d !! h = Some Kept <-> h ∈ keptDevices_ f \/ exists kept, p = Holds kept /\ h ∈ kept) ->
  Inv (mkService f (set_thread i p (threads s)) d (admitted s) (hooks s) (cleared s)).
Proof.
  intros I Hi Hg E1 E2 E3 Hd Hp Hk Hkept.
  assert (forall j u, threads s !! j = Some u -> j <> i -> pc u = Gone) as Hothers.
  { intros j u Hj Hne. destruct (gone (pc u)) eqn:Eg; [by destruct (pc u)|]. destruct Hne. by eapply (inv_one s I). }
  assert (set_thread i p (threads s) !! i = Some (mkThread (t_id t) (t_handle t) p)) as Hat.
  { apply set_thread_lookup. left. eauto. }
  assert (forall j u, set_thread i p (threads s) !! j = Some u -> gone (pc u) = false -> j = i /\ u = mkThread (t_id t) (t_handle t) p) as Hl.
  { intros j u [[-> (t' & Ht & ->)]|[Hne Hj]]%set_thread_lookup Hu; [by simplify_eq|]. by rewrite (Hothers j u Hj Hne) in Hu. }
  constructor; cbn.
  - rewrite E1. apply (inv_next s I).
  - done.
  - intros j k u v Hj Hk' Hgu Hgv. destruct (Hl j u Hj Hgu) as [-> _]. by destruct (Hl k v Hk' Hgv) as [-> _].
  - intros j u Hj Hc. destruct (Hl j u Hj ltac:(by destruct (pc u))) as [-> ->]. cbn in *. by destruct p.
  - intros j u Hj Hc. destruct (Hl j u Hj ltac:(by destruct (pc u))) as [-> ->]. cbn in *. by destruct p.
  - intros Hc. exists i. eexists. split; [exact Hat|]. cbn. destruct p; naive_solver congruence.
  - intros Hc. exists i. eexists. split; [exact Hat|]. cbn. destruct p; naive_solver congruence.
  - intros n Hn. destruct (inv_admitted s I n Hn) as (H1 & H2 & _). pose proof (all_gone s I H1 H2 i t Hi) as Hx. by rewrite Hx in Hg.
  - done.
  - intros h Hh. destruct (proj1 (Hkept h) Hh) as [?|(kept & -> & ?)]; [by left|right]. exists i. eauto 10.
  - intros h [Hh|(j & u & kept & Hj & Hu & Hh)]; apply Hkept; [by left|right].
    destruct (Hl j u Hj ltac:(by rewrite Hu)) as [-> ->]. cbn in Hu. eauto.
  - rewrite E2. apply (inv_hooks s I).
  - rewrite E3. apply (inv_hook_off s I).
  - apply (inv_cleared s I).
Qed.

(** A device's state changes; no thread moves. *)
Lemma Inv_device s h x f :
  Inv s -> h <> 0 ->
  calling_ f = calling_ (flight s) -> releasing_ f = releasing_ (flight s) -> callingId_ f = callingId_ (flight s) ->
  callingDeviceHandle_ f = callingDeviceHandle_ (flight s) -> nextId_ f = nextId_ (flight s) -> notifying_ f = notifying_ (flight s) ->
  onFinished_ f = onFinished_ (flight s) ->
  (keptDevices_ f <> [] -> calling_ f = true) -> devices s !! h <> Some Kept ->
  (forall k, k ∈ keptDevices_ f <-> k ∈ keptDevices_ (flight s) \/ (k = h /\ x = Kept)) ->
  (x = Freed -> calling_ (flight s) = true -> callingDeviceHandle_ (flight s) <> h) ->
  Inv (mkService f (threads s) (<[h := x]> (devices s)) (admitted s) (hooks s) (cleared s)).
Proof.
  intros I Hh E1 E2 E3 E4 E5 E6 E7 Hk Hnk HK HF. pose proof I as []. constructor; cbn; rewrite ?E1, ?E2, ?E3, ?E4, ?E5, ?E6, ?E7; try done.
  - by rewrite lookup_insert_ne by done.
  - intros i t Hi Hc. destruct (inv_call s I i t Hi Hc) as (H1 & H2 & H3 & H4 & H5 & H6). split_and!; try done.
    destruct (decide (h = t_handle t)) as [->|Hne]; [|by rewrite lookup_insert_ne by done]. rewrite lookup_insert_eq.
    destruct x; auto. by destruct (HF eq_refl H1).
  - by rewrite <- E1.
  - intros k Hkk. destruct (decide (h = k)) as [->|Hne].
    + rewrite lookup_insert_eq in Hkk. left. apply HK. right. split; [done|congruence].
    + rewrite lookup_insert_ne in Hkk by done. destruct (inv_kept0 k Hkk) as [?|?]; [left; apply HK|]; auto.
  - intros k Hkk. destruct (decide (h = k)) as [->|Hne].
    + rewrite lookup_insert_eq. destruct Hkk as [[?|[_ ->]]%HK|?]; [|done|]; destruct Hnk; auto.
    + rewrite lookup_insert_ne by done. apply inv_kept_dev0. destruct Hkk as [[?|[-> _]]%HK|?]; [auto|by destruct Hne|auto].
Qed.

Lemma Inv_flight_run s n h : Inv s -> admitted s = Some n -> devices s !! h = Some Live ->
  Inv (mkService (Run n h (flight s)) (threads s ++ [mkThread n h InCall]) (devices s) None (hooks s) (cleared s)).
Proof.
  intros I Ha Hh. destruct (inv_admitted s I n Ha) as (Hc & Hr & Hn). pose proof (all_gone s I Hc Hr) as Hgone. pose proof I as [].
  assert (keptDevices_ (flight s) = []) as Hk by (destruct (keptDevices_ (flight s)); [done|by specialize (inv_kept_call0 ltac:(done)); congruence]).
  assert (h <> 0) as H0 by (by intros ->; congruence).
  assert (forall i t, (threads s ++ [mkThread n h InCall]) !! i = Some t -> gone (pc t) = false -> i = length (threads s) /\ t = mkThread n h InCall) as Hl.
  { intros i t [Hi|[Hi Ht]]%lookup_app_Some Hg; [by rewrite (Hgone i t Hi) in Hg|]. apply list_lookup_singleton_Some in Ht as [? <-]. split; [lia|done]. }
  assert ((threads s ++ [mkThread n h InCall]) !! length (threads s) = Some (mkThread n h InCall)) as Hat.
  { by apply list_lookup_middle. }
  constructor; cbn; try done.
  - intros i j t u Hi Hj Hg Hg'. destruct (Hl i t Hi Hg) as [-> _]. by destruct (Hl j u Hj Hg') as [-> _].
  - intros i t Hi Hg. destruct (Hl i t Hi ltac:(by destruct (pc t))) as [_ ->]. cbn. split_and!; auto.
  - intros i t Hi Hg. destruct (Hl i t Hi ltac:(by destruct (pc t))) as [_ ->]. done.
  - intros _. exists (length (threads s)). eauto.
  - congruence.
  - intros k Hkk. destruct (inv_kept0 k Hkk) as [?|(i & t & kept & Hi & Hp & ?)]; [by left|]. by rewrite (Hgone i t Hi) in Hp.
  - intros k [?|(i & t & kept & Hi & Hp & Hin)]; [apply inv_kept_dev0; auto|]. destruct (Hl i t Hi ltac:(by rewrite Hp)) as [_ ->]. done.
Qed.

Lemma freed_lookup kept (m : gmap Z Device) h :
  foldr (fun h m => <[h := Freed]> m) m kept !! h = if bool_decide (h ∈ kept) then Some Freed else m !! h.
Proof.
  induction kept as [|k kept IH]; [done|]. cbn [foldr]. destruct (decide (k = h)) as [->|Hne].
  - rewrite lookup_insert_eq. by rewrite bool_decide_eq_true_2 by set_solver.
  - rewrite lookup_insert_ne, IH by done. by rewrite (bool_decide_ext (h ∈ kept) (h ∈ k :: kept)) by set_solver.
Qed.

Lemma delete_found (n : Z) (hs : list Z) k : list_find (eq n) hs = Some k -> Z.of_nat (length (delete k.1 hs)) = Z.of_nat (length hs) - 1.
Proof.
  destruct k as [k x]. intros (Hk & _)%list_find_Some. cbn [fst]. apply lookup_lt_Some in Hk as Hl. rewrite length_delete by (by eexists). lia.
Qed.

(** While a thread is not letting devices go, what is kept is what the flight keeps. *)
Lemma kept_not_held s : Inv s -> forall i t, threads s !! i = Some t -> gone (pc t) = false ->
  forall p, (forall kept, pc t <> Holds kept) -> (forall kept, p = Holds kept -> kept = []) -> forall h,
  devices s !! h = Some Kept <-> h ∈ keptDevices_ (flight s) \/ exists kept, p = Holds kept /\ h ∈ kept.
Proof.
  intros I i t Hi Hg p Hp Hp' h. split.
  - intros Hh. destruct (inv_kept s I h Hh) as [?|(j & u & kept & Hj & Hu & ?)]; [by left|].
    assert (i = j) as <- by (eapply (inv_one s I); [exact Hi|exact Hj|done|by rewrite Hu]). simplify_eq. by destruct (Hp kept).
  - intros [?|(kept & -> & Hin)]; [apply (inv_kept_dev s I); auto|]. rewrite (Hp' kept eq_refl) in Hin. set_solver.
Qed.

Lemma Inv_flight_step s e s' : Inv s -> step s e = Some s' -> Inv s'.
Proof.
  intros I. destruct e as [h|c now| |h|n st|n|i|i|i|i|i|i|h|h|now| |]; cbn [step]; intros Hs.
  - destruct (_ || _) eqn:E; [done|]. injection Hs as <-. bool_hyps. apply Inv_device; try done; try apply I.
    + intros Hx. rewrite Hx in *. naive_solver.
    + naive_solver.
  - destruct (admitted s) eqn:Ea; [done|]. pose proof (Begin_call c now (flight s)) as (H1 & H2 & H3 & H4 & H5 & H6 & H7 & H8 & H9).
    destruct (Begin c now (flight s)) as [f n]. cbn [fst snd] in *. injection Hs as <-. apply Inv_flight; try done; try lia.
    + rewrite H6. apply (inv_hooks s I).
    + rewrite H7. apply (inv_hook_off s I).
    + apply (inv_cleared s I).
    + intros k. destruct (Z.eqb_spec n 0); [done|]. intros [= <-]. destruct H9 as [? ?]; [done|]. split_and!; congruence.
  - destruct (admitted s) as [n|] eqn:Ea; [|done]. injection Hs as <-. pose proof (Inv_flight_finishes s n Failed I) as If.
    apply Inv_flight; try done; apply If.
  - destruct (admitted s) as [n|] eqn:Ea; [|done]. destruct (devices s !! h) as [[]|] eqn:Eh; try done. injection Hs as <-. by apply Inv_flight_run.
  - injection Hs as <-. by apply Inv_flight_finishes.
  - case_bool_decide as Hin; [|done]. cbn [negb] in Hs. injection Hs as <-.
    apply Inv_flight; try done; try lia; try apply I.
    + cbn. rewrite (inv_hooks s I). destruct (list_find (eq n) (hooks s)) as [[k x]|] eqn:Ef.
      * pose proof (delete_found n (hooks s) (k, x) Ef). cbn [fst] in *. lia.
      * exfalso. apply list_find_None in Ef. rewrite Forall_forall in Ef. by apply (Ef n Hin).
    + intros Hc. rewrite (inv_cleared s I Hc). done.
  - destruct (threads s !! i) as [t|] eqn:Ei; [|done]. cbn in Hs. destruct (pc t) eqn:Ep; try done. injection Hs as <-.
    apply Inv_thread with t; try done; [by rewrite Ep|apply I|apply (inv_call s I i t Ei); by rewrite Ep|apply I|].
    apply (kept_not_held s I i t Ei); [by rewrite Ep|intros kept; by rewrite Ep|by intros kept].
  - destruct (threads s !! i) as [t|] eqn:Ei; [|done]. cbn in Hs. destruct (pc t) eqn:Ep; try done. injection Hs as <-.
    apply Inv_thread with t; try done; [by rewrite Ep|apply I|apply (inv_call s I i t Ei); by rewrite Ep|apply I|].
    apply (kept_not_held s I i t Ei); [by rewrite Ep|intros kept; by rewrite Ep|by intros kept].
  - destruct (threads s !! i) as [t|] eqn:Ei; [|done]. cbn in Hs. destruct (pc t) eqn:Ep; try done. injection Hs as <-.
    pose proof (Inv_flight_finishes s (t_id t) Failed I) as If. assert (threads (finishes (t_id t) Failed s) = threads s) as Et.
    { unfold finishes. by destruct (Finish _ _ _). }
    set (v := finishes (t_id t) Failed s) in *. clearbody v. unfold on_thread.
    apply Inv_thread with t; try done; [congruence|by rewrite Ep|apply If|apply (inv_call v If i t); [congruence|by rewrite Ep]|apply If|].
    apply (kept_not_held v If i t); [by rewrite Et|by rewrite Ep|intros kept; by rewrite Ep|done].
  - destruct (threads s !! i) as [t|] eqn:Ei; [|done]. cbn in Hs. destruct (pc t) eqn:Ep; try done.
    destruct (inv_call s I i t Ei ltac:(by rewrite Ep)) as (H1 & H2 & H3 & H4 & H5 & H6). unfold Returned in Hs. rewrite H3, Z.eqb_refl in Hs.
    cbn [negb] in Hs. injection Hs as <-. unfold on_thread. apply Inv_thread with t; try done; [by rewrite Ep|apply I|].
    intros h. cbn. rewrite (kept_not_held s I i t Ei ltac:(by rewrite Ep) (Holds []) ltac:(intros kept; by rewrite Ep) ltac:(by intros ? [= <-])).
    split; [intros [?|(kept & [= <-] & Hx)]; [right; eauto|by apply elem_of_nil in Hx]|].
    intros [Hx|(kept & [= <-] & Hx)]; [by apply elem_of_nil in Hx|by left].
  - destruct (threads s !! i) as [t|] eqn:Ei; [|done]. cbn in Hs. destruct (pc t) as [| | |kept| |] eqn:Ep; try done. injection Hs as <-.
    destruct (inv_go s I i t Ei ltac:(by rewrite Ep)) as (H1 & H2 & H3).
    apply Inv_thread with t; try done; [by rewrite Ep| |apply I|].
    + rewrite freed_lookup. case_bool_decide as Hin; [|apply I]. exfalso.
      assert (devices s !! 0 = Some Kept) as Hx by (apply (inv_kept_dev s I); right; eauto 10). by rewrite (inv_zero s I) in Hx.
    + intros h. rewrite freed_lookup. case_bool_decide as Hin.
      * split; [done|]. intros [Hh|(? & ? & _)]; [|done]. rewrite (inv_kept_call s I) in H1; [done|]. intros Hx. rewrite Hx in Hh. by apply elem_of_nil in Hh.
      * split; [|intros [?|(? & ? & _)]; [apply (inv_kept_dev s I); auto|done]]. intros Hh.
        destruct (inv_kept s I h Hh) as [?|(j & u & kept' & Hj & Hu & ?)]; [by left|].
        assert (i = j) as <- by (eapply (inv_one s I); [exact Ei|exact Hj|by rewrite Ep|by rewrite Hu]). rewrite Hj in Ei; injection Ei as ->; rewrite Hu in Ep; injection Ep as ->; by destruct Hin.
  - destruct (threads s !! i) as [t|] eqn:Ei; [|done]. cbn in Hs. destruct (pc t) eqn:Ep; try done. injection Hs as <-.
    destruct (inv_go s I i t Ei ltac:(by rewrite Ep)) as (H1 & H2 & H3). unfold Released. rewrite H3, Z.eqb_refl. cbn [negb].
    apply Inv_thread with t; try done; [by rewrite Ep|apply I|apply I|].
    apply (kept_not_held s I i t Ei); [by rewrite Ep|intros kept; by rewrite Ep|by intros kept].
  - destruct (devices s !! h) as [[]|] eqn:Eh; try done. injection Hs as <-.
    assert (h <> 0) as H0 by (by intros ->; rewrite (inv_zero s I) in Eh).
    apply Inv_device; try done; try apply I; [congruence|naive_solver].
  - destruct (devices s !! h) as [[]|] eqn:Eh; try done. assert (h <> 0) as H0 by (by intros ->; rewrite (inv_zero s I) in Eh).
    unfold KeepUntilReturned in Hs. destruct (_ || _ || _) eqn:E; injection Hs as <-.
    + apply Inv_device; try done; try apply I; [congruence|naive_solver|]. intros _ Hc He. rewrite Hc, He, Z.eqb_refl in E. cbn in E.
      by destruct (Z.eqb_spec h 0).
    + bool_hyps. apply Inv_device; cbn; try done; try apply I; [congruence|set_solver].
  - pose proof (Read_call now (flight s)) as (H1 & H2 & H3 & H4 & H5 & H6 & H7 & H8).
    apply (inj Some) in Hs; subst s'. unfold on_flight. destruct (Read now (flight s)) as [f r]. cbn [fst] in *. apply Inv_flight; try done; try lia; rewrite ?H1, ?H2, ?H6, ?H7; apply I.
  - destruct (cleared s) eqn:Ec; try done. injection Hs as <-. pose proof I as []. constructor; cbn; try done.
  - destruct (cleared s) eqn:Ec; try done. destruct (no_hook_runs (flight s)) eqn:En; [|done]. injection Hs as <-. pose proof I as [].
    unfold no_hook_runs in En. bool_hyps. constructor; cbn; try done; [intros _; apply inv_hook_off0; congruence|].
    intros _. destruct (hooks s); [done|]. cbn in *. lia.
Qed.

Lemma flight_steps_app s a b : steps s (a ++ b) = (v ← steps s a; steps v b).
Proof.
  unfold steps. rewrite foldl_app. destruct (foldl _ (Some s) a) as [v|]; [done|]. cbn. by induction b.
Qed.

Lemma Inv_trace tr s s' : Inv s -> steps s tr = Some s' -> Inv s'.
Proof.
  intros I. revert s'. induction tr as [|e tr IH] using rev_ind; intros s' Hs; [by injection Hs as <-|].
  rewrite flight_steps_app in Hs. apply bind_Some in Hs as (v & Hv & Hs). eapply Inv_flight_step; [by apply IH|exact Hs].
Qed.

Lemma Inv_reached firstId tr s : 0 < firstId -> steps (start_service firstId) tr = Some s -> Inv s.
Proof. intros Hf. by apply Inv_trace, Inv_flight_start. Qed.

(** * What holds of every life *)

(** C32: a device outlives the sdk's call on it. Whatever teardowns run beside an upload, the
    device its call is on has not been released; and there is one such call at a time. *)
Theorem device_outlives_the_call firstId tr s i t :
  0 < firstId -> steps (start_service firstId) tr = Some s -> threads s !! i = Some t -> in_call (pc t) = true ->
  (exists d, devices s !! t_handle t = Some d /\ d <> Freed) /\
  forall j u, threads s !! j = Some u -> pc u <> Gone -> j = i.
Proof.
  intros Hf Hs Hi Hc. pose proof (Inv_reached _ _ _ Hf Hs) as I. split.
  - destruct (inv_call s I i t Hi Hc) as (_ & _ & _ & _ & _ & [H|[H|H]]); eauto.
  - intros j u Hj Hu. apply (inv_one s I j i u t); [done|done|by destruct (pc u)|by destruct (pc t)].
Qed.

(** What the flight keeps it lets go. Once the sdk's call has returned, the upload's thread
    takes three steps of its own, after which every device that was kept for it is released
    and none is kept, and the next upload is not held up by this one's thread. *)
Theorem kept_devices_are_released firstId tr s i t :
  0 < firstId -> steps (start_service firstId) tr = Some s -> threads s !! i = Some t -> pc t = Out ->
  exists s', steps s [TakesKept i; FreesKept i; Leaves i] = Some s' /\ returned (flight s') = true /\
    forall h, devices s' !! h <> Some Kept /\ (devices s !! h = Some Kept -> devices s' !! h = Some Freed).
Proof.
  intros Hf Hs Hi Hp. pose proof (Inv_reached _ _ _ Hf Hs) as I.
  destruct (inv_call s I i t Hi ltac:(by rewrite Hp)) as (H1 & H2 & H3 & _).
  assert (forall p l, set_thread i p l !! i = (fun t => mkThread (t_id t) (t_handle t) p) <$> l !! i) as Hl
    by (intros; apply list_lookup_alter_eq).
  unfold steps. cbn [foldl mbind option_bind step]. rewrite Hi. cbn [mbind option_bind]. rewrite Hp. unfold Returned. rewrite H3, Z.eqb_refl.
  cbn [negb mbind option_bind on_thread threads]. rewrite Hl, Hi. cbn [fmap option_fmap option_map mbind option_bind pc].
  cbn [threads flight devices on_thread]. rewrite !Hl, Hi. cbn [fmap option_fmap option_map mbind option_bind pc t_id t_handle on_thread flight devices].
  eexists. split; [reflexivity|]. unfold Released. cbn. rewrite Z.eqb_refl. cbn. split; [done|].
  intros h. rewrite freed_lookup. case_bool_decide as Hin; [by split; [|done]|].
  pose proof (kept_not_held s I i t Hi ltac:(by rewrite Hp) LetGo ltac:(by rewrite Hp) ltac:(done) h) as Hk.
  assert (devices s !! h <> Some Kept) as Hn by (intros [?|(? & ? & _)]%Hk; done). by split.
Qed.

(** C31: one upload runs at a time, and a silent one does not stand in the way. An upload is
    admitted exactly when no thread is in the sdk's call or letting its devices go, and the
    last upload has ended or has said nothing for thirty minutes. *)
Theorem upload_is_admitted_iff c now f :
  0 < nextId_ f ->
  (Begin c now f).2 <> 0 <->
  returned f = true /\ (state (reading_ f) = Running -> kSilentUploadMaxMillis <= now - sinceMillis_ f).
Proof.
  intros Hn. unfold Begin, BusyWithLock, ExpireSilentWithLock, returned.
  destruct (calling_ f) eqn:E1, (releasing_ f) eqn:E2; cbn [negb andb orb];
    destruct (bool_decide_reflect (state (reading_ f) = Running)); cbn [andb]; try destruct (Z.leb_spec kSilentUploadMaxMillis (now - sinceMillis_ f));
    cbn -[kSilentUploadMaxMillis]; rewrite ?E1, ?E2; cbn -[kSilentUploadMaxMillis]; try (rewrite bool_decide_eq_true_2 by done); try (rewrite bool_decide_eq_false_2 by done);
    cbn -[kSilentUploadMaxMillis]; split; intros; split_and?; try done; try lia.
  all: try (destruct H; done). all: destruct H0; lia || naive_solver lia.
Qed.

Lemma cleared_finishes n st s : cleared (finishes n st s) = cleared s.
Proof. unfold finishes. by destruct (Finish _ _ _). Qed.

Lemma step_cleared s e s' : step s e = Some s' -> cleared s = Cleared -> cleared s' = Cleared.
Proof.
  intros Hs Hc. destruct e; cbn [step] in Hs;
    repeat first [progress (apply bind_Some in Hs as (? & ? & Hs)) | progress case_match]; simplify_eq; cbn; rewrite ?cleared_finishes; done.
Qed.

(** The hook ends with the service. Once [ClearOnFinished] has returned, no finish hook is
    running and none is ever called, whatever the upload's thread and the sdk still do. *)
Theorem no_hook_after_clear firstId tr s tr' s' :
  0 < firstId -> steps (start_service firstId) tr = Some s -> cleared s = Cleared -> steps s tr' = Some s' -> hooks s' = [].
Proof.
  intros Hf Hs Hc Hs'. pose proof (Inv_reached _ _ _ Hf Hs) as I. pose proof (Inv_trace _ _ _ I Hs') as I'. apply (inv_cleared s' I').
  clear I I' Hs. revert s' Hs'. induction tr' as [|e tr' IH] using rev_ind; intros s' Hs'; [by injection Hs' as <-|].
  rewrite flight_steps_app in Hs'. apply bind_Some in Hs' as (v & Hv & He). eapply step_cleared; [exact He|by apply IH].
Qed.

(** * The outcome *)

(** What can end the upload [n] with this state, in this service. *)
Definition ends_with (s : Service) (e : ServiceEvent) (n : Z) (st : FlightState) : Prop :=
  match e with
  | Reports m st' => m = n /\ st' = st
  | Refuses => admitted s = Some n /\ st = Failed
  | FailsIt i => (t_id <$> threads s !! i) = Some n /\ st = Failed
  | Reads now | Admits _ now => st = Failed /\ kSilentUploadMaxMillis <= now - sinceMillis_ (flight s)
  | _ => False
  end.

Definition reading (s : Service) : UploadReading := reading_ (flight s).

(** The upload [n] is still to come, is running, or is the last one, ended. *)
Lemma Finish_reading n st f :
  reading_ (Finish n st f).1 = reading_ f \/
  (id (reading_ f) = n /\ IsFinished (state (reading_ f)) = false /\ IsFinished st = true /\
   reading_ (Finish n st f).1 = mkReading n st (carrier (reading_ f))).
Proof.
  unfold Finish. destruct (_ || _) eqn:E; [by left|]. bool_hyps. right. split_and!; [done|done|done|].
  assert (id (reading_ f) = n) as <- by lia. cbn. by destruct (onFinished_ f).
Qed.

Lemma finishes_reading n st s :
  reading (finishes n st s) = reading s \/
  (id (reading s) = n /\ IsFinished (state (reading s)) = false /\ IsFinished st = true /\
   reading (finishes n st s) = mkReading n st (carrier (reading s))).
Proof.
  unfold finishes, reading. pose proof (Finish_reading n st (flight s)) as H. by destruct (Finish n st (flight s)).
Qed.

Lemma expire_reading now f :
  reading_ (ExpireSilentWithLock now f) = reading_ f \/
  (state (reading_ f) = Running /\ kSilentUploadMaxMillis <= now - sinceMillis_ f /\
   reading_ (ExpireSilentWithLock now f) = mkReading (id (reading_ f)) Failed (carrier (reading_ f))).
Proof.
  unfold ExpireSilentWithLock. destruct (_ && _) eqn:E; [|by left]. bool_hyps. right. split_and!; [done|lia|done].
Qed.

(** What a step does to the reading: nothing, the end of the upload it names, or another
    upload with the next number. *)
Lemma step_reading s e s' :
  step s e = Some s' ->
  (nextId_ (flight s') = nextId_ (flight s) /\
   (reading s' = reading s \/
    (IsFinished (state (reading s)) = false /\ IsFinished (state (reading s')) = true /\ id (reading s') = id (reading s) /\
     ends_with s e (id (reading s)) (state (reading s'))))) \/
  (nextId_ (flight s') = nextId_ (flight s) + 1 /\ id (reading s') = nextId_ (flight s) /\ state (reading s') = Running).
Proof.
  assert (forall n st v, nextId_ (flight (finishes n st v)) = nextId_ (flight v)) as Hnx.
  { intros n st v. unfold finishes. pose proof (Finish_call n st (flight v)) as Hf. destruct (Finish n st (flight v)). apply Hf. }
  assert (forall n st v e', ends_with v e' n st ->
    reading (finishes n st v) = reading v \/
    (IsFinished (state (reading v)) = false /\ IsFinished (state (reading (finishes n st v))) = true /\
     id (reading (finishes n st v)) = id (reading v) /\ ends_with v e' (id (reading v)) (state (reading (finishes n st v))))) as Hfin.
  { intros n st v e' He. destruct (finishes_reading n st v) as [?|(H1 & H2 & H3 & H4)]; [by left|right]. rewrite H4, H1. done. }
  destruct e as [h|c now| |h|n st|n|i|i|i|i|i|i|h|h|now| |]; cbn [step]; intros Hs.
  all: try (left; repeat first [progress (apply bind_Some in Hs as (? & ? & Hs)) | progress case_match]; simplify_eq; by split; [|left]).
  - destruct (admitted s) eqn:Ea; [done|]. unfold Begin in Hs. pose proof (expire_reading now (flight s)) as Hx.
    assert (nextId_ (ExpireSilentWithLock now (flight s)) = nextId_ (flight s)) as Hn by (unfold ExpireSilentWithLock; by destruct (_ && _)).
    destruct (BusyWithLock (ExpireSilentWithLock now (flight s))); injection Hs as <-; cbn -[kSilentUploadMaxMillis]; rewrite Hn; [left|by right].
    split; [done|]. unfold reading. cbn. destruct Hx as [?|(H1 & H2 & H3)]; [by left|right]. rewrite H3, H1. done.
  - destruct (admitted s) as [n|] eqn:Ea; [|done]. injection Hs as <-. left. split; [apply Hnx|]. by apply (Hfin n Failed s Refuses).
  - injection Hs as <-. left. split; [apply Hnx|]. by apply (Hfin n st s (Reports n st)).
  - destruct (threads s !! i) as [t|] eqn:Ei; [|done]. cbn in Hs. destruct (pc t) eqn:Ep; try done. injection Hs as <-. left.
    split; [apply Hnx|]. apply (Hfin (t_id t) Failed s (FailsIt i)). cbn. by rewrite Ei.
  - destruct (threads s !! i) as [t|] eqn:Ei; [|done]. cbn in Hs. destruct (pc t) eqn:Ep; try done. left. unfold Returned in Hs.
    destruct (negb _); injection Hs as <-; by split; [|left].
  - destruct (threads s !! i) as [t|] eqn:Ei; [|done]. cbn in Hs. destruct (pc t) eqn:Ep; try done. left. injection Hs as <-.
    unfold Released, on_thread, reading. cbn [flight]. destruct (negb _); by split; [|left].
  - destruct (devices s !! h) as [[]|] eqn:Eh; try done. left. unfold KeepUntilReturned in Hs.
    destruct (_ || _ || _); injection Hs as <-; by split; [|left].
  - left. apply (inj Some) in Hs. subst s'. split; [apply Read_call|]. unfold reading, on_flight, Read. cbn.
    destruct (expire_reading now (flight s)) as [?|(H1 & H2 & H3)]; [by left|right]. rewrite H3, H1. done.
Qed.

Lemma CompletionFor_spec n m st' st : CompletionFor n m st' = Some st <-> n <> 0 /\ m = n /\ IsFinished st = true /\ st' = st.
Proof.
  unfold CompletionFor. destruct (Z.eqb_spec n 0), (Z.eqb_spec m n), (IsFinished st') eqn:E; cbn; (split; [intros H; try discriminate H; injection H as <-; auto|intros (H1 & H2 & H3 & H4); subst; congruence]).
Qed.

(** The numbers of uploads grow, and only the first reading has none. *)
Lemma reading_ids firstId tr s :
  0 < firstId -> steps (start_service firstId) tr = Some s ->
  id (reading s) < nextId_ (flight s) /\ (IsFinished (state (reading s)) = false -> id (reading s) <> 0 -> state (reading s) = Running).
Proof.
  intros Hf. revert s. induction tr as [|e tr IH] using rev_ind; intros s Hs; [by injection Hs as <-|].
  rewrite flight_steps_app in Hs. apply bind_Some in Hs as (v & Hv & Hs). cbn in Hs. destruct (IH v Hv) as [H1 H2].
  destruct (step_reading v e s Hs) as [[Hn [Hr|(_ & Hb & Hi & _)]]|(Hn & Hi & Hr)].
  - rewrite Hr, Hn. done.
  - rewrite Hi, Hn. split; [done|congruence].
  - rewrite Hn, Hi, Hr. split; [lia|done].
Qed.

(** The app is told its own upload's outcome. Where the status makes the app take [st] for
    the outcome of the upload it waits for, that upload was running and was ended so: by the
    sdk's report, by the service's own refusal or failed call, or by thirty silent minutes;
    and no later status says anything else of it. *)
Theorem told_outcome_is_its_own firstId tr s n st :
  0 < firstId -> steps (start_service firstId) tr = Some s ->
  CompletionFor n (id (reading s)) (state (reading s)) = Some st ->
  (exists a e b v, tr = a ++ e :: b /\ steps (start_service firstId) a = Some v /\ id (reading v) = n /\ state (reading v) = Running /\
                   ends_with v e n st) /\
  forall tr' s', steps s tr' = Some s' -> id (reading s') = n -> state (reading s') = st.
Proof.
  intros Hf Hs (Hn & Hi & Hst & He)%CompletionFor_spec. split.
  - revert s Hs Hi He. induction tr as [|e tr IH] using rev_ind; intros s Hs Hi He; [by injection Hs as <-|].
    rewrite flight_steps_app in Hs. apply bind_Some in Hs as (v & Hv & Hs). cbn in Hs. destruct (reading_ids firstId tr v Hf Hv) as [H1 H2].
    destruct (step_reading v e s Hs) as [[Hx [Hr|(Ha & Hb & Hi' & Hend)]]|(Hx & Hi' & Hr)].
    + destruct (IH v Hv ltac:(congruence) ltac:(congruence)) as (a & e' & b & w & -> & Hrest). exists a, e', (b ++ [e]), w.
      by rewrite <- app_assoc.
    + exists tr, e, [], v. rewrite Hi' in Hi. rewrite He, Hi in Hend. split_and!; try done. apply H2; [done|congruence].
    + rewrite Hr in He. subst st. done.
  - intros tr' s' Hs'. destruct (reading_ids firstId tr s Hf Hs) as [Hlt _].
    assert (id (reading s') = n /\ state (reading s') = st \/ n < id (reading s') /\ id (reading s') < nextId_ (flight s')) as Hor.
    { revert s' Hs'. induction tr' as [|e tr' IH] using rev_ind; intros s' Hs'; [injection Hs' as <-; by left|].
      rewrite flight_steps_app in Hs'. apply bind_Some in Hs' as (v & Hv & Hs'). cbn in Hs'. pose proof (IH v Hv) as IHv.
      assert (id (reading v) < nextId_ (flight v)) as Hv'.
      { apply (reading_ids firstId (tr ++ tr')); [done|]. by rewrite flight_steps_app, Hs. }
      destruct (step_reading v e s' Hs') as [[Hx [Hr|(Ha & Hb & Hi' & Hend)]]|(Hx & Hi' & Hr)].
      - rewrite Hr, Hx. done.
      - rewrite Hi', Hx. destruct IHv as [[-> Hv2]|?]; [left|by right]. rewrite Hv2 in Ha. congruence.
      - right. rewrite Hi', Hx. destruct IHv as [[? _]|?]; lia. }
    destruct Hor as [[_ ?]|?]; [done|lia].
Qed.

(** * Examples *)

Definition in_the_call : list ServiceEvent := [Builds 7; Admits Tunnel 1000; Runs 7; Takes 7; Closes 7].
Definition at_ (tr : list ServiceEvent) : Service := default (start_service 100) (steps (start_service 100) tr).

Example device_outlives_the_call_witness : exists d, devices (at_ in_the_call) !! 7 = Some d /\ d <> Freed.
Proof.
  refine (proj1 (device_outlives_the_call 100 in_the_call (at_ in_the_call) 0 (mkThread 100 7 InCall) _ _ _ _)); vm_compute; reflexivity.
Defined.

Example kept_devices_are_released_witness :
  exists s', steps (at_ (in_the_call ++ [CallReturns 0])) [TakesKept 0; FreesKept 0; Leaves 0] = Some s' /\ returned (flight s') = true /\
    forall h, devices s' !! h <> Some Kept /\ (devices (at_ (in_the_call ++ [CallReturns 0])) !! h = Some Kept -> devices s' !! h = Some Freed).
Proof.
  refine (kept_devices_are_released 100 (in_the_call ++ [CallReturns 0]) (at_ (in_the_call ++ [CallReturns 0])) 0 (mkThread 100 7 Out) _ _ _ _);
    vm_compute; reflexivity.
Defined.

Example upload_is_admitted_iff_witness :
  (Begin Provider 2000 (flight (at_ in_the_call))).2 <> 0 <->
  returned (flight (at_ in_the_call)) = true /\
  (state (reading_ (flight (at_ in_the_call))) = Running -> kSilentUploadMaxMillis <= 2000 - sinceMillis_ (flight (at_ in_the_call))).
Proof. apply (upload_is_admitted_iff Provider 2000 (flight (at_ in_the_call))). vm_compute. reflexivity. Defined.

Example no_hook_after_clear_witness : hooks (at_ (a_life ++ [Reads 0])) = [].
Proof. refine (no_hook_after_clear 100 a_life (at_ a_life) [Reads 0] _ _ _ _ _); vm_compute; reflexivity. Defined.

Example told_outcome_is_its_own_witness :
  exists a e b v, a_life = a ++ e :: b /\ steps (start_service 100) a = Some v /\ id (reading v) = 100 /\ state (reading v) = Running /\
                  ends_with v e 100 Uploaded.
Proof. refine (proj1 (told_outcome_is_its_own 100 a_life (at_ a_life) 100 Uploaded _ _ _)); vm_compute; reflexivity. Defined.
