(* ===== verification/SessionSlot.v ===== *)
(** The session requests of the app and their one worker (App/SdkHost.h and .cpp:
    RequestSession, CancelPendingRowConnect, SessionWorkerLoop, ReconcileProviderLocked, the
    slot's part of Logout), the hold of a tap (App/TapHold.h), and the endings of the app over
    them (Common/ExitDrain.h, Common/AppLifetime.h, SdkHost::Quit, SettleCommandsForExit,
    QuitInOrder, ExitSettled and the destructor's drain, AppController::Shutdown).  The threads
    interleave at every lock; what a pass decides is Gesture.v's, what a reconcile asks is
    Provide.v's. *)

From S2P Require Import Prelude.
From S2P Require Import CxxText.
From S2P Require Import Health.
From S2P Require Import Gesture.
From S2P Require Import Provide.

(** * The request *)

(** [ConnectKind], whose last value never reaches the decision table. *)
Inductive Kind := Work (k : ConnectKind) | Provider.
#[export] Instance Kind_eq_dec : EqDecision Kind.
Proof. solve_decision. Defined.

(** A location is its number. *)
Record SessionRequest := mkRequest {
  kind : Kind; location : option Z; notBefore : Z; coalesced : bool; gesture : Z }.
#[export] Instance SessionRequest_eq_dec : EqDecision SessionRequest.
Proof. solve_decision. Defined.

Definition no_request : SessionRequest := mkRequest (Work KindNone) None 0 false 0.

Definition IsGesture (k : Kind) : bool :=
  match k with Work KindNone | Provider => false | Work _ => true end.

(** [signoutfence::Admits] over [FenceWorkOf]. *)
Definition FenceAdmits (k : Kind) (signedIn : bool) : bool :=
  match k with Work k => Admits k signedIn | Provider => true end.

Inductive Queued := QueuedEnsure | QueuedConnect | QueuedDisconnect | QueuedProvider.
#[export] Instance Queued_eq_dec : EqDecision Queued.
Proof. solve_decision. Defined.

Definition QueuedOf (k : Kind) : Queued :=
  match k with
  | Work KindDisconnect => QueuedDisconnect
  | Work BestAvailable | Work Location | Work Selected => QueuedConnect
  | Provider => QueuedProvider
  | Work KindNone => QueuedEnsure
  end.

Definition KeepsQueued (queued : Queued) : bool := bool_decide (queued = QueuedDisconnect).

Definition kRowClickSettle : Z := 1200.
Definition kCommandsCap : Z := 5000.
Definition kQuitCap : Z := 10000.

(** What the callers ask for: [ConnectBestAvailable], [ConnectSelected], [Connect],
    [Disconnect] and [EnsureSession]; a row click; [RequestProviderReconcile]. *)
Definition press (k : ConnectKind) (loc : option Z) : SessionRequest := mkRequest (Work k) loc 0 false 0.
Definition row_click (loc : option Z) (now : Z) : SessionRequest :=
  mkRequest (Work (match loc with Some _ => Location | None => BestAvailable end)) loc (now + kRowClickSettle) true 0.
Definition reconcile : SessionRequest := mkRequest Provider None 0 false 0.

(** * The slot *)

Record Slot := mkSlot {
  pendingRequested_ : bool; pending_ : SessionRequest; quitting_ : bool; loggedIn_ : bool;
  sessionWorkerAlive_ : bool; gestureIssued_ : Z; gestureInFlight_ : Z }.

Definition with_pending (requested : bool) (r : SessionRequest) (s : Slot) : Slot :=
  mkSlot requested r (quitting_ s) (loggedIn_ s) (sessionWorkerAlive_ s) (gestureIssued_ s) (gestureInFlight_ s).
Definition with_alive (alive : bool) (s : Slot) : Slot :=
  mkSlot (pendingRequested_ s) (pending_ s) (quitting_ s) (loggedIn_ s) alive (gestureIssued_ s) (gestureInFlight_ s).
Definition with_in_flight (g : Z) (s : Slot) : Slot :=
  mkSlot (pendingRequested_ s) (pending_ s) (quitting_ s) (loggedIn_ s) (sessionWorkerAlive_ s) (gestureIssued_ s) g.
Definition with_logged_in (on : bool) (s : Slot) : Slot :=
  mkSlot (pendingRequested_ s) (pending_ s) (quitting_ s) on (sessionWorkerAlive_ s) (gestureIssued_ s) (gestureInFlight_ s).
Definition with_quitting (s : Slot) : Slot :=
  mkSlot (pendingRequested_ s) (pending_ s) true (loggedIn_ s) (sessionWorkerAlive_ s) (gestureIssued_ s) (gestureInFlight_ s).

Definition clear_slot : Slot -> Slot := with_pending false no_request.

Definition covered (s : Slot) (r : SessionRequest) : bool :=
  let p := kind (pending_ s) in
  pendingRequested_ s &&
  ((bool_decide (kind r = Work KindNone) && negb (bool_decide (p = Work KindNone)) && negb (bool_decide (p = Provider))) ||
   (bool_decide (kind r = Provider) && negb (bool_decide (p = Provider)))).

(** What the slot records of a request: the gesture's number with it. *)
Definition record_request (s : Slot) (r : SessionRequest) : Slot :=
  if IsGesture (kind r) then
    let g := gestureIssued_ s + 1 in
    mkSlot true (mkRequest (kind r) (location r) (notBefore r) (coalesced r) g) (quitting_ s) (loggedIn_ s)
      (sessionWorkerAlive_ s) g (gestureInFlight_ s)
  else with_pending true r s.

(** The slot after, and whether a worker is started. *)
Definition RequestSession (s : Slot) (r : SessionRequest) : Slot * bool :=
  if quitting_ s then (s, false) else
  if negb (FenceAdmits (kind r) (loggedIn_ s)) then (s, false) else
  let s := if covered s r then with_pending true (pending_ s) s else record_request s r in
  if sessionWorkerAlive_ s then (s, false) else (with_alive true s, true).

Definition CancelPendingRowConnect (s : Slot) : Slot :=
  if pendingRequested_ s && coalesced (pending_ s) then clear_slot s else s.

(** [SettleQueued] up to its wait. *)
Definition drop_queued (s : Slot) : Slot :=
  if pendingRequested_ s && negb (KeepsQueued (QueuedOf (kind (pending_ s)))) then clear_slot s else s.

(** * The hold of a tap *)

Inductive TapKind := TapConnect | TapDisconnect.
Record Hold := mkHold { hold_gesture : Z; hold_kind : TapKind }.

Definition SettledThrough (issued pending inFlight : Z) : Z :=
  let oldest := if negb (pending =? 0) then pending else 0 in
  let oldest := if negb (inFlight =? 0) && ((oldest =? 0) || (inFlight <? oldest)) then inFlight else oldest in
  if oldest =? 0 then issued else oldest - 1.

Definition Releases (hold : Hold) (settled : Z) : bool := hold_gesture hold <=? settled.

Definition AfterSnapshot (hold : option Hold) (settled : Z) : option Hold :=
  match hold with Some h => if Releases h settled then None else hold | None => None end.

Definition AfterTap (hold : option Hold) (tap : Hold) : option Hold :=
  match hold with Some h => if hold_gesture tap <? hold_gesture h then hold else Some tap | None => Some tap end.

Definition Shown {Status} (startWaiting : bool) (hold : option Hold) (reported connecting disconnected : Status) : Status :=
  if startWaiting then connecting else
  match hold with
  | Some h => match hold_kind h with TapConnect => connecting | TapDisconnect => disconnected end
  | None => reported
  end.

(** What [ReadStats] takes of it. *)
Definition gesture_settled (s : Slot) : Z :=
  SettledThrough (gestureIssued_ s) (if pendingRequested_ s then gesture (pending_ s) else 0) (gestureInFlight_ s).

(** * The reconcile *)

(** What it reads: whether there is a local state, the stored credentials and mode unless the
    read throws, what the service last said of its provider, whether the channel is up, the
    service's answer, whether a sign-out is owed, and whether the request can be built. *)
Record ReconcileReads := mkReads {
  localState : bool; stored : option (bool * text); providerKnown : bool; providerRunning : bool;
  connectedNow : bool; providerFacts : ServiceProviderFacts; signOutOwed : bool; requestBuilt : bool }.

Inductive ProviderCall := CallStopProvider | CallStartProvider.

Definition ReconcileProviderLocked (device quitting signedIn : bool) (i : ReconcileReads) : option ProviderCall :=
  if device || negb (localState i) then None else
  if quitting then None else
  match stored i with
  | None => None
  | Some (credentials, storedMode) =>
      let mode := if signedIn && credentials then storedMode else txt "never" in
      if negb (ProviderRuns (ControlModeFrom mode) false) && providerKnown i && negb (providerRunning i) then None else
      if negb (connectedNow i) then None else
      if negb (pf_answered (providerFacts i)) then None else
      match DisconnectedProviderStep mode (providerFacts i) with
      | DisconnectedNone => None
      | DisconnectedStop => Some CallStopProvider
      | DisconnectedStart => if signOutOwed i then None else if requestBuilt i then Some CallStartProvider else None
      end
  end.

(** * The endings *)

Inductive Ending := EndQuit | SessionEnd | CloseRequest.

(** [PlanFor]. *)
Definition stopService (ending : Ending) : bool := match ending with CloseRequest => false | _ => true end.

Inductive StopRoute := RouteLocked | RouteUnlocked.
Definition StopRouteFor (commandsSettled : bool) : StopRoute := if commandsSettled then RouteLocked else RouteUnlocked.

Definition HostDestroyableAtExit (commandsSettled quitFinished : bool) : bool := commandsSettled && quitFinished.

(** The ending's steps: none, the slot is closed (by a quit), waiting for the worker, the wait
    over and whether it settled; then of a quit the joins, [mutex_] held before and after the
    stop, and the end of its thread. *)
Inductive EndPc :=
| NoEnding | Closing | Waiting | Waited (settled : bool)
| Joining (settled : bool) | QuitLocked (settled : bool) | QuitStopped (settled : bool) | QuitOver (settled : bool).

(** [AppController::Shutdown] after it: the host is to be destroyed or left to the process
    exit, and the destructor past its drain and past its end. *)
Inductive ExitPc := NotExiting | Destroying | LeftToProcess | Drained | Destroyed.

#[export] Instance EndPc_eq_dec : EqDecision EndPc. Proof. solve_decision. Defined.
#[export] Instance ExitPc_eq_dec : EqDecision ExitPc. Proof. solve_decision. Defined.

(** * The host *)

(** A session worker: at the top of its loop, with a request taken, in [mutex_] before the
    decision, in it with the calls still to make, out of it, past the clear of
    [gestureInFlight_], gone. *)
Inductive WorkerPc :=
| AtTop | Took (r : SessionRequest) | Locked (r : SessionRequest) | Calls (r : SessionRequest) (calls : list PassCall)
| Passed (r : SessionRequest) | Publishes | Exited.
#[export] Instance WorkerPc_eq_dec : EqDecision WorkerPc.
Proof. solve_decision. Defined.

Inductive Holder := ByWorker (i : nat) | ByQuit | ByOther.
#[export] Instance Holder_eq_dec : EqDecision Holder.
Proof. solve_decision. Defined.

(** What is done, in order: a request taken, a call of its pass, its provider reconcile's, its
    lock let go, and the stops of a quit without and with the lock. *)
Inductive Act :=
| ATook (r : SessionRequest) | ACall (r : SessionRequest) (c : PassCall) | AProvider (r : SessionRequest) (c : ProviderCall)
| AFinished (r : SessionRequest) | AStopUnlocked | AStopLocked.

Record Host := mkHost {
  now : Z; slot : Slot; workers : list WorkerPc; owner : option Holder; session : Session;
  ending : option Ending; end_start : Z; end_pc : EndPc; exit_pc : ExitPc; log : list Act }.

Definition start_host (signedIn : bool) : Host :=
  mkHost 0 (mkSlot false no_request false signedIn false 0 0) [] None new_session None 0 NoEnding NotExiting [].

Definition with_slot (s : Slot) (h : Host) : Host :=
  mkHost (now h) s (workers h) (owner h) (session h) (ending h) (end_start h) (end_pc h) (exit_pc h) (log h).
(** The worker [i] moves to [p], with the slot, the lock and the session it leaves and what it
    does. *)
Definition with_worker (i : nat) (p : WorkerPc) (s : Slot) (o : option Holder) (x : Session) (acts : list Act) (h : Host) : Host :=
  mkHost (now h) s (<[i := p]> (workers h)) o x (ending h) (end_start h) (end_pc h) (exit_pc h) (log h ++ acts).
Definition with_end (p : EndPc) (o : option Holder) (x : Session) (acts : list Act) (h : Host) : Host :=
  mkHost (now h) (slot h) (workers h) o x (ending h) (end_start h) p (exit_pc h) (log h ++ acts).
Definition with_exit (p : ExitPc) (s : Slot) (h : Host) : Host :=
  mkHost (now h) s (workers h) (owner h) (session h) (ending h) (end_start h) (end_pc h) p (log h).

Definition requests (r : SessionRequest) (h : Host) : Host :=
  let '(s, starts) := RequestSession (slot h) r in
  mkHost (now h) s (if starts : bool then workers h ++ [AtTop] else workers h) (owner h) (session h) (ending h) (end_start h)
    (end_pc h) (exit_pc h) (log h).

(** Whether a call of the plan is made: the bootstrap declines a signed-out app, and the fence
    admits no connect of one. *)
Definition reaches (r : SessionRequest) (loggedIn : bool) (c : PassCall) : bool :=
  match c with PBootstrap _ => loggedIn | PSdkConnect => FenceAdmits (kind r) loggedIn | _ => true end.

(** The decision of a pass, whose fence is asked as its connect comes. *)
Definition decides (x : Session) (k : ConnectKind) (i : Answers) : Session * list PassCall :=
  session_pass x k
    (mkAnswers (connected_first i) (dead_teardown_done i) (connected_read i) (status i) (answered i) (connected_then i)
       (a_killSwitch i) (a_wantsTunnel i) (a_health i) (teardown_done i) (bootstrap_ok i) (bootstrap_device i) true).

Definition reconciles (r : SessionRequest) (i : ReconcileReads) (h : Host) : list Act :=
  match ReconcileProviderLocked (device_ (session h)) (quitting_ (slot h)) (loggedIn_ (slot h)) i with
  | Some c => [AProvider r c]
  | None => []
  end.

Definition ExitSettled (tailRuns : bool) (h : Host) : bool :=
  let workerIdle := negb (sessionWorkerAlive_ (slot h)) && negb tailRuns in
  let quitFinished := match end_pc h with QuitOver _ => true | _ => negb (quitting_ (slot h)) end in
  HostDestroyableAtExit workerIdle quitFinished.

(** [Shutdown] asks it once its ending has returned: a close request with its wait, a quit with
    its thread or at its cap. *)
Definition ending_returned (h : Host) : bool :=
  match end_pc h with
  | NoEnding => false
  | QuitOver _ => true
  | Waited _ => negb (quitting_ (slot h)) || (end_start h + kQuitCap <=? now h)
  | _ => quitting_ (slot h) && (end_start h + kQuitCap <=? now h)
  end.

Inductive HostEvent :=
| Ticks (t : Z)
| Presses (k : ConnectKind) (loc : option Z) | RowClicks (loc : option Z) | Reconciles | CancelsRow
| ClearsForSignOut | SignsOut | SignsIn               (* Logout's two steps, and a sign-in *)
| OtherLocks | OtherUnlocks                           (* [mutex_], by a thread that is none of these *)
| WTakes (i : nat) | WLocks (i : nat) | WDecides (i : nat) (a : Answers) | WCalls (i : nat)
| WReconciles (i : nat) (a : ReconcileReads) | WSettles (i : nat) | WPublishes (i : nat)
| Ends (e : Ending) | EndDrops | EndWaits
| QuitStopsFirst (up : bool) | QuitLocks | QuitStops (torn : bool) | QuitEnds
| ExitAsks (tailRuns : bool) | DestructorDrains | DestructorEnds.

(** A worker's steps. *)
Definition worker_step (h : Host) (e : HostEvent) : option Host :=
  match e with
  | WTakes i =>
      match workers h !! i with
      | Some AtTop =>
          let s := slot h in
          if pendingRequested_ s then
            if now h <? notBefore (pending_ s) then None else
            let r := pending_ s in
            Some (with_worker i (Took r) (with_in_flight (gesture r) (clear_slot s)) (owner h) (session h) [ATook r] h)
          else Some (with_worker i Exited (with_alive false s) (owner h) (session h) [] h)
      | _ => None
      end
  | WLocks i =>
      match workers h !! i, owner h with
      | Some (Took r), None => Some (with_worker i (Locked r) (slot h) (Some (ByWorker i)) (session h) [] h)
      | _, _ => None
      end
  | WDecides i a =>
      match workers h !! i with
      | Some (Locked r) =>
          match kind r with
          | Work k => let '(x, calls) := decides (session h) k a in Some (with_worker i (Calls r calls) (slot h) (owner h) x [] h)
          | Provider => None
          end
      | _ => None
      end
  | WCalls i =>
      match workers h !! i with
      | Some (Calls r (c :: calls)) =>
          Some (with_worker i (Calls r calls) (slot h) (owner h) (session h)
                  (if reaches r (loggedIn_ (slot h)) c then [ACall r c] else []) h)
      | _ => None
      end
  | WReconciles i a =>
      match workers h !! i with
      | Some (Calls r []) => Some (with_worker i (Passed r) (slot h) None (session h) (reconciles r a h ++ [AFinished r]) h)
      | Some (Locked r) =>
          match kind r with
          | Provider => Some (with_worker i Publishes (slot h) None (session h) (reconciles r a h ++ [AFinished r]) h)
          | Work _ => None
          end
      | _ => None
      end
  | WSettles i =>
      match workers h !! i with
      | Some (Passed r) => Some (with_worker i Publishes (with_in_flight 0 (slot h)) (owner h) (session h) [] h)
      | _ => None
      end
  | WPublishes i =>
      match workers h !! i with
      | Some Publishes => Some (with_worker i AtTop (slot h) (owner h) (session h) [] h)
      | _ => None
      end
  | _ => None
  end.

(** The steps of the endings. *)
Definition ending_step (h : Host) (e : HostEvent) : option Host :=
  match e with
  | Ends e =>
      match end_pc h with
      | NoEnding =>
          Some (mkHost (now h) (if stopService e then with_quitting (slot h) else slot h) (workers h) (owner h) (session h)
                  (Some e) (now h) Closing (exit_pc h) (log h))
      | _ => None
      end
  | EndDrops =>
      match end_pc h with
      | Closing => Some (with_slot (drop_queued (slot h)) (with_end Waiting (owner h) (session h) [] h))
      | _ => None
      end
  | EndWaits =>
      match end_pc h with
      | Waiting =>
          if negb (sessionWorkerAlive_ (slot h)) then Some (with_end (Waited true) (owner h) (session h) [] h)
          else if end_start h + kCommandsCap <=? now h then Some (with_end (Waited false) (owner h) (session h) [] h) else None
      | _ => None
      end
  | QuitStopsFirst up =>
      match end_pc h with
      | Waited settled =>
          if negb (quitting_ (slot h)) then None else
          let acts := match StopRouteFor settled with RouteUnlocked => if up : bool then [AStopUnlocked] else [] | RouteLocked => [] end in
          Some (with_end (Joining settled) (owner h) (session h) acts h)
      | _ => None
      end
  | QuitLocks =>
      match end_pc h, owner h with
      | Joining settled, None => Some (with_end (QuitLocked settled) (Some ByQuit) (session h) [] h)
      | _, _ => None
      end
  | QuitStops torn =>
      match end_pc h with
      | QuitLocked settled =>
          let x := mkSession (device_ (session h) && negb torn) (userDisconnected_ (session h)) in
          Some (with_end (QuitStopped settled) (owner h) x [AStopLocked] h)
      | _ => None
      end
  | QuitEnds => match end_pc h with QuitStopped settled => Some (with_end (QuitOver settled) None (session h) [] h) | _ => None end
  | ExitAsks tailRuns =>
      match exit_pc h with
      | NotExiting =>
          if negb (ending_returned h) then None else
          Some (with_exit (if ExitSettled tailRuns h then Destroying else LeftToProcess) (slot h) h)
      | _ => None
      end
  | DestructorDrains => match exit_pc h with Destroying => Some (with_exit Drained (clear_slot (slot h)) h) | _ => None end
  | DestructorEnds =>
      match exit_pc h, owner h with Drained, None => Some (with_exit Destroyed (slot h) h) | _, _ => None end
  | _ => None
  end.

Definition step (h : Host) (e : HostEvent) : option Host :=
  match e with
  | Ticks t =>
      if t <? now h then None else
      Some (mkHost t (slot h) (workers h) (owner h) (session h) (ending h) (end_start h) (end_pc h) (exit_pc h) (log h))
  | Presses k loc => Some (requests (press k loc) h)
  | RowClicks loc => Some (requests (row_click loc (now h)) h)
  | Reconciles => Some (requests reconcile h)
  | CancelsRow => Some (with_slot (CancelPendingRowConnect (slot h)) h)
  | ClearsForSignOut => Some (with_slot (clear_slot (slot h)) h)
  | SignsOut => Some (with_slot (with_logged_in false (slot h)) h)
  | SignsIn => Some (with_slot (with_logged_in true (slot h)) h)
  | OtherLocks => match owner h with None => Some (with_end (end_pc h) (Some ByOther) (session h) [] h) | _ => None end
  | OtherUnlocks => match owner h with Some ByOther => Some (with_end (end_pc h) None (session h) [] h) | _ => None end
  | WTakes _ | WLocks _ | WDecides _ _ | WCalls _ | WReconciles _ _ | WSettles _ | WPublishes _ => worker_step h e
  | _ => ending_step h e
  end.

Definition steps (h : Host) (tr : list HostEvent) : option Host := foldl (fun oh e => h ← oh; step h e) (Some h) tr.

(** A service that answers with nothing installed, and its reconcile. *)
Definition idle_answers : Answers :=
  mkAnswers true true true default_status true true false true Health.Disconnected true true true true.
Definition idle_reads : ReconcileReads := mkReads true None true false true (mkProviderFacts true false false false) false true.

Definition a_pass (i : nat) : list HostEvent :=
  [WTakes i; WLocks i; WDecides i idle_answers; WCalls i; WCalls i; WReconciles i idle_reads; WSettles i; WPublishes i].

Example a_press_connects :
  (fun h => (log h, gesture_settled (slot h))) <$> steps (start_host true) (Presses BestAvailable None :: a_pass 0) =
  (let r := mkRequest (Work BestAvailable) None 0 false 1 in
   Some ([ATook r; ACall r (PBootstrap false); ACall r PSdkConnect; AFinished r], 1)).
Proof. vm_compute. reflexivity. Qed.

Example an_ensure_spares_the_click :
  (fun h => (kind (pending_ (slot h)), location (pending_ (slot h)))) <$> steps (start_host true) [RowClicks (Some 7); Presses KindNone None] =
  Some (Work Location, Some 7).
Proof. vm_compute. reflexivity. Qed.

(** * The invariant *)

Definition holds (p : WorkerPc) : option SessionRequest :=
  match p with Took r | Locked r | Calls r _ | Passed r => Some r | _ => None end.
(** Before the lock is let go. *)
Definition taken (p : WorkerPc) : option SessionRequest :=
  match p with Took r | Locked r | Calls r _ => Some r | _ => None end.
Definition in_pass (p : WorkerPc) : bool := match p with Locked _ | Calls _ _ => true | _ => false end.
Definition flight (p : WorkerPc) : Z := match holds p with Some r => gesture r | None => 0 end.

Definition req_ok (r : SessionRequest) : Prop :=
  (IsGesture (kind r) = false -> gesture r = 0) /\ (coalesced r = true -> kind r <> Work KindDisconnect).

Definition pend_ok (s : Slot) : Prop :=
  (pendingRequested_ s = false -> pending_ s = no_request) /\ req_ok (pending_ s) /\
  (IsGesture (kind (pending_ s)) = true -> gesture (pending_ s) = gestureIssued_ s /\ gestureInFlight_ s < gestureIssued_ s) /\
  0 <= gestureInFlight_ s <= gestureIssued_ s.

Definition no_worker (o : option Holder) : Prop := forall i, o <> Some (ByWorker i).
Definition owner_ok (o : option Holder) (i : nat) (b : bool) : Prop := if b then o = Some (ByWorker i) else no_worker o.

Definition held_ok (p : WorkerPc) : Prop := match holds p with Some r => req_ok r | None => True end.
Definition worker_ok (o : option Holder) (s : Slot) (i : nat) (p : WorkerPc) : Prop :=
  p <> Exited /\ owner_ok o i (in_pass p) /\ gestureInFlight_ s = flight p /\ held_ok p.

(** Every worker but the last has gone, and the last one when the flag says so. *)
Definition shape (o : option Holder) (s : Slot) (ws : list WorkerPc) : Prop :=
  exists n, if sessionWorkerAlive_ s then exists p, ws = replicate n Exited ++ [p] /\ worker_ok o s n p
            else ws = replicate n Exited /\ no_worker o /\ gestureInFlight_ s = 0 /\ pendingRequested_ s = false.

Definition settled_at (p : EndPc) : bool :=
  match p with Waited b | Joining b | QuitLocked b | QuitStopped b | QuitOver b => b | _ => false end.
Definition quit_locked (p : EndPc) : bool := match p with QuitLocked _ | QuitStopped _ => true | _ => false end.
Definition destroys (p : ExitPc) : bool := match p with Destroying | Drained | Destroyed => true | _ => false end.

Record Inv (h : Host) : Prop := {
  inv_pend : pend_ok (slot h);
  inv_shape : shape (owner h) (slot h) (workers h);
  inv_quit : owner h = Some ByQuit <-> quit_locked (end_pc h) = true;
  inv_settled : quitting_ (slot h) = true -> settled_at (end_pc h) = true -> sessionWorkerAlive_ (slot h) = false;
  inv_ending : end_pc h = NoEnding -> quitting_ (slot h) = false /\ exit_pc h = NotExiting;
  inv_exit : quitting_ (slot h) = true -> destroys (exit_pc h) = true -> sessionWorkerAlive_ (slot h) = false;
  inv_log : forall r, ATook r ∈ log h -> AFinished r ∈ log h \/ exists i p, workers h !! i = Some p /\ taken p = Some r
}.

Lemma Inv_slot_start signedIn : Inv (start_host signedIn).
Proof.
  split; cbn; try done.
  - exists 0%nat. by split_and!.
  - intros r Hr. by apply elem_of_nil in Hr.
Qed.

Lemma shape_at o s ws i p :
  shape o s ws -> ws !! i = Some p -> p <> Exited ->
  sessionWorkerAlive_ s = true /\ ws = replicate i Exited ++ [p] /\ worker_ok o s i p.
Proof.
  intros [n Hn] Hi Hp. destruct (sessionWorkerAlive_ s).
  - destruct Hn as (q & -> & Hq). split; [done|].
    destruct (decide (i < n)%nat) as [Hl|Hl].
    + rewrite lookup_app_l in Hi by (by rewrite length_replicate). by apply lookup_replicate_1 in Hi as [-> _].
    + rewrite lookup_app_r in Hi by (rewrite length_replicate; lia). rewrite length_replicate in Hi.
      apply list_lookup_singleton_Some in Hi as [? <-]. by replace i with n by lia.
  - destruct Hn as [-> _]. by apply lookup_replicate_1 in Hi as [-> _].
Qed.

Lemma insert_last n (p q : WorkerPc) : <[n := q]> (replicate n Exited ++ [p]) = replicate n Exited ++ [q].
Proof. rewrite insert_app_r_alt by (rewrite length_replicate; lia). by rewrite length_replicate, Nat.sub_diag. Qed.

Lemma last_lookup n (q : WorkerPc) : (replicate n Exited ++ [q]) !! n = Some q.
Proof. rewrite lookup_app_r by (rewrite length_replicate; lia). by rewrite length_replicate, Nat.sub_diag. Qed.

(** A worker moves on. *)
Lemma Inv_worker h i p q s o x acts :
  Inv h -> workers h !! i = Some p -> p <> Exited ->
  pend_ok s -> quitting_ s = quitting_ (slot h) -> sessionWorkerAlive_ s = negb (bool_decide (q = Exited)) ->
  (q = Exited -> no_worker o /\ gestureInFlight_ s = 0 /\ pendingRequested_ s = false) ->
  (q <> Exited -> worker_ok o s i q) ->
  (o = Some ByQuit <-> owner h = Some ByQuit) ->
  (forall r, ATook r ∈ log h ++ acts -> AFinished r ∈ log h ++ acts \/ taken q = Some r) ->
  Inv (with_worker i q s o x acts h).
Proof.
  intros I Hi Hp Hs Hq Ha He Hw Ho Hl. pose proof I as []. destruct (shape_at _ _ _ _ _ inv_shape0 Hi Hp) as (Hal & Hws & _).
  assert (sessionWorkerAlive_ s = true -> sessionWorkerAlive_ (slot h) = false -> False) as Hx by congruence.
  split; cbn; try done.
  - rewrite Hws, insert_last. unfold shape. rewrite Ha. case_bool_decide as E.
    + exists (S i). subst q. rewrite replicate_S_end. split; [done|by apply He].
    + exists i. cbn. eauto.
  - by rewrite Ho.
  - rewrite Hq. intros H1 H2. by rewrite (inv_settled0 H1 H2) in Hal.
  - rewrite Hq. done.
  - rewrite Hq. intros H1 H2. by rewrite (inv_exit0 H1 H2) in Hal.
  - intros r [?|Hr]%Hl; [by left|right]. exists i, q. rewrite Hws, insert_last. by rewrite last_lookup.
Qed.

(** The slot's request changes, and nothing of the worker. *)
Lemma Inv_pending h s :
  Inv h -> pend_ok s -> quitting_ s = quitting_ (slot h) -> sessionWorkerAlive_ s = sessionWorkerAlive_ (slot h) ->
  gestureInFlight_ s = gestureInFlight_ (slot h) -> (sessionWorkerAlive_ s = false -> pendingRequested_ s = false) ->
  Inv (with_slot s h).
Proof.
  intros [] Hs Hq Ha Hf Hr. split; cbn; try done; rewrite ?Hq, ?Ha; try done.
  destruct inv_shape0 as [n Hn]. exists n. rewrite Ha. destruct (sessionWorkerAlive_ (slot h)).
  - destruct Hn as (p & -> & H1 & H2 & H3 & H4). exists p. unfold worker_ok. by rewrite Hf.
  - destruct Hn as (-> & H1 & H2 & H3). rewrite Hf. split_and!; try done. by apply Hr.
Qed.

Lemma pend_ok_clear s : pend_ok s -> pend_ok (clear_slot s).
Proof. intros (_ & _ & _ & H). unfold pend_ok, req_ok. cbn. repeat split; try done; lia. Qed.

Lemma Inv_cleared h : Inv h -> Inv (with_slot (clear_slot (slot h)) h).
Proof. intros I. apply Inv_pending; try done. by apply pend_ok_clear, I. Qed.

Lemma record_request_ok s r :
  pend_ok s -> gesture r = 0 -> req_ok r -> pend_ok (record_request s r).
Proof.
  intros (H1 & H2 & H3 & H4) Hg [Hr1 Hr2]. unfold record_request, pend_ok, req_ok. destruct (IsGesture (kind r)) eqn:E; cbn; rewrite ?E.
  - split_and!; try done; lia.
  - split_and!; try done; lia.
Qed.

Lemma Inv_requests h r : Inv h -> gesture r = 0 -> req_ok r -> Inv (requests r h).
Proof.
  intros I Hg Hr. unfold requests, RequestSession.
  assert (Inv (with_slot (slot h) h)) as I0 by (destruct h; apply I).
  destruct (quitting_ (slot h)) eqn:Eq; [exact I0|]. destruct (negb _); [exact I0|].
  set (s := if covered (slot h) r then _ else _).
  assert (pend_ok s /\ quitting_ s = false /\ sessionWorkerAlive_ s = sessionWorkerAlive_ (slot h) /\
          gestureInFlight_ s = gestureInFlight_ (slot h)) as (Hs & Hq & Ha & Hf).
  { subst s. destruct (covered (slot h) r).
    - split; [|done]. destruct (inv_pend h I) as (H1 & H2 & H3 & H4). split; [done|]. by split.
    - split; [apply record_request_ok; [apply I|done|done]|]. unfold record_request. by destruct (IsGesture (kind r)). }
  clearbody s. destruct (sessionWorkerAlive_ s) eqn:Eal.
  - apply (Inv_pending h s I Hs); congruence.
  - pose proof I as []. split; cbn; try done; rewrite ?Hq; try done; try (intros E; split; [done|by apply inv_ending0]).
    + destruct inv_shape0 as [n Hn]. rewrite <- Ha in Hn. destruct Hn as (-> & H1 & H2 & H3). exists n. cbn.
      exists AtTop. split; [done|]. split; [done|]. split; [done|]. cbn. by rewrite Hf.
    + intros r' Hr'. destruct (inv_log0 r' Hr') as [?|(i & p & Hi & Hp)]; [by left|right]. exists i, p.
      split; [by apply lookup_app_l_Some|done].
Qed.

Lemma pend_ok_flight s g : pend_ok s -> pendingRequested_ s = false -> 0 <= g <= gestureIssued_ s -> pend_ok (with_in_flight g s).
Proof. intros (H1 & H2 & H3 & H4) Hr Hg. unfold pend_ok. cbn. rewrite (H1 Hr). split; [done|]. split; [done|]. by split. Qed.

Lemma pend_ok_settle s : pend_ok s -> pend_ok (with_in_flight 0 s).
Proof.
  intros (H1 & H2 & H3 & H4). split; [done|]. split; [done|]. split; [|cbn; lia]. intros E. cbn in *. destruct (H3 E). split; [done|lia].
Qed.

Lemma took_in r r0 : ATook r ∈ [ATook r0] -> r = r0.
Proof. by intros [= ->]%list_elem_of_singleton. Qed.

Lemma pending_range s : pend_ok s -> 0 <= gesture (pending_ s) <= gestureIssued_ s.
Proof.
  intros (_ & [Hr _] & Hg & Hf). destruct (IsGesture (kind (pending_ s))) eqn:E; [destruct (Hg eq_refl); lia|]. rewrite (Hr eq_refl). lia.
Qed.

(** What was taken and is not finished stays with its worker. *)
Lemma log_kept h i p q acts :
  Inv h -> workers h !! i = Some p -> p <> Exited ->
  (forall r, taken p = Some r -> taken q = Some r \/ AFinished r ∈ acts) ->
  (forall r, ATook r ∈ acts -> taken q = Some r) ->
  forall r, ATook r ∈ log h ++ acts -> AFinished r ∈ log h ++ acts \/ taken q = Some r.
Proof.
  intros I Hi Hp Hk Ha r Hr. rewrite !elem_of_app in *. destruct Hr as [Hr|Hr]; [|right; by apply Ha].
  destruct (inv_log h I r Hr) as [?|(j & p' & Hj & Ht)]; [tauto|].
  assert (p' <> Exited) as Hp' by (by intros ->).
  destruct (shape_at _ _ _ _ _ (inv_shape h I) Hi Hp) as (_ & Hw & _), (shape_at _ _ _ _ _ (inv_shape h I) Hj Hp') as (_ & Hw' & _).
  rewrite Hw in Hw'. apply app_inj_2 in Hw' as [_ [= <-]]; [|done]. destruct (Hk r Ht); tauto.
Qed.

Lemma reconciles_no_take r i h r' : ATook r' ∈ reconciles r i h ++ [AFinished r] -> False.
Proof.
  rewrite elem_of_app. unfold reconciles. destruct (ReconcileProviderLocked _ _ _ _); set_solver.
Qed.

Lemma Inv_worker_step h e h' : Inv h -> worker_step h e = Some h' -> Inv h'.
Proof.
  intros I Hs. pose proof (inv_pend h I) as Hpend. pose proof (pending_range _ Hpend) as Hrange.
  destruct e as [| | | | | | | | | |i|i|i a|i|i a|i|i| | | | | | | | | |]; try done; cbn [worker_step] in Hs.
  all: destruct (workers h !! i) as [p|] eqn:Ei; [|done].
  all: assert (p <> Exited) as Hp by (by intros ->).
  all: destruct (shape_at _ _ _ _ _ (inv_shape h I) Ei Hp) as (Hal & Hw & _ & Hown & Hfl & Hheld).
  - destruct p; try done. destruct (pendingRequested_ (slot h)) eqn:Er.
    + destruct (now h <? _); [done|]. injection Hs as <-.
      eapply Inv_worker; try done.
      * intros _. split; [done|]. split; [done|]. split; [done|]. apply Hpend.
      * eapply log_kept; try done. intros r ->%took_in. done.
    + injection Hs as <-. eapply Inv_worker; try done.
      eapply log_kept; try done. intros r Hr. by apply elem_of_nil in Hr.
  - destruct p; try done. destruct (owner h) eqn:Eo; [done|]. injection Hs as <-. eapply Inv_worker; try done.
    + by rewrite Eo.
    + eapply log_kept; try done; [intros r0; by left|]. intros r0 Hr. by apply elem_of_nil in Hr.
  - destruct p; try done. destruct (kind r); [|done]. destruct (decides _ _ _) as [x calls]. injection Hs as <-. eapply Inv_worker; try done.
    eapply log_kept; try done; [intros r0; by left|]. intros r0 Hr. by apply elem_of_nil in Hr.
  - destruct p as [| | |r [|c calls]| | |]; try done. injection Hs as <-. eapply Inv_worker; try done.
    eapply log_kept; try done; [intros r0; by left|]. intros r0 Hr. destruct (reaches _ _ _); set_solver.
  - destruct p as [| |r|r [|c calls]| | |]; try done; [destruct (kind r) eqn:Ek; [done|]|]; injection Hs as <-.
    + eapply Inv_worker; try done.
      * intros _. split; [done|]. split; [done|]. split; [|done]. rewrite Hfl. apply Hheld. by rewrite Ek.
      * cbn in Hown. by rewrite Hown.
      * eapply log_kept; try done; [intros r0 [= ->]; right; set_solver|]. by intros r0 ?%reconciles_no_take.
    + eapply Inv_worker; try done.
      * cbn in Hown. by rewrite Hown.
      * eapply log_kept; try done; [intros r0 [= ->]; right; set_solver|]. by intros r0 ?%reconciles_no_take.
  - destruct p; try done. injection Hs as <-. eapply Inv_worker; try done; [by apply pend_ok_settle|].
    eapply log_kept; try done. intros r0 Hr. by apply elem_of_nil in Hr.
  - destruct p; try done. injection Hs as <-. eapply Inv_worker; try done.
    eapply log_kept; try done. intros r0 Hr. by apply elem_of_nil in Hr.
Qed.

(** An ending moves on, or another thread takes or leaves the lock. *)
Lemma Inv_end h p o x acts :
  Inv h -> (forall r, ATook r ∉ acts) -> (forall i, o = Some (ByWorker i) <-> owner h = Some (ByWorker i)) ->
  (o = Some ByQuit <-> quit_locked p = true) ->
  (quitting_ (slot h) = true -> settled_at p = true -> sessionWorkerAlive_ (slot h) = false) ->
  (p = NoEnding -> quitting_ (slot h) = false /\ exit_pc h = NotExiting) -> Inv (with_end p o x acts h).
Proof.
  intros [] Ha Ho Hq Hs He. split; cbn; try done.
  - destruct inv_shape0 as [n Hn]. exists n. destruct (sessionWorkerAlive_ (slot h)).
    + destruct Hn as (q & -> & H1 & H2 & H3). exists q. split_and?; [done..|]. split; [done|]. split; [|done].
      unfold owner_ok, no_worker in *. destruct (in_pass q); [by apply Ho|]. intros i ?%Ho. by apply (H2 i).
    + destruct Hn as (-> & H1 & H2). split; [done|]. split; [|done]. intros i ?%Ho. by apply (H1 i).
  - intros r [Hr|Hr]%elem_of_app; [|by apply Ha in Hr]. rewrite elem_of_app. destruct (inv_log0 r Hr); tauto.
Qed.

Lemma drop_queued_spec s : drop_queued s = s \/ drop_queued s = clear_slot s.
Proof. unfold drop_queued. destruct (_ && _); auto. Qed.

Lemma Inv_ending_step h e h' : Inv h -> ending_step h e = Some h' -> Inv h'.
Proof.
  intros I Hs. pose proof I as [].
  assert (forall r, ATook r ∉ []) as Hnil by (intros r; apply not_elem_of_nil).
  destruct e as [| | | | | | | | | | | | | | | | |e| | |up| |torn| |tail| |]; try done; cbn [ending_step] in Hs.
  - destruct (end_pc h) eqn:Ep; try done. injection Hs as <-. destruct (inv_ending0 eq_refl) as [_ Hx].
    destruct (stopService e); split; cbn; try done. by rewrite Hx.
  - destruct (end_pc h) eqn:Ep; try done. injection Hs as <-.
    assert (Inv (with_end Waiting (owner h) (session h) [] h)) as I' by (apply Inv_end; try done).
    destruct (drop_queued_spec (slot h)) as [-> | ->]; [by destruct h|]. by apply (Inv_cleared (with_end Waiting (owner h) (session h) [] h)).
  - destruct (end_pc h) eqn:Ep; try done. destruct (sessionWorkerAlive_ (slot h)) eqn:Ea; cbn in Hs; [destruct (_ <=? _); [|done]|];
      injection Hs as <-; apply Inv_end; try done.
  - destruct (end_pc h) eqn:Ep; try done. destruct (negb _) eqn:Eq; [done|]. injection Hs as <-. apply Inv_end; try done.
    destruct settled, up; cbn; set_solver.
  - destruct (end_pc h) eqn:Ep; try done. destruct (owner h) eqn:Eo; [done|]. injection Hs as <-. apply Inv_end; try done. by rewrite Eo.
  - destruct (end_pc h) eqn:Ep; try done. injection Hs as <-. apply Inv_end; try done. set_solver.
  - destruct (end_pc h) eqn:Ep; try done. injection Hs as <-. apply Inv_end; try done.
    rewrite (proj2 inv_quit0 eq_refl). done.
  - destruct (exit_pc h) eqn:Ep; try done. destruct (ending_returned h) eqn:Er; [|done]. injection Hs as <-. split; cbn; try done.
    + intros E. unfold ending_returned in Er. by rewrite E in Er.
    + intros _ Hd. destruct (ExitSettled tail h) eqn:Es; [|done]. unfold ExitSettled, HostDestroyableAtExit in Es. by bool_hyps.
  - destruct (exit_pc h) eqn:Ep; try done. injection Hs as <-. pose proof (Inv_cleared h I) as []. split; cbn in *; try done.
    intros E. by destruct (inv_ending0 E).
  - destruct (exit_pc h) eqn:Ep; try done. destruct (owner h) eqn:Eo; [done|]. injection Hs as <-. split; cbn; rewrite ?Eo; try done.
    intros E. by destruct (inv_ending0 E).
Qed.

Lemma cancel_spec s : CancelPendingRowConnect s = s \/ CancelPendingRowConnect s = clear_slot s.
Proof. unfold CancelPendingRowConnect. destruct (_ && _); auto. Qed.

Lemma Inv_logged_in h on : Inv h -> Inv (with_slot (with_logged_in on (slot h)) h).
Proof. intros I. apply Inv_pending; try done; [apply I|]. cbn. destruct (inv_shape h I) as [n Hn]. intros E. rewrite E in Hn. by apply Hn. Qed.

Lemma Inv_slot_step h e h' : Inv h -> step h e = Some h' -> Inv h'.
Proof.
  intros I Hs. destruct e; cbn [step] in Hs; try (by eapply Inv_worker_step); try (by eapply Inv_ending_step).
  - destruct (t <? now h); [done|]. injection Hs as <-. by destruct I.
  - injection Hs as <-. by apply Inv_requests.
  - injection Hs as <-. apply Inv_requests; [done|done|]. by split; [destruct loc|destruct loc].
  - injection Hs as <-. by apply Inv_requests.
  - injection Hs as <-. destruct (cancel_spec (slot h)) as [-> | ->]; [by destruct h|by apply Inv_cleared].
  - injection Hs as <-. by apply Inv_cleared.
  - injection Hs as <-. by apply Inv_logged_in.
  - injection Hs as <-. by apply Inv_logged_in.
  - destruct (owner h) eqn:Eo; [done|]. injection Hs as <-. pose proof I as []. apply Inv_end; try done; [intros r; apply not_elem_of_nil| |].
    + intros i. by rewrite Eo.
    + rewrite <- inv_quit0, Eo. done.
  - destruct (owner h) as [[]|] eqn:Eo; try done. injection Hs as <-. pose proof I as []. apply Inv_end; try done; [intros r; apply not_elem_of_nil| |].
    + intros i. by rewrite Eo.
    + rewrite <- inv_quit0, Eo. done.
Qed.

Lemma steps_split h a b : steps h (a ++ b) = (v ← steps h a; steps v b).
Proof.
  unfold steps. rewrite foldl_app. destruct (foldl _ (Some h) a) as [v|]; [done|]. cbn. induction b; [done|by cbn].
Qed.

Lemma slot_steps_end h a e : steps h (a ++ [e]) = (v ← steps h a; step v e).
Proof. rewrite steps_split. by destruct (steps h a). Qed.

Lemma slot_steps_cons h e tr : steps h (e :: tr) = (v ← step h e; steps v tr).
Proof. change (e :: tr) with ([e] ++ tr). rewrite steps_split. cbn. by destruct (step h e). Qed.

Lemma Inv_slot_run h tr h' : Inv h -> steps h tr = Some h' -> Inv h'.
Proof.
  revert h'. induction tr as [|e tr IH] using rev_ind; intros h' I Hs; [by injection Hs as <-|].
  rewrite slot_steps_end in Hs. apply bind_Some in Hs as (v & Hv & Hs). eapply Inv_slot_step; [by eapply IH|done].
Qed.

Lemma Inv_ran signedIn tr h : steps (start_host signedIn) tr = Some h -> Inv h.
Proof. apply Inv_slot_run, Inv_slot_start. Qed.

(** * What holds of every run *)

Definition live (h : Host) (i : nat) (p : WorkerPc) : Prop := workers h !! i = Some p /\ p <> Exited.

Lemma live_at h i p : Inv h -> live h i p -> sessionWorkerAlive_ (slot h) = true /\ workers h = replicate i Exited ++ [p] /\ worker_ok (owner h) (slot h) i p.
Proof. intros I [Hi Hp]. by apply shape_at; [apply I|..]. Qed.

Lemma alive_iff h : Inv h -> sessionWorkerAlive_ (slot h) = true <-> exists i p, live h i p.
Proof.
  intros I. split; [|intros (i & p & Hl); by apply (live_at h i p)]. intros Ha. destruct (inv_shape h I) as [n Hn]. rewrite Ha in Hn.
  destruct Hn as (p & Hw & Hp & _). exists n, p. split; [|done]. by rewrite Hw, last_lookup.
Qed.

Lemma requested_alive h : Inv h -> pendingRequested_ (slot h) = true -> sessionWorkerAlive_ (slot h) = true.
Proof.
  intros I Hr. destruct (sessionWorkerAlive_ (slot h)) eqn:E; [done|]. destruct (inv_shape h I) as [n Hn]. rewrite E in Hn.
  destruct Hn as (_ & _ & _ & Hn). congruence.
Qed.

(** There is one session worker at a time, whatever threads ask. A worker that has not
    gone is the only one, holds [mutex_] exactly in its pass, and carries the gesture the slot
    says is in flight; and a request in the slot always has one. *)
Theorem one_worker_at_a_time signedIn tr h :
  steps (start_host signedIn) tr = Some h ->
  (forall i p j q, live h i p -> live h j q -> i = j /\ p = q) /\
  (forall i p, live h i p -> (in_pass p = true <-> owner h = Some (ByWorker i)) /\ gestureInFlight_ (slot h) = flight p) /\
  (pendingRequested_ (slot h) = true -> exists i p, live h i p).
Proof.
  intros I%Inv_ran. split_and!.
  - intros i p j q Hp Hq. destruct (live_at h i p I Hp) as (_ & Hw & _), (live_at h j q I Hq) as (_ & Hw' & _). destruct Hp as [Hi _].
    rewrite Hw in Hw'. pose proof (f_equal length Hw') as Hl. rewrite !length_app, !length_replicate in Hl. cbn in Hl.
    apply app_inj_2 in Hw' as [_ [= ->]]; [|done]. split; [lia|done].
  - intros i p Hp. destruct (live_at h i p I Hp) as (_ & _ & _ & Ho & Hf & _). split; [|done].
    unfold owner_ok in Ho. destruct (in_pass p); [by rewrite Ho|]. split; [done|]. intros E. by apply Ho in E.
  - intros Hr. by apply alive_iff, requested_alive.
Qed.

(** ** A request is served *)

(** The steps of the worker [i], and time. *)
Definition own (i : nat) (e : HostEvent) : Prop :=
  match e with
  | Ticks _ => True
  | WTakes j | WLocks j | WDecides j _ | WCalls j | WReconciles j _ | WSettles j | WPublishes j => j = i
  | _ => False
  end.

Definition rank (p : WorkerPc) : nat :=
  match p with Took _ => 12 | Locked _ => 11 | Calls _ l => 3 + length l | Passed _ => 2 | Publishes => 1 | _ => 0 end.

Lemma push_length {A} (c : bool) (l : list A) x : (length (if c then l ++ [x] else l) <= S (length l))%nat.
Proof. destruct c; [rewrite length_app; cbn; lia|lia]. Qed.

Lemma session_pass_short x k a : (length (session_pass x k a).2 <= 6)%nat.
Proof.
  unfold session_pass. cbv zeta. cbn [snd]. do 5 (etrans; [apply push_length|apply le_n_S]). by destruct (_ && _); cbn; lia.
Qed.

Lemma set_worker h i p q : workers h !! i = Some p -> <[i := q]> (workers h) !! i = Some q.
Proof. intros Hi. apply list_lookup_insert_eq. by eapply lookup_lt_Some. Qed.

Definition free_for (i : nat) (h : Host) : Prop := owner h = None \/ owner h = Some (ByWorker i).

(** A worker in a pass has a next step, which leaves the slot's request alone. *)
Definition moves (h : Host) (i : nat) (p : WorkerPc) : Prop :=
  exists e h' q acts, own i e /\ step h e = Some h' /\ live h' i q /\ free_for i h' /\ (rank q < rank p)%nat /\
    pendingRequested_ (slot h') = pendingRequested_ (slot h) /\ pending_ (slot h') = pending_ (slot h) /\ log h' = log h ++ acts /\
    forall r, taken p = Some r -> taken q = Some r \/ AFinished r ∈ acts.

Lemma worker_moves h i p : Inv h -> live h i p -> free_for i h -> p <> AtTop -> moves h i p.
Proof.
  intros I Hl Hf Hp. destruct (live_at h i p I Hl) as (_ & _ & _ & Ho & _). destruct Hl as [Hi Hne].
  assert (forall e q s o x acts, own i e -> step h e = Some (with_worker i q s o x acts h) -> q <> Exited -> (o = None \/ o = Some (ByWorker i)) ->
    (rank q < rank p)%nat -> pendingRequested_ s = pendingRequested_ (slot h) -> pending_ s = pending_ (slot h) ->
    (forall r, taken p = Some r -> taken q = Some r \/ AFinished r ∈ acts) -> moves h i p) as Hgo.
  { intros e q s o x acts. intros. exists e, (with_worker i q s o x acts h), q, acts. cbn. split_and?; try done.
    split; [|done]. cbn. by eapply set_worker. }
  destruct p as [|r|r|r [|c l]|r| |]; try done; cbn in Ho.
  - assert (owner h = None) as Hn by (destruct Hf as [?|E]; [done|by apply Ho in E]).
    eapply (Hgo (WLocks i)); cbn; rewrite ?Hi, ?Hn; try done; auto; try lia.
  - destruct (kind r) as [k|] eqn:Ek.
    + assert (length (decides (session h) k idle_answers).2 <= 6)%nat as Hs by apply session_pass_short.
      set (d := decides (session h) k idle_answers) in *.
      apply (Hgo (WDecides i idle_answers) (Calls r d.2) (slot h) (owner h) d.1 []); cbn [step worker_step]; rewrite ?Hi, ?Ek; auto.
      * fold d. by destruct d.
      * clearbody d. cbn. lia.
    + eapply (Hgo (WReconciles i idle_reads)); cbn; rewrite ?Hi, ?Ek; try done; auto; try (cbn; lia). intros r' [= ->]. right. set_solver.
  - eapply (Hgo (WReconciles i idle_reads)); cbn; rewrite ?Hi; try done; auto; try (cbn; lia). intros r' [= ->]. right. set_solver.
  - eapply (Hgo (WCalls i)); cbn; rewrite ?Hi; try done; auto; cbn; lia.
  - eapply (Hgo (WSettles i)); cbn; rewrite ?Hi; try done; auto; cbn; lia.
  - eapply (Hgo (WPublishes i)); cbn; rewrite ?Hi; try done; auto; cbn; lia.
Qed.

Lemma worker_returns n h i p :
  Inv h -> live h i p -> free_for i h -> (rank p <= n)%nat ->
  exists tr h' acts, Forall (own i) tr /\ steps h tr = Some h' /\ live h' i AtTop /\ free_for i h' /\
    pendingRequested_ (slot h') = pendingRequested_ (slot h) /\ pending_ (slot h') = pending_ (slot h) /\ log h' = log h ++ acts /\
    forall r, taken p = Some r -> AFinished r ∈ acts.
Proof.
  revert h p. induction n as [|n IH]; intros h p I Hl Hf Hn; (destruct (decide (p = AtTop)) as [->|Hp];
    [exists [], h, []; rewrite app_nil_r; by split_and!|]).
  - destruct (worker_moves h i p I Hl Hf Hp) as (_ & _ & q & _ & _ & _ & _ & _ & Hr & _). lia.
  - destruct (worker_moves h i p I Hl Hf Hp) as (e & v & q & acts & He & Hs & Hv & Hfv & Hr & H1 & H2 & H3 & H4).
    destruct (IH v q (Inv_slot_step _ _ _ I Hs) Hv Hfv ltac:(lia)) as (tr & h' & acts' & Ht & Hs' & Hl' & Hf' & H5 & H6 & H7 & H8).
    exists (e :: tr), h', (acts ++ acts'). split; [by constructor|]. split; [by rewrite slot_steps_cons, Hs|].
    split; [done|]. split; [done|]. rewrite H5, H6, H7, H3, app_assoc. split_and?; try done. intros r Hr'. rewrite elem_of_app.
    destruct (H4 r Hr'); [right; by apply H8|by left].
Qed.

(** C12: a recorded request is served. Whatever came before, while no other thread holds
    [mutex_] the one worker can by its own steps and the passing of time take the request the
    slot holds and bring its pass to an end. *)
Theorem recorded_request_is_served signedIn tr h :
  steps (start_host signedIn) tr = Some h -> pendingRequested_ (slot h) = true -> owner h <> Some ByOther -> owner h <> Some ByQuit ->
  exists i tr' h' acts, Forall (own i) tr' /\ steps h tr' = Some h' /\ log h' = log h ++ acts /\
    ATook (pending_ (slot h)) ∈ acts /\ AFinished (pending_ (slot h)) ∈ acts.
Proof.
  intros I%Inv_ran Hr Ho Hq. pose proof (requested_alive h I Hr) as Ha. apply (alive_iff h I) in Ha as (i & p & Hl).
  assert (free_for i h) as Hf.
  { unfold free_for. destruct (owner h) as [[j| |]|] eqn:E; [|done|done|by left]. right. destruct (live_at h i p I Hl) as (_ & _ & _ & Hx & _).
    unfold owner_ok in Hx. rewrite E in Hx. destruct (in_pass p); [done|]. by destruct (Hx j). }
  destruct (worker_returns _ h i p I Hl Hf (le_n _)) as (t1 & v & a1 & Ht1 & Hs1 & Hl1 & Hf1 & H1 & H2 & H3 & _).
  pose proof (Inv_slot_run _ _ _ I Hs1) as Iv. rewrite Hr in H1.
  set (t := Z.max (now v) (notBefore (pending_ (slot h)))).
  destruct (step v (Ticks t)) as [w|] eqn:Et; [|cbn in Et; destruct (Z.ltb_spec t (now v)); [lia|done]].
  assert (step w (WTakes i) = Some (with_worker i (Took (pending_ (slot h))) (with_in_flight (gesture (pending_ (slot h))) (clear_slot (slot w)))
            (owner w) (session w) [ATook (pending_ (slot h))] w)) as Hk.
  { cbn in Et. destruct (t <? now v); [done|]. injection Et as <-. cbn. rewrite (proj1 Hl1). cbn. rewrite H1, H2.
    destruct (Z.ltb_spec t (notBefore (pending_ (slot h)))); [lia|done]. }
  set (x := with_worker i _ _ _ _ _ w) in Hk.
  assert (owner w = owner v /\ workers w = workers v /\ log w = log v) as (E1 & E2 & E3).
  { cbn in Et. destruct (t <? now v); [done|]. by injection Et as <-. }
  pose proof (Inv_slot_step _ _ _ (Inv_slot_step _ _ _ Iv Et) Hk) as Ix.
  assert (live x i (Took (pending_ (slot h)))) as Hlx by (split; [cbn; rewrite E2; eapply set_worker, Hl1|done]).
  destruct (worker_returns _ x i _ Ix Hlx ltac:(unfold free_for; cbn; by rewrite E1) (le_n _)) as (t2 & y & a2 & Ht2 & Hs2 & _ & _ & _ & _ & H5 & H6).
  exists i, (t1 ++ [Ticks t; WTakes i] ++ t2), y, (a1 ++ [ATook (pending_ (slot h))] ++ a2). split_and!.
  - apply Forall_app. split; [done|]. apply Forall_app. split; [by repeat constructor|done].
  - rewrite steps_split, Hs1. cbn [mbind option_bind app]. rewrite slot_steps_cons, Et. cbn [mbind option_bind]. by rewrite slot_steps_cons, Hk.
  - rewrite H5. cbn. rewrite E3, H3. by rewrite <- !app_assoc.
  - set_solver.
  - apply elem_of_app. right. apply elem_of_app. right. by apply H6.
Qed.

(** ** A recorded tap *)

(** What may take a request [r] out of the slot but its worker: a newer tap, the click that
    takes a row click back, a sign-out, an ending, which keeps a Disconnect, and the
    destructor. *)
Definition displaces (r : SessionRequest) (e : HostEvent) : Prop :=
  match e with
  | Presses k _ => k <> KindNone
  | RowClicks _ | ClearsForSignOut | DestructorDrains => True
  | CancelsRow => coalesced r = true
  | EndDrops => kind r <> Work KindDisconnect
  | _ => False
  end.

(** A request that is asked for. *)
Definition asks (h : Host) (e : HostEvent) : option SessionRequest :=
  match e with
  | Presses k loc => Some (press k loc)
  | RowClicks loc => Some (row_click loc (now h))
  | Reconciles => Some reconcile
  | _ => None
  end.

Definition is_stop (a : Act) : Prop := a = AStopLocked \/ a = AStopUnlocked.

(** The threads but the worker, who asks for nothing. *)
Definition others_step (h : Host) (e : HostEvent) (h' : Host) : Prop :=
  asks h e = None /\ workers h' = workers h /\ (exists acts, log h' = log h ++ acts /\ Forall is_stop acts) /\
  ((pendingRequested_ (slot h') = pendingRequested_ (slot h) /\ pending_ (slot h') = pending_ (slot h)) \/
   (pendingRequested_ (slot h') = false /\ displaces (pending_ (slot h)) e)) /\
  sessionWorkerAlive_ (slot h') = sessionWorkerAlive_ (slot h) /\ gestureIssued_ (slot h') = gestureIssued_ (slot h) /\
  gestureInFlight_ (slot h') = gestureInFlight_ (slot h) /\ (quitting_ (slot h) = true -> quitting_ (slot h') = true).

Lemma step_cases h e h' :
  step h e = Some h' ->
  (exists r, asks h e = Some r /\ h' = requests r h) \/ worker_step h e = Some h' \/ others_step h e h'.
Proof.
  intros Hs. assert (forall l : list Act, exists acts, l = l ++ acts /\ Forall is_stop acts) as Hnil by (intros l; exists []; by rewrite app_nil_r).
  assert (forall acts, Forall is_stop acts -> exists acts', log h ++ acts = log h ++ acts' /\ Forall is_stop acts') as Happ by eauto.
  destruct e; cbn [step] in Hs; try (right; left; exact Hs).
  all: try (left; eexists; split; [reflexivity|by injection Hs as <-]).
  all: right; right; unfold others_step; cbn [asks displaces].
  all: try (cbn [ending_step] in Hs).
  all: repeat match type of Hs with context [match ?x with _ => _ end] => destruct x eqn:?; try discriminate Hs end.
  all: injection Hs as <-; cbn.
  all: try (split_and!; auto; fail).
  - unfold CancelPendingRowConnect. destruct (_ && _) eqn:E; bool_hyps; cbn; split_and!; auto.
  - unfold drop_queued. destruct (_ && _) eqn:E; bool_hyps; cbn; split_and!; auto.
    right. split; [done|]. unfold KeepsQueued in *. bool_hyps. by intros Hk; rewrite Hk in *.
  - assert (Forall is_stop [AStopUnlocked]) by (repeat constructor; by right). split_and!; auto.
  - assert (Forall is_stop [AStopLocked]) by (repeat constructor; by left). split_and!; auto.
Qed.

(** What a request asked for does to a tap in the slot. *)
Lemma requests_spares_tap h r :
  pendingRequested_ (slot h) = true -> IsGesture (kind (pending_ (slot h))) = true ->
  quitting_ (slot h) = true \/ IsGesture (kind r) = false ->
  pendingRequested_ (slot (requests r h)) = true /\ pending_ (slot (requests r h)) = pending_ (slot h).
Proof.
  intros Hr Hg Hq. unfold requests, RequestSession. destruct (quitting_ (slot h)) eqn:Eq; [done|]. destruct Hq as [Hq|Hq]; [done|].
  destruct (negb _); [done|].
  assert (covered (slot h) r = true) as ->.
  { unfold covered. rewrite Hr. cbn. destruct (kind (pending_ (slot h))) as [[]|], (kind r) as [[]|]; done. }
  cbn. by destruct (sessionWorkerAlive_ (slot h)).
Qed.

Lemma asks_gesture h e r : asks h e = Some r -> IsGesture (kind r) = true -> displaces (pending_ (slot h)) e.
Proof. destruct e; cbn; intros [= <-]; try done. by destruct k. Qed.

(** The worker's step, for a request in the slot and for one it has taken. *)
Lemma worker_step_pending h e h' :
  worker_step h e = Some h' -> pendingRequested_ (slot h) = true ->
  (pendingRequested_ (slot h') = true /\ pending_ (slot h') = pending_ (slot h)) \/
  exists i, workers h' !! i = Some (Took (pending_ (slot h))) /\ log h' = log h ++ [ATook (pending_ (slot h))].
Proof.
  intros Hs Hr. destruct e; try done; cbn [worker_step] in Hs; destruct (workers h !! i) as [p|] eqn:Ei; try done.
  1: { destruct p; try done. rewrite Hr in Hs. destruct (_ <? _); [done|]. injection Hs as <-. right. exists i. split; [|done].
       by eapply set_worker. }
  all: left; repeat match type of Hs with context [match ?x with _ => _ end] => destruct x eqn:?; try discriminate Hs end; by injection Hs as <-.
Qed.

Lemma worker_step_taken h e h' i p r :
  Inv h -> worker_step h e = Some h' -> workers h !! i = Some p -> taken p = Some r ->
  exists acts, log h' = log h ++ acts /\ (AFinished r ∈ acts \/ exists q, workers h' !! i = Some q /\ taken q = Some r).
Proof.
  intros I Hs Hi Ht.
  assert (live h i p) as Hl by (split; [done|by intros ->]).
  assert (forall j q, workers h !! j = Some q -> q <> Exited -> j = i /\ q = p) as Huniq.
  { intros j q Hj Hq. destruct (live_at h i p I Hl) as (_ & Hw & _), (live_at h j q I (conj Hj Hq)) as (_ & Hw' & _).
    rewrite Hw in Hw'. pose proof (f_equal length Hw') as Hlen. rewrite !length_app, !length_replicate in Hlen. cbn in Hlen.
    apply app_inj_2 in Hw' as [_ [= ->]]; [|done]. split; [lia|done]. }
  destruct e; try done; cbn [worker_step] in Hs; destruct (workers h !! i0) as [q|] eqn:Ei; try done.
  all: assert (q <> Exited) as Hq by (by intros ->); destruct (Huniq i0 q Ei Hq) as [-> ->].
  all: destruct p as [|x|x|x [|c l]|x| |]; try done; injection Ht as ->.
  all: repeat match type of Hs with context [match ?x with _ => _ end] => destruct x eqn:?; try discriminate Hs end; injection Hs as <-.
  all: eexists; split; [reflexivity|]; try (right; eexists; split; [by eapply set_worker|done]).
  all: left; set_solver.
Qed.

Lemma step_log h e h' : step h e = Some h' -> exists acts, log h' = log h ++ acts.
Proof.
  intros Hs. destruct (step_cases h e h' Hs) as [(r & _ & ->)|[Hw|(_ & _ & (acts & Ha & _) & _)]]; [| |by exists acts].
  - exists []. unfold requests. destruct (RequestSession _ _). by rewrite app_nil_r.
  - destruct e; try done; cbn [worker_step] in Hw;
      repeat match type of Hw with context [match ?x with _ => _ end] => destruct x eqn:?; try discriminate Hw end; injection Hw as <-; eauto.
Qed.

Lemma steps_log h tr h' : steps h tr = Some h' -> exists acts, log h' = log h ++ acts.
Proof.
  revert h'. induction tr as [|e tr IH] using rev_ind; intros h' Hs; [injection Hs as <-; exists []; by rewrite app_nil_r|].
  rewrite slot_steps_end in Hs. apply bind_Some in Hs as (v & Hv & Hs). destruct (IH v Hv) as [b Hb], (step_log v e h' Hs) as [c Hc].
  exists (b ++ c). by rewrite Hc, Hb, app_assoc.
Qed.

(** C28: a tap is displaced only on purpose. A tap recorded in the slot - a connect of any kind
    or a disconnect - stays there until its worker takes it, unless a newer tap, the click
    that takes a row click back, a sign-out or the destructor displaces it, or an ending does,
    which keeps a disconnect. No ensure, no provider reconcile and no sign-in does. *)
Theorem tap_is_displaced_only_on_purpose h tr h' :
  pendingRequested_ (slot h) = true -> IsGesture (kind (pending_ (slot h))) = true ->
  steps h tr = Some h' -> Forall (fun e => ~ displaces (pending_ (slot h)) e) tr ->
  (pendingRequested_ (slot h') = true /\ pending_ (slot h') = pending_ (slot h)) \/
  exists acts, log h' = log h ++ acts /\ ATook (pending_ (slot h)) ∈ acts.
Proof.
  intros Hr Hg Hs Hd. revert h' Hs. induction tr as [|e tr IH] using rev_ind; intros h' Hs; [injection Hs as <-; by left|].
  rewrite slot_steps_end in Hs. apply bind_Some in Hs as (v & Hv & Hs). apply Forall_app in Hd as [Hd1 Hd2]. apply Forall_inv in Hd2.
  destruct (step_log v e h' Hs) as [acts Ha].
  destruct (IH Hd1 v Hv) as [[H1 H2]|(acts' & H1 & H2)]; [|right; exists (acts' ++ acts); rewrite Ha, H1, app_assoc; set_solver].
  destruct (step_cases v e h' Hs) as [(r & Hr' & ->)|[Hw|(_ & _ & _ & [[H3 H4]|[_ H3]] & _)]].
  - left. rewrite <- H2. apply requests_spares_tap; [done|by rewrite H2|]. right. destruct (IsGesture (kind r)) eqn:E; [|done].
    destruct Hd2. rewrite <- H2. by eapply asks_gesture.
  - destruct (worker_step_pending v e h' Hw H1) as [[H3 H4]|(i & _ & Hl)]; [left; by rewrite H4|right].
    destruct (steps_log h tr v Hv) as [b Hb].
    exists (b ++ [ATook (pending_ (slot v))]). rewrite Hl, Hb, H2, app_assoc. split; [done|set_solver].
  - left. by rewrite H3, H4.
  - rewrite H2 in H3. done.
Qed.

(** ** The hold of a tap *)

(** A gesture that waits in the slot or runs in a pass. *)
Definition outstanding (h : Host) (g : Z) : Prop :=
  g <> 0 /\ ((pendingRequested_ (slot h) = true /\ gesture (pending_ (slot h)) = g) \/
             exists i p r, live h i p /\ holds p = Some r /\ gesture r = g).

Definition act_gesture (a : Act) : Z :=
  match a with ATook r | ACall r _ | AProvider r _ | AFinished r => gesture r | _ => 0 end.

(** Every gesture through [g] has settled. *)
Definition quiet (s : Slot) (g : Z) : Prop :=
  (gesture (pending_ s) = 0 \/ g < gesture (pending_ s)) /\ (gestureInFlight_ s = 0 \/ g < gestureInFlight_ s).

Lemma SettledThrough_spec issued p f g :
  0 <= f <= issued -> p = 0 \/ p = issued /\ f < p -> g <= issued ->
  g <= SettledThrough issued p f <-> (p = 0 \/ g < p) /\ (f = 0 \/ g < f).
Proof.
  intros Hf Hp Hg. unfold SettledThrough. cbv zeta.
  destruct (Z.eqb_spec p 0), (Z.eqb_spec f 0); cbn [negb andb orb Z.eqb];
    repeat match goal with
      | |- context [?a =? ?b] => is_var a; destruct (Z.eqb_spec a b); cbn [negb andb orb]
      | |- context [?a <? ?b] => destruct (Z.ltb_spec a b); cbn [negb andb orb]
    end; lia.
Qed.

Lemma settled_quiet s g : pend_ok s -> g <= gestureIssued_ s -> g <= gesture_settled s <-> quiet s g.
Proof.
  intros (H1 & [H2 _] & H3 & H4) Hg. unfold gesture_settled, quiet.
  assert (gesture (pending_ s) = 0 \/ gesture (pending_ s) = gestureIssued_ s /\ gestureInFlight_ s < gesture (pending_ s)) as Hp.
  { destruct (IsGesture (kind (pending_ s))); [right; destruct (H3 eq_refl) as [-> ?]; lia|left; by apply H2]. }
  destruct (pendingRequested_ s) eqn:Er; [by rewrite SettledThrough_spec|]. rewrite SettledThrough_spec by auto. rewrite (H1 eq_refl). cbn. tauto.
Qed.

Lemma quiet_outstanding h g : Inv h -> 0 < g -> quiet (slot h) g <-> forall g', outstanding h g' -> g < g'.
Proof.
  intros I Hg. pose proof (inv_pend h I) as (H1 & H2 & H3 & H4). unfold quiet, outstanding. split.
  - intros [Hp Hf] g' [Hg' [[_ <-]|(i & p & r & Hl & Hr & <-)]]; [lia|].
    destruct (live_at h i p I Hl) as (_ & _ & _ & _ & Hx & _). unfold flight in Hx. rewrite Hr in Hx. lia.
  - intros H. split.
    + destruct (decide (gesture (pending_ (slot h)) = 0)); [by left|right]. apply H. split; [done|left].
      destruct (pendingRequested_ (slot h)) eqn:E; [done|]. by rewrite (H1 eq_refl) in n.
    + destruct (decide (gestureInFlight_ (slot h) = 0)); [by left|right]. apply H. split; [done|right].
      destruct (inv_shape h I) as [m Hm]. destruct (sessionWorkerAlive_ (slot h)); [|by destruct Hm as (_ & _ & ? & _)].
      destruct Hm as (p & Hw & Hp & _ & Hf & _). unfold flight in Hf. destruct (holds p) as [r|] eqn:Er; [|done].
      exists m, p, r. split; [|done]. split; [by rewrite Hw, last_lookup|done].
Qed.

Lemma quiet_step h e h' g :
  Inv h -> 0 < g -> quiet (slot h) g -> g <= gestureIssued_ (slot h) -> step h e = Some h' ->
  quiet (slot h') g /\ g <= gestureIssued_ (slot h') /\ exists acts, log h' = log h ++ acts /\ Forall (fun a => act_gesture a <> g) acts.
Proof.
  intros I Hg [Hp Hf] Hi Hs. pose proof (inv_pend h I) as (H1 & H2 & H3 & H4).
  destruct (step_cases h e h' Hs) as [(r & Hr & ->)|[Hw|(_ & _ & (acts & Ha & Hst) & Hpd & _ & Hi' & Hf' & _)]].
  - assert (gesture r = 0) as Hr0 by (destruct e; cbn in Hr; by simplify_eq).
    assert (exists acts, log (requests r h) = log h ++ acts /\ Forall (fun a => act_gesture a <> g) acts) as Hlog.
    { exists []. unfold requests. destruct (RequestSession _ _). by rewrite app_nil_r. }
    unfold requests, RequestSession, record_request, quiet in *.
    destruct (quitting_ (slot h)); [done|]. destruct (negb _); [done|]. destruct (covered _ _), (IsGesture (kind r)); cbn in *;
      destruct (sessionWorkerAlive_ (slot h)); cbn; split_and?; try done; lia.
  - destruct e; try done; cbn [worker_step] in Hw; destruct (workers h !! i) as [p|] eqn:Ei; try done.
    all: assert (p <> Exited) as Hpe by (by intros ->); destruct (live_at h i p I (conj Ei Hpe)) as (_ & _ & _ & _ & Hfl & _).
    all: destruct p as [|x|x|x [|c l]|x| |]; try done; unfold flight in Hfl; cbn in Hfl.
    all: repeat match type of Hw with context [match ?x with _ => _ end] => destruct x eqn:?; try discriminate Hw end; injection Hw as <-.
    all: unfold quiet; cbn; split; [split; try done; try lia; by left|]; split; [done|]; eexists; (split; [reflexivity|]).
    all: try (destruct Hp as [Hp|Hp]); try (destruct Hf as [Hf|Hf]).
    all: unfold reconciles; repeat match goal with |- context [match ?x with _ => _ end] => destruct x end.
    all: repeat constructor; cbn; lia.
  - split; [|split; [by rewrite Hi'|exists acts; split; [done|]; eapply Forall_impl; [exact Hst|]; intros a [-> | ->]; cbn; lia]].
    unfold quiet. rewrite Hf'. split; [|done]. destruct Hpd as [[_ ->]|[Hpd _]]; [done|].
    pose proof (inv_pend h' (Inv_slot_step _ _ _ I Hs)) as (H1' & _). rewrite (H1' Hpd). by left.
Qed.

(** C16: a tap's state is held until its pass is done, and no longer. A snapshot ends the hold of
    a gesture exactly when neither it nor an older one waits in the slot or runs in a pass; and
    once one does, every later snapshot does, and nothing more is done for the gesture. *)
Theorem hold_ends_with_its_pass signedIn tr h hold :
  steps (start_host signedIn) tr = Some h -> 0 < hold_gesture hold <= gestureIssued_ (slot h) ->
  (AfterSnapshot (Some hold) (gesture_settled (slot h)) = None <-> forall g, outstanding h g -> hold_gesture hold < g) /\
  (AfterSnapshot (Some hold) (gesture_settled (slot h)) = None -> forall tr' h', steps h tr' = Some h' ->
     AfterSnapshot (Some hold) (gesture_settled (slot h')) = None /\
     exists acts, log h' = log h ++ acts /\ Forall (fun a => act_gesture a <> hold_gesture hold) acts).
Proof.
  intros I%Inv_ran [Hg Hi].
  assert (forall s, AfterSnapshot (Some hold) (gesture_settled s) = None <-> hold_gesture hold <= gesture_settled s) as Hs.
  { intros s. unfold AfterSnapshot, Releases. destruct (Z.leb_spec (hold_gesture hold) (gesture_settled s)); split; try done; lia. }
  rewrite Hs, settled_quiet by (apply I || done). split; [by apply quiet_outstanding|]. intros Hq tr' h' Ht. rewrite Hs.
  assert (Inv h' /\ quiet (slot h') (hold_gesture hold) /\ hold_gesture hold <= gestureIssued_ (slot h') /\
          exists acts, log h' = log h ++ acts /\ Forall (fun a => act_gesture a <> hold_gesture hold) acts) as (I' & Hq' & Hi' & Ha).
  { clear tr. revert h' Ht. induction tr' as [|e tr' IH] using rev_ind; intros h' Ht.
    - injection Ht as <-. split_and!; try done. exists []. by rewrite app_nil_r.
    - rewrite slot_steps_end in Ht. apply bind_Some in Ht as (v & Hv & Ht). destruct (IH v Hv) as (Iv & Hqv & Hiv & acts & Ha & Hfa).
      destruct (quiet_step v e h' _ Iv Hg Hqv Hiv Ht) as (H1 & H2 & acts' & H3 & H4). split; [by eapply Inv_slot_step|]. split_and!; try done.
      exists (acts ++ acts'). rewrite H3, Ha, app_assoc. split; [done|]. by apply Forall_app. }
  split; [|done]. apply settled_quiet; [apply I'|done|done].
Qed.

(** ** The endings *)

(** A quit whose worker has gone: nothing is asked for and nothing runs. *)
Definition spent (h : Host) : Prop := quitting_ (slot h) = true /\ sessionWorkerAlive_ (slot h) = false.

Lemma spent_workers h i p : Inv h -> spent h -> workers h !! i = Some p -> p = Exited.
Proof.
  intros I [_ Ha] Hi. destruct (decide (p = Exited)) as [|Hp]; [done|]. destruct (live_at h i p I (conj Hi Hp)). congruence.
Qed.

Lemma spent_worker_step h e h' : Inv h -> spent h -> worker_step h e = Some h' -> False.
Proof.
  intros I Hsp Hw. destruct e; try done; cbn [worker_step] in Hw; destruct (workers h !! i) as [p|] eqn:Ei; try done.
  all: by rewrite (spent_workers h i p I Hsp Ei) in Hw.
Qed.

Lemma quit_requests h r : quitting_ (slot h) = true -> requests r h = h.
Proof. intros Hq. unfold requests, RequestSession. rewrite Hq. by destruct h. Qed.

Lemma spent_step h e h' :
  Inv h -> spent h -> step h e = Some h' ->
  spent h' /\ exists acts, log h' = log h ++ acts /\ Forall is_stop acts.
Proof.
  intros I [Hq Ha] Hs. destruct (step_cases h e h' Hs) as [(r & _ & ->)|[Hw|(_ & _ & Hl & _ & Ha' & _ & _ & Hq')]].
  - rewrite quit_requests by done. split; [done|]. exists []. by rewrite app_nil_r.
  - by destruct (spent_worker_step h e h' I (conj Hq Ha) Hw).
  - split; [|done]. split; [by apply Hq'|congruence].
Qed.

Lemma settled_step h e h' :
  Inv h -> quitting_ (slot h) = true -> settled_at (end_pc h) = true -> step h e = Some h' ->
  settled_at (end_pc h') = true /\ exists acts, log h' = log h ++ acts /\ Forall (eq AStopLocked) acts.
Proof.
  intros I Hq Hst Hs. pose proof (inv_settled h I Hq Hst) as Ha.
  assert (forall l : list Act, exists acts, l = l ++ acts /\ Forall (eq AStopLocked) acts) as Hnil by (intros l; exists []; by rewrite app_nil_r).
  destruct (step_cases h e h' Hs) as [(r & _ & ->)|[Hw|_]].
  - unfold requests, RequestSession. rewrite Hq. auto.
  - by destruct (spent_worker_step h e h' I (conj Hq Ha) Hw).
  - destruct e; cbn [step] in Hs; try (by destruct (spent_worker_step h _ h' I (conj Hq Ha) Hs)).
    all: try (cbn [ending_step] in Hs).
    all: destruct (end_pc h) as [| | |settled|settled|settled|settled|settled] eqn:Ep; try done; cbn in Hst; try subst settled; cbn [StopRouteFor] in Hs.
    all: repeat match type of Hs with context [match ?x with _ => _ end] => destruct x; try discriminate Hs end.
    all: injection Hs as <-; rewrite ?quit_requests by done; cbn; rewrite ?Ep, ?app_nil_r; cbn; try (split; [done|apply Hnil]).
    all: split; [done|]; eexists; split; [reflexivity|]; by repeat constructor.
Qed.

(** C23: a quit that settled has the last word. Once the quit's wait has ended with the session
    worker gone, nothing runs but its own stop under the lock: no pass, no call, no provider
    reconcile, whatever is asked and however long the process lives on. *)
Theorem settled_quit_has_the_last_word signedIn tr h tr' h' :
  steps (start_host signedIn) tr = Some h -> quitting_ (slot h) = true -> settled_at (end_pc h) = true -> steps h tr' = Some h' ->
  (forall i p, ~ live h' i p) /\ exists acts, log h' = log h ++ acts /\ Forall (eq AStopLocked) acts.
Proof.
  intros I%Inv_ran Hq Hst Hs.
  assert (Inv h' /\ quitting_ (slot h') = true /\ settled_at (end_pc h') = true /\
          exists acts, log h' = log h ++ acts /\ Forall (eq AStopLocked) acts) as (I' & Hq' & Hst' & Ha).
  { clear tr. revert h' Hs. induction tr' as [|e tr' IH] using rev_ind; intros h' Hs.
    - injection Hs as <-. split_and!; try done. exists []. by rewrite app_nil_r.
    - rewrite slot_steps_end in Hs. apply bind_Some in Hs as (v & Hv & Hs). destruct (IH v Hv) as (Iv & Hqv & Hsv & acts & Ha & Hf).
      destruct (settled_step v e h' Iv Hqv Hsv Hs) as (H1 & acts' & H2 & H3).
      destruct (spent_step v e h' Iv (conj Hqv (inv_settled v Iv Hqv Hsv)) Hs) as [[H4 _] _].
      split; [by eapply Inv_slot_step|]. split_and!; try done. exists (acts ++ acts'). rewrite H2, Ha, app_assoc. split; [done|]. by apply Forall_app. }
  split; [|done]. intros i p [Hi Hp]. apply Hp. apply (spent_workers h' i p I'); [|done]. split; [done|]. by apply (inv_settled h' I').
Qed.

(** The user's disconnect runs before the app is gone. A Disconnect that waits in the slot
    when a quit closes it is taken and brought to its end before the quit's wait can end with
    the worker gone, whatever else is asked meanwhile but a sign-out. *)
Theorem queued_disconnect_runs_first signedIn tr h tr' h' :
  steps (start_host signedIn) tr = Some h -> end_pc h = Closing -> quitting_ (slot h) = true ->
  pendingRequested_ (slot h) = true -> kind (pending_ (slot h)) = Work KindDisconnect ->
  steps h tr' = Some h' -> ClearsForSignOut ∉ tr' -> settled_at (end_pc h') = true ->
  exists acts, log h' = log h ++ acts /\ AFinished (pending_ (slot h)) ∈ acts.
Proof.
  intros I%Inv_ran _ Hq Hr Hk Hs Hc Hst. set (r := pending_ (slot h)) in *.
  assert (Inv h' /\ quitting_ (slot h') = true /\ exists acts, log h' = log h ++ acts /\
    (AFinished r ∈ acts \/ (pendingRequested_ (slot h') = true /\ pending_ (slot h') = r) \/
     exists i p, workers h' !! i = Some p /\ taken p = Some r)) as (I' & Hq' & acts & Ha & Hor).
  { clear Hst. revert h' Hs. induction tr' as [|e tr' IH] using rev_ind; intros h' Hs.
    - injection Hs as <-. split_and!; try done. exists []. rewrite app_nil_r. auto.
    - rewrite slot_steps_end in Hs. apply bind_Some in Hs as (v & Hv & Hs). apply not_elem_of_app in Hc as [Hc1 Hc2].
      destruct (IH Hc1 v Hv) as (Iv & Hqv & acts & Ha & Hor). split; [by eapply Inv_slot_step|].
      destruct (step_log v e h' Hs) as [b Hb].
      assert (quitting_ (slot h') = true) as Hq'.
      { destruct (step_cases v e h' Hs) as [(x & _ & ->)|[Hw|(_ & _ & _ & _ & _ & _ & _ & Hx)]]; [| |by apply Hx].
        - by rewrite quit_requests.
        - destruct e; try done; cbn [worker_step] in Hw;
            repeat match type of Hw with context [match ?x with _ => _ end] => destruct x eqn:?; try discriminate Hw end; by injection Hw as <-. }
      split; [done|]. exists (acts ++ b). rewrite Hb, Ha, app_assoc. split; [done|].
      destruct Hor as [Hf|[[H1 H2]|(i & p & Hi & Ht)]]; [left; set_solver| |].
      + destruct (step_cases v e h' Hs) as [(x & _ & ->)|[Hw|(Hx & _ & _ & [[H3 H4]|[_ H3]] & _)]].
        * right; left. by rewrite quit_requests.
        * destruct (worker_step_pending v e h' Hw H1) as [[H3 H4]|(i & Hi & _)]; [right; left; by rewrite H4|].
          right; right. exists i. eexists. split; [exact Hi|]. cbn. by rewrite H2.
        * right; left. by rewrite H3, H4.
        * rewrite H2 in H3. pose proof (inv_pend v Iv) as (_ & [_ Hco] & _). rewrite H2 in Hco. destruct e; cbn in H3, Hx; try done.
          -- by destruct Hco.
          -- set_solver.
          -- cbn in Hs. destruct (exit_pc v) eqn:Ep; try done.
             pose proof (inv_exit v Iv Hqv ltac:(by rewrite Ep)) as Hd. rewrite (requested_alive v Iv H1) in Hd. done.
      + destruct (step_cases v e h' Hs) as [(x & _ & ->)|[Hw|(_ & Hx & _)]]; [right; right|..].
        * rewrite quit_requests by done. eauto.
        * destruct (worker_step_taken v e h' i p r Iv Hw Hi Ht) as (b' & Hb' & Hor). rewrite Hb in Hb'. apply app_inv_head in Hb' as ->.
          destruct Hor as [?|Hor]; [left; set_solver|eauto].
        * right; right. rewrite Hx. eauto. }
  pose proof (inv_settled h' I' Hq' Hst) as Hd. destruct Hor as [?|[[Hp _]|(i & p & Hi & Ht)]]; [eauto|..].
  - by rewrite (requested_alive h' I' Hp) in Hd.
  - rewrite (spent_workers h' i p I' (conj Hq' Hd) Hi) in Ht. done.
Qed.

Lemma spent_run h tr h' : Inv h -> spent h -> steps h tr = Some h' -> Inv h' /\ spent h'.
Proof.
  intros I Hsp. revert h'. induction tr as [|e tr IH] using rev_ind; intros h' Hs; [by injection Hs as <-|].
  rewrite slot_steps_end in Hs. apply bind_Some in Hs as (v & Hv & Hs). destruct (IH v Hv) as [Iv Hv'].
  split; [by eapply Inv_slot_step|]. by destruct (spent_step v e h' Iv Hv' Hs).
Qed.

(** A quit destroys no host with a worker in it. Where the app, after a quit, asks whether
    the host may go and is told so, no worker is in it from then on, whatever comes. *)
Theorem quit_destroys_an_idle_host signedIn tr h tr' h' :
  steps (start_host signedIn) tr = Some h -> quitting_ (slot h) = true -> destroys (exit_pc h) = true -> steps h tr' = Some h' ->
  forall i p, ~ live h' i p.
Proof.
  intros I%Inv_ran Hq Hd Hs. destruct (spent_run h tr' h' I (conj Hq (inv_exit h I Hq Hd)) Hs) as [I' Hsp].
  intros i p [Hi Hp]. by apply Hp, (spent_workers h' i p I').
Qed.

(** ** Where an ending does not hold what it says *)

Definition demo_connect : SessionRequest := mkRequest (Work BestAvailable) None 0 false 1.

(** A quit that did not settle: a connect was taken and waits for the lock another thread holds
    through the wait; the quit stops the service without it, gets it next, stops the service
    and ends. *)
Definition overtaken_quit : list HostEvent :=
  [Presses BestAvailable None; OtherLocks; WTakes 0; Ends EndQuit; EndDrops; Ticks 5000; EndWaits; QuitStopsFirst true;
   OtherUnlocks; QuitLocks; QuitStops true; QuitEnds; WLocks 0; WDecides 0 idle_answers; WCalls 0].

(** A pass can follow a quit's stop. Where the quit's wait ended at its cap with a pass that
    has its request but not yet the lock, nothing in the pass asks whether the app quits: after
    both stops of the service it still runs its connect's bootstrap, which may start a tunnel. *)
Example pass_can_follow_the_stop :
  exists h, steps (start_host true) overtaken_quit = Some h /\ quitting_ (slot h) = true /\ end_pc h = QuitOver false /\
    log h = [ATook demo_connect; AStopUnlocked; AStopLocked; ACall demo_connect (PBootstrap false)].
Proof. eexists. split; [vm_compute; reflexivity|]. done. Qed.

(** A close request: the worker is idle, the host is said to be destroyable, and the watchdog's
    recovery asks for a session before the destructor stops it. *)
Definition watchdog_in_the_exit : list HostEvent :=
  [Ends CloseRequest; EndDrops; EndWaits; ExitAsks false; Presses KindNone None; WTakes 0; DestructorDrains; DestructorEnds].

(** A close request leaves the slot open. It settles and is told the host may be destroyed,
    but closes nothing: a request after the answer starts a worker, and the host can be
    destroyed with that worker about to lock its mutex. *)
Theorem close_request_leaves_the_slot_open :
  exists h, steps (start_host true) watchdog_in_the_exit = Some h /\ end_pc h = Waited true /\ exit_pc h = Destroyed /\
    live h 0 (Took (press KindNone None)).
Proof. eexists. split; [vm_compute; reflexivity|]. by repeat split. Qed.

(** * Examples *)

Definition reach (tr : list HostEvent) : Host := default (start_host true) (steps (start_host true) tr).

(** A pass in the lock, and a second tap behind it. *)
Definition busy_host : list HostEvent :=
  [Presses BestAvailable None; WTakes 0; WLocks 0; WDecides 0 idle_answers; RowClicks (Some 7)].

Lemma one_worker_at_a_time_witness :
  (forall i p j q, live (reach busy_host) i p -> live (reach busy_host) j q -> i = j /\ p = q) /\
  (forall i p, live (reach busy_host) i p -> (in_pass p = true <-> owner (reach busy_host) = Some (ByWorker i)) /\
     gestureInFlight_ (slot (reach busy_host)) = flight p) /\
  (pendingRequested_ (slot (reach busy_host)) = true -> exists i p, live (reach busy_host) i p).
Proof. apply (one_worker_at_a_time true busy_host (reach busy_host)). vm_compute. reflexivity. Defined.

Lemma recorded_request_is_served_witness :
  exists i tr' h' acts, Forall (own i) tr' /\ steps (reach busy_host) tr' = Some h' /\ log h' = log (reach busy_host) ++ acts /\
    ATook (pending_ (slot (reach busy_host))) ∈ acts /\ AFinished (pending_ (slot (reach busy_host))) ∈ acts.
Proof.
  apply (recorded_request_is_served true busy_host (reach busy_host)); [vm_compute; reflexivity|vm_compute; reflexivity|..];
    vm_compute; discriminate.
Defined.

(** The pass ends, an ensure and a reconcile come, the settle runs out. *)
Definition quiet_second : list HostEvent :=
  [Presses KindNone None; Reconciles; WCalls 0; WCalls 0; WReconciles 0 idle_reads; WSettles 0; WPublishes 0; Ticks 1200; WTakes 0].

Lemma tap_is_displaced_only_on_purpose_witness :
  (pendingRequested_ (slot (reach (busy_host ++ quiet_second))) = true /\
   pending_ (slot (reach (busy_host ++ quiet_second))) = pending_ (slot (reach busy_host))) \/
  exists acts, log (reach (busy_host ++ quiet_second)) = log (reach busy_host) ++ acts /\ ATook (pending_ (slot (reach busy_host))) ∈ acts.
Proof.
  apply (tap_is_displaced_only_on_purpose (reach busy_host) quiet_second (reach (busy_host ++ quiet_second)));
    [vm_compute; reflexivity|vm_compute; reflexivity|vm_compute; reflexivity|].
  repeat constructor; try (intros H; exact H). intros H. apply H. reflexivity.
Defined.

Lemma hold_ends_with_its_pass_witness :
  let h := reach (busy_host ++ quiet_second) in
  AfterSnapshot (Some (mkHold 1 TapConnect)) (gesture_settled (slot h)) = None /\
  (AfterSnapshot (Some (mkHold 1 TapConnect)) (gesture_settled (slot h)) = None <-> forall g, outstanding h g -> 1 < g).
Proof.
  split; [vm_compute; reflexivity|].
  refine (proj1 (hold_ends_with_its_pass true (busy_host ++ quiet_second) (reach (busy_host ++ quiet_second)) (mkHold 1 TapConnect) _ _));
    [vm_compute; reflexivity|vm_compute; split; [reflexivity|discriminate]].
Defined.

(** A Disconnect is tapped behind the pass, and the user quits. *)
Definition quits : list HostEvent :=
  [Presses BestAvailable None; WTakes 0; WLocks 0; WDecides 0 idle_answers; Presses KindDisconnect None; Ends EndQuit].
Definition quit_settles : list HostEvent :=
  [EndDrops; RowClicks (Some 3); WCalls 0; WCalls 0; WReconciles 0 idle_reads; WSettles 0; WPublishes 0;
   WTakes 0; WLocks 0; WDecides 0 idle_answers; WCalls 0; WCalls 0; WReconciles 0 idle_reads; WSettles 0; WPublishes 0; WTakes 0; EndWaits].

Lemma queued_disconnect_runs_first_witness :
  exists acts, log (reach (quits ++ quit_settles)) = log (reach quits) ++ acts /\
    AFinished (mkRequest (Work KindDisconnect) None 0 false 2) ∈ acts.
Proof.
  refine (queued_disconnect_runs_first true quits (reach quits) quit_settles (reach (quits ++ quit_settles)) _ _ _ _ _ _ _ _);
    [vm_compute; reflexivity..| |vm_compute; reflexivity].
  intros H. repeat (apply elem_of_cons in H as [H|H]; [discriminate H|]). by apply elem_of_nil in H.
Defined.

Definition quit_ends : list HostEvent := [Presses Selected None; QuitStopsFirst true; QuitLocks; QuitStops true; QuitEnds; ExitAsks false].

Lemma settled_quit_has_the_last_word_witness :
  (forall i p, ~ live (reach (quits ++ quit_settles ++ quit_ends)) i p) /\
  exists acts, log (reach (quits ++ quit_settles ++ quit_ends)) = log (reach (quits ++ quit_settles)) ++ acts /\ Forall (eq AStopLocked) acts.
Proof.
  apply (settled_quit_has_the_last_word true (quits ++ quit_settles) (reach (quits ++ quit_settles)) quit_ends
           (reach (quits ++ quit_settles ++ quit_ends))); vm_compute; reflexivity.
Defined.

Lemma quit_destroys_an_idle_host_witness :
  forall i p, ~ live (reach (quits ++ quit_settles ++ quit_ends ++ [Presses KindNone None; DestructorDrains; DestructorEnds])) i p.
Proof.
  apply (quit_destroys_an_idle_host true (quits ++ quit_settles ++ quit_ends) (reach (quits ++ quit_settles ++ quit_ends))
           [Presses KindNone None; DestructorDrains; DestructorEnds]); vm_compute; reflexivity.
Defined.
