(* ===== verification/Bootstrap.v ===== *)
(** The session the app drives over the service's rpc listener: the record of it on disk
    (Common/RpcSessionBlob.h), and, of App/SdkHost.cpp, its protected file (SaveRpcSession,
    LoadRpcSession, ClearRpcSession), the bootstrap that adopts a running session or starts one
    (BootstrapSession), the callback that confirms the record, TeardownSessionLocked and the
    check of the rpc's sync (CheckSessionSync).  The steps are what [mutex_] does not cover:
    callbacks come between them, and the process may end at each.  JSON is a library's and the
    protection of the file is the system's: parameters. *)

From S2P Require Import Prelude.
From S2P Require Import CxxText.
From S2P Require Import Health.
From S2P Require Import Gesture.

(** * The record *)

Definition kCurrentVersion : Z := 1.

Inductive RecordState := Pending | Confirmed | Invalid.
#[export] Instance RecordState_eq_dec : EqDecision RecordState.
Proof. solve_decision. Defined.

(** [ToString]. *)
Definition record_state_text (s : RecordState) : text :=
  match s with Confirmed => txt "confirmed" | Pending => txt "pending" | Invalid => txt "invalid" end.

Record Blob := mkBlob {
  version : Z; record_state : RecordState; client_pem : text; server_cert_pem : text; host_port : text;
  instance_id : text; rpc_session_id : text }.
#[export] Instance Blob_eq_dec : EqDecision Blob.
Proof. solve_decision. Defined.

Definition with_state (s : RecordState) (b : Blob) : Blob :=
  mkBlob (version b) s (client_pem b) (server_cert_pem b) (host_port b) (instance_id b) (rpc_session_id b).

Definition IsHex (c : ascii) : bool :=
  ((48 <=? ord c) && (ord c <=? 57)) || ((97 <=? ord c) && (ord c <=? 102)) || ((65 <=? ord c) && (ord c <=? 70)).

(** The loop of [IsPairableInstanceId], from position [i]. *)
Fixpoint uuid_loop (i : Z) (s : text) (anyNonZero : bool) : bool :=
  match s with
  | [] => anyNonZero
  | c :: s' =>
      if (i =? 8) || (i =? 13) || (i =? 18) || (i =? 23) then
        if negb (bool_decide (c = "-"%char)) then false else uuid_loop (i + 1) s' anyNonZero
      else if negb (IsHex c) then false
      else uuid_loop (i + 1) s' (anyNonZero || negb (bool_decide (c = "0"%char)))
  end.

Definition IsPairableInstanceId (s : text) : bool :=
  if negb (size s =? 36) then false else uuid_loop 0 s false.

Definition IsOpaqueSessionId (s : text) : bool :=
  if (size s <? 16) || (256 <? size s) then false else
  forallb (fun c => negb ((ord c <=? 32) || (ord c =? 127))) s.

Definition IsAdoptable (b : Blob) : bool :=
  let knownState := bool_decide (record_state b = Pending) || bool_decide (record_state b = Confirmed) in
  (version b =? kCurrentVersion) && knownState && IsPairableInstanceId (instance_id b) &&
  IsOpaqueSessionId (rpc_session_id b) && negb (bool_decide (client_pem b = [])) &&
  negb (bool_decide (server_cert_pem b = [])) && negb (bool_decide (host_port b = [])).

Definition MatchesLiveSession (b : Blob) (instanceId rpcSessionId hostPort : text) : bool :=
  IsAdoptable b && teqb (instance_id b) instanceId && teqb (rpc_session_id b) rpcSessionId && teqb (host_port b) hostPort.

(** * The library and the system *)

(** A document's value, as far as a record is read from it. *)
Inductive JValue := JString (t : text) | JInteger (z : Z) | JOther.
Abbreviation JObject := (list (text * JValue)).

Fixpoint jfind (j : JObject) (key : text) : option JValue :=
  match j with [] => None | (k, v) :: j' => if teqb k key then Some v else jfind j' key end.

(** [json::parse] without exceptions, [None] when the text is none or no object; and
    [json::dump], which throws on what is no UTF-8. *)
Class Json := { json_parse : text -> option JObject; json_dump : JObject -> option text }.

(** What a dump writes is read back. *)
Definition json_law `{Json} : Prop :=
  forall j t, NoDup j.*1 -> json_dump j = Some t -> exists j', json_parse t = Some j' /\ forall k, jfind j' k = jfind j k.

(** [CryptProtectData] and [CryptUnprotectData]. *)
Class Vault := { protect : text -> option text; unprotect : text -> option text }.
Definition vault_law `{Vault} : Prop := forall p e, protect p = Some e -> unprotect e = Some p.

Definition kRpcSessionFileMagic : text := txt "URNETRPC1" ++ [ascii_of_N 10].
Definition kMaxRpcSessionFileBytes : Z := 1024 * 1024.

(** [ReadRpcSessionBytes]: whether the file can be opened and read. *)
Definition ReadRpcSessionBytes (file : option text) (reads : bool) : option text :=
  match file with
  | Some bytes => if reads && (0 <? size bytes) && (size bytes <=? kMaxRpcSessionFileBytes) then Some bytes else None
  | None => None
  end.

(** [WriteRpcSessionBytes]: the new file moved over the old one, or the old one kept. *)
Definition WriteRpcSessionBytes (file : option text) (bytes : text) (writes : bool) : option text * bool :=
  if bool_decide (bytes = []) || (2 ^ 32 - 1 <? size bytes) || negb writes then (file, false) else (Some bytes, true).

(** A removal can fail, and says nothing. *)
Definition ClearRpcSession (file : option text) (removes : bool) : option text := if removes then None else file.

Section Store.
Context {J : Json} {V : Vault}.

Definition StringField (j : JObject) (key : text) : text :=
  match jfind j key with Some (JString t) => t | _ => [] end.

(** [get<std::int64_t>()] of an unsigned value wraps. *)
Definition IntegerField (j : JObject) (key : text) (fallback : Z) : Z :=
  match jfind j key with Some (JInteger z) => if z <=? int64_max then z else z - 2 ^ 64 | _ => fallback end.

Definition record_object (b : Blob) : JObject :=
  [(txt "version", JInteger (version b)); (txt "state", JString (record_state_text (record_state b)));
   (txt "client_pem", JString (client_pem b)); (txt "server_cert_pem", JString (server_cert_pem b));
   (txt "host_port", JString (host_port b)); (txt "instance_id", JString (instance_id b));
   (txt "rpc_session_id", JString (rpc_session_id b))].

(** [None]: the dump throws. *)
Definition Serialize (b : Blob) : option text := json_dump (record_object b).

Definition Parse (t : text) : option Blob :=
  match json_parse t with
  | None => None
  | Some j =>
      let st := StringField j (txt "state") in
      let id := StringField j (txt "instance_id") in
      let b := mkBlob (IntegerField j (txt "version") 0)
                 (if teqb st (txt "confirmed") then Confirmed else if teqb st (txt "pending") then Pending else Invalid)
                 (StringField j (txt "client_pem")) (StringField j (txt "server_cert_pem")) (StringField j (txt "host_port"))
                 (if IsPairableInstanceId id then id else []) (StringField j (txt "rpc_session_id")) in
      if bool_decide (host_port b = []) then None else Some b
  end.

(** The file after, and whether it was saved; [None]: the record could not be serialized, and
    the call throws. *)
Definition SaveRpcSession (file : option text) (s : Blob) (writes : bool) : option (option text * bool) :=
  plaintext ← Serialize s;
  Some (match protect plaintext with
        | None => (file, false)
        | Some encrypted => WriteRpcSessionBytes file (kRpcSessionFileMagic ++ encrypted) writes
        end).

Record RpcSessionLoad := mkLoad { record : option Blob; diagnostic : text; legacyPlaintext : bool }.

Definition load_record (plaintext : text) (legacy : bool) : RpcSessionLoad :=
  let r := Parse plaintext in
  mkLoad r
    (match r with
     | None => txt "corrupt"
     | Some b =>
         if legacy then txt "legacy-plaintext"
         else if negb (IsAdoptable b) then txt "unsupported-or-incomplete"
         else record_state_text (record_state b)
     end) legacy.

(** [existenceError]: asking whether the file exists failed. *)
Definition LoadRpcSession (file : option text) (reads existenceError : bool) : RpcSessionLoad :=
  match ReadRpcSessionBytes file reads with
  | None => mkLoad None (if bool_decide (is_Some file) || existenceError then txt "present-but-unreadable" else txt "missing") false
  | Some all =>
      if has_prefix kRpcSessionFileMagic all then
        match unprotect (drop (length kRpcSessionFileMagic) all) with
        | None => mkLoad None (txt "encrypted-but-unreadable") false
        | Some plaintext => load_record plaintext false
        end
      else load_record all true
  end.

End Store.

(** * The app and the service *)

(** What a status says of the service's session; a call that got none says an error. *)
Record SessionStatus := mkSession_status {
  h_state : TunnelState; h_mode : StartMode; h_routes : bool; h_protocol : Z;
  h_instance : text; h_session : text; h_hostport : text; h_error : text }.
Definition lost_reply (what : text) : SessionStatus := mkSession_status StateError ModeTunnel false 0 [] [] [] what.

Definition kProtocolVersion : Z := 4.
Definition kFirstStartModeVersion : Z := 2.
Definition kFirstRpcSessionIdentityVersion : Z := 3.
Definition kFirstDeferredCaptureVersion : Z := 4.

(** The reasons of [bootstrapError_]. *)
Inductive Why :=
| NoCredentials | Unreachable | SignOutOwed | NeedsDeferredCapture | NeedsIdentity (v : Z) | TooNew (v : Z)
| TooOldForRpcOnly (v : Z) | RealTunnelRuns | NotPersisted | StartFailed (error : text) | OtherIdentity
| BuiltATunnel | ReportedRoutes | Threw.
#[export] Instance Why_eq_dec : EqDecision Why.
Proof. solve_decision. Defined.

(** The DeviceRemote: the sign-in and the instance it was made with, and the server it dials. *)
Record Device := mkDevice { d_jwt : text; d_instance : text; d_server : option (text * text * text) }.

(** What of [start_tunnel] names the session; the rest of the request is the device's. *)
Record StartConfig := mkConfig {
  by_jwt : text; cfg_instance : text; rpc_server_pem : text; rpc_client_cert_pem : text;
  rpc_listen_hostport : text; cfg_session : text; cfg_mode : StartMode; kill_switch : bool }.

(** [DeviceRpcKeyMaterial], [RandomLoopbackHostPort] and [generateNonce]. *)
Record Keys := mkKeys { k_client : text; k_server_cert : text; k_server : text; k_client_cert : text; k_hostport : text; k_nonce : text }.

Inductive Call :=
| CConnect | CHello | CSave (b : Blob) (saved : bool) | CStartTunnel (cfg : StartConfig) | CStopTunnel
| CNewDevice (jwt instance : text) | CSetRpcServer (client server hostPort : text).

(** The members the session is kept in, with the listeners its devices ever registered and the
    checks the sync watchdog was ever armed with. The 64-bit counter of generations is exact. *)
Record App := mkApp {
  requestedMode_ : StartMode; file_ : option text; device_ : option Device;
  sessionGeneration_ : Z; active_ : Z; confirmed_ : Z;
  sessionMode_ : StartMode; hasSession_ : bool; sessionRpcHostPort_ : text;
  bootstrapError_ : option Why; retryable_ : bool; declined_ : bool;
  listeners_ : list (Z * Blob); arms_ : list (Z * bool) }.

Definition start_app (requested : StartMode) (file : option text) : App :=
  mkApp requested file None 0 0 0 ModeRpcOnly false [] None false false [] [].

Definition with_file (f : option text) (a : App) : App :=
  mkApp (requestedMode_ a) f (device_ a) (sessionGeneration_ a) (active_ a) (confirmed_ a) (sessionMode_ a) (hasSession_ a)
    (sessionRpcHostPort_ a) (bootstrapError_ a) (retryable_ a) (declined_ a) (listeners_ a) (arms_ a).
Definition with_device (d : option Device) (a : App) : App :=
  mkApp (requestedMode_ a) (file_ a) d (sessionGeneration_ a) (active_ a) (confirmed_ a) (sessionMode_ a) (hasSession_ a)
    (sessionRpcHostPort_ a) (bootstrapError_ a) (retryable_ a) (declined_ a) (listeners_ a) (arms_ a).
Definition with_generations (g active confirmed : Z) (a : App) : App :=
  mkApp (requestedMode_ a) (file_ a) (device_ a) g active confirmed (sessionMode_ a) (hasSession_ a)
    (sessionRpcHostPort_ a) (bootstrapError_ a) (retryable_ a) (declined_ a) (listeners_ a) (arms_ a).
Definition with_mode (m : StartMode) (a : App) : App :=
  mkApp (requestedMode_ a) (file_ a) (device_ a) (sessionGeneration_ a) (active_ a) (confirmed_ a) m (hasSession_ a)
    (sessionRpcHostPort_ a) (bootstrapError_ a) (retryable_ a) (declined_ a) (listeners_ a) (arms_ a).
Definition with_session (has : bool) (hostPort : text) (a : App) : App :=
  mkApp (requestedMode_ a) (file_ a) (device_ a) (sessionGeneration_ a) (active_ a) (confirmed_ a) (sessionMode_ a) has
    hostPort (bootstrapError_ a) (retryable_ a) (declined_ a) (listeners_ a) (arms_ a).
Definition with_outcome (why : option Why) (retryable declined : bool) (a : App) : App :=
  mkApp (requestedMode_ a) (file_ a) (device_ a) (sessionGeneration_ a) (active_ a) (confirmed_ a) (sessionMode_ a) (hasSession_ a)
    (sessionRpcHostPort_ a) why retryable declined (listeners_ a) (arms_ a).
Definition with_watch (listeners : list (Z * Blob)) (arms : list (Z * bool)) (a : App) : App :=
  mkApp (requestedMode_ a) (file_ a) (device_ a) (sessionGeneration_ a) (active_ a) (confirmed_ a) (sessionMode_ a) (hasSession_ a)
    (sessionRpcHostPort_ a) (bootstrapError_ a) (retryable_ a) (declined_ a) listeners arms.

(** * The bootstrap *)

(** What is wired: the credentials are the record's in both branches. *)
Record Wire := mkWire { w_jwt : text; w_instance : text; w_record : Blob; w_reattaching : bool }.

(** Where a bootstrap is between its calls: over, with the record saved and the start to send,
    with a session to wire. *)
Inductive Progress := Idle | Ready (cfg : StartConfig) (b : Blob) | Wiring (w : Wire).

(** The refusals of a hello, and whether the watchdog tries again. *)
Definition gate_hello (requested : StartMode) (h : SessionStatus) : option (Why * bool) :=
  if bool_decide (requested = ModeTunnel) && (h_protocol h <? kFirstDeferredCaptureVersion) then Some (NeedsDeferredCapture, true) else
  if h_protocol h <? kFirstRpcSessionIdentityVersion then Some (NeedsIdentity (h_protocol h), true) else
  if kProtocolVersion <? h_protocol h then Some (TooNew (h_protocol h), true) else
  if bool_decide (requested = ModeRpcOnly) then
    if h_protocol h <? kFirstStartModeVersion then Some (TooOldForRpcOnly (h_protocol h), false) else
    if IsSessionLive (h_state h) && bool_decide (h_mode h = ModeTunnel) then Some (RealTunnelRuns, false) else None
  else None.

(** The answers up to the start: the sign-in and the stored identity, the channel and the dial,
    the owed sign-out, the hello, the file, the fresh material ([None]: making it throws), the
    stored kill switch, the write, and whether the channel is up where it threw. *)
Record BeginAnswers := mkBegin {
  signedIn : bool; byClientJwt : text; storedInstance : text; isConnected : bool; connects : bool; signOutOwed : bool;
  hello : SessionStatus; reads : bool; existenceError : bool; removes : bool; keys : option Keys; killSwitchOn : bool;
  writes : bool; connectedAfter : bool }.

Definition fresh_record (instance : text) (k : Keys) : Blob :=
  mkBlob kCurrentVersion Pending (k_client k) (k_server_cert k) (k_hostport k) instance (k_nonce k).
Definition fresh_config (i : BeginAnswers) (requested : StartMode) (k : Keys) : StartConfig :=
  mkConfig (byClientJwt i) (storedInstance i) (k_server k) (k_client_cert k) (k_hostport k) (k_nonce k) requested (killSwitchOn i).

Section Run.
Context {J : Json} {V : Vault}.

(** The fresh session's material, saved before anything is started. *)
Definition PrepareSession (i : BeginAnswers) (calls : list Call) (a : App) : App * list Call * Progress :=
  match keys i with
  | None => (with_outcome (Some Threw) (negb (connectedAfter i)) false a, calls, Idle)
  | Some k =>
      let b := fresh_record (storedInstance i) k in
      match SaveRpcSession (file_ a) b (writes i) with
      | None => (with_outcome (Some Threw) (negb (connectedAfter i)) false a, calls, Idle)
      | Some (f, false) => (with_outcome (Some NotPersisted) false false (with_file f a), calls ++ [CSave b false], Idle)
      | Some (f, true) =>
          (with_outcome None false false (with_file f a), calls ++ [CSave b true],
           Ready (fresh_config i (requestedMode_ a) k) b)
      end
  end.

(** [BootstrapSession] from its gates to the saved record. *)
Definition BeginSession (attachOnly : bool) (i : BeginAnswers) (a : App) : App * list Call * Progress :=
  if negb (signedIn i) then (with_outcome None false true a, [], Idle) else
  if bool_decide (byClientJwt i = []) then (with_outcome (Some NoCredentials) false false a, [], Idle) else
  let calls := if isConnected i then [] else [CConnect] in
  if negb (isConnected i) && negb (connects i) then (with_outcome (Some Unreachable) true false a, calls, Idle) else
  if signOutOwed i then (with_outcome (Some SignOutOwed) true false a, calls, Idle) else
  let calls := calls ++ [CHello] in
  match gate_hello (requestedMode_ a) (hello i) with
  | Some (why, retry) => (with_outcome (Some why) retry false a, calls, Idle)
  | None =>
      let loaded := LoadRpcSession (file_ a) (reads i) (existenceError i) in
      let a := if legacyPlaintext loaded then with_file (ClearRpcSession (file_ a) (removes i)) a else a in
      let liveIsSufficient := IsSessionLive (h_state (hello i)) && bool_decide (h_mode (hello i) = requestedMode_ a) in
      let matching := match record loaded with
        | Some saved => MatchesLiveSession saved (h_instance (hello i)) (h_session (hello i)) (h_hostport (hello i))
        | None => false end in
      match record loaded, liveIsSufficient && matching with
      | Some saved, true =>
          (with_mode (h_mode (hello i)) (with_outcome None false false a), calls,
           Wiring (mkWire (byClientJwt i) (instance_id saved) saved true))
      | _, _ =>
          if attachOnly then (with_outcome None false true a, calls, Idle) else
          PrepareSession i calls a
      end
  end.

Definition mode_text (m : StartMode) : text := match m with ModeTunnel => txt "tunnel" | ModeRpcOnly => txt "rpc_only" end.

(** [start_tunnel] and what its answer is taken for. *)
Definition StartSession (cfg : StartConfig) (b : Blob) (st : SessionStatus) (removed : bool) (a : App) : App * list Call * Progress :=
  let calls := [CStartTunnel cfg] in
  if negb (IsSessionLive (h_state st)) then
    (with_outcome (Some (StartFailed (if bool_decide (h_error st = [])
       then txt "the service could not start a " ++ mode_text (cfg_mode cfg) ++ txt " session" else h_error st))) false false a, calls, Idle) else
  if negb (teqb (h_instance st) (cfg_instance cfg) && teqb (h_session st) (cfg_session cfg) &&
           teqb (h_hostport st) (rpc_listen_hostport cfg)) then
    (with_outcome (Some OtherIdentity) false false (with_file (ClearRpcSession (file_ a) removed) a), calls ++ [CStopTunnel], Idle) else
  if negb (bool_decide (h_mode st = cfg_mode cfg)) && bool_decide (cfg_mode cfg = ModeRpcOnly) then
    (with_outcome (Some BuiltATunnel) false false (with_mode ModeRpcOnly a), calls ++ [CStopTunnel], Idle) else
  if negb (bool_decide (h_mode st = cfg_mode cfg)) && h_routes st then
    (with_outcome (Some ReportedRoutes) false false (with_mode ModeRpcOnly a), calls ++ [CStopTunnel], Idle) else
  (with_mode (h_mode st) a, calls, Wiring (mkWire (by_jwt cfg) (cfg_instance cfg) b false)).

(** The device's change listener, with the save it made; [None]: the record could not be
    serialized. *)
Definition remoteChanged (generation : Z) (b : Blob) (remoteConnected writesNow : bool) (a : App) : option (App * list Call) :=
  if remoteConnected && (active_ a =? generation) && negb (confirmed_ a =? generation) then
    '(f, saved) ← SaveRpcSession (file_ a) (with_state Confirmed b) writesNow;
    Some (with_generations (sessionGeneration_ a) (active_ a) (if saved : bool then generation else confirmed_ a) (with_file f a),
          [CSave (with_state Confirmed b) saved])
  else Some (a, []).

(** The rest: whether the device is made, whether its listener is registered, whether its server
    is set, the level it is read at, the write, whether what follows goes through, and whether
    the channel is up where it threw. *)
Record WireAnswers := mkWireAnswers {
  makes : bool; listens : bool; serves : bool; remoteNow : bool; confirmWrites : bool; rest : bool; upAfter : bool }.

Definition WireSession (w : Wire) (i : WireAnswers) (a : App) : App * list Call :=
  let b := w_record w in
  let threw := with_outcome (Some Threw) (negb (upAfter i)) false in
  if negb (makes i) then (threw a, []) else
  let calls := [CNewDevice (w_jwt w) (w_instance w)] in
  let g := sessionGeneration_ a + 1 in
  let a := with_generations g g (if bool_decide (record_state b = Confirmed) then g else 0)
             (with_device (Some (mkDevice (w_jwt w) (w_instance w) None)) a) in
  if negb (listens i) then (threw a, calls) else
  let a := with_watch (listeners_ a ++ [(g, b)]) (arms_ a) a in
  if negb (serves i) then (threw a, calls) else
  let calls := calls ++ [CSetRpcServer (client_pem b) (server_cert_pem b) (host_port b)] in
  let a := with_device (Some (mkDevice (w_jwt w) (w_instance w) (Some (client_pem b, server_cert_pem b, host_port b)))) a in
  match remoteChanged g b (remoteNow i) (confirmWrites i) a with
  | None => (threw a, calls)
  | Some (a, saves) =>
      let calls := calls ++ saves in
      let a := with_session true (host_port b) a in
      if negb (rest i) then (threw a, calls) else
      (with_watch (listeners_ a) (arms_ a ++ [(sessionGeneration_ a, w_reattaching w)]) a, calls)
  end.

(** * The teardown and the check *)

(** [closes]: nothing of the device's close threw; the callers catch what does. *)
Definition TeardownSessionLocked (stopTunnel connected removed closes : bool) (a : App) : App * list Call :=
  let calls := if stopTunnel && connected then [CStopTunnel] else [] in
  let a := with_generations (sessionGeneration_ a) 0 0 a in
  if negb closes then (a, calls) else
  (with_file (ClearRpcSession (file_ a) removed)
     (with_mode ModeRpcOnly (with_session false [] (with_generations (sessionGeneration_ a + 1) 0 0 (with_device None a)))), calls).

Inductive RpcSyncState := SyncStale | SyncPending | Healthy | Refused.

(** [sync]: the device's sync error and its connection, [None] where reading them throws. *)
Definition CheckSessionSync (generation : Z) (reattached : bool) (sync : option (text * bool)) (connected removed closes : bool) (a : App)
    : App * list Call * RpcSyncState :=
  if negb (generation =? sessionGeneration_ a) || negb (bool_decide (is_Some (device_ a))) then (a, [], SyncStale) else
  match sync with
  | None => (a, [], SyncPending)
  | Some (syncError, remoteConnected) =>
      if remoteConnected : bool then (a, [], Healthy) else
      if bool_decide (syncError = []) then (a, [], SyncPending) else
      (TeardownSessionLocked (negb reattached) connected removed closes a, Refused)
  end.

(** * The steps *)

Record Sys := mkSys { app : App; pc : Progress; log : list Call; synced : list Blob }.
(** The app's first launch, over whatever file an earlier one left. *)
Definition start_sys (requested : StartMode) (file : option text) : Sys := mkSys (start_app requested file) Idle [] [].

Inductive Event :=
| Begins (attachOnly : bool) (i : BeginAnswers) | Answers (st : SessionStatus) (removed : bool) | Wires (i : WireAnswers)
| RemoteChanges (k : nat) (connected writesNow : bool)
| TearsDown (stopTunnel connected removed closes : bool)
| Checks (k : nat) (sync : option (text * bool)) (connected removed closes : bool)
| Restarts (requested : StartMode).

(** A bootstrap, a teardown and a check hold [mutex_] from end to end; a listener does not, and
    the process may end anywhere. *)
Definition step (s : Sys) (e : Event) : option Sys :=
  match e with
  | Begins attachOnly i =>
      match pc s with
      | Idle => let '(a, calls, p) := BeginSession attachOnly i (app s) in Some (mkSys a p (log s ++ calls) (synced s))
      | _ => None
      end
  | Answers st removed =>
      match pc s with
      | Ready cfg b => let '(a, calls, p) := StartSession cfg b st removed (app s) in Some (mkSys a p (log s ++ calls) (synced s))
      | _ => None
      end
  | Wires i =>
      match pc s with
      | Wiring w =>
          let '(a, calls) := WireSession w i (app s) in
          Some (mkSys a Idle (log s ++ calls) (if makes i && listens i && serves i && remoteNow i then synced s ++ [w_record w] else synced s))
      | _ => None
      end
  | RemoteChanges k connected writesNow =>
      '(g, b) ← listeners_ (app s) !! k;
      let '(a, calls) := default (app s, []) (remoteChanged g b connected writesNow (app s)) in
      Some (mkSys a (pc s) (log s ++ calls) (if connected : bool then synced s ++ [b] else synced s))
  | TearsDown stopTunnel connected removed closes =>
      match pc s with
      | Idle => let '(a, calls) := TeardownSessionLocked stopTunnel connected removed closes (app s) in Some (mkSys a Idle (log s ++ calls) (synced s))
      | _ => None
      end
  | Checks k sync connected removed closes =>
      '(g, reattached) ← arms_ (app s) !! k;
      match pc s with
      | Idle => let '(a, calls, _) := CheckSessionSync g reattached sync connected removed closes (app s) in Some (mkSys a Idle (log s ++ calls) (synced s))
      | _ => None
      end
  | Restarts requested => Some (mkSys (start_app requested (file_ (app s))) Idle (log s) (synced s))
  end.

Definition steps (s : Sys) (tr : list Event) : option Sys := foldl (fun o e => s ← o; step s e) (Some s) tr.

(** * The record on disk *)

(** Reading back brings the record, but for an instance id that cannot be paired. *)
Definition read_back (b : Blob) : Blob :=
  mkBlob (version b) (record_state b) (client_pem b) (server_cert_pem b) (host_port b)
    (if IsPairableInstanceId (instance_id b) then instance_id b else []) (rpc_session_id b).

Lemma read_back_adoptable b : IsAdoptable b = true -> read_back b = b.
Proof.
  unfold IsAdoptable, read_back. intros H. bool_hyps. repeat match goal with E : IsPairableInstanceId _ = true |- _ => rewrite E end.
  by destruct b.
Qed.

Lemma adoptable_version b : IsAdoptable b = true -> version b <= int64_max.
Proof. unfold IsAdoptable. intros H. bool_hyps. unfold kCurrentVersion, int64_max in *. lia. Qed.

Lemma adoptable_host_port b : IsAdoptable b = true -> host_port b <> [].
Proof. unfold IsAdoptable. intros H. bool_hyps. done. Qed.

Lemma field_version b : jfind (record_object b) (txt "version") = Some (JInteger (version b)).
Proof. reflexivity. Qed.
Lemma field_state b : jfind (record_object b) (txt "state") = Some (JString (record_state_text (record_state b))).
Proof. reflexivity. Qed.
Lemma field_client b : jfind (record_object b) (txt "client_pem") = Some (JString (client_pem b)).
Proof. reflexivity. Qed.
Lemma field_server b : jfind (record_object b) (txt "server_cert_pem") = Some (JString (server_cert_pem b)).
Proof. reflexivity. Qed.
Lemma field_host b : jfind (record_object b) (txt "host_port") = Some (JString (host_port b)).
Proof. reflexivity. Qed.
Lemma field_instance b : jfind (record_object b) (txt "instance_id") = Some (JString (instance_id b)).
Proof. reflexivity. Qed.
Lemma field_session b : jfind (record_object b) (txt "rpc_session_id") = Some (JString (rpc_session_id b)).
Proof. reflexivity. Qed.

Lemma parse_serialize b t :
  json_law -> version b <= int64_max -> Serialize b = Some t ->
  Parse t = if bool_decide (host_port b = []) then None else Some (read_back b).
Proof.
  intros Hj Hv Hs. destruct (Hj (record_object b) t) as (j & Hp & Hf); [|done|].
  { cbn. repeat (apply NoDup_cons; split; [vm_compute; set_solver|]). apply NoDup_nil_2. }
  unfold Parse. rewrite Hp. unfold StringField, IntegerField. rewrite !Hf.
  rewrite field_version, field_state, field_client, field_server, field_host, field_instance, field_session.
  rewrite (proj2 (Z.leb_le _ _) Hv). cbn [host_port]. destruct (bool_decide (host_port b = [])); [done|]. unfold read_back.
  by destruct (record_state b).
Qed.

(** What a save that went through leaves. *)
Definition holds (f : option text) (b : Blob) : Prop :=
  exists plaintext encrypted, Serialize b = Some plaintext /\ protect plaintext = Some encrypted /\ f = Some (kRpcSessionFileMagic ++ encrypted).

Lemma save_holds f b writesNow f' : SaveRpcSession f b writesNow = Some (f', true) -> holds f' b.
Proof.
  unfold SaveRpcSession. intros (p & Hp & Hs)%bind_Some. destruct (protect p) as [e|] eqn:He; [|by injection Hs].
  unfold WriteRpcSessionBytes in Hs. case_match; [by injection Hs|]. injection Hs as <-. exists p, e. done.
Qed.

Lemma save_keeps f b writesNow f' : SaveRpcSession f b writesNow = Some (f', false) -> f' = f.
Proof.
  unfold SaveRpcSession. intros (p & Hp & Hs)%bind_Some. destruct (protect p) as [e|]; [|by injection Hs].
  unfold WriteRpcSessionBytes in Hs. case_match; by injection Hs.
Qed.

Lemma load_holds f b e :
  json_law -> vault_law -> holds f b -> version b <= int64_max -> (forall t, f = Some t -> size t <= kMaxRpcSessionFileBytes) ->
  record (LoadRpcSession f true e) = (if bool_decide (host_port b = []) then None else Some (read_back b)) /\
  legacyPlaintext (LoadRpcSession f true e) = false.
Proof.
  intros Hj Hv (p & enc & Hs & Hp & ->) Hver Hsz. unfold LoadRpcSession, ReadRpcSessionBytes. specialize (Hsz _ eq_refl).
  assert (0 < size (kRpcSessionFileMagic ++ enc)) as Hpos by (unfold size; rewrite length_app; cbn; lia).
  rewrite (proj2 (Z.ltb_lt _ _) Hpos), (proj2 (Z.leb_le _ _) Hsz). cbn [andb].
  assert (has_prefix kRpcSessionFileMagic (kRpcSessionFileMagic ++ enc) = true) as -> by (apply has_prefix_spec; eauto).
  rewrite drop_app_length, (Hv _ _ Hp). unfold load_record. rewrite (parse_serialize b p Hj Hver Hs). done.
Qed.

Lemma holds_inj f b b' : json_law -> vault_law -> holds f b -> holds f b' -> IsAdoptable b = true -> IsAdoptable b' = true -> b = b'.
Proof.
  intros Hj Hv (p & e & Hs & Hp & ->) (p' & e' & Hs' & Hp' & Hf) Ha Ha'. injection Hf as <-.
  apply Hv in Hp, Hp'. rewrite Hp in Hp'. injection Hp' as <-.
  pose proof (parse_serialize b p Hj (adoptable_version b Ha) Hs) as H1. rewrite (parse_serialize b' p Hj (adoptable_version b' Ha') Hs') in H1.
  rewrite !bool_decide_eq_false_2, !read_back_adoptable in H1 by (try apply adoptable_host_port; done). congruence.
Qed.

(** What a load of a saved file brings, if it brings anything. *)
Lemma load_brings f b b' reads0 e :
  json_law -> vault_law -> holds f b -> version b <= int64_max -> record (LoadRpcSession f reads0 e) = Some b' -> b' = read_back b.
Proof.
  intros Hj Hv Hh Hver Hl. assert (reads0 = true) as -> by (destruct reads0; [done|]; unfold LoadRpcSession, ReadRpcSessionBytes in Hl; by destruct f).
  assert (forall t, f = Some t -> size t <= kMaxRpcSessionFileBytes) as Hsz.
  { intros t ->. unfold LoadRpcSession, ReadRpcSessionBytes in Hl. destruct (Z.leb_spec (size t) kMaxRpcSessionFileBytes); [done|].
    by rewrite andb_false_r in Hl. }
  destruct (load_holds _ _ e Hj Hv Hh Hver Hsz) as [Hr _]. rewrite Hr in Hl. case_bool_decide; [done|]. by injection Hl.
Qed.

Lemma holds_not_legacy f b reads0 e : holds f b -> legacyPlaintext (LoadRpcSession f reads0 e) = false.
Proof.
  intros (p & enc & _ & _ & ->). unfold LoadRpcSession.
  destruct (ReadRpcSessionBytes _ _) as [all|] eqn:E; [|done]. assert (all = kRpcSessionFileMagic ++ enc) as ->
    by (unfold ReadRpcSessionBytes in E; destruct (reads0 && _ && _); [by injection E|done]).
  assert (has_prefix kRpcSessionFileMagic (kRpcSessionFileMagic ++ enc) = true) as -> by (apply has_prefix_spec; eauto). by destruct (unprotect _).
Qed.

(** A saved record is read back. Whatever was in the file, once a record that can be adopted
    is saved the next load brings exactly it, as no legacy, with its state in the log; the
    file's size is one the reader takes. *)
Theorem saved_record_reads_back f b writesNow f' e :
  json_law -> vault_law -> IsAdoptable b = true -> SaveRpcSession f b writesNow = Some (f', true) ->
  (forall t, f' = Some t -> size t <= kMaxRpcSessionFileBytes) ->
  LoadRpcSession f' true e = mkLoad (Some b) (record_state_text (record_state b)) false.
Proof.
  intros Hj Hv Ha Hs Hsz. pose proof (save_holds _ _ _ _ Hs) as (p & enc & Hp & Hpr & ->).
  unfold LoadRpcSession, ReadRpcSessionBytes. specialize (Hsz _ eq_refl).
  assert (0 < size (kRpcSessionFileMagic ++ enc)) as Hpos by (unfold size; rewrite length_app; cbn; lia).
  rewrite (proj2 (Z.ltb_lt _ _) Hpos), (proj2 (Z.leb_le _ _) Hsz). cbn [andb].
  assert (has_prefix kRpcSessionFileMagic (kRpcSessionFileMagic ++ enc) = true) as -> by (apply has_prefix_spec; eauto).
  rewrite drop_app_length, (Hv _ _ Hpr). unfold load_record. rewrite (parse_serialize b p Hj (adoptable_version b Ha) Hp).
  rewrite bool_decide_eq_false_2 by by apply adoptable_host_port. by rewrite read_back_adoptable, Ha.
Qed.

(** * What a bootstrap does on each branch *)

(** What the gates and the file's branches leave alone. *)
Definition same_session (a a' : App) : Prop :=
  requestedMode_ a' = requestedMode_ a /\ device_ a' = device_ a /\ sessionGeneration_ a' = sessionGeneration_ a /\
  active_ a' = active_ a /\ confirmed_ a' = confirmed_ a /\ listeners_ a' = listeners_ a /\ arms_ a' = arms_ a.

(** The calls that only ask. *)
Definition only_asks (c : Call) : Prop :=
  match c with CConnect | CHello | CNewDevice _ _ | CSetRpcServer _ _ _ => True | _ => False end.

(** A save of a fresh record. *)
Definition is_save (c : Call) : Prop :=
  match c with CSave b _ => version b = kCurrentVersion /\ record_state b = Pending | _ => False end.

(** A status that names the session the record is of. *)
Definition names (st : SessionStatus) (b : Blob) : Prop :=
  IsSessionLive (h_state st) = true /\ h_instance st = instance_id b /\ h_session st = rpc_session_id b /\ h_hostport st = host_port b.

(** A request that is the record's. *)
Definition of_record (cfg : StartConfig) (b : Blob) : Prop :=
  cfg_instance cfg = instance_id b /\ cfg_session cfg = rpc_session_id b /\ rpc_listen_hostport cfg = host_port b /\
  version b = kCurrentVersion /\ record_state b = Pending.

Definition begun (attachOnly : bool) (i : BeginAnswers) (a a' : App) (calls : list Call) (p : Progress) : Prop :=
  match p with
  | Idle => file_ a' = file_ a \/ (file_ a' = None /\ legacyPlaintext (LoadRpcSession (file_ a) (reads i) (existenceError i)) = true)
  | Ready cfg b =>
      attachOnly = false /\ of_record cfg b /\ cfg_mode cfg = requestedMode_ a /\ holds (file_ a') b /\ exists l, calls = l ++ [CSave b true] /\ Forall only_asks l
  | Wiring w =>
      w_reattaching w = true /\ names (hello i) (w_record w) /\ h_mode (hello i) = requestedMode_ a /\ w_instance w = instance_id (w_record w) /\
      IsAdoptable (w_record w) = true /\ record (LoadRpcSession (file_ a) (reads i) (existenceError i)) = Some (w_record w) /\ Forall only_asks calls /\
      (file_ a' = file_ a \/ (file_ a' = None /\ legacyPlaintext (LoadRpcSession (file_ a) (reads i) (existenceError i)) = true))
  end.

Lemma clear_cases f r : ClearRpcSession f r = f \/ ClearRpcSession f r = None.
Proof. destruct r; [by right|by left]. Qed.

Lemma matches_names b i s h :
  MatchesLiveSession b i s h = true -> IsAdoptable b = true /\ i = instance_id b /\ s = rpc_session_id b /\ h = host_port b.
Proof. unfold MatchesLiveSession. intros H. bool_hyps. rewrite !teqb_eq in *. done. Qed.

Lemma prepare_spec i calls a a' calls' p :
  PrepareSession i calls a = (a', calls', p) ->
  same_session a a' /\ (file_ a' = file_ a \/ exists cfg b, p = Ready cfg b) /\
  match p with
  | Idle => True
  | Ready cfg b => of_record cfg b /\ cfg_mode cfg = requestedMode_ a /\ holds (file_ a') b /\ calls' = calls ++ [CSave b true]
  | Wiring _ => False
  end /\ exists saves, calls' = calls ++ saves /\ Forall is_save saves.
Proof.
  unfold PrepareSession. intros H. assert (exists saves, calls = calls ++ saves /\ Forall is_save saves) as Hn
    by (exists []; by rewrite app_nil_r).
  destruct (keys i) as [k|]; [|by injection H as <- <- <-; split_and!; auto].
  destruct (SaveRpcSession _ _ _) as [[f [|]]|] eqn:Es; injection H as <- <- <-; [| |by split_and!; auto].
  - apply save_holds in Es. split_and!; try done; [right; eauto|]. eexists. split; [done|]. by repeat constructor.
  - apply save_keeps in Es as ->. split_and!; try done; [by left|]. eexists. split; [done|]. by repeat constructor.
Qed.

Lemma begin_spec attachOnly i a a' calls p :
  BeginSession attachOnly i a = (a', calls, p) ->
  same_session a a' /\ begun attachOnly i a a' calls p /\
  (attachOnly = true -> Forall only_asks calls) /\ Forall (fun c => only_asks c \/ is_save c) calls.
Proof.
  unfold BeginSession. intros H.
  assert (forall l, Forall only_asks l -> Forall (fun c => only_asks c \/ is_save c) l) as Hask
    by (intros l Hl; eapply Forall_impl; [exact Hl|]; auto).
  set (asked := if isConnected i then [] else [CConnect]) in H.
  assert (Forall only_asks asked) as Ha by (subst asked; destruct (isConnected i); repeat constructor).
  assert (Forall only_asks (asked ++ [CHello])) as Hc by (apply Forall_app; split; [done|by repeat constructor]).
  clearbody asked. destruct (negb (signedIn i)); [injection H as <- <- <-; split_and!; try done; [by left|constructor..]|].
  destruct (bool_decide (byClientJwt i = [])); [injection H as <- <- <-; split_and!; try done; [by left|constructor..]|].
  destruct (negb (isConnected i) && negb (connects i)); [injection H as <- <- <-; split_and!; try done; [by left|auto..]|].
  destruct (signOutOwed i); [injection H as <- <- <-; split_and!; try done; [by left|auto..]|].
  destruct (gate_hello (requestedMode_ a) (hello i)) as [[why retry]|]; [injection H as <- <- <-; split_and!; try done; [by left|auto..]|].
  set (loaded := LoadRpcSession (file_ a) (reads i) (existenceError i)) in *.
  set (b := if legacyPlaintext loaded then _ else a) in *.
  assert (same_session a b /\ (file_ b = file_ a \/ (file_ b = None /\ legacyPlaintext loaded = true))) as [Hb Hf].
  { subst b. destruct (legacyPlaintext loaded); [|by split; [|left]]. split; [done|]. destruct (clear_cases (file_ a) (removes i)); cbn; auto. }
  assert (requestedMode_ b = requestedMode_ a) as Hr by apply Hb.
  clearbody b.
  assert (forall why retry declined, same_session a (with_outcome why retry declined b)) as Ho by (intros; exact Hb).
  assert (forall a' calls p, (if attachOnly then (with_outcome None false true b, asked ++ [CHello], Idle) else PrepareSession i (asked ++ [CHello]) b) =
    (a', calls, p) -> same_session a a' /\ begun attachOnly i a a' calls p /\
    (attachOnly = true -> Forall only_asks calls) /\ Forall (fun c => only_asks c \/ is_save c) calls) as Hfresh.
  { clear H. intros a2 calls2 p2 H. destruct attachOnly; [injection H as <- <- <-; split_and!; try done; auto|].
    apply prepare_spec in H as (Hs & Hfile & Hp & saves & -> & Hsaves). split; [|split; [|split; [done|]]].
    - unfold same_session in *. destruct Hs as (-> & -> & -> & -> & -> & -> & ->). done.
    - destruct p2 as [|cfg rec|]; [| |done]; cbn.
      + destruct Hfile as [->|(? & ? & ?)]; done.
      + destruct Hp as (? & Hm & ? & ->). rewrite <- Hr. eauto 10.
    - apply Forall_app. split; [by apply Hask|]. eapply Forall_impl; [exact Hsaves|]. auto. }
  destruct (record loaded) as [saved|] eqn:El; [|by apply Hfresh].
  destruct (IsSessionLive (h_state (hello i)) && bool_decide (h_mode (hello i) = requestedMode_ b) && MatchesLiveSession saved _ _ _) eqn:Em;
    [|by apply Hfresh].
  injection H as <- <- <-. bool_hyps.
  match goal with E : MatchesLiveSession _ _ _ _ = true |- _ => apply matches_names in E as (Hm1 & Hm2 & Hm3 & Hm4) end.
  split; [exact Hb|]. split; [|auto]. unfold begun, names. cbn. rewrite <- Hr. fold loaded. split_and!; done.
Qed.

Lemma start_spec cfg b st removed a a' calls p :
  StartSession cfg b st removed a = (a', calls, p) ->
  same_session a a' /\
  let echoes := h_instance st = cfg_instance cfg /\ h_session st = cfg_session cfg /\ h_hostport st = rpc_listen_hostport cfg in
  match p with
  | Idle =>
      (IsSessionLive (h_state st) = false /\ calls = [CStartTunnel cfg] /\ file_ a' = file_ a) \/
      (IsSessionLive (h_state st) = true /\ calls = [CStartTunnel cfg; CStopTunnel] /\ (echoes -> file_ a' = file_ a) /\ (file_ a' = file_ a \/ file_ a' = None))
  | Ready _ _ => False
  | Wiring w =>
      IsSessionLive (h_state st) = true /\ calls = [CStartTunnel cfg] /\ file_ a' = file_ a /\ echoes /\
      (h_mode st = cfg_mode cfg \/ (cfg_mode cfg = ModeTunnel /\ h_mode st = ModeRpcOnly /\ h_routes st = false)) /\
      w = mkWire (by_jwt cfg) (cfg_instance cfg) b false
  end.
Proof.
  unfold StartSession. intros H. cbn zeta.
  destruct (negb (IsSessionLive (h_state st))) eqn:E1; bool_hyps; [injection H as <- <- <-; split; [done|by left]|].
  destruct (negb (teqb (h_instance st) (cfg_instance cfg) && _ && _)) eqn:E2; bool_hyps.
  { injection H as <- <- <-. split; [done|]. right. split_and!; try done; [|destruct (clear_cases (file_ a) removed); cbn; auto].
    intros (H1 & H2 & H3). rewrite H1, H2, H3 in E2. unfold teqb in E2. by rewrite !bool_decide_eq_true_2 in E2. }
  rewrite !teqb_eq in *.
  destruct (negb (bool_decide (h_mode st = cfg_mode cfg)) && bool_decide (cfg_mode cfg = ModeRpcOnly)) eqn:E3;
    [injection H as <- <- <-; split; [done|]; right; split_and!; auto|].
  destruct (negb (bool_decide (h_mode st = cfg_mode cfg)) && h_routes st) eqn:E4;
    [injection H as <- <- <-; split; [done|]; right; split_and!; auto|].
  injection H as <- <- <-. split; [done|]. split_and!; try done.
  case_bool_decide as Em; [by left|]. right. cbn in *. rewrite bool_decide_eq_false in E3. destruct (cfg_mode cfg), (h_mode st); done.
Qed.

(** What a listener leaves alone, and what it writes. *)
Lemma remote_spec g b connected writesNow a a' calls :
  remoteChanged g b connected writesNow a = Some (a', calls) ->
  requestedMode_ a' = requestedMode_ a /\ device_ a' = device_ a /\ sessionGeneration_ a' = sessionGeneration_ a /\
  active_ a' = active_ a /\ listeners_ a' = listeners_ a /\ arms_ a' = arms_ a /\
  ((a' = a /\ calls = []) \/ (connected = true /\ active_ a = g /\ (file_ a' = file_ a \/ holds (file_ a') (with_state Confirmed b)) /\
    exists saved, calls = [CSave (with_state Confirmed b) saved])).
Proof.
  unfold remoteChanged. intros H. destruct (connected && _ && _) eqn:E; [|injection H as <- <-; split_and!; auto]. bool_hyps.
  apply bind_Some in H as ([f [|]] & Hs & [= <- <-]); (split_and!; try done); right; (split; [done|]; split; [done|]); (split; [|eauto]).
  - right. by apply save_holds in Hs.
  - left. cbn. by apply save_keeps in Hs.
Qed.

(** The save that confirms a record. *)
Definition confirms (b : Blob) (c : Call) : Prop := exists saved, c = CSave (with_state Confirmed b) saved.

Lemma wire_spec w i a a' calls :
  WireSession w i a = (a', calls) ->
  let synced := makes i && listens i && serves i && remoteNow i in
  requestedMode_ a' = requestedMode_ a /\ Forall (fun c => only_asks c \/ (confirms (w_record w) c /\ synced = true)) calls /\
  ((device_ a' = device_ a /\ sessionGeneration_ a' = sessionGeneration_ a /\ active_ a' = active_ a /\ listeners_ a' = listeners_ a /\
    arms_ a' = arms_ a /\ file_ a' = file_ a) \/
   (let g := sessionGeneration_ a + 1 in
    (exists d, device_ a' = Some d /\ d_instance d = w_instance w /\
       (d_server d = None \/ d_server d = Some (client_pem (w_record w), server_cert_pem (w_record w), host_port (w_record w)))) /\
    sessionGeneration_ a' = g /\ active_ a' = g /\
    (listeners_ a' = listeners_ a \/ listeners_ a' = listeners_ a ++ [(g, w_record w)]) /\
    (arms_ a' = arms_ a \/ arms_ a' = arms_ a ++ [(g, w_reattaching w)]) /\
    (file_ a' = file_ a \/ (holds (file_ a') (with_state Confirmed (w_record w)) /\ makes i && listens i && serves i && remoteNow i = true)))).
Proof.
  unfold WireSession. intros H. cbn zeta. destruct (makes i); cbn [negb] in H; [|injection H as <- <-; split_and!; [done|constructor|by left]].
  destruct (listens i); cbn [negb] in H; [|injection H as <- <-; split_and!; [done|repeat constructor|right; split_and!; eauto 10]].
  destruct (serves i); cbn [negb] in H; [|injection H as <- <-; split_and!; [done|repeat constructor|right; split_and!; eauto 10]].
  destruct (remoteChanged _ _ _ _ _) as [[b saves]|] eqn:Er; cbn [app] in H;
    [|injection H as <- <-; split_and!; [done|repeat constructor|right; split_and!; eauto 10]].
  apply remote_spec in Er as (H1 & H2 & H3 & H4 & H5 & H6 & H7). cbn in H1, H2, H3, H4, H5, H6.
  assert (file_ b = file_ a \/ (holds (file_ b) (with_state Confirmed (w_record w)) /\ remoteNow i = true)) as Hf
    by (destruct H7 as [[-> _]|(? & _ & [?|?] & _)]; cbn in *; auto).
  assert (Forall (fun c => only_asks c \/ (confirms (w_record w) c /\ true && true && true && remoteNow i = true)) saves) as Hs.
  { destruct H7 as [[_ ->]|(-> & _ & _ & x & ->)]; [constructor|]. constructor; [|constructor]. right. split; [by exists x|done]. }
  destruct (negb (rest i)); injection H as <- <-; (split_and!; [done|constructor; [by left|constructor; [by left|done]]|right]); cbn;
    rewrite ?H2, ?H3, ?H4, ?H5, ?H6; split_and!; eauto 10.
Qed.

(** * The invariant *)

(** A record the file may hold: saved by a bootstrap, or one its device synced. *)
Definition accounted (l : list Call) (synced : list Blob) (b : Blob) : Prop :=
  version b = kCurrentVersion /\ ((record_state b = Pending /\ CSave b true ∈ l) \/ exists b0, b0 ∈ synced /\ b = with_state Confirmed b0).

(** The histories that begin with [f0] on disk. *)
Section Began.
Context (f0 : option text).

(** A file is the first one, gone, or holds a record that is accounted for. *)
Definition file_ok (f : option text) (l : list Call) (synced : list Blob) : Prop :=
  f = None \/ f = f0 \/ exists b, holds f b /\ accounted l synced b.

Record Inv (s : Sys) : Prop := {
  inv_active : 0 <= active_ (app s) <= sessionGeneration_ (app s);
  inv_listeners : Forall (fun l => 1 <= l.1 <= sessionGeneration_ (app s) /\ version l.2 = kCurrentVersion) (listeners_ (app s));
  inv_idle : device_ (app s) = None -> active_ (app s) = 0;
  inv_ready : match pc s with
    | Ready cfg b => of_record cfg b /\ cfg_mode cfg = requestedMode_ (app s) /\ CSave b true ∈ log s
    | Wiring w => version (w_record w) = kCurrentVersion /\ w_instance w = instance_id (w_record w)
    | Idle => True
    end;
  inv_file : file_ok (file_ (app s)) (log s) (synced s) }.

Lemma Inv_boot_start m : Inv (start_sys m f0).
Proof. constructor; cbn; [lia|constructor|done|done|by right; left]. Qed.

Lemma accounted_grows l l' sy sy' b : accounted l sy b -> accounted (l ++ l') (sy ++ sy') b.
Proof. intros [Hv [[Hp H]|(b0 & H & ->)]]; (split; [done|]); [left|right; exists b0]; rewrite ?elem_of_app; auto. Qed.

Lemma file_grows f l l' sy sy' : file_ok f l sy -> file_ok f (l ++ l') (sy ++ sy').
Proof. intros [->|[->|(b & Hh & Ha)]]; [by left|by right; left|]. right. right. exists b. split; [done|]. by apply accounted_grows. Qed.

Lemma adoptable_current b : IsAdoptable b = true -> version b = kCurrentVersion.
Proof. unfold IsAdoptable. intros H. bool_hyps. done. Qed.

Lemma file_kept f f' l l' sy sy' : file_ok f l sy -> f' = f \/ f' = None -> file_ok f' (l ++ l') (sy ++ sy').
Proof. intros H [->|Hn]; [by apply file_grows|by left]. Qed.

(** A teardown, whatever of it threw. *)
Lemma teardown_spec stopTunnel connected removed closes a a' calls :
  TeardownSessionLocked stopTunnel connected removed closes a = (a', calls) ->
  requestedMode_ a' = requestedMode_ a /\ active_ a' = 0 /\ confirmed_ a' = 0 /\ listeners_ a' = listeners_ a /\ arms_ a' = arms_ a /\
  (sessionGeneration_ a' = sessionGeneration_ a \/ sessionGeneration_ a' = sessionGeneration_ a + 1) /\
  (file_ a' = file_ a \/ file_ a' = None) /\
  (closes = true -> device_ a' = None /\ sessionGeneration_ a' = sessionGeneration_ a + 1 /\ file_ a' = ClearRpcSession (file_ a) removed) /\
  (calls = [] \/ (calls = [CStopTunnel] /\ stopTunnel = true)).
Proof.
  unfold TeardownSessionLocked. intros H. set (c := if stopTunnel && connected then _ else _) in H.
  assert (c = [] \/ c = [CStopTunnel] /\ stopTunnel = true) as Hc by (subst c; destruct stopTunnel, connected; auto).
  clearbody c. destruct closes; injection H as <- <-; cbn; split_and!; auto; try done. destruct (clear_cases (file_ a) removed); auto.
Qed.

Lemma check_spec g r sync connected removed closes a a' calls st :
  CheckSessionSync g r sync connected removed closes a = (a', calls, st) ->
  (a' = a /\ calls = []) \/
  (g = sessionGeneration_ a /\ is_Some (device_ a) /\ TeardownSessionLocked (negb r) connected removed closes a = (a', calls)).
Proof.
  unfold CheckSessionSync. intros H. destruct (negb (g =? sessionGeneration_ a) || negb _) eqn:E; bool_hyps; [injection H as <- <- <-; by left|].
  destruct sync as [[err conn]|]; [|injection H as <- <- <-; by left]. destruct conn; [injection H as <- <- <-; by left|].
  destruct (bool_decide (err = [])); [injection H as <- <- <-; by left|]. right. split; [lia|]. split; [done|]. by injection H as -> _.
Qed.

Lemma Inv_teardown s stopTunnel connected removed closes a calls :
  Inv s -> TeardownSessionLocked stopTunnel connected removed closes (app s) = (a, calls) -> Inv (mkSys a Idle (log s ++ calls) (synced s)).
Proof.
  intros I (H1 & H2 & H3 & H4 & H5 & H6 & H7 & _ & _)%teardown_spec. pose proof (inv_active s I).
  constructor; cbn; [lia| |done|done|].
  - rewrite H4. eapply Forall_impl; [apply (inv_listeners s I)|]. cbn. intros ? [? ?]. split; [lia|done].
  - rewrite <- (app_nil_r (synced s)). eapply file_kept; [apply (inv_file s I)|done].
Qed.

Lemma Inv_boot_begins s attachOnly i a calls p :
  Inv s -> BeginSession attachOnly i (app s) = (a, calls, p) -> Inv (mkSys a p (log s ++ calls) (synced s)).
Proof.
  intros I (Hs & Hb & _ & _)%begin_spec. destruct Hs as (H1 & H2 & H3 & H4 & H5 & H6 & H7).
  constructor; cbn; rewrite ?H2, ?H3, ?H4, ?H6; try apply I.
  - destruct p as [|cfg b|w]; cbn in Hb; [done| |].
    + destruct Hb as (_ & Hr & Hm & _ & l & -> & _). split; [done|]. split; [by rewrite H1|]. rewrite !elem_of_app. right. right. by left.
    + destruct Hb as (_ & _ & _ & Hi & Ha & _). split; [by apply adoptable_current|done].
  - rewrite <- (app_nil_r (synced s)). destruct p as [|cfg b|w]; cbn in Hb.
    + eapply file_kept; [apply (inv_file s I)|]. destruct Hb as [?|[? _]]; auto.
    + destruct Hb as (_ & (_ & _ & _ & Hv & Hp) & _ & Hh & l & -> & _). right. right. exists b. split; [done|]. split; [done|]. left. split; [done|].
      rewrite !elem_of_app. right. right. by left.
    + eapply file_kept; [apply (inv_file s I)|]. destruct Hb as (_ & _ & _ & _ & _ & _ & _ & [?|[? _]]); auto.
Qed.

Lemma Inv_answers s cfg b st removed a calls p :
  Inv s -> pc s = Ready cfg b -> StartSession cfg b st removed (app s) = (a, calls, p) -> Inv (mkSys a p (log s ++ calls) (synced s)).
Proof.
  intros I Hpc (Hs & Hb)%start_spec. pose proof (inv_ready s I) as Hr. rewrite Hpc in Hr. destruct Hr as ((Hi & Hn & Hh & Hv & Hst) & Hm & Hlog).
  destruct Hs as (H1 & H2 & H3 & H4 & H5 & H6 & H7). cbn in Hb. constructor; cbn; rewrite ?H2, ?H3, ?H4, ?H6; try apply I.
  - destruct p; [done|done|]. destruct Hb as (_ & _ & _ & _ & _ & ->). done.
  - rewrite <- (app_nil_r (synced s)). eapply file_kept; [apply (inv_file s I)|].
    destruct p; [|done|]; [destruct Hb as [(_ & _ & ?)|(_ & _ & _ & ?)]; auto|destruct Hb as (_ & _ & ? & _); auto].
Qed.

Lemma confirmed_accounted l sy b : version b = kCurrentVersion -> b ∈ sy -> accounted l sy (with_state Confirmed b).
Proof. intros Hv Hin. split; [done|]. right. eauto. Qed.

Lemma Inv_wires s w i a calls :
  Inv s -> pc s = Wiring w -> WireSession w i (app s) = (a, calls) ->
  Inv (mkSys a Idle (log s ++ calls) (if makes i && listens i && serves i && remoteNow i then synced s ++ [w_record w] else synced s)).
Proof.
  intros I Hpc (H1 & _ & H)%wire_spec. pose proof (inv_ready s I) as Hr. rewrite Hpc in Hr. destruct Hr as [Hv _].
  set (x := makes i && listens i && serves i && remoteNow i) in *.
  assert ((if x then synced s ++ [w_record w] else synced s) = synced s ++ (if x then [w_record w] else [])) as -> by (destruct x; by rewrite ?app_nil_r).
  pose proof (inv_active s I). pose proof (inv_listeners s I) as Hls.
  destruct H as [(H2 & H3 & H4 & H5 & _ & H7)|H]; [constructor; cbn; rewrite ?H2, ?H3, ?H4, ?H5; try apply I; [done|]|].
  - rewrite H7. apply file_grows, I.
  - cbn zeta in H. destruct H as ((d & Hd & _) & Hg & Ha & Hl & _ & Hf). constructor; cbn; rewrite ?Hg, ?Ha; [lia| |by rewrite Hd|done|].
    + assert (Forall (fun l => 1 <= l.1 <= sessionGeneration_ (app s) + 1 /\ version l.2 = kCurrentVersion) (listeners_ (app s))) as Hold
        by (eapply Forall_impl; [exact Hls|]; cbn; intros ? [? ?]; split; [lia|done]).
      destruct Hl as [->| ->]; [done|]. apply Forall_app. split; [done|]. constructor; [cbn; split; [lia|done]|constructor].
    + destruct Hf as [->|[Hh Hx]]; [apply file_grows, I|]. right. right. eexists. split; [exact Hh|]. rewrite Hx.
      apply confirmed_accounted; [done|]. rewrite elem_of_app. right. by left.
Qed.

Lemma Inv_boot_step s e s' : Inv s -> step s e = Some s' -> Inv s'.
Proof.
  intros I Hs. destruct e as [attachOnly i|st removed|i|k connected wr|st c r cl|k sync c r cl|m]; cbn in Hs.
  - destruct (pc s); try discriminate Hs. destruct (BeginSession _ _ _) as [[a calls] p] eqn:E. injection Hs as <-. by eapply Inv_boot_begins.
  - destruct (pc s) as [|cfg b|] eqn:Ep; try discriminate Hs. destruct (StartSession _ _ _ _ _) as [[a calls] p] eqn:E. injection Hs as <-. by eapply Inv_answers.
  - destruct (pc s) as [| |w] eqn:Ep; try discriminate Hs. destruct (WireSession _ _ _) as [a calls] eqn:E. injection Hs as <-. by eapply Inv_wires.
  - apply bind_Some in Hs as ([g b] & Hk & Hs).
    assert ((if connected then synced s ++ [b] else synced s) = synced s ++ (if connected then [b] else [])) as Ey by (destruct connected; by rewrite ?app_nil_r).
    rewrite Ey in Hs. destruct (remoteChanged g b connected wr (app s)) as [[a calls]|] eqn:E; cbn in Hs; injection Hs as <-.
    + apply remote_spec in E as (H1 & H2 & H3 & H4 & H5 & H6 & H7). constructor; cbn; rewrite ?H1, ?H2, ?H3, ?H4, ?H5; try apply I.
      { pose proof (inv_ready s I) as Hr. destruct (pc s); [done| |done]. destruct Hr as (? & ? & ?). split_and!; try done. rewrite elem_of_app. by left. }
      destruct H7 as [[-> _]|(-> & _ & [->|Hh] & _)]; [apply file_grows, I|apply file_grows, I|]. right. right. eexists. split; [exact Hh|].
      apply confirmed_accounted; [|rewrite elem_of_app; right; by left]. pose proof (inv_listeners s I) as Hl. rewrite Forall_lookup in Hl. apply (Hl k _ Hk).
    + rewrite app_nil_r. constructor; cbn; try apply I. rewrite <- (app_nil_r (log s)). apply file_grows, I.
  - destruct (pc s); try discriminate Hs. destruct (TeardownSessionLocked _ _ _ _ _) as [a calls] eqn:E. injection Hs as <-. by eapply Inv_teardown.
  - apply bind_Some in Hs as ([g reattached] & Hk & Hs). destruct (pc s) eqn:Ep; try discriminate Hs.
    destruct (CheckSessionSync _ _ _ _ _ _ _) as [[a calls] st] eqn:E. injection Hs as <-.
    apply check_spec in E as [[-> ->]|(_ & _ & E)]; [|by eapply Inv_teardown]. rewrite app_nil_r. destruct I. constructor; cbn; try done.
  - injection Hs as <-. constructor; cbn; [lia|constructor|done|done|]. apply I.
Qed.

Lemma boot_steps_end s tr e : steps s (tr ++ [e]) = v ← steps s tr; step v e.
Proof. unfold steps. by rewrite foldl_app. Qed.

Lemma Inv_boot_run s tr s' : Inv s -> steps s tr = Some s' -> Inv s'.
Proof.
  intros I. revert s'. induction tr as [|e tr IH] using rev_ind; intros s' H; [by injection H as <-|].
  rewrite boot_steps_end in H. apply bind_Some in H as (v & Hv & H). by eapply Inv_boot_step, H; apply IH.
Qed.

Lemma Inv_booted m tr s : steps (start_sys m f0) tr = Some s -> Inv s.
Proof. apply Inv_boot_run, Inv_boot_start. Qed.

(** * What holds of every run *)

(** A confirmed record was synced. Whatever bootstraps, listeners, teardowns, checks and ends
    of the process came before, a record that loads as confirmed and can be adopted is one
    whose own device reported its rpc connected, or the file is the one it all began with. *)
Theorem confirmed_means_synced m tr s reads0 e b :
  json_law -> vault_law -> steps (start_sys m f0) tr = Some s ->
  record (LoadRpcSession (file_ (app s)) reads0 e) = Some b -> IsAdoptable b = true -> record_state b = Confirmed ->
  file_ (app s) = f0 \/
  exists b0, b0 ∈ synced s /\ b = with_state Confirmed b0.
Proof.
  intros Hj Hv I%Inv_booted Hl Ha Hc. destruct (inv_file s I) as [Hn|[?|(b1 & Hh & Hver & Hacc)]]; [by rewrite Hn in Hl|by left|right].
  apply (load_brings _ b1) in Hl as ->; [|done..|rewrite Hver; vm_compute; discriminate].
  assert (IsPairableInstanceId (instance_id b1) = true) as Hp.
  { unfold IsAdoptable in Ha. bool_hyps. cbn in *. by destruct (IsPairableInstanceId (instance_id b1)). }
  assert (read_back b1 = b1) as Hb by (unfold read_back; rewrite Hp; by destruct b1).
  rewrite Hb in *. destruct Hacc as [[Hpend _]|?]; [congruence|done].
Qed.

(** A start is only sent from a saved record. *)
Lemma step_starts v e s :
  step v e = Some s -> exists calls, log s = log v ++ calls /\ forall cfg, CStartTunnel cfg ∈ calls -> exists b, pc v = Ready cfg b.
Proof.
  intros Hs. destruct e as [attachOnly i|st removed|i|k connected wr|st c r cl|k sync c r cl|m']; cbn in Hs.
  - destruct (pc v); try discriminate Hs. destruct (BeginSession _ _ _) as [[a calls] p] eqn:E. injection Hs as <-. exists calls. split; [done|].
    intros c Hin. apply begin_spec in E as (_ & _ & _ & Hf). rewrite Forall_forall in Hf. by destruct (Hf _ Hin).
  - destruct (pc v) as [|cfg0 b|] eqn:Ep; try discriminate Hs. destruct (StartSession _ _ _ _ _) as [[a calls] p] eqn:E. injection Hs as <-.
    exists calls. split; [done|]. intros c Hin. exists b. f_equal. apply start_spec in E as [_ E].
    destruct p; cbn in E; [destruct E as [(_ & -> & _)|(_ & -> & _)]|done|destruct E as (_ & -> & _)]; set_solver.
  - destruct (pc v) as [| |w]; try discriminate Hs. destruct (WireSession _ _ _) as [a calls] eqn:E. injection Hs as <-. exists calls. split; [done|].
    intros c Hin. apply wire_spec in E as (_ & Hf & _). rewrite Forall_forall in Hf. by destruct (Hf _ Hin) as [[]|[[? ?] _]].
  - apply bind_Some in Hs as ([g b] & _ & Hs). destruct (remoteChanged _ _ _ _ _) as [[a calls]|] eqn:E; cbn in Hs; injection Hs as <-.
    + exists calls. split; [done|]. apply remote_spec in E as (_ & _ & _ & _ & _ & _ & [[_ ->]|(_ & _ & _ & x & ->)]); set_solver.
    + exists []. split; [done|set_solver].
  - destruct (pc v); try discriminate Hs. destruct (TeardownSessionLocked _ _ _ _ _) as [a calls] eqn:E. injection Hs as <-. exists calls. split; [done|].
    apply teardown_spec in E as (_ & _ & _ & _ & _ & _ & _ & _ & [->|[-> _]]); set_solver.
  - apply bind_Some in Hs as ([g r0] & _ & Hs). destruct (pc v); try discriminate Hs.
    destruct (CheckSessionSync _ _ _ _ _ _ _) as [[a calls] st] eqn:E. injection Hs as <-. exists calls. split; [done|].
    apply check_spec in E as [[-> ->]|(_ & _ & E)]; [set_solver|]. apply teardown_spec in E as (_ & _ & _ & _ & _ & _ & _ & _ & [->|[-> _]]); set_solver.
  - injection Hs as <-. exists []. rewrite app_nil_r. split; [done|set_solver].
Qed.

(** C39: a start is written ahead. Every request that starts a session was preceded by a save that
    went through, of a record with the request's own instance, session and endpoint. *)
Theorem start_is_written_ahead m tr s l1 cfg l2 :
  steps (start_sys m f0) tr = Some s -> log s = l1 ++ CStartTunnel cfg :: l2 ->
  exists b, CSave b true ∈ l1 /\ of_record cfg b.
Proof.
  intros Hs. revert s l2 Hs. induction tr as [|e tr IH] using rev_ind; intros s l2 Hs Hlog.
  { injection Hs as <-. cbn in Hlog. by destruct l1. }
  rewrite boot_steps_end in Hs. apply bind_Some in Hs as (v & Hv & Hs). pose proof (Inv_booted _ _ _ Hv) as I.
  destruct (step_starts v e s Hs) as (calls & Hc & Hin).
  rewrite Hc in Hlog. apply app_eq_app in Hlog as (k & [[Hl Hk]|[Hl Hk]]).
  - destruct k as [|x k].
    + rewrite app_nil_r in Hl. subst l1. cbn in Hk. destruct (Hin cfg) as [b Hb]; [rewrite <- Hk; by left|]. exists b.
      pose proof (inv_ready v I) as Hi. rewrite Hb in Hi. by destruct Hi as (? & _ & ?).
    + injection Hk as <- Hk. by apply (IH v k Hv).
  - destruct (Hin cfg) as [b Hb]; [rewrite Hk, elem_of_app; right; by left|]. exists b.
    pose proof (inv_ready v I) as Hi. rewrite Hb in Hi. destruct Hi as (? & _ & ?). split; [|done]. rewrite Hl, elem_of_app. by left.
Qed.

(** What holds while no bootstrap may start and no teardown asks for a stop: nothing but the
    records in [P] is adopted. *)
Record Attached (P : Blob -> Prop) (s : Sys) : Prop := {
  at_pc : match pc s with Idle => True | Ready _ _ => False | Wiring w => w_reattaching w = true /\ P (w_record w) end;
  at_arms : Forall (fun x => x.2 = true) (arms_ (app s));
  at_listeners : Forall (fun l => P l.2) (listeners_ (app s));
  at_log : Forall (fun c => only_asks c \/ exists b, P b /\ b ∈ synced s /\ confirms b c) (log s);
  at_file : file_ (app s) = f0 \/ file_ (app s) = None \/ exists b, P b /\ b ∈ synced s /\ holds (file_ (app s)) (with_state Confirmed b) }.

(** The logs and files of [Attached] as it goes on. *)
Lemma attached_log (P : Blob -> Prop) (sy sy' : list Blob) l l' :
  Forall (fun c => only_asks c \/ exists b, P b /\ b ∈ sy /\ confirms b c) l ->
  Forall (fun c => only_asks c \/ exists b, P b /\ b ∈ sy ++ sy' /\ confirms b c) l' ->
  Forall (fun c => only_asks c \/ exists b, P b /\ b ∈ sy ++ sy' /\ confirms b c) (l ++ l').
Proof.
  intros H H'. apply Forall_app. split; [|done]. eapply Forall_impl; [exact H|]. cbn. intros c [?|(b & ? & ? & ?)]; [by left|right].
  exists b. rewrite elem_of_app. auto.
Qed.

Lemma attached_file (P : Blob -> Prop) f f' (sy sy' : list Blob) :
  (f = f0 \/ f = None \/ exists b, P b /\ b ∈ sy /\ holds f (with_state Confirmed b)) -> f' = f \/ f' = None ->
  f' = f0 \/ f' = None \/ exists b, P b /\ b ∈ sy ++ sy' /\ holds f' (with_state Confirmed b).
Proof.
  intros H [->|?]; [|by right; left]. destruct H as [?|[?|(b & ? & ? & ?)]]; [by left|by right; left|right; right].
  exists b. rewrite elem_of_app. auto.
Qed.

Lemma asks_forall (P : Blob -> Prop) (sy : list Blob) l :
  Forall only_asks l -> Forall (fun c => only_asks c \/ exists b, P b /\ b ∈ sy /\ confirms b c) l.
Proof. intros H. eapply Forall_impl; [exact H|]. auto. Qed.

Lemma Attached_teardown P s connected removed closes a calls :
  Attached P s -> pc s = Idle -> TeardownSessionLocked false connected removed closes (app s) = (a, calls) ->
  Attached P (mkSys a Idle (log s ++ calls) (synced s)).
Proof.
  intros A Hp (_ & _ & _ & H4 & H5 & _ & H6 & _ & [->|[_ ?]])%teardown_spec; [|done]. rewrite app_nil_r.
  constructor; cbn; rewrite ?H4, ?H5; try done; [apply (at_arms _ _ A)|apply (at_listeners _ _ A)|apply (at_log _ _ A)|].
  rewrite <- (app_nil_r (synced s)). eapply attached_file; [apply (at_file _ _ A)|done].
Qed.

Lemma Attached_begins (P : Blob -> Prop) s i a calls p :
  Attached P s -> (forall b, IsAdoptable b = true -> names (hello i) b -> P b) ->
  BeginSession true i (app s) = (a, calls, p) -> Attached P (mkSys a p (log s ++ calls) (synced s)).
Proof.
  intros A HP ((_ & _ & _ & _ & _ & H6 & H7) & Hg & Hf & _)%begin_spec.
  assert (file_ a = file_ (app s) \/ file_ a = None) as Hfile.
  { destruct p; cbn in Hg; [destruct Hg as [?|[? _]]; auto|by destruct Hg|]. destruct Hg as (_ & _ & _ & _ & _ & _ & _ & [?|[? _]]); auto. }
  constructor; cbn; rewrite ?H6, ?H7; try apply A.
  - destruct p; cbn in Hg; [done|by destruct Hg|]. destruct Hg as (? & ? & _ & _ & ? & _). auto.
  - rewrite <- (app_nil_r (synced s)). apply attached_log; [apply (at_log _ _ A)|by apply asks_forall, Hf].
  - rewrite <- (app_nil_r (synced s)). eapply attached_file; [apply (at_file _ _ A)|done].
Qed.

Lemma Attached_wires P s w i a calls :
  Attached P s -> pc s = Wiring w -> WireSession w i (app s) = (a, calls) ->
  Attached P (mkSys a Idle (log s ++ calls) (if makes i && listens i && serves i && remoteNow i then synced s ++ [w_record w] else synced s)).
Proof.
  intros A Hp (_ & Hf & H)%wire_spec. pose proof (at_pc _ _ A) as Hw. rewrite Hp in Hw. destruct Hw as [Hr HP].
  set (x := makes i && listens i && serves i && remoteNow i) in *.
  assert ((if x then synced s ++ [w_record w] else synced s) = synced s ++ (if x then [w_record w] else [])) as -> by (destruct x; by rewrite ?app_nil_r).
  assert (x = true -> w_record w ∈ synced s ++ (if x then [w_record w] else [])) as Hin
    by (intros ->; rewrite elem_of_app; right; by left).
  constructor; cbn; [done|..].
  - destruct H as [(_ & _ & _ & _ & -> & _)|(_ & _ & _ & _ & [->| ->] & _)]; try apply A. apply Forall_app. split; [apply A|by constructor].
  - destruct H as [(_ & _ & _ & -> & _)|(_ & _ & _ & [->| ->] & _)]; try apply A. apply Forall_app. split; [apply A|by constructor].
  - apply attached_log; [apply (at_log _ _ A)|]. eapply Forall_impl; [exact Hf|]. cbn. intros c [?|[? ?]]; [by left|right]. exists (w_record w). auto.
  - destruct H as [(_ & _ & _ & _ & _ & ->)|(_ & _ & _ & _ & _ & [->|[Hh Hx]])]; [by eapply attached_file; [apply (at_file _ _ A)|left]..|].
    right. right. exists (w_record w). auto.
Qed.

Lemma Attached_remote P s k g b connected wr s' :
  Attached P s -> listeners_ (app s) !! k = Some (g, b) -> step s (RemoteChanges k connected wr) = Some s' -> Attached P s'.
Proof.
  intros A Hk Hs. cbn in Hs. rewrite Hk in Hs. cbn in Hs.
  assert (P b) as HP by (pose proof (at_listeners _ _ A) as Hl; rewrite Forall_lookup in Hl; apply (Hl k _ Hk)).
  assert ((if connected then synced s ++ [b] else synced s) = synced s ++ (if connected then [b] else [])) as Ey by (destruct connected; by rewrite ?app_nil_r).
  rewrite Ey in Hs. destruct (remoteChanged g b connected wr (app s)) as [[a calls]|] eqn:E; cbn in Hs; injection Hs as <-.
  - apply remote_spec in E as (_ & _ & _ & _ & H5 & H6 & H7). constructor; cbn; rewrite ?H5, ?H6; try apply A.
    + apply attached_log; [apply (at_log _ _ A)|]. destruct H7 as [[_ ->]|(-> & _ & _ & Hc)]; [constructor|].
      destruct Hc as [x ->]. constructor; [|constructor]. right. exists b. split; [done|]. split; [rewrite elem_of_app; right; by left|by exists x].
    + destruct H7 as [[-> _]|(-> & _ & [->|Hh] & _)]; [by eapply attached_file; [apply (at_file _ _ A)|left]..|].
      right. right. exists b. split; [done|]. split; [rewrite elem_of_app; right; by left|done].
  - rewrite app_nil_r. constructor; cbn; try apply A.
    + rewrite <- (app_nil_r (log s)). apply attached_log; [apply (at_log _ _ A)|constructor].
    + eapply attached_file; [apply (at_file _ _ A)|by left].
Qed.

Lemma Attached_step (P : Blob -> Prop) s e s' :
  Attached P s -> (forall i, e <> Begins false i) -> (forall c r cl, e <> TearsDown true c r cl) ->
  (forall i b, e = Begins true i -> IsAdoptable b = true -> names (hello i) b -> P b) -> step s e = Some s' -> Attached P s'.
Proof.
  intros A Hb Ht HP Hs. destruct e as [attachOnly i|st removed|i|k connected wr|st c r cl|k sync c r cl|m']; cbn in Hs.
  - destruct attachOnly; [|by destruct (Hb i)]. destruct (pc s); try discriminate Hs. destruct (BeginSession _ _ _) as [[a calls] p] eqn:E. injection Hs as <-.
    eapply Attached_begins; [done| |exact E]. intros b. by apply HP.
  - pose proof (at_pc _ _ A) as Hp. destruct (pc s); by try discriminate Hs.
  - destruct (pc s) as [| |w] eqn:Ep; try discriminate Hs. destruct (WireSession _ _ _) as [a calls] eqn:E. injection Hs as <-. by eapply Attached_wires.
  - pose proof Hs as Hs0. apply bind_Some in Hs0 as ([g b] & Hk & _). eapply (Attached_remote P s k g b connected wr); [done|exact Hk|exact Hs].
  - destruct st; [by destruct (Ht c r cl)|]. destruct (pc s) eqn:Ep; try discriminate Hs. destruct (TeardownSessionLocked _ _ _ _ _) as [a calls] eqn:E. injection Hs as <-.
    by eapply Attached_teardown.
  - apply bind_Some in Hs as ([g r0] & Hk & Hs). destruct (pc s) eqn:Ep; try discriminate Hs.
    destruct (CheckSessionSync _ _ _ _ _ _ _) as [[a calls] st] eqn:E. injection Hs as <-.
    assert (r0 = true) as -> by (pose proof (at_arms _ _ A) as Ha; rewrite Forall_lookup in Ha; apply (Ha k _ Hk)).
    apply check_spec in E as [[-> ->]|(_ & _ & E)]; [|by eapply Attached_teardown]. rewrite app_nil_r. destruct A; constructor; cbn; done.
  - injection Hs as <-. constructor; cbn; [done|constructor|constructor|apply A|apply A].
Qed.

(** C13: an app that only attaches changes nothing of the service, and writes nothing but what it
    was told. Where no connect's bootstrap ran and no teardown was asked to stop the tunnel,
    then whatever was on disk, whatever the service said, however often the app was relaunched
    and whatever its sync checks found refused, no session was started and none was stopped.
    Each record written was the confirmation of one it had taken up, whose instance, session
    and endpoint a hello of the service named as its live session's and whose own device had
    reported its rpc connected; and the file is the one that was there, gone, or such a
    confirmation. *)
Theorem attaching_changes_nothing m tr s :
  steps (start_sys m f0) tr = Some s -> (forall i, Begins false i ∉ tr) -> (forall c r cl, TearsDown true c r cl ∉ tr) ->
  let taken b := b ∈ synced s /\ IsAdoptable b = true /\ exists i, Begins true i ∈ tr /\ names (hello i) b in
  Forall (fun c => only_asks c \/ exists b, taken b /\ confirms b c) (log s) /\
  (file_ (app s) = f0 \/ file_ (app s) = None \/ exists b, taken b /\ holds (file_ (app s)) (with_state Confirmed b)).
Proof.
  intros Hs Hb Ht. set (P b := IsAdoptable b = true /\ exists i, Begins true i ∈ tr /\ names (hello i) b).
  assert (Attached P s) as A.
  { assert (forall tr' s', (exists k, tr = tr' ++ k) -> steps (start_sys m f0) tr' = Some s' -> Attached P s') as Hall;
      [|apply (Hall tr); [by exists []; rewrite app_nil_r|done]].
    induction tr' as [|e tr' IH] using rev_ind; intros s' [k Ek] Hs'.
    { injection Hs' as <-. constructor; cbn; [done|constructor..|by left]. }
    rewrite boot_steps_end in Hs'. apply bind_Some in Hs' as (v & Hv & Hs'). rewrite <- app_assoc in Ek.
    assert (e ∈ tr) as Hin by (rewrite Ek, elem_of_app; right; by left). eapply Attached_step, Hs'.
    - apply IH; eauto.
    - intros i ->. by apply (Hb i).
    - intros c r cl ->. by apply (Ht c r cl).
    - intros i b -> ? ?. split; [done|]. by exists i. }
  split.
  - eapply Forall_impl; [apply (at_log _ _ A)|]. cbn. intros c [?|(b & (? & ?) & ? & ?)]; [by left|right]. by exists b.
  - destruct (at_file _ _ A) as [?|[?|(b & (? & ?) & ? & ?)]]; [by left|by right; left|right; right]. by exists b.
Qed.

(** What the service said in a step. *)
Definition said (e : Event) : option SessionStatus :=
  match e with Begins _ i => Some (hello i) | Answers st _ => Some st | _ => None end.

(** C15: a session is wired with its own keys. Where a bootstrap goes on to a device, the service
    had just said a live session whose instance, session and endpoint are those of the record
    the device takes its keys from, and whose mode is the one asked for; a service that gave
    an rpc-only session for a tunnel is the one exception, and then it wrote no routes. *)
Theorem session_is_wired_with_its_own_keys m tr s e s' w :
  steps (start_sys m f0) tr = Some s -> step s e = Some s' -> pc s' = Wiring w -> (forall k c wr, e <> RemoteChanges k c wr) ->
  w_instance w = instance_id (w_record w) /\
  exists st, said e = Some st /\ names st (w_record w) /\
    (h_mode st = requestedMode_ (app s) \/ (requestedMode_ (app s) = ModeTunnel /\ h_mode st = ModeRpcOnly /\ h_routes st = false)).
Proof.
  intros I%Inv_booted Hs Hw Hr. destruct e as [attachOnly i|st removed|i|k connected wr|st c r cl|k sync c r cl|m']; cbn in Hs.
  - destruct (pc s); try discriminate Hs. destruct (BeginSession _ _ _) as [[a calls] p] eqn:E. injection Hs as <-. cbn in Hw. subst p.
    apply begin_spec in E as (_ & (_ & Hn & Hm & Hi & _) & _). split; [done|]. exists (hello i). auto.
  - destruct (pc s) as [|cfg b|] eqn:Ep; try discriminate Hs. destruct (StartSession _ _ _ _ _) as [[a calls] p] eqn:E. injection Hs as <-. cbn in Hw. subst p.
    pose proof (inv_ready s I) as Hi. rewrite Ep in Hi. destruct Hi as ((H1 & H2 & H3 & _) & Hm & _).
    apply start_spec in E as (_ & Hlive & _ & _ & (He1 & He2 & He3) & Hmode & ->). cbn. split; [done|]. exists st. split; [done|].
    split; [unfold names; cbn; split_and!; congruence|]. rewrite <- Hm. done.
  - destruct (pc s); try discriminate Hs. destruct (WireSession _ _ _) as [a calls]. by injection Hs as <-.
  - by destruct (Hr k connected wr).
  - destruct (pc s); try discriminate Hs. destruct (TeardownSessionLocked _ _ _ _ _) as [a calls]. by injection Hs as <-.
  - apply bind_Some in Hs as ([g r0] & _ & Hs). destruct (pc s); try discriminate Hs. destruct (CheckSessionSync _ _ _ _ _ _ _) as [[a calls] st]. by injection Hs as <-.
  - by injection Hs as <-.
Qed.

(** A start that is not wired is undone. Of an answer that says a live session, either it is
    wired, or the tunnel was stopped with the next call; and an rpc-only request is never left
    with a tunnel. *)
Theorem unwired_start_is_undone s cfg b st removed s' :
  pc s = Ready cfg b -> step s (Answers st removed) = Some s' -> IsSessionLive (h_state st) = true ->
  (log s' = log s ++ [CStartTunnel cfg] /\ (exists w, pc s' = Wiring w) /\ (cfg_mode cfg = ModeRpcOnly -> h_mode st = ModeRpcOnly)) \/
  (log s' = log s ++ [CStartTunnel cfg; CStopTunnel] /\ pc s' = Idle).
Proof.
  intros Hp Hs Hlive. cbn in Hs. rewrite Hp in Hs. destruct (StartSession _ _ _ _ _) as [[a calls] p] eqn:E. injection Hs as <-. cbn.
  apply start_spec in E as [_ E]. destruct p as [|cfg' b'|w]; cbn in E; [|done|].
  - right. destruct E as [(? & _)|(_ & -> & _)]; [congruence|done].
  - left. destruct E as (_ & -> & _ & _ & Hm & _). split; [done|]. split; [eauto|]. intros Hc. rewrite Hc in Hm. by destruct Hm as [?|[? _]].
Qed.

(** ** The session that outlives the app *)

Lemma begin_reattaches attachOnly i a r :
  signedIn i = true -> byClientJwt i <> [] -> isConnected i || connects i = true -> signOutOwed i = false ->
  gate_hello (requestedMode_ a) (hello i) = None -> h_mode (hello i) = requestedMode_ a -> names (hello i) r -> IsAdoptable r = true ->
  record (LoadRpcSession (file_ a) (reads i) (existenceError i)) = Some r ->
  exists a' calls, BeginSession attachOnly i a = (a', calls, Wiring (mkWire (byClientJwt i) (instance_id r) r true)).
Proof.
  intros H1 H2 H3 H4 H5 H6 (Hn1 & Hn2 & Hn3 & Hn4) H7 H8. unfold BeginSession. rewrite H1. cbn [negb]. rewrite bool_decide_eq_false_2 by done.
  destruct (isConnected i), (connects i); try discriminate H3; cbn [negb andb].
  all: rewrite H4, H5, H8; unfold MatchesLiveSession; rewrite H7, Hn1, Hn2, Hn3, Hn4, !(proj2 (teqb_eq _ _) eq_refl); cbn [andb].
  all: destruct (legacyPlaintext _); cbn [requestedMode_ with_file]; rewrite bool_decide_eq_true_2 by done; cbn [andb]; eauto.
Qed.

(** The record, and the same once it is confirmed. *)
Definition same_record (b b' : Blob) : Prop := b' = b \/ b' = with_state Confirmed b.

Lemma same_confirmed b b' : same_record b b' -> same_record b (with_state Confirmed b').
Proof. intros [->| ->]; by right. Qed.

Lemma same_adoptable b b' : same_record b b' -> IsAdoptable b = true -> IsAdoptable b' = true.
Proof.
  intros [->| ->]; [done|]. unfold IsAdoptable. cbn [version record_state instance_id rpc_session_id client_pem server_cert_pem host_port with_state].
  rewrite (bool_decide_eq_true_2 (Confirmed = Confirmed)), orb_true_r by done. rewrite !andb_true_iff. by intros [[[[[[? _] ?] ?] ?] ?] ?].
Qed.

(** What the events may be for the session to outlive them. *)
Definition keeps (cfg : StartConfig) (e : Event) : Prop :=
  match e with
  | Begins attachOnly _ => attachOnly = true
  | Answers st _ => IsSessionLive (h_state st) = true ->
      h_instance st = cfg_instance cfg /\ h_session st = cfg_session cfg /\ h_hostport st = rpc_listen_hostport cfg
  | TearsDown _ _ _ _ => False
  | Checks _ sync _ _ _ => match sync with Some (err, false) => err = [] | _ => True end
  | Wires _ | RemoteChanges _ _ _ | Restarts _ => True
  end.

Record Kept (cfg : StartConfig) (b : Blob) (s : Sys) : Prop := {
  kept_inv : Inv s;
  kept_file : exists b', holds (file_ (app s)) b' /\ same_record b b';
  kept_pc : match pc s with Idle => True | Ready cfg' b' => cfg' = cfg /\ b' = b | Wiring w => same_record b (w_record w) end;
  kept_listeners : Forall (fun l => l.1 = active_ (app s) -> same_record b l.2) (listeners_ (app s)) }.

Lemma kept_live cfg b s : Kept cfg b s -> IsAdoptable b = true -> json_law -> vault_law -> forall reads0 e r,
  record (LoadRpcSession (file_ (app s)) reads0 e) = Some r -> same_record b r.
Proof.
  intros K Ha Hj Hv reads0 e r Hl. destruct (kept_file _ _ _ K) as (b' & Hh & Hsame). pose proof (same_adoptable _ _ Hsame Ha) as Ha'.
  apply (load_brings (file_ (app s)) b' r reads0 e Hj Hv Hh (adoptable_version b' Ha')) in Hl. rewrite read_back_adoptable in Hl by done. by subst r.
Qed.

Lemma Kept_step cfg b s e s' :
  json_law -> vault_law -> IsAdoptable b = true -> of_record cfg b -> Kept cfg b s -> keeps cfg e -> step s e = Some s' -> Kept cfg b s'.
Proof.
  intros Hj Hv Ha Hof K Hk Hs. pose proof (kept_inv _ _ _ K) as I. pose proof (Inv_boot_step _ _ _ I Hs) as I'.
  destruct (kept_file _ _ _ K) as (b' & Hh & Hsame). pose proof (kept_pc _ _ _ K) as Hpc. pose proof (kept_listeners _ _ _ K) as Hl.
  destruct e as [attachOnly i|st removed|i|k connected wr|st c r cl|k sync c r cl|m']; cbn in Hs.
  - cbn in Hk. subst attachOnly. destruct (pc s); try discriminate Hs. destruct (BeginSession _ _ _) as [[a calls] p] eqn:E. injection Hs as <-.
    apply begin_spec in E as ((_ & _ & H3 & H4 & _ & H6 & _) & Hb & _ & _).
    assert (file_ a = file_ (app s) /\ match p with Ready _ _ => False | Wiring w => same_record b (w_record w) | Idle => True end) as [Hf Hp].
    { destruct p; cbn in Hb; [|by destruct Hb|].
      - destruct Hb as [?|[_ Hleg]]; [done|]. by rewrite (holds_not_legacy _ _ _ _ Hh) in Hleg.
      - destruct Hb as (_ & _ & _ & _ & _ & Hload & _ & Hb). split; [|by eapply kept_live].
        destruct Hb as [?|[_ Hleg]]; [done|]. by rewrite (holds_not_legacy _ _ _ _ Hh) in Hleg. }
    constructor; cbn; [done|rewrite Hf; eauto|by destruct p|by rewrite H4, H6].
  - destruct (pc s) as [|cfg' rec|] eqn:Ep; try discriminate Hs. destruct Hpc as [-> ->].
    destruct (StartSession _ _ _ _ _) as [[a calls] p] eqn:E. injection Hs as <-.
    apply start_spec in E as ((_ & _ & H3 & H4 & _ & H6 & _) & E). cbn in Hk.
    assert (file_ a = file_ (app s) /\ match p with Ready _ _ => False | Wiring w => w_record w = b | Idle => True end) as [Hf Hp].
    { destruct p; cbn in E; [|done|destruct E as (_ & _ & ? & _ & _ & ->); done]. split; [|done].
      destruct E as [(_ & _ & ?)|(Hlive & _ & He & _)]; [done|]. auto. }
    constructor; cbn; [done|rewrite Hf; eauto|destruct p; [done|done|rewrite Hp; by left]|by rewrite H4, H6].
  - destruct (pc s) as [| |w] eqn:Ep; try discriminate Hs. destruct (WireSession _ _ _) as [a calls] eqn:E. injection Hs as <-.
    apply wire_spec in E as (_ & _ & [(_ & _ & H4 & H5 & _ & H7)|H]); [constructor; cbn; [done|rewrite H7; eauto|done|by rewrite H4, H5]|].
    cbn zeta in H. destruct H as (_ & _ & H4 & H5 & _ & H7). constructor; cbn; [done| |done|].
    + destruct H7 as [->|[Hw _]]; [eauto|]. eexists. split; [exact Hw|]. by apply same_confirmed.
    + assert (Forall (fun l => l.1 = active_ a -> same_record b l.2) (listeners_ (app s))) as Hold.
      { eapply Forall_impl; [apply (inv_listeners s I)|]. cbn. intros [g x] [Hg _] Hga. cbn in *. rewrite H4 in Hga. lia. }
      destruct H5 as [->| ->]; [done|]. apply Forall_app. split; [done|]. by constructor.
  - apply bind_Some in Hs as ([g x] & Hx & Hs). destruct (remoteChanged g x connected wr (app s)) as [[a calls]|] eqn:E; cbn in Hs; injection Hs as <-;
      [|by constructor; try apply K].
    apply remote_spec in E as (_ & _ & _ & H4 & H5 & _ & H7). constructor; cbn; [done| |done|by rewrite H4, H5].
    destruct H7 as [[-> _]|(_ & Hg & [->|Hw] & _)]; [eauto..|]. eexists. split; [exact Hw|]. apply same_confirmed.
    rewrite Forall_lookup in Hl. by apply (Hl k _ Hx).
  - done.
  - apply bind_Some in Hs as ([g r0] & _ & Hs). destruct (pc s) eqn:Ep; try discriminate Hs.
    destruct (CheckSessionSync _ _ _ _ _ _ _) as [[a calls] st] eqn:E. injection Hs as <-.
    assert (a = app s /\ calls = []) as [-> ->].
    { unfold CheckSessionSync in E. destruct (negb (g =? _) || _); [by injection E|]. destruct sync as [[err [|]]|]; [by injection E| |by injection E].
      cbn in Hk. subst err. by injection E. }
    constructor; cbn; [done|eauto|done|done].
  - injection Hs as <-. constructor; cbn; [done|eauto|done|constructor].
Qed.

(** C11: a session outlives the app that started it. An app without a session saved its record
    and sent the start. As long as no answer says a live session of another identity, no sync
    check finds the session refused, no teardown runs and nothing but attaching bootstraps are
    made meanwhile, then wherever the process ended or a call threw, whatever the listeners
    wrote and however often the app came back, the next bootstrap, of a connect or not, that the
    service tells of that session in the mode asked for takes it up with the keys and the
    instance it was started with, and does nothing but ask. *)
Theorem session_outlives_the_app m tr v i0 s cfg b tr' s' attachOnly i :
  json_law -> vault_law ->
  steps (start_sys m f0) tr = Some v -> device_ (app v) = None -> step v (Begins false i0) = Some s -> pc s = Ready cfg b -> IsAdoptable b = true ->
  steps s tr' = Some s' -> Forall (keeps cfg) tr' -> pc s' = Idle ->
  signedIn i = true -> byClientJwt i <> [] -> isConnected i || connects i = true -> signOutOwed i = false -> reads i = true ->
  gate_hello (requestedMode_ (app s')) (hello i) = None -> h_mode (hello i) = requestedMode_ (app s') -> names (hello i) b ->
  (forall t, file_ (app s') = Some t -> size t <= kMaxRpcSessionFileBytes) ->
  exists s'' w calls, step s' (Begins attachOnly i) = Some s'' /\ pc s'' = Wiring w /\ w_instance w = cfg_instance cfg /\
    client_pem (w_record w) = client_pem b /\ server_cert_pem (w_record w) = server_cert_pem b /\ host_port (w_record w) = host_port b /\
    log s'' = log s' ++ calls /\ Forall only_asks calls.
Proof.
  intros Hj Hv Iv%Inv_booted Hd Hb Hp Ha Hs Hk Hp' H1 H2 H3 H4 H5 H6 H7 H8 Hsz.
  pose proof (Inv_boot_step _ _ _ Iv Hb) as Is. cbn in Hb. destruct (pc v); try discriminate Hb.
  destruct (BeginSession _ _ _) as [[a calls] p] eqn:E. injection Hb as <-. cbn in Hp. subst p.
  apply begin_spec in E as ((_ & _ & _ & Hact & _ & Hlis & _) & (_ & Hof & _ & Hh & _) & _).
  assert (Kept cfg b (mkSys a (Ready cfg b) (log v ++ calls) (synced v))) as K.
  { constructor; [done|exists b; split; [done|by left]|done|]. cbn. rewrite Hact, Hlis, (inv_idle v Iv Hd).
    eapply Forall_impl; [apply (inv_listeners v Iv)|]. cbn. intros [g x] [Hg _] Hga. cbn in *. lia. }
  assert (Kept cfg b s') as K'.
  { clear -Hs Hk K Hj Hv Ha Hof. revert s' Hs. induction tr' as [|e tr' IH] using rev_ind; intros s' Hs; [by injection Hs as <-|].
    rewrite boot_steps_end in Hs. apply bind_Some in Hs as (x & Hx & Hs). apply Forall_app in Hk as [Hk1 Hk2]. apply Forall_inv in Hk2.
    eapply Kept_step, Hs; [done..| |done]. by apply IH. }
  destruct (kept_file _ _ _ K') as (b' & Hh' & Hsame). pose proof (same_adoptable _ _ Hsame Ha) as Ha'.
  destruct (load_holds _ _ (existenceError i) Hj Hv Hh' (adoptable_version _ Ha') Hsz) as [Hr _].
  rewrite bool_decide_eq_false_2, read_back_adoptable in Hr by (try apply adoptable_host_port; done).
  assert (names (hello i) b') as Hn by (destruct Hsame as [->| ->]; exact H8).
  destruct (begin_reattaches attachOnly i (app s') b' H1 H2 H3 H4 H6 H7 Hn Ha') as (a' & calls' & Hbeg); [by rewrite H5|].
  cbn [step]. rewrite Hp', Hbeg. eexists _, _, calls'. split; [reflexivity|]. split; [reflexivity|]. cbn.
  apply begin_spec in Hbeg as (_ & (_ & _ & _ & _ & _ & _ & Hask & _) & _).
  destruct Hof as [Hi _]. destruct Hsame as [->| ->]; cbn; split_and!; auto.
Qed.

(** A teardown has the last word over its record. Once a teardown has gone through and its
    removal did, no listener of the session that ended, no check and no relaunch brings a record
    or a device back, until a bootstrap does. *)
Theorem teardown_has_the_last_word m tr s stopTunnel connected s1 tr' s' :
  steps (start_sys m f0) tr = Some s -> step s (TearsDown stopTunnel connected true true) = Some s1 ->
  steps s1 tr' = Some s' -> (forall a i, Begins a i ∉ tr') -> file_ (app s') = None /\ device_ (app s') = None.
Proof.
  intros I%Inv_booted Ht Hs Hb. pose proof (Inv_boot_step _ _ _ I Ht) as I1.
  assert (pc s1 = Idle /\ file_ (app s1) = None /\ device_ (app s1) = None) as H1.
  { cbn in Ht. destruct (pc s); try discriminate Ht. by injection Ht as <-. }
  assert (Inv s' /\ pc s' = Idle /\ file_ (app s') = None /\ device_ (app s') = None) as (_ & _ & ? & ?); [|done].
  revert s' Hs. induction tr' as [|e tr' IH] using rev_ind; intros s' Hs; [by injection Hs as <-|].
  rewrite boot_steps_end in Hs. apply bind_Some in Hs as (v & Hv & Hs).
  destruct (IH ltac:(intros a i Hin; apply (Hb a i); rewrite elem_of_app; by left) v Hv) as (Iv & Hp & Hf & Hd).
  split; [by eapply Inv_boot_step|]. destruct e as [attachOnly i|st removed|i|k conn wr|st c r cl|k sync c r cl|m']; cbn in Hs; rewrite ?Hp in Hs; try discriminate Hs.
  - destruct (Hb attachOnly i). rewrite elem_of_app. right. by left.
  - apply bind_Some in Hs as ([g x] & Hx & Hs). pose proof (inv_listeners v Iv) as Hl. rewrite Forall_lookup in Hl. destruct (Hl k _ Hx) as [Hg _]. cbn in Hg.
    unfold remoteChanged in Hs. rewrite (inv_idle v Iv Hd) in Hs. destruct (Z.eqb_spec 0 g); [lia|]. rewrite andb_false_r in Hs. by injection Hs as <-.
  - destruct (TeardownSessionLocked _ _ _ _ _) as [a calls] eqn:E. injection Hs as <-. cbn.
    unfold TeardownSessionLocked in E. destruct cl; injection E as <- _; cbn; [|done]. rewrite Hf. by destruct r.
  - apply bind_Some in Hs as ([g r0] & _ & Hs). destruct (CheckSessionSync _ _ _ _ _ _ _) as [[a calls] st] eqn:E. injection Hs as <-. cbn.
    apply check_spec in E as [[-> _]|(_ & Hsome & _)]; [done|]. rewrite Hd in Hsome. by destruct Hsome.
  - injection Hs as <-. done.
Qed.
End Began.

(** C38: a failed bootstrap leaves its device. In whatever state a bootstrap made its device and
    then threw registering the listener or setting the server, it says it failed, but the
    device stays, without a server and with no check of its sync armed, and the tunnel is left
    running. Whenever the service runs what a connect needs, the user's next connect then takes
    that device for a session and drives it, with no bootstrap. *)
Theorem failed_bootstrap_leaves_its_device s w i s' :
  pc s = Wiring w -> step s (Wires i) = Some s' -> makes i = true -> listens i && serves i = false ->
  pc s' = Idle /\ bootstrapError_ (app s') = Some Threw /\
  device_ (app s') = Some (mkDevice (w_jwt w) (w_instance w) None) /\ arms_ (app s') = arms_ (app s) /\
  log s' = log s ++ [CNewDevice (w_jwt w) (w_instance w)] /\ file_ (app s') = file_ (app s) /\
  forall kind ans off, is_connect kind = true -> signed_in ans = true -> connected_first ans = true ->
    let session := mkSession (bool_decide (is_Some (device_ (app s')))) off in
    service_has_what_we_need (facts_of ans) (app_of session kind ans) = true ->
    (session_pass session kind ans).2 = [PSdkConnect].
Proof.
  intros Hp Hs Hm Hl. cbn in Hs. rewrite Hp in Hs. destruct (WireSession w i (app s)) as [a calls] eqn:E. injection Hs as <-. cbn.
  assert (a = with_outcome (Some Threw) (negb (upAfter i)) false (with_watch (listeners_ a) (arms_ (app s)) (with_generations (sessionGeneration_ a) (active_ a) (confirmed_ a)
    (with_device (Some (mkDevice (w_jwt w) (w_instance w) None)) (app s)))) /\ calls = [CNewDevice (w_jwt w) (w_instance w)]) as [-> ->].
  { unfold WireSession in E. rewrite Hm in E. cbn [negb] in E. destruct (listens i); cbn [negb] in E; [|by injection E as <- <-].
    cbn [andb] in Hl. rewrite Hl in E. by injection E as <- <-. }
  cbn. split_and!; try done. intros kind ans off Hk Hin Hc Hn.
  unfold session_pass, plan_of, device_after_dead_check in *. cbn [device_ Gesture.device_]. rewrite Hc. cbn [negb andb].
  assert (Decide (GestureOf kind) (facts_of ans) (app_of (mkSession true off) kind ans) =
    decide_connect (GestureOf kind) (facts_of ans) (app_of (mkSession true off) kind ans) /\ bool_decide (GestureOf kind = EnsureSession) = false /\
    kind <> KindNone) as (-> & Eg & Hkn) by (by destruct kind).
  unfold decide_connect. rewrite Eg. cbn [andb negb]. unfold app_of at 1, device_after_dead_check. cbn [haveDevice]. rewrite Hn.
  unfold app_of, device_after_dead_check. cbn [Gesture.device_]. rewrite Hc. cbn [negb andb haveDevice].
  unfold Admits. rewrite Hin, (bool_decide_eq_false_2 (kind = KindNone)) by done. by destruct (_ || _).
Qed.
End Run.

(** * Examples *)

Definition demo_record : Blob :=
  mkBlob 1 Pending (txt "client") (txt "cert") (txt "127.0.0.1:9000") (txt "01234567-89ab-cdef-0123-456789abcdef") (txt "0123456789abcdef").

(** A library that knows the two records, and a system that protects nothing. *)
#[local] Instance JValue_eq_dec : EqDecision JValue.
Proof. solve_decision. Defined.
Definition demo_object (s : RecordState) : JObject := record_object (with_state s demo_record).
#[local] Instance demo_json : Json := {
  json_dump := fun j => if bool_decide (j = demo_object Pending) then Some (txt "pending") else
                        if bool_decide (j = demo_object Confirmed) then Some (txt "confirmed") else None;
  json_parse := fun t => if bool_decide (t = txt "pending") then Some (demo_object Pending) else
                         if bool_decide (t = txt "confirmed") then Some (demo_object Confirmed) else None }.
#[local] Instance demo_vault : Vault := { protect := Some; unprotect := Some }.

Lemma demo_json_law : json_law.
Proof.
  intros j t _ Hd. cbn in Hd. exists j. split; [|done]. case_bool_decide as E; [injection Hd as <-; by rewrite E|].
  case_bool_decide as E'; [injection Hd as <-; by rewrite E'|done].
Qed.

Lemma demo_vault_law : vault_law.
Proof. by intros p e [= <-]. Qed.

Definition says (st : TunnelState) (m : StartMode) (routes : bool) (b : Blob) : SessionStatus :=
  mkSession_status st m routes 4 (instance_id b) (rpc_session_id b) (host_port b) [].
Definition nothing_runs : SessionStatus := mkSession_status Stopped ModeTunnel false 4 [] [] [] [].
Definition demo_keys : Keys := mkKeys (txt "client") (txt "cert") (txt "server") (txt "client-cert") (txt "127.0.0.1:9000") (txt "0123456789abcdef").
Definition asks (h : SessionStatus) : BeginAnswers :=
  mkBegin true (txt "jwt") (instance_id demo_record) true true false h true false true (Some demo_keys) false true true.
Definition demo_config : StartConfig := fresh_config (asks nothing_runs) ModeTunnel demo_keys.
Definition up : SessionStatus := says Up ModeTunnel true demo_record.
Definition wires_well : WireAnswers := mkWireAnswers true true true true true true true.
Definition after (tr : list Event) : Sys := default (start_sys ModeTunnel None) (steps (start_sys ModeTunnel None) tr).

(** A connect's bootstrap, and the app that comes back to it. *)
Definition a_start : list Event := [Begins false (asks nothing_runs); Answers up true; Wires wires_well].
Definition a_return : list Event := [Restarts ModeTunnel; Begins true (asks up); Wires wires_well].

Example a_start_is_driven :
  (fun s => (device_ (app s), hasSession_ (app s), log s)) <$> steps (start_sys ModeTunnel None) a_start =
  Some (Some (mkDevice (txt "jwt") (instance_id demo_record) (Some (txt "client", txt "cert", txt "127.0.0.1:9000"))), true,
        [CHello; CSave demo_record true; CStartTunnel demo_config; CNewDevice (txt "jwt") (instance_id demo_record);
         CSetRpcServer (txt "client") (txt "cert") (txt "127.0.0.1:9000"); CSave (with_state Confirmed demo_record) true]).
Proof. vm_compute. reflexivity. Qed.

(** ** Where the code does not do what it says *)

(** A plaintext record is adopted. A file that is not protected but holds a whole record of
    the current version passes for the session the service runs, though it is loaded as a
    legacy one; the removal of the file is then never made good where it said confirmed, and the
    app that comes back finds nothing to attach to. *)
Theorem plaintext_record_is_adopted :
  legacyPlaintext (LoadRpcSession (Some (txt "confirmed")) true false) = true /\
  exists s s', steps (mkSys (start_app ModeTunnel (Some (txt "confirmed"))) Idle [] []) [Begins true (asks up); Wires wires_well] = Some s /\
    is_Some (device_ (app s)) /\ file_ (app s) = None /\
    steps s [Restarts ModeTunnel; Begins true (asks up)] = Some s' /\ pc s' = Idle /\ declined_ (app s') = true.
Proof. split; [vm_compute; reflexivity|]. eexists _, _. split; [vm_compute; reflexivity|]. split; [vm_compute; eauto|]. by repeat split. Qed.

(** A service that runs the tunnel this app started. *)
Definition tunnel_runs : Gesture.Answers :=
  mkAnswers true true true (mkStatus Up ModeTunnel true (txt "connected") []) true true false true Health.Connected true true true true.

(** A lost hello is called an old service. A hello the service did not answer leaves a status
    whose protocol is zero, so the user is told that the service must be updated. *)
Theorem lost_hello_is_called_an_old_service what a :
  requestedMode_ a = ModeTunnel ->
  bootstrapError_ (BeginSession false (asks (lost_reply what)) a).1.1 = Some NeedsDeferredCapture.
Proof. intros H. unfold BeginSession, gate_hello. cbn. by rewrite H. Qed.

Lemma lost_hello_is_called_an_old_service_witness :
  ModeTunnel = ModeTunnel /\ bootstrapError_ (BeginSession false (asks (lost_reply (txt "the pipe is closed"))) (start_app ModeTunnel None)).1.1 = Some NeedsDeferredCapture.
Proof. split; [done|]. apply (lost_hello_is_called_an_old_service (txt "the pipe is closed") (start_app ModeTunnel None)). reflexivity. Defined.

(** ** Witnesses *)

Lemma saved_record_reads_back_witness :
  IsAdoptable demo_record = true /\
  LoadRpcSession (Some (kRpcSessionFileMagic ++ txt "pending")) true false = mkLoad (Some demo_record) (txt "pending") false.
Proof.
  split; [vm_compute; reflexivity|]. apply (saved_record_reads_back None demo_record true _ false demo_json_law demo_vault_law).
  - vm_compute. reflexivity.
  - vm_compute. reflexivity.
  - intros t [= <-]. vm_compute. discriminate.
Defined.

Lemma confirmed_means_synced_witness :
  file_ (app (after a_start)) = None \/ exists b0, b0 ∈ synced (after a_start) /\ with_state Confirmed demo_record = with_state Confirmed b0.
Proof.
  apply (confirmed_means_synced None ModeTunnel a_start (after a_start) true false (with_state Confirmed demo_record) demo_json_law demo_vault_law).
  - vm_compute. reflexivity.
  - vm_compute. reflexivity.
  - vm_compute. reflexivity.
  - reflexivity.
Defined.

Lemma start_is_written_ahead_witness :
  exists b, CSave b true ∈ [CHello; CSave demo_record true] /\ of_record demo_config b.
Proof.
  apply (start_is_written_ahead None ModeTunnel a_start (after a_start) [CHello; CSave demo_record true] demo_config
    [CNewDevice (txt "jwt") (instance_id demo_record); CSetRpcServer (txt "client") (txt "cert") (txt "127.0.0.1:9000");
     CSave (with_state Confirmed demo_record) true]).
  - vm_compute. reflexivity.
  - vm_compute. reflexivity.
Defined.

(** An app that finds a record on disk, takes the session up, is relaunched, and finds its sync
    refused. *)
Definition left_behind : option text := Some (kRpcSessionFileMagic ++ txt "pending").
Definition an_attachment : list Event :=
  [Begins true (asks up); Wires wires_well; Restarts ModeTunnel; Begins true (asks up); Wires wires_well;
   Checks 0 (Some (txt "refused", false)) true false true].
Definition attached : Sys := default (start_sys ModeTunnel None) (steps (start_sys ModeTunnel left_behind) an_attachment).

Example an_attachment_goes :
  (log attached, device_ (app attached), file_ (app attached)) =
  ([CHello; CNewDevice (txt "jwt") (instance_id demo_record); CSetRpcServer (txt "client") (txt "cert") (txt "127.0.0.1:9000");
    CSave (with_state Confirmed demo_record) true; CHello; CNewDevice (txt "jwt") (instance_id demo_record);
    CSetRpcServer (txt "client") (txt "cert") (txt "127.0.0.1:9000")], None, Some (kRpcSessionFileMagic ++ txt "confirmed")).
Proof. vm_compute. reflexivity. Qed.

Lemma attaching_changes_nothing_witness :
  let taken b := b ∈ synced attached /\ IsAdoptable b = true /\ exists i, Begins true i ∈ an_attachment /\ names (hello i) b in
  Forall (fun c => only_asks c \/ exists b, taken b /\ confirms b c) (log attached) /\
  (file_ (app attached) = left_behind \/ file_ (app attached) = None \/ exists b, taken b /\ holds (file_ (app attached)) (with_state Confirmed b)).
Proof.
  apply (attaching_changes_nothing left_behind ModeTunnel an_attachment attached).
  - vm_compute. reflexivity.
  - intros i Hin. unfold an_attachment in Hin. repeat (apply elem_of_cons in Hin as [Hin|Hin]; [discriminate Hin|]). by apply not_elem_of_nil in Hin.
  - intros c r cl Hin. unfold an_attachment in Hin. repeat (apply elem_of_cons in Hin as [Hin|Hin]; [discriminate Hin|]). by apply not_elem_of_nil in Hin.
Defined.

(** A connect whose device was made, and whose server was not set. *)
Definition a_throw : WireAnswers := mkWireAnswers true true false false true true true.
Definition half_wired : Sys := after [Begins false (asks nothing_runs); Answers up true].
Definition thrown_wire : Sys := after [Begins false (asks nothing_runs); Answers up true; Wires a_throw].

Lemma failed_bootstrap_leaves_its_device_witness :
  let w := mkWire (txt "jwt") (instance_id demo_record) demo_record false in
  pc half_wired = Wiring w /\ service_has_what_we_need (facts_of tunnel_runs) (app_of (mkSession true false) BestAvailable tunnel_runs) = true /\
  pc thrown_wire = Idle /\ bootstrapError_ (app thrown_wire) = Some Threw /\
  device_ (app thrown_wire) = Some (mkDevice (w_jwt w) (w_instance w) None) /\ arms_ (app thrown_wire) = arms_ (app half_wired) /\
  log thrown_wire = log half_wired ++ [CNewDevice (w_jwt w) (w_instance w)] /\ file_ (app thrown_wire) = file_ (app half_wired) /\
  forall kind ans off, is_connect kind = true -> signed_in ans = true -> connected_first ans = true ->
    let session := mkSession (bool_decide (is_Some (device_ (app thrown_wire)))) off in
    service_has_what_we_need (facts_of ans) (app_of session kind ans) = true ->
    (session_pass session kind ans).2 = [PSdkConnect].
Proof.
  intros w. split; [vm_compute; reflexivity|]. split; [vm_compute; reflexivity|].
  apply (failed_bootstrap_leaves_its_device half_wired w a_throw thrown_wire).
  - vm_compute. reflexivity.
  - vm_compute. reflexivity.
  - reflexivity.
  - reflexivity.
Defined.

Lemma session_is_wired_with_its_own_keys_witness :
  let w := mkWire (txt "jwt") (instance_id demo_record) (with_state Confirmed demo_record) true in
  w_instance w = instance_id (w_record w) /\ exists st, Some up = Some st /\ names st (w_record w) /\
    (h_mode st = ModeTunnel \/ (ModeTunnel = ModeTunnel /\ h_mode st = ModeRpcOnly /\ h_routes st = false)).
Proof.
  intros w. apply (session_is_wired_with_its_own_keys None ModeTunnel (a_start ++ [Restarts ModeTunnel]) (after (a_start ++ [Restarts ModeTunnel]))
    (Begins true (asks up)) (after (a_start ++ [Restarts ModeTunnel; Begins true (asks up)])) w).
  - vm_compute. reflexivity.
  - vm_compute. reflexivity.
  - vm_compute. reflexivity.
  - discriminate.
Defined.

Lemma unwired_start_is_undone_witness :
  let s := after [Begins false (asks nothing_runs)] in let s' := after [Begins false (asks nothing_runs); Answers (says Up ModeTunnel true (with_state Invalid demo_record)) true] in
  (log s' = log s ++ [CStartTunnel demo_config] /\ (exists w, pc s' = Wiring w) /\ (cfg_mode demo_config = ModeRpcOnly -> ModeTunnel = ModeRpcOnly)) \/
  (log s' = log s ++ [CStartTunnel demo_config; CStopTunnel] /\ pc s' = Idle).
Proof.
  intros s s'. apply (unwired_start_is_undone s demo_config demo_record (says Up ModeTunnel true (with_state Invalid demo_record)) true s').
  - vm_compute. reflexivity.
  - vm_compute. reflexivity.
  - reflexivity.
Defined.

Lemma session_outlives_the_app_witness :
  let s' := after [Begins false (asks nothing_runs); Answers (lost_reply (txt "the pipe timed out")) true; Restarts ModeTunnel] in
  exists s'' w calls, step s' (Begins true (asks up)) = Some s'' /\ pc s'' = Wiring w /\ w_instance w = cfg_instance demo_config /\
    client_pem (w_record w) = client_pem demo_record /\ server_cert_pem (w_record w) = server_cert_pem demo_record /\
    host_port (w_record w) = host_port demo_record /\ log s'' = log s' ++ calls /\ Forall only_asks calls.
Proof.
  intros s'. apply (session_outlives_the_app None ModeTunnel [] (start_sys ModeTunnel None) (asks nothing_runs) (after [Begins false (asks nothing_runs)])
    demo_config demo_record [Answers (lost_reply (txt "the pipe timed out")) true; Restarts ModeTunnel] s' true (asks up) demo_json_law demo_vault_law).
  - reflexivity.
  - reflexivity.
  - vm_compute. reflexivity.
  - vm_compute. reflexivity.
  - vm_compute. reflexivity.
  - vm_compute. reflexivity.
  - constructor; [intros H; discriminate H|constructor; [exact I|constructor]].
  - vm_compute. reflexivity.
  - reflexivity.
  - discriminate.
  - reflexivity.
  - reflexivity.
  - reflexivity.
  - vm_compute. reflexivity.
  - vm_compute. reflexivity.
  - repeat split.
  - intros t Ht. vm_compute in Ht. injection Ht as <-. vm_compute. discriminate.
Defined.

Lemma teardown_has_the_last_word_witness :
  let s := after (a_start ++ [TearsDown true true true true; RemoteChanges 0 true true; Restarts ModeTunnel]) in file_ (app s) = None /\ device_ (app s) = None.
Proof.
  intros s. apply (teardown_has_the_last_word None ModeTunnel a_start (after a_start) true true (after (a_start ++ [TearsDown true true true true]))
    [RemoteChanges 0 true true; Restarts ModeTunnel] s).
  - vm_compute. reflexivity.
  - vm_compute. reflexivity.
  - vm_compute. reflexivity.
  - intros b i Hin. repeat (apply elem_of_cons in Hin as [Hin|Hin]; [discriminate Hin|]). by apply not_elem_of_nil in Hin.
Defined.
