(* ===== verification/FlowOwner.v ===== *)
(** Which program owns a connection (Service/FlowOwner.h and .cpp): the bounded cache, the key of
    a flow as the wire's text and as the tables of Windows give it, the cache-only lookup of
    the sdk's callback, the refresh on the worker's thread, and the worker's start and stop.
    The tables, the path of a process and inet_pton are the system's: a refresh is given what
    they answered, and the parse is a class.  FlowKeyHash only places a key in the map. *)

From S2P Require Import Prelude.
From S2P Require Import CxxText.

(** * The bounded cache *)

Section Cache.
Context {K V : Type} `{Countable K}.

Record BoundedCache := mkCache { capacity_ : nat; order_ : list K; map_ : gmap K V }.

Definition new_cache (capacity : nat) : BoundedCache := mkCache capacity [] ∅.

Definition Get (c : BoundedCache) (key : K) : option V := map_ c !! key.

Definition Put (c : BoundedCache) (key : K) (value : V) : BoundedCache :=
  match map_ c !! key with
  | Some _ => mkCache (capacity_ c) (order_ c) (<[key := value]> (map_ c))
  | None =>
      if (capacity_ c =? 0)%nat then c else
      let '(order, map) :=
        if (capacity_ c <=? length (order_ c))%nat then
          match order_ c with oldest :: rest => (rest, delete oldest (map_ c)) | [] => ([], map_ c) end
        else (order_ c, map_ c) in
      mkCache (capacity_ c) (order ++ [key]) (<[key := value]> map)
  end.

(** The loop of [ReplaceAll], from what it has taken, with the entries it drops. *)
Fixpoint replace_loop (c : BoundedCache) (entries : list (K * V)) (dropped : nat) : BoundedCache * nat :=
  match entries with
  | [] => (c, dropped)
  | (key, value) :: rest =>
      if (capacity_ c <=? base.size (map_ c))%nat then replace_loop c rest (S dropped) else
      match map_ c !! key with
      | Some _ => replace_loop c rest dropped
      | None => replace_loop (mkCache (capacity_ c) (order_ c ++ [key]) (<[key := value]> (map_ c))) rest dropped
      end
  end.

Definition ReplaceAll (c : BoundedCache) (entries : list (K * V)) : BoundedCache * nat :=
  replace_loop (new_cache (capacity_ c)) entries 0.

Definition Size (c : BoundedCache) : nat := base.size (map_ c).

(** ** What it promises: a queue of at most [capacity] distinct keys, the oldest first *)

Definition queue_get (l : list (K * V)) (key : K) : option V := (list_to_map l : gmap K V) !! key.

Definition queue_put (capacity : nat) (l : list (K * V)) (key : K) (value : V) : list (K * V) :=
  if bool_decide (key ∈ l.*1) then map (fun e => if bool_decide (e.1 = key) then (key, value) else e) l else
  if (capacity =? 0)%nat then l else
  (if (capacity <=? length l)%nat then tail l else l) ++ [(key, value)].

(** The first entry of each key. *)
Definition firsts (entries : list (K * V)) : list (K * V) :=
  foldl (fun l e => if bool_decide (e.1 ∈ l.*1) then l else l ++ [e]) [] entries.

Definition refines (c : BoundedCache) (l : list (K * V)) : Prop :=
  NoDup l.*1 /\ (length l <= capacity_ c)%nat /\ order_ c = l.*1 /\ map_ c = list_to_map l.

Lemma refines_new n : refines (new_cache n) [].
Proof. split_and!; try done; cbn; [constructor|lia]. Qed.

Lemma refines_lookup c l k : refines c l -> Get c k = queue_get l k.
Proof. intros (_ & _ & _ & Hm). unfold Get, queue_get. by rewrite Hm. Qed.

Lemma in_map c l k : refines c l -> is_Some (map_ c !! k) <-> k ∈ l.*1.
Proof.
  intros (Hn & _ & _ & ->). split.
  - intros [v Hv]. apply elem_of_list_to_map_2 in Hv. apply list_elem_of_fmap. by exists (k, v).
  - intros ([k' v] & -> & Hv)%list_elem_of_fmap. exists v. by apply elem_of_list_to_map_1.
Qed.

Lemma refines_size c l : refines c l -> Size c = length l.
Proof.
  intros (Hn & _ & _ & Hm). unfold Size. rewrite Hm. clear Hm. induction l as [|[k v] l IH]; [done|]. apply NoDup_cons in Hn as [Hk Hn].
  cbn. rewrite map_size_insert_None; [by rewrite IH|]. by apply not_elem_of_list_to_map_1.
Qed.

Lemma set_value_keys key (value : V) (l : list (K * V)) :
  (map (fun e => if bool_decide (e.1 = key) then (key, value) else e) l).*1 = l.*1.
Proof. induction l as [|[k v] l IH]; [done|]. cbn. case_bool_decide; cbn in *; subst; by rewrite IH. Qed.

Lemma set_value_map key value (l : list (K * V)) :
  key ∈ l.*1 -> NoDup l.*1 ->
  (list_to_map (map (fun e => if bool_decide (e.1 = key) then (key, value) else e) l) : gmap K V) = <[key := value]> (list_to_map l).
Proof.
  induction l as [|[k v] l IH]; [by intros ?%elem_of_nil|]. intros Hk [Hn Hd]%NoDup_cons. cbn. cbn in Hk.
  destruct (decide (k = key)) as [->|Hne].
  - rewrite bool_decide_eq_true_2 by done. cbn. rewrite insert_insert_eq. f_equal.
    clear -Hn. induction l as [|[k v'] l IH]; [done|]. cbn in *. apply not_elem_of_cons in Hn as [Hk Hn].
    rewrite bool_decide_eq_false_2 by done. cbn. f_equal. by apply IH.
  - rewrite bool_decide_eq_false_2 by done. cbn. rewrite IH; [|set_solver|done]. by rewrite insert_insert_ne.
Qed.

Lemma refines_add c l k v :
  refines c l -> k ∉ l.*1 -> (length l < capacity_ c)%nat -> refines (mkCache (capacity_ c) (order_ c ++ [k]) (<[k := v]> (map_ c))) (l ++ [(k, v)]).
Proof.
  intros (Hn & Hl & Ho & Hm) Hk Hc. split_and!; cbn.
  - rewrite fmap_app. apply NoDup_app. split; [done|]. split; [set_solver|]. apply NoDup_singleton.
  - rewrite length_app. cbn. lia.
  - by rewrite Ho, fmap_app.
  - rewrite Hm, list_to_map_app. cbn. rewrite <- insert_union_r by (by apply not_elem_of_list_to_map_1). by rewrite map_union_empty.
Qed.

Lemma refines_put c l k v : refines c l -> refines (Put c k v) (queue_put (capacity_ c) l k v).
Proof.
  intros R. pose proof R as (Hn & Hl & Ho & Hm). unfold Put, queue_put. case_bool_decide as Hk.
  - destruct (proj2 (in_map c l k R) Hk) as [v0 ->]. split_and!; cbn; rewrite ?set_value_keys, ?length_map; try done.
    rewrite set_value_map by done. by rewrite Hm.
  - assert (map_ c !! k = None) as Hnone by (apply eq_None_not_Some; by rewrite (in_map c l k R)).
    rewrite Hnone. destruct (Nat.eqb_spec (capacity_ c) 0) as [|Hz]; [done|]. rewrite Ho, length_fmap.
    destruct (Nat.leb_spec (capacity_ c) (length l)) as [Hfull|Hfree]; [|by rewrite <- Ho; apply refines_add].
    destruct l as [|[k0 v0] l]; cbn in *; [lia|]. apply NoDup_cons in Hn as [Hn0 Hn].
    pose proof (refines_add (mkCache (capacity_ c) l.*1 (delete k0 (map_ c))) l k v) as Hadd. cbn in Hadd.
    apply Hadd; [|set_solver|lia]. split_and!; cbn; try done; [lia|].
    rewrite Hm, delete_insert_id; [done|]. by apply not_elem_of_list_to_map_1.
Qed.

(** The loop takes the first entries of new keys while there is room. *)
Definition firsts_from (l entries : list (K * V)) : list (K * V) :=
  foldl (fun l e => if bool_decide (e.1 ∈ l.*1) then l else l ++ [e]) l entries.

Lemma firsts_grow l entries : exists more, firsts_from l entries = l ++ more.
Proof.
  unfold firsts_from. revert l. induction entries as [|e entries IH]; intros l; cbn; [exists []; by rewrite app_nil_r|].
  case_bool_decide; [apply IH|]. destruct (IH (l ++ [e])) as [more ->]. exists (e :: more). by rewrite <- app_assoc.
Qed.

Lemma replace_loop_spec c l entries n :
  refines c l ->
  capacity_ (replace_loop c entries n).1 = capacity_ c /\ refines (replace_loop c entries n).1 (take (capacity_ c) (firsts_from l entries)).
Proof.
  revert c l n. induction entries as [|[k v] entries IH]; intros c l n R; pose proof R as (Hn & Hl & Ho & Hm); cbn [replace_loop firsts_from foldl].
  - split; [done|]. by rewrite take_ge.
  - change (base.size (map_ c)) with (Size c). rewrite (refines_size c l R). cbn [fst]. destruct (Nat.leb_spec (capacity_ c) (length l)) as [Hfull|Hfree].
    + destruct (IH c l (S n) R) as [H1 H2]. split; [done|]. replace (take (capacity_ c) _) with (take (capacity_ c) (firsts_from l entries)); [done|].
      fold (firsts_from (if bool_decide (k ∈ l.*1) then l else l ++ [(k, v)]) entries).
      destruct (firsts_grow l entries) as [m1 ->]. rewrite take_app_le by lia. case_bool_decide.
      * destruct (firsts_grow l entries) as [m2 ->]. by rewrite take_app_le by lia.
      * destruct (firsts_grow (l ++ [(k, v)]) entries) as [m2 ->]. by rewrite <- app_assoc, take_app_le by lia.
    + fold (firsts_from (if bool_decide (k ∈ l.*1) then l else l ++ [(k, v)]) entries). case_bool_decide as Hk.
      * destruct (proj2 (in_map c l k R) Hk) as [v0 ->]. by apply IH.
      * assert (map_ c !! k = None) as -> by (apply eq_None_not_Some; by rewrite (in_map c l k R)).
        apply (IH (mkCache (capacity_ c) (order_ c ++ [k]) (<[k := v]> (map_ c))) (l ++ [(k, v)])). by apply refines_add.
Qed.

Lemma refines_replace c entries : refines (ReplaceAll c entries).1 (take (capacity_ c) (firsts entries)).
Proof. apply (replace_loop_spec (new_cache (capacity_ c)) [] entries 0 (refines_new _)). Qed.

End Cache.
Arguments BoundedCache _ _ {_ _}.

(** ** The promise, over any use *)

Section Use.
Context {K V : Type} `{Countable K}.

Inductive CacheOp := DoGet (key : K) | DoPut (key : K) (value : V) | DoReplaceAll (entries : list (K * V)) | DoSize.
Inductive Answer := Found (value : option V) | Wrote | Counts (n : nat).

Definition cache_op (c : BoundedCache K V) (op : CacheOp) : BoundedCache K V * Answer :=
  match op with
  | DoGet key => (c, Found (Get c key))
  | DoPut key value => (Put c key value, Wrote)
  | DoReplaceAll entries => ((ReplaceAll c entries).1, Wrote)
  | DoSize => (c, Counts (Size c))
  end.

Definition queue_op (capacity : nat) (l : list (K * V)) (op : CacheOp) : list (K * V) * Answer :=
  match op with
  | DoGet key => (l, Found (queue_get l key))
  | DoPut key value => (queue_put capacity l key value, Wrote)
  | DoReplaceAll entries => (take capacity (firsts entries), Wrote)
  | DoSize => (l, Counts (length l))
  end.

Fixpoint run {S : Type} (op : S -> CacheOp -> S * Answer) (s : S) (ops : list CacheOp) : list Answer :=
  match ops with [] => [] | o :: ops => (op s o).2 :: run op (op s o).1 ops end.

Lemma cache_op_refines c l op :
  refines c l -> (cache_op c op).2 = (queue_op (capacity_ c) l op).2 /\ refines (cache_op c op).1 (queue_op (capacity_ c) l op).1.
Proof.
  intros R. destruct op; cbn.
  - split; [|done]. f_equal. by apply refines_lookup.
  - split; [done|]. by apply refines_put.
  - split; [done|]. apply refines_replace.
  - split; [|done]. f_equal. by apply refines_size.
Qed.

Lemma cache_op_capacity (c : BoundedCache K V) op : capacity_ (cache_op c op).1 = capacity_ c.
Proof.
  destruct op; cbn; [done| |by apply (replace_loop_spec (new_cache (capacity_ c)) [] entries 0 (refines_new _))|done].
  unfold Put. repeat case_match; done.
Qed.

(** C22: the cache is a bounded queue. From an empty one, whatever is put, replaced and asked, it
    answers as the queue of at most [capacity] distinct keys does, in which a new key makes
    the oldest one leave, a known key keeps its place, and a replacement keeps the first
    entries of the keys that fit; and so it never holds more than [capacity]. *)
Theorem cache_is_a_bounded_queue capacity ops :
  run cache_op (new_cache capacity : BoundedCache K V) ops = run (queue_op capacity) [] ops /\
  Forall (fun a => match a with Counts n => (n <= capacity)%nat | _ => True end) (run cache_op (new_cache capacity : BoundedCache K V) ops).
Proof.
  assert (forall (c : BoundedCache K V) l, refines c l ->
    run cache_op c ops = run (queue_op (capacity_ c)) l ops /\
    Forall (fun a => match a with Counts n => (n <= capacity_ c)%nat | _ => True end) (run cache_op c ops)) as Hg.
  { induction ops as [|op ops IH]; intros c l R; cbn; [by split|].
    destruct (cache_op_refines c l op R) as [Ha R']. destruct (IH _ _ R') as [He Hf]. rewrite cache_op_capacity in *.
    rewrite <- Ha. split; [by rewrite He|]. constructor; [|done]. destruct op; cbn; try done. rewrite (refines_size c l R). apply R. }
  apply (Hg (new_cache capacity) []), refines_new.
Qed.
End Use.

(** * The key of a flow *)

Inductive FlowIpVersion := V4 | V6.
#[export] Instance FlowIpVersion_eq_dec : EqDecision FlowIpVersion.
Proof. solve_decision. Defined.

(** An address is its sixteen bytes. *)
Record FlowKey := mkKey {
  version : FlowIpVersion; protocol : Z; sourceAddr : list Z; sourcePort : Z; destAddr : list Z; destPort : Z }.
#[export] Instance FlowKey_eq_dec : EqDecision FlowKey.
Proof. solve_decision. Defined.
#[export] Instance FlowKey_countable : Countable FlowKey.
Proof.
  refine (inj_countable' (fun k => (bool_decide (version k = V6), protocol k, sourceAddr k, sourcePort k, destAddr k, destPort k))
            (fun '(v, p, s, sp, d, dp) => mkKey (if v : bool then V6 else V4) p s sp d dp) _).
  intros [[] ? ? ? ? ?]; done.
Defined.

Definition no_addr : list Z := replicate 16 0.
Definition kTcp : Z := 6.
Definition kUdp : Z := 17.

(** inet_pton, for each family: the bytes of an address it takes. *)
Class Inet := {
  pton4 : text -> option (list Z); pton6 : text -> option (list Z);
  pton4_bytes t b : pton4 t = Some b -> length b = 4%nat /\ Forall (fun x => 0 <= x < 256) b;
  pton6_bytes t b : pton6 t = Some b -> length b = 16%nat /\ Forall (fun x => 0 <= x < 256) b }.

(** The bytes of a v4 address, first in the sixteen. *)
Definition place4 (a : list Z) : list Z := a ++ replicate 12 0.

Section Wire.
Context `{Inet}.

Definition ParseAddr (t : text) (version : Z) : option (list Z) :=
  if bool_decide (t = []) then None else
  if version =? 6 then pton6 t else place4 <$> pton4 t.

(** The key [Lookup] asks its cache for, where the addresses parse. *)
Definition wire_key (version protocol : Z) (sourceIp : text) (sourcePort : Z) (destIp : text) (destPort : Z) : option FlowKey :=
  source ← ParseAddr sourceIp version;
  let v := if version =? 6 then V6 else V4 in
  if protocol =? kUdp then Some (mkKey v protocol source sourcePort no_addr 0) else
  dest ← ParseAddr destIp version;
  Some (mkKey v protocol source sourcePort dest destPort).
End Wire.

(** The tables of Windows: a row's addresses as bytes, its ports as the DWORDs that hold them,
    in network order in their low half. *)
Record TcpRow := mkTcp { localAddr : list Z; localPort : Z; remoteAddr : list Z; remotePort : Z; owningPid : Z }.
Record UdpRow := mkUdp { u_localAddr : list Z; u_localPort : Z; u_owningPid : Z }.

(** ntohs over the cast to u_short. *)
Definition port_of (dword : Z) : Z := let w := dword mod 2 ^ 16 in (w mod 256) * 256 + w / 256.

Definition place (v : FlowIpVersion) (a : list Z) : list Z := match v with V4 => place4 a | V6 => a end.

Definition tcp_key (v : FlowIpVersion) (r : TcpRow) : FlowKey :=
  mkKey v kTcp (place v (localAddr r)) (port_of (localPort r)) (place v (remoteAddr r)) (port_of (remotePort r)).
Definition udp_key (v : FlowIpVersion) (r : UdpRow) : FlowKey :=
  mkKey v kUdp (place v (u_localAddr r)) (port_of (u_localPort r)) no_addr 0.

(** A table the system did not give is [None]. *)
Record Tables := mkTables { tcp4 : option (list TcpRow); tcp6 : option (list TcpRow); udp4 : option (list UdpRow); udp6 : option (list UdpRow) }.

Definition CollectTcp (v : FlowIpVersion) (t : option (list TcpRow)) : list (FlowKey * Z) :=
  match t with Some rows => map (fun r => (tcp_key v r, owningPid r)) rows | None => [] end.
Definition CollectUdp (v : FlowIpVersion) (t : option (list UdpRow)) : list (FlowKey * Z) :=
  match t with Some rows => map (fun r => (udp_key v r, u_owningPid r)) rows | None => [] end.
Definition collect (t : Tables) : list (FlowKey * Z) :=
  CollectTcp V4 (tcp4 t) ++ CollectTcp V6 (tcp6 t) ++ CollectUdp V4 (udp4 t) ++ CollectUdp V6 (udp6 t).

(** * The owner *)

Definition kMaxFlows : nat := Z.to_nat 8192.
Definition kMaxExePaths : nat := Z.to_nat 4096.

(** A call of the lookup, on a thread of the sdk: asked, with the pid in hand, on a miss before
    and after the request is counted, answered. *)
Inductive LookupPc := Asked | HasPid (pid : Z) | Missed | Counted | Answered (path : text).

(** [c_asked] is how many passes were in when it asked, [c_read] how many when it read the pid. *)
Record Call := mkCall { c_key : FlowKey; c_pc : LookupPc; c_asked : nat; c_read : nat }.

(** The worker: none, about to enumerate, with the entries of a pass and the pids it has yet to
    look at, at the top of its loop, in its wait, out of its function. *)
Inductive WorkerPc := NoWorker | ToEnumerate | Resolving (entries : list (FlowKey * Z)) (pids : list Z) | AtLoop | Waits | Exited.

(** [passes]: what each pass put in, the oldest first. [resolved]: each path the system gave. *)
Record Owner := mkOwner {
  flows_ : BoundedCache FlowKey Z; exePaths_ : BoundedCache Z text; refreshRequests_ : Z; refreshPending_ : bool; stop_ : bool; running_ : bool;
  worker : WorkerPc; calls : list Call; passes : list (list (FlowKey * Z)); resolved : list (Z * text) }.

Definition new_owner (maxFlows maxExePaths : nat) : Owner :=
  mkOwner (new_cache maxFlows) (new_cache maxExePaths) 0 false false false NoWorker [] [] [].

Inductive OwnerEvent :=
| Starts | Stops | Joins
| Asks (key : FlowKey) | ReadsPid (i : nat) | ReadsPath (i : nat) | CountsMiss (i : nat) | FlagsMiss (i : nat)
| Enumerates (t : Tables) (pids : list Z) | Resolves (answer : text) | Swaps | Loops | Wakes (timedOut : bool).

Definition with_worker (w : WorkerPc) (o : Owner) : Owner :=
  mkOwner (flows_ o) (exePaths_ o) (refreshRequests_ o) (refreshPending_ o) (stop_ o) (running_ o) w (calls o) (passes o) (resolved o).
Definition with_call (i : nat) (p : LookupPc) (read : nat) (o : Owner) : Owner :=
  mkOwner (flows_ o) (exePaths_ o) (refreshRequests_ o) (refreshPending_ o) (stop_ o) (running_ o) (worker o)
    (alter (fun c => mkCall (c_key c) p (c_asked c) read) i (calls o)) (passes o) (resolved o).
Definition with_flags (requests : Z) (pending stop running : bool) (o : Owner) : Owner :=
  mkOwner (flows_ o) (exePaths_ o) requests pending stop running (worker o) (calls o) (passes o) (resolved o).

(** The set of the pids of a pass, in the order it is walked in. *)
Definition lists_pids (entries : list (FlowKey * Z)) (pids : list Z) : bool :=
  bool_decide (NoDup pids) && bool_decide (list_to_set pids =@{gset Z} list_to_set entries.*2).

Definition step (o : Owner) (e : OwnerEvent) : option Owner :=
  match e with
  | Starts =>
      if running_ o then Some o else
      match worker o with
      | NoWorker => Some (with_worker ToEnumerate (with_flags (refreshRequests_ o) (refreshPending_ o) false true o))
      | _ => None
      end
  | Stops => if running_ o then Some (with_flags (refreshRequests_ o) (refreshPending_ o) true false o) else Some o
  | Joins => match worker o with Exited => Some (with_worker NoWorker o) | _ => None end
  | Asks key =>
      Some (mkOwner (flows_ o) (exePaths_ o) (refreshRequests_ o) (refreshPending_ o) (stop_ o) (running_ o) (worker o)
              (calls o ++ [mkCall key Asked (length (passes o)) 0]) (passes o) (resolved o))
  | ReadsPid i =>
      c ← calls o !! i;
      match c_pc c with
      | Asked => Some (with_call i (match Get (flows_ o) (c_key c) with Some pid => HasPid pid | None => Missed end) (length (passes o)) o)
      | _ => None
      end
  | ReadsPath i =>
      c ← calls o !! i;
      match c_pc c with
      | HasPid pid => Some (with_call i (match Get (exePaths_ o) pid with Some path => Answered path | None => Missed end) (c_read c) o)
      | _ => None
      end
  | CountsMiss i =>
      c ← calls o !! i;
      match c_pc c with
      | Missed => Some (with_call i Counted (c_read c) (with_flags (u64 (refreshRequests_ o + 1)) (refreshPending_ o) (stop_ o) (running_ o) o))
      | _ => None
      end
  | FlagsMiss i =>
      c ← calls o !! i;
      match c_pc c with
      | Counted => Some (with_call i (Answered []) (c_read c) (with_flags (refreshRequests_ o) true (stop_ o) (running_ o) o))
      | _ => None
      end
  | Enumerates t pids =>
      match worker o with
      | ToEnumerate => if lists_pids (collect t) pids then Some (with_worker (Resolving (collect t) pids) o) else None
      | _ => None
      end
  | Resolves answer =>
      match worker o with
      | Resolving entries (pid :: pids) =>
          match Get (exePaths_ o) pid with
          | Some _ => Some (with_worker (Resolving entries pids) o)
          | None =>
              if bool_decide (answer = []) then Some (with_worker (Resolving entries pids) o) else
              Some (mkOwner (flows_ o) (Put (exePaths_ o) pid answer) (refreshRequests_ o) (refreshPending_ o) (stop_ o) (running_ o)
                      (Resolving entries pids) (calls o) (passes o) (resolved o ++ [(pid, answer)]))
          end
      | _ => None
      end
  | Swaps =>
      match worker o with
      | Resolving entries [] =>
          Some (mkOwner (ReplaceAll (flows_ o) entries).1 (exePaths_ o) (refreshRequests_ o) (refreshPending_ o) (stop_ o) (running_ o)
                  AtLoop (calls o) (passes o ++ [entries]) (resolved o))
      | _ => None
      end
  | Loops => match worker o with AtLoop => Some (with_worker (if stop_ o then Exited else Waits) o) | _ => None end
  | Wakes timedOut =>
      match worker o with
      | Waits =>
          if negb (timedOut || refreshPending_ o || stop_ o) then None else
          if stop_ o then Some (with_worker Exited o) else
          Some (with_worker ToEnumerate (with_flags (refreshRequests_ o) false (stop_ o) (running_ o) o))
      | _ => None
      end
  end.

Definition steps (o : Owner) (tr : list OwnerEvent) : option Owner := foldl (fun s e => o ← s; step o e) (Some o) tr.

(** * Lemmas *)

Lemma owner_steps_end o a e : steps o (a ++ [e]) = (v ← steps o a; step v e).
Proof. unfold steps. by rewrite foldl_app. Qed.

Lemma steps_next o e tr : steps o (e :: tr) = (v ← step o e; steps v tr).
Proof. unfold steps. cbn. destruct (step o e) as [v|]; [done|]. cbn. by induction tr. Qed.

(** The pid of the first entry of a key. *)
Fixpoint first_owner (entries : list (FlowKey * Z)) (key : FlowKey) : option Z :=
  match entries with [] => None | (k, pid) :: rest => if bool_decide (k = key) then Some pid else first_owner rest key end.

Lemma queue_get_app {K V} `{Countable K} (l l' : list (K * V)) k :
  queue_get (l ++ l') k = match queue_get l k with Some v => Some v | None => queue_get l' k end.
Proof.
  unfold queue_get. rewrite list_to_map_app. destruct (list_to_map l !! k) as [v|] eqn:E; [by apply lookup_union_Some_l|by rewrite lookup_union_r].
Qed.

Lemma queue_get_key {K V} `{Countable K} (l : list (K * V)) k : queue_get l k = None <-> k ∉ l.*1.
Proof. unfold queue_get. split; [apply not_elem_of_list_to_map_2|apply not_elem_of_list_to_map_1]. Qed.

Lemma firsts_owner l entries k :
  queue_get (firsts_from l entries) k = match queue_get l k with Some v => Some v | None => first_owner entries k end.
Proof.
  unfold firsts_from. revert l. induction entries as [|[k0 v0] entries IH]; intros l; cbn; [by destruct (queue_get l k)|].
  rewrite IH. case_bool_decide as Hk.
  - destruct (queue_get l k) eqn:E; [done|]. rewrite bool_decide_eq_false_2; [done|]. intros ->. by apply queue_get_key in E.
  - rewrite queue_get_app. destruct (queue_get l k) eqn:E; [done|]. unfold queue_get at 1. cbn. rewrite lookup_insert. by repeat case_decide.
Qed.

Lemma firsts_first_owner entries k : queue_get (firsts entries) k = first_owner entries k.
Proof. apply (firsts_owner []). Qed.

Lemma taken_owner n entries k pid : queue_get (take n (firsts entries)) k = Some pid -> first_owner entries k = Some pid.
Proof. intros Hq. rewrite <- firsts_first_owner, <- (take_drop n (firsts entries)), queue_get_app. by rewrite Hq. Qed.

(** * The invariant *)

(** [pid] owned [key] in the pass read. *)
Definition owned_at (o : Owner) (c : Call) (pid : Z) : Prop :=
  (c_asked c <= c_read c <= length (passes o))%nat /\
  exists entries, passes o !! pred (c_read c) = Some entries /\ c_read c <> 0%nat /\ first_owner entries (c_key c) = Some pid.

Definition call_ok (o : Owner) (c : Call) : Prop :=
  (c_asked c <= length (passes o))%nat /\
  match c_pc c with
  | HasPid pid => owned_at o c pid
  | Answered path => path <> [] -> exists pid, owned_at o c pid /\ (pid, path) ∈ resolved o
  | _ => True
  end.

Record Inv (o : Owner) : Prop := {
  inv_flows : exists l, refines (flows_ o) l;
  inv_last : forall k pid, Get (flows_ o) k = Some pid -> exists entries, last (passes o) = Some entries /\ first_owner entries k = Some pid;
  inv_paths : exists l, refines (exePaths_ o) l;
  inv_resolved : forall pid path, Get (exePaths_ o) pid = Some path -> (pid, path) ∈ resolved o /\ path <> [];
  inv_calls : Forall (call_ok o) (calls o)
}.

Lemma Inv_new_owner maxFlows maxExePaths : Inv (new_owner maxFlows maxExePaths).
Proof. split; cbn; try done; [exists []; apply refines_new|exists []; apply refines_new]. Qed.

(** The calls of a state whose history grows. *)
Lemma call_ok_mono o o' c :
  (exists more, passes o' = passes o ++ more) -> (exists more, resolved o' = resolved o ++ more) -> call_ok o c -> call_ok o' c.
Proof.
  intros [m1 H1] [m2 H2] [Ha Hc]. unfold call_ok, owned_at in *. rewrite H1, H2, length_app. split; [lia|].
  assert (forall pid, owned_at o c pid -> (c_asked c <= c_read c <= length (passes o) + length m1)%nat /\
    exists entries, (passes o ++ m1) !! pred (c_read c) = Some entries /\ c_read c <> 0%nat /\ first_owner entries (c_key c) = Some pid) as Ho.
  { intros pid [Hb (es & He & Hn & Hf)]. split; [lia|]. exists es. split; [by apply lookup_app_l_Some|done]. }
  destruct (c_pc c); try done; [by apply Ho|]. intros Hp. destruct (Hc Hp) as (pid & Hpid & Hin). exists pid. split; [by apply Ho|set_solver].
Qed.

Lemma calls_mono o o' l :
  (exists more, passes o' = passes o ++ more) -> (exists more, resolved o' = resolved o ++ more) ->
  Forall (call_ok o) l -> Forall (call_ok o') l.
Proof. intros H1 H2 Hf. eapply Forall_impl; [exact Hf|]. intros c. by apply call_ok_mono. Qed.

Lemma grows {A} (l : list A) : exists more, l = l ++ more.
Proof. exists []. by rewrite app_nil_r. Qed.

Lemma Inv_same o o' :
  Inv o -> flows_ o' = flows_ o -> exePaths_ o' = exePaths_ o -> passes o' = passes o -> resolved o' = resolved o -> calls o' = calls o -> Inv o'.
Proof.
  intros [] H1 H2 H3 H4 H5. split; rewrite ?H1, ?H2, ?H3, ?H4, ?H5; try done.
  eapply calls_mono; [rewrite H3; apply grows|rewrite H4; apply grows|done].
Qed.

Lemma Inv_call o i p read o' :
  Inv o -> flows_ o' = flows_ o -> exePaths_ o' = exePaths_ o -> passes o' = passes o -> resolved o' = resolved o ->
  calls o' = alter (fun c => mkCall (c_key c) p (c_asked c) read) i (calls o) ->
  (forall c, calls o !! i = Some c -> call_ok o c -> call_ok o (mkCall (c_key c) p (c_asked c) read)) -> Inv o'.
Proof.
  intros [] H1 H2 H3 H4 H5 Hc. split; rewrite ?H1, ?H2, ?H3, ?H4, ?H5; try done. apply Forall_lookup. intros j c Hj.
  apply (call_ok_mono o o'); [rewrite H3; apply grows|rewrite H4; apply grows|]. rewrite list_lookup_alter in Hj.
  rewrite Forall_lookup in inv_calls0. case_decide as E; [subst j|by eapply inv_calls0].
  apply fmap_Some in Hj as (c0 & Hc0 & ->). apply Hc; [done|by eapply inv_calls0].
Qed.

Lemma exe_put o pid path k v :
  Inv o -> Get (Put (exePaths_ o) pid path) k = Some v -> (k = pid /\ v = path) \/ Get (exePaths_ o) k = Some v.
Proof.
  intros [] Hk. destruct inv_paths0 as [l R]. rewrite (refines_lookup _ _ _ (refines_put _ _ pid path R)) in Hk.
  rewrite (refines_lookup _ _ _ R). unfold queue_get in *.
  destruct (refines_put _ _ pid path R) as (Hn & _). apply elem_of_list_to_map_2 in Hk. unfold queue_put in Hk.
  destruct R as (Hnl & _). case_bool_decide.
  - apply list_elem_of_fmap in Hk as ([k0 v0] & He & Hin). case_bool_decide; simplify_eq; [by left|right]. by apply elem_of_list_to_map_1.
  - destruct (_ =? 0)%nat; [right; by apply elem_of_list_to_map_1|]. apply elem_of_app in Hk as [Hk|Hk].
    + right. apply elem_of_list_to_map_1; [done|]. destruct (_ <=? _)%nat; [|done]. destruct l; [done|]. by right.
    + left. by apply list_elem_of_singleton in Hk as [= -> ->].
Qed.

Lemma Inv_owner_step o e o' : Inv o -> step o e = Some o' -> Inv o'.
Proof.
  intros I Hs. destruct e; cbn [step] in Hs.
  - destruct (running_ o); [by injection Hs as <-|]. destruct (worker o); try done. injection Hs as <-. by eapply Inv_same.
  - destruct (running_ o); injection Hs as <-; [by eapply Inv_same|done].
  - destruct (worker o); try done. injection Hs as <-. by eapply Inv_same.
  - injection Hs as <-. pose proof I as []. split; cbn; try done. apply Forall_app. split.
    + eapply (calls_mono o); [apply grows|apply grows|done].
    + repeat constructor.
  - apply bind_Some in Hs as (c & Hc & Hs). destruct (c_pc c) eqn:Ep; try done. injection Hs as <-. eapply Inv_call; try done.
    intros c0 Hc0 [Ha _]. rewrite Hc in Hc0. injection Hc0 as <-. split; [done|]. cbn.
    destruct (Get (flows_ o) (c_key c)) as [pid|] eqn:Eg; [|done]. destruct (inv_last o I _ _ Eg) as (es & Hl & Hf).
    split; [cbn; lia|]. exists es. cbn. rewrite <- last_lookup. split; [done|]. split; [|done]. destruct (passes o); [done|]. done.
  - apply bind_Some in Hs as (c & Hc & Hs). destruct (c_pc c) eqn:Ep; try done. injection Hs as <-. eapply Inv_call; try done.
    intros c0 Hc0 [Ha Ho]. rewrite Hc in Hc0. injection Hc0 as <-. rewrite Ep in Ho. split; [done|]. cbn.
    destruct (Get (exePaths_ o) pid) as [path|] eqn:Eg; [|done]. intros _. exists pid. split; [done|]. by apply (inv_resolved o I).
  - apply bind_Some in Hs as (c & Hc & Hs). destruct (c_pc c) eqn:Ep; try done. injection Hs as <-. eapply Inv_call; try done.
    intros c0 Hc0 [Ha _]. by split.
  - apply bind_Some in Hs as (c & Hc & Hs). destruct (c_pc c) eqn:Ep; try done. injection Hs as <-. eapply Inv_call; try done.
    intros c0 Hc0 [Ha _]. split; [done|]. cbn. done.
  - destruct (worker o); try done. destruct (lists_pids _ _); [|done]. injection Hs as <-. by eapply Inv_same.
  - destruct (worker o) as [| |entries [|pid pids]| | |]; try done. destruct (Get (exePaths_ o) pid) eqn:Eg; [injection Hs as <-; by eapply Inv_same|].
    case_bool_decide as Ha; injection Hs as <-; [by eapply Inv_same|]. pose proof I as []. split; cbn; try done.
    + destruct inv_paths0 as [l R]. eexists. by apply refines_put.
    + intros k v [[-> ->]|Hk]%exe_put; [|apply inv_resolved0 in Hk; set_solver|done]. split; [set_solver|done].
    + eapply (calls_mono o); [apply grows|by eexists|done].
  - destruct (worker o) as [| |entries [|pid pids]| | |]; try done. injection Hs as <-. pose proof I as []. split; cbn; try done.
    + eexists. apply refines_replace.
    + intros k pid. rewrite (refines_lookup _ _ _ (refines_replace _ _)), last_snoc. intros Hk%taken_owner. eauto.
    + eapply (calls_mono o); [by eexists|apply grows|done].
  - destruct (worker o); try done. injection Hs as <-. by eapply Inv_same.
  - destruct (worker o); try done. destruct (negb _); [done|]. destruct (stop_ o); injection Hs as <-; by eapply Inv_same.
Qed.

Lemma Inv_owner_run maxFlows maxExePaths tr o : steps (new_owner maxFlows maxExePaths) tr = Some o -> Inv o.
Proof.
  revert o. induction tr as [|e tr IH] using rev_ind; intros o Hs; [injection Hs as <-; apply Inv_new_owner|].
  rewrite owner_steps_end in Hs. apply bind_Some in Hs as (v & Hv & Hs). eapply Inv_owner_step; [by eapply IH|done].
Qed.

(** * What holds of every run *)

(** An answer names an owner that was seen. A lookup that answers a path, however its reads
    interleave with the passes, found its key in a pass that was in when it asked or came
    later, took the pid of the key's first entry there, and answers a path the system gave for
    that pid; in every other case it answers nothing. *)
Theorem answer_names_a_seen_owner maxFlows maxExePaths tr o i c path :
  steps (new_owner maxFlows maxExePaths) tr = Some o -> calls o !! i = Some c -> c_pc c = Answered path -> path <> [] ->
  (c_asked c <= c_read c)%nat /\
  exists entries pid, passes o !! pred (c_read c) = Some entries /\ first_owner entries (c_key c) = Some pid /\ (pid, path) ∈ resolved o.
Proof.
  intros I%Inv_owner_run Hc Hp Hne. pose proof (inv_calls o I) as Hf. rewrite Forall_lookup in Hf. destruct (Hf i c Hc) as [_ Hx]. rewrite Hp in Hx.
  destruct (Hx Hne) as (pid & ((Hr & _) & es & He & _ & Hfo) & Hin). split; [done|]. eauto.
Qed.

(** The walk over the pids of a pass with what the system answers. *)
Definition resolves (answer : Z -> text) (pids : list Z) : list OwnerEvent := map (fun pid => Resolves (answer pid)) pids.

Lemma walk_pids answer entries pids o :
  worker o = Resolving entries pids -> Inv o -> (Size (exePaths_ o) + length pids <= capacity_ (exePaths_ o))%nat ->
  exists o', steps o (resolves answer pids) = Some o' /\ worker o' = Resolving entries [] /\ flows_ o' = flows_ o /\ calls o' = calls o /\
    Inv o' /\ (forall pid path, Get (exePaths_ o) pid = Some path -> Get (exePaths_ o') pid = Some path) /\
    forall pid, pid ∈ pids -> answer pid <> [] -> is_Some (Get (exePaths_ o') pid).
Proof.
  revert o. induction pids as [|pid pids IH]; intros o Hw I Hs.
  { exists o. split_and!; try done. by intros pid ?%elem_of_nil. }
  cbn [resolves map]. rewrite steps_next.
  assert (exists v, step o (Resolves (answer pid)) = Some v /\ worker v = Resolving entries pids /\ flows_ v = flows_ o /\ calls v = calls o /\
    capacity_ (exePaths_ v) = capacity_ (exePaths_ o) /\ (Size (exePaths_ v) <= S (Size (exePaths_ o)))%nat /\
    (forall p path, Get (exePaths_ o) p = Some path -> Get (exePaths_ v) p = Some path) /\
    (answer pid <> [] -> is_Some (Get (exePaths_ v) pid))) as (v & Hv & Hwv & Hfv & Hcv & Hcap & Hsz & Hkeep & Hgot).
  { cbn [step]. rewrite Hw. destruct (Get (exePaths_ o) pid) as [old|] eqn:Eg; [eexists; split; [reflexivity|]; cbn; rewrite Eg; split_and!; auto|].
    case_bool_decide as Ha; (eexists; split; [reflexivity|]); cbn; [by split_and!; auto|]. destruct (inv_paths o I) as [l R].
    pose proof (refines_put _ _ pid (answer pid) R) as R'. pose proof (cache_op_capacity (exePaths_ o) (DoPut pid (answer pid))) as Hc. cbn in Hc.
    assert (queue_put (capacity_ (exePaths_ o)) l pid (answer pid) = l ++ [(pid, answer pid)]) as Hq.
    { rewrite (refines_size _ _ R) in Hs. cbn in Hs. rewrite (refines_lookup _ _ _ R) in Eg. apply queue_get_key in Eg. unfold queue_put.
      rewrite bool_decide_eq_false_2 by done. destruct (Nat.eqb_spec (capacity_ (exePaths_ o)) 0); [lia|].
      destruct (Nat.leb_spec (capacity_ (exePaths_ o)) (length l)); [lia|done]. }
    rewrite Hq in R'. split_and!; try done.
    - rewrite (refines_size _ _ R), (refines_size _ _ R'), length_app. cbn. lia.
    - intros p path. rewrite (refines_lookup _ _ _ R), (refines_lookup _ _ _ R'), queue_get_app. by intros ->.
    - intros _. rewrite (refines_lookup _ _ _ R'), queue_get_app. destruct (queue_get l pid); [done|]. unfold queue_get. cbn. by rewrite lookup_insert_eq. }
  rewrite Hv. cbn [mbind option_bind]. cbn [length] in Hs.
  destruct (IH v Hwv (Inv_owner_step _ _ _ I Hv) ltac:(lia)) as (o' & H1 & H2 & H3 & H4 & H5 & H6 & H7). exists o'.
  split; [done|]. split; [done|]. split; [congruence|]. split; [congruence|]. split; [done|]. split; [auto|].
  intros p [->|Hp]%elem_of_cons Ha; [|by apply H7]. destruct (Hgot Ha) as [path Hpath]. exists path. by apply H6.
Qed.

(** A missed flow is found. A miss leaves a request, and with it the waiting worker makes a
    pass, after which a lookup of a flow that is in the tables answers: where the flows and
    the programs fit their caches and the system names the program. *)
Theorem missed_flow_is_found maxFlows maxExePaths tr o t pids answer key pid :
  steps (new_owner maxFlows maxExePaths) tr = Some o -> worker o = Waits -> refreshPending_ o = true -> stop_ o = false ->
  lists_pids (collect t) pids = true -> first_owner (collect t) key = Some pid -> answer pid <> [] ->
  (length (firsts (collect t)) <= capacity_ (flows_ o))%nat -> (Size (exePaths_ o) + length pids <= capacity_ (exePaths_ o))%nat ->
  exists o' path, steps o ([Wakes false; Enumerates t pids] ++ resolves answer pids ++ [Swaps; Asks key; ReadsPid (length (calls o)); ReadsPath (length (calls o))])
      = Some o' /\ c_pc <$> calls o' !! length (calls o) = Some (Answered path) /\ path <> [].
Proof.
  intros I%Inv_owner_run Hw Hp Hst Hl Hk Ha Hfl Hsz. cbn [app]. rewrite steps_next. cbn [step]. rewrite Hw, Hp, Hst. cbn [orb negb mbind option_bind].
  set (v := with_worker ToEnumerate _). assert (Inv v) as Iv by (by eapply Inv_same). rewrite steps_next. cbn [step]. change (worker v) with ToEnumerate. cbn iota.
  rewrite Hl. cbn [mbind option_bind]. set (w := with_worker _ v). assert (Inv w) as Iw by (by eapply Inv_same).
  destruct (walk_pids answer (collect t) pids w eq_refl Iw Hsz) as (x & H1 & H2 & H3 & H4 & Ix & _ & H6).
  unfold steps. rewrite foldl_app. fold (steps w (resolves answer pids)). rewrite H1. cbn [foldl mbind option_bind step]. rewrite H2. cbn [mbind option_bind].
  change (calls w) with (calls o) in H4. change (flows_ w) with (flows_ o) in H3. cbn [calls flows_ exePaths_]. rewrite H4, H3.
  rewrite lookup_app_r, Nat.sub_diag by lia. cbn [lookup list_lookup mbind option_bind c_pc c_key].
  assert (Get (ReplaceAll (flows_ o) (collect t)).1 key = Some pid) as ->.
  { rewrite (refines_lookup _ _ _ (refines_replace _ _)), take_ge by done. by rewrite firsts_first_owner. }
  cbn [with_call calls exePaths_]. rewrite list_lookup_alter_eq, lookup_app_r, Nat.sub_diag by lia. cbn [lookup list_lookup fmap option_fmap option_map mbind option_bind c_pc].
  assert (pid ∈ pids) as Hin.
  { unfold lists_pids in Hl. bool_hyps. assert (pid ∈ (list_to_set pids : gset Z)) as Hx; [|by apply elem_of_list_to_set in Hx].
    match goal with E : list_to_set pids = _ |- _ => rewrite E end. apply elem_of_list_to_set.
    clear -Hk. induction (collect t) as [|[k0 p0] es IH]; [done|]. cbn in *. case_bool_decide; [simplify_eq; by left|right; auto]. }
  destruct (H6 pid Hin Ha) as [path Hpath]. cbn [with_call exePaths_]. rewrite Hpath. eexists _, path. split; [reflexivity|].
  destruct (inv_resolved x Ix pid path Hpath) as [_ Hne]. split; [|done]. cbn.
  rewrite !list_lookup_alter_eq, lookup_app_r, Nat.sub_diag by lia. done.
Qed.

(** ** The wire and the tables *)

Definition addr_len (v : FlowIpVersion) : nat := match v with V4 => 4 | V6 => 16 end.
Definition bytes (a : list Z) : Prop := Forall (fun x => 0 <= x < 256) a.
Definition addr_ok (v : FlowIpVersion) (a : list Z) : Prop := length a = addr_len v /\ bytes a.

Definition tcp_ok (v : FlowIpVersion) (r : TcpRow) : Prop := addr_ok v (localAddr r) /\ addr_ok v (remoteAddr r).
Definition udp_ok (v : FlowIpVersion) (r : UdpRow) : Prop := addr_ok v (u_localAddr r).

Lemma place_inj v a b : length a = addr_len v -> length b = addr_len v -> place v a = place v b -> a = b.
Proof. destruct v; cbn; intros Ha Hb H; [|done]. unfold place4 in H. apply app_inj_1 in H as [? _]; [done|by rewrite Ha]. Qed.

Lemma place_ok v a : addr_ok v a -> addr_ok V6 (place v a).
Proof.
  intros [Hl Hb]. destruct v; [|done]. split; cbn; unfold place4.
  - rewrite length_app, length_replicate. cbn in Hl. lia.
  - apply Forall_app. split; [done|]. apply Forall_replicate. lia.
Qed.

Lemma port_range d : 0 <= port_of d < 2 ^ 16.
Proof. unfold port_of. cbv zeta. change (2 ^ 16) with 65536. pose proof (Z.mod_pos_bound d 65536). set (w := d mod 65536) in *.
  pose proof (Z.mod_pos_bound w 256). assert (0 <= w / 256 < 256) by (split; [apply Z.div_pos; lia|apply Z.div_lt_upper_bound; lia]). lia. Qed.

Section Meet.
Context `{Inet}.

(** What the system's parse gives for a family. *)
Definition pton (v : FlowIpVersion) (t : text) : option (list Z) := if bool_decide (t = []) then None else match v with V4 => pton4 t | V6 => pton6 t end.
Definition version_of (version : Z) : FlowIpVersion := if version =? 6 then V6 else V4.

Lemma ParseAddr_pton t version : ParseAddr t version = place (version_of version) <$> pton (version_of version) t.
Proof.
  unfold ParseAddr, pton, version_of. case_bool_decide; [done|]. destruct (version =? 6); cbn; [by destruct (pton6 t)|done].
Qed.

Lemma pton_ok v t a : pton v t = Some a -> addr_ok v a.
Proof. unfold pton. case_bool_decide; [done|]. destruct v; [intros ?%pton4_bytes|intros ?%pton6_bytes]; done. Qed.

Lemma pton_place v t r : addr_ok v r -> place v <$> pton v t = Some (place v r) <-> pton v t = Some r.
Proof.
  intros [Hr _]. destruct (pton v t) as [a|] eqn:E; cbn; [|done]. split; [|by intros [= ->]]. intros [= Hp]. f_equal.
  destruct (pton_ok v t a E). by eapply place_inj.
Qed.

(** The wire meets the table. A lookup asks for the key of a row of a TCP table exactly when
    its addresses are the row's, however they are spelled, and its ports are the row's in the
    host's order; and for the key of a row of a UDP table exactly when its source is the row's,
    whatever its destination. *)
Theorem wire_meets_the_table version src sp dst dp v :
  (forall r, tcp_ok v r ->
    wire_key version kTcp src sp dst dp = Some (tcp_key v r) <->
    version_of version = v /\ pton v src = Some (localAddr r) /\ pton v dst = Some (remoteAddr r) /\
    sp = port_of (localPort r) /\ dp = port_of (remotePort r)) /\
  (forall r, udp_ok v r ->
    wire_key version kUdp src sp dst dp = Some (udp_key v r) <->
    version_of version = v /\ pton v src = Some (u_localAddr r) /\ sp = port_of (u_localPort r)).
Proof.
  unfold wire_key. rewrite !ParseAddr_pton. fold (version_of version). split; intros r Hr.
  - destruct Hr as [Hl Hm]. change (kTcp =? kUdp) with false. cbn iota. unfold tcp_key. split.
    + intros (s & Hs & He)%bind_Some. apply bind_Some in He as (d & Hd & He). injection He as Hv -> Hsp -> Hdp. rewrite Hv in *.
      split_and!; try done; [by apply (pton_place v src)|by apply (pton_place v dst)].
    + intros (Hv & Hs & Hd & -> & ->). rewrite Hv. apply (pton_place v src _ Hl) in Hs as ->. by apply (pton_place v dst _ Hm) in Hd as ->.
  - change (kUdp =? kUdp) with true. cbn iota. unfold udp_key. split.
    + intros (s & Hs & He)%bind_Some. injection He as Hv -> Hsp. rewrite Hv in *. split_and!; try done. by apply (pton_place v src).
    + intros (Hv & Hs & ->). rewrite Hv. by apply (pton_place v src _ Hr) in Hs as ->.
Qed.
End Meet.

(** ** The keys the cache holds *)

Definition tables_ok (t : Tables) : Prop :=
  (forall rows, tcp4 t = Some rows -> Forall (tcp_ok V4) rows) /\ (forall rows, tcp6 t = Some rows -> Forall (tcp_ok V6) rows) /\
  (forall rows, udp4 t = Some rows -> Forall (udp_ok V4) rows) /\ (forall rows, udp6 t = Some rows -> Forall (udp_ok V6) rows).

Definition key_ok (k : FlowKey) : Prop :=
  addr_ok V6 (sourceAddr k) /\ addr_ok V6 (destAddr k) /\ 0 <= sourcePort k < 2 ^ 16 /\ 0 <= destPort k < 2 ^ 16 /\
  (protocol k = kTcp \/ protocol k = kUdp /\ destAddr k = no_addr /\ destPort k = 0) /\
  (version k = V4 -> drop 4 (sourceAddr k) = replicate 12 0 /\ drop 4 (destAddr k) = replicate 12 0).

Lemma no_addr_ok : addr_ok V6 no_addr.
Proof. split; [done|]. by repeat constructor. Qed.

Lemma place_tail v a : addr_ok v a -> v = V4 -> drop 4 (place v a) = replicate 12 0.
Proof. intros [Hl _] ->. cbn in *. unfold place4. by rewrite drop_app_length' by done. Qed.

Lemma collect_ok t : tables_ok t -> Forall key_ok (collect t).*1.
Proof.
  intros (H1 & H2 & H3 & H4).
  assert (forall v rows, (forall l, rows = Some l -> Forall (tcp_ok v) l) -> Forall key_ok (CollectTcp v rows).*1) as Htcp.
  { intros v [rows|] Hr; [|constructor]. cbn. rewrite <- list_fmap_compose. apply Forall_fmap, (Forall_impl _ _ _ (Hr rows eq_refl)).
    intros r [Hl Hm]. split_and!; cbn; try apply port_range; try (by apply place_ok); [by left|]. intros Hv. split; by apply place_tail. }
  assert (forall v rows, (forall l, rows = Some l -> Forall (udp_ok v) l) -> Forall key_ok (CollectUdp v rows).*1) as Hudp.
  { intros v [rows|] Hr; [|constructor]. cbn. rewrite <- list_fmap_compose. apply Forall_fmap, (Forall_impl _ _ _ (Hr rows eq_refl)).
    intros r Hl. split_and!; cbn; try apply port_range; try (by apply place_ok); try apply no_addr_ok; try lia; [by right|].
    intros Hv. split; [by apply place_tail|done]. }
  unfold collect. rewrite !fmap_app, !Forall_app. split_and!; auto.
Qed.

Definition entries_of (w : WorkerPc) : list (FlowKey * Z) := match w with Resolving entries _ => entries | _ => [] end.

Lemma keys_step o e o' :
  step o e = Some o' -> (forall t pids, e = Enumerates t pids -> tables_ok t) ->
  Forall key_ok (entries_of (worker o)).*1 -> Forall (fun es => Forall key_ok es.*1) (passes o) ->
  Forall key_ok (entries_of (worker o')).*1 /\ Forall (fun es => Forall key_ok es.*1) (passes o').
Proof.
  intros Hs Ht Hw Hp. destruct e; cbn [step] in Hs;
    repeat match type of Hs with context [match ?x with _ => _ end] => destruct x eqn:?; try discriminate Hs end;
    try (apply bind_Some in Hs as (c & Hc & Hs); destruct (c_pc c); try discriminate Hs); simplify_eq; cbn in *; try (by split).
  all: repeat match goal with E : worker ?x = _ |- _ => rewrite E in * end; cbn in *; try (by split).
  - split; [by eapply collect_ok, Ht|done].
  - split; [constructor|]. apply Forall_app. split; [done|]. by constructor.
Qed.

(** C36: every key the cache holds is well formed. Where the system's rows are, each key the
    lookups are answered from has addresses of sixteen bytes, ports of sixteen bits, a v4
    address in its first four bytes alone, and a UDP key no destination. *)
Theorem cached_keys_are_well_formed maxFlows maxExePaths tr o key pid :
  (forall t pids, Enumerates t pids ∈ tr -> tables_ok t) -> steps (new_owner maxFlows maxExePaths) tr = Some o ->
  Get (flows_ o) key = Some pid -> key_ok key.
Proof.
  intros Ht Hs Hk. pose proof (Inv_owner_run _ _ _ _ Hs) as I. destruct (inv_last o I key pid Hk) as (es & Hl & Hf).
  assert (Forall key_ok (entries_of (worker o)).*1 /\ Forall (fun es => Forall key_ok es.*1) (passes o)) as [_ Hp].
  { clear Hk Hl Hf I. revert o Hs. induction tr as [|e tr IH] using rev_ind; intros o Hs; [injection Hs as <-; split; constructor|].
    rewrite owner_steps_end in Hs. apply bind_Some in Hs as (v & Hv & Hs).
    destruct (IH ltac:(intros t pids Hin; apply (Ht t pids); set_solver) v Hv) as [H1 H2]. eapply keys_step; try done.
    intros t pids ->. apply (Ht t pids). set_solver. }
  rewrite last_lookup in Hl. rewrite Forall_lookup in Hp. pose proof (Hp _ _ Hl) as Hes. rewrite Forall_forall in Hes. apply Hes.
  clear -Hf. induction es as [|[k p] es IH]; [done|]. cbn in *. case_bool_decide; [simplify_eq; by left|right; auto].
Qed.

(** ** The worker's end *)

Definition by_worker (e : OwnerEvent) : Prop :=
  match e with Enumerates _ _ | Resolves _ | Swaps | Loops | Wakes _ => True | _ => False end.

Definition no_tables : Tables := mkTables None None None None.

(** The way out of a worker whose stop is set. *)
Definition way_out (w : WorkerPc) : list OwnerEvent :=
  match w with
  | NoWorker | Exited => []
  | ToEnumerate => [Enumerates no_tables []; Swaps; Loops]
  | Resolving _ pids => map (fun _ => Resolves []) pids ++ [Swaps; Loops]
  | AtLoop => [Loops]
  | Waits => [Wakes true]
  end.

Definition pass_left (w : WorkerPc) : nat := match w with ToEnumerate | Resolving _ _ => 1 | _ => 0 end.

Lemma stopping_step o e o' :
  step o e = Some o' -> stop_ o = true -> e <> Starts ->
  stop_ o' = true /\ (length (passes o') + pass_left (worker o') <= length (passes o) + pass_left (worker o))%nat.
Proof.
  intros Hs Hst Hne. destruct e; cbn [step] in Hs; try done;
    repeat match type of Hs with context [match ?x with _ => _ end] => destruct x eqn:?; try discriminate Hs end;
    try (apply bind_Some in Hs as (c & Hc & Hs); destruct (c_pc c); try discriminate Hs); simplify_eq; cbn in *;
    repeat match goal with E : worker ?x = _ |- _ => rewrite E in * end; cbn in *; rewrite ?length_app; cbn; split; try done; lia.
Qed.

(** A stop ends the worker. Once it is set the worker's own steps lead it out, through at
    most the pass it is in; and however the rest goes, no more than that pass is ever put in
    until the next start. *)
Theorem stop_ends_the_worker o :
  stop_ o = true ->
  (exists tr o', Forall by_worker tr /\ steps o tr = Some o' /\ (worker o' = Exited \/ worker o' = NoWorker) /\ stop_ o' = true) /\
  forall tr o', Starts ∉ tr -> steps o tr = Some o' -> (length (passes o') <= S (length (passes o)))%nat.
Proof.
  intros Hst. split.
  - assert (forall es o, worker o = Resolving es [] -> stop_ o = true ->
      exists o', steps o [Swaps; Loops] = Some o' /\ worker o' = Exited /\ stop_ o' = true) as Hout.
    { intros es v Hw Hv. rewrite steps_next. cbn [step]. rewrite Hw. cbn [mbind option_bind]. rewrite steps_next. cbn. rewrite Hv. eexists. split; [reflexivity|done]. }
    exists (way_out (worker o)). destruct (worker o) as [| |es pids| | |] eqn:Ew; cbn [way_out].
    + exists o. split_and!; try done; auto.
    + rewrite steps_next. cbn [step]. rewrite Ew. cbn [lists_pids]. cbn.
      destruct (Hout [] (with_worker (Resolving [] []) o) eq_refl Hst) as (o' & Hs & H1 & H2). exists o'. split_and!; auto. by repeat constructor.
    + assert (exists o', steps o (map (fun _ => Resolves []) pids) = Some o' /\ worker o' = Resolving es [] /\ stop_ o' = true) as (v & Hv & Hw & Hsv).
      { revert o Hst Ew. induction pids as [|pid pids IH]; intros o Hst Ew; [by exists o|]. cbn [map]. rewrite steps_next. cbn [step]. rewrite Ew.
        destruct (Get (exePaths_ o) pid); cbn; by apply IH. }
      destruct (Hout es v Hw Hsv) as (o' & Hs & H1 & H2). exists o'. unfold steps. rewrite foldl_app. fold (steps o (map (fun _ => Resolves []) pids)).
      rewrite Hv. split_and!; auto. apply Forall_app. split; [apply Forall_fmap, Forall_forall; done|by repeat constructor].
    + rewrite steps_next. cbn. rewrite Ew, Hst. eexists. split_and!; [by repeat constructor|reflexivity|by left|done].
    + rewrite steps_next. cbn. rewrite Ew, Hst. eexists. split_and!; [by repeat constructor|reflexivity|by left|done].
    + exists o. split_and!; try done; auto.
  - intros tr o' Hns Hs.
    assert (stop_ o' = true /\ (length (passes o') + pass_left (worker o') <= length (passes o) + pass_left (worker o))%nat) as [_ Hb].
    { revert o' Hs. induction tr as [|e tr IH] using rev_ind; intros o' Hs; [injection Hs as <-; by split|].
      apply not_elem_of_app in Hns as [Hns1 Hns2]. rewrite owner_steps_end in Hs. apply bind_Some in Hs as (v & Hv & Hs).
      destruct (IH Hns1 v Hv) as [H1 H2]. destruct (stopping_step v e o' Hs H1 ltac:(intros ->; set_solver)). split; [done|lia]. }
    assert (pass_left (worker o) <= 1)%nat by (destruct (worker o); cbn; lia). lia.
Qed.

(** * A reused pid *)

Definition demo_row (port pid : Z) : TcpRow := mkTcp [10; 0; 0; 2] (port_of port) [93; 184; 216; 34] (port_of 443) pid.
Definition demo_tables (rows : list TcpRow) : Tables := mkTables (Some rows) (Some []) (Some []) (Some []).
Definition demo_key (port : Z) : FlowKey := tcp_key V4 (demo_row port 0).

(** A pass of the worker, from its wait. *)
Definition demo_pass (rows : list TcpRow) (pids : list Z) (answer : Z -> text) : list OwnerEvent :=
  Enumerates (demo_tables rows) pids :: resolves answer pids ++ [Swaps; Loops].

(** Process 7 is a.exe and its flow is seen; it exits, and passes see no flow of pid 7; a later
    process 7 is b.exe, and its flow is seen. *)
Definition reused_pid : list OwnerEvent :=
  Starts :: demo_pass [demo_row 50000 7] [7] (fun _ => txt "a.exe") ++
  Wakes true :: demo_pass [] [] (fun _ => []) ++
  Wakes true :: demo_pass [demo_row 50001 7] [7] (fun _ => txt "b.exe") ++
  [Asks (demo_key 50001); ReadsPid 0; ReadsPath 0].

(** A reused pid keeps the old program's name. A pid's path is asked of the system once and
    no pass in which the pid is gone takes it back, so the flow of a later process with the
    same pid, seen in a later pass, is answered with the program that is gone. *)
Theorem reused_pid_keeps_the_old_name :
  exists o, steps (new_owner 4 4) reused_pid = Some o /\
    passes o = [[(demo_key 50000, 7)]; []; [(demo_key 50001, 7)]] /\
    c_pc <$> calls o !! 0%nat = Some (Answered (txt "a.exe")) /\ resolved o = [(7, txt "a.exe")].
Proof. exists (default (new_owner 4 4) (steps (new_owner 4 4) reused_pid)). split_and!; vm_compute; reflexivity. Qed.

(** * Examples *)

Definition owner_after (tr : list OwnerEvent) : Owner := default (new_owner 4 4) (steps (new_owner 4 4) tr).

Lemma answer_names_a_seen_owner_witness :
  (0 <= 2)%nat /\ exists entries pid, passes (owner_after reused_pid) !! 2%nat = Some entries /\
    first_owner entries (demo_key 50001) = Some pid /\ (pid, txt "a.exe") ∈ resolved (owner_after reused_pid).
Proof.
  destruct (answer_names_a_seen_owner 4 4 reused_pid (owner_after reused_pid) 0 (mkCall (demo_key 50001) (Answered (txt "a.exe")) 3 3)
    (txt "a.exe")) as [_ H]; [vm_compute; reflexivity|vm_compute; reflexivity|reflexivity|discriminate|]. split; [lia|exact H].
Defined.

(** A flow is missed: the first pass saw none. *)
Definition a_miss : list OwnerEvent :=
  Starts :: demo_pass [] [] (fun _ => []) ++ [Asks (demo_key 50000); ReadsPid 0; CountsMiss 0; FlagsMiss 0].

Lemma missed_flow_is_found_witness :
  exists o' path, steps (owner_after a_miss)
    ([Wakes false; Enumerates (demo_tables [demo_row 50000 7]) [7]] ++ resolves (fun _ => txt "a.exe") [7] ++ [Swaps; Asks (demo_key 50000); ReadsPid 1; ReadsPath 1])
      = Some o' /\ c_pc <$> calls o' !! 1%nat = Some (Answered path) /\ path <> [].
Proof.
  apply (missed_flow_is_found 4 4 a_miss (owner_after a_miss) (demo_tables [demo_row 50000 7]) [7] (fun _ => txt "a.exe") (demo_key 50000) 7);
    try (vm_compute; reflexivity); [discriminate|vm_compute; lia|vm_compute; lia].
Defined.

(** Two spellings of one address. *)
#[local] Instance demo_inet : Inet.
Proof.
  refine {| pton4 := fun t => if teqb t (txt "10.0.0.2") then Some [10; 0; 0; 2] else if teqb t (txt "93.184.216.34") then Some [93; 184; 216; 34] else None;
            pton6 := fun t => if teqb t (txt "::1") || teqb t (txt "0:0::1") then Some (replicate 15 0 ++ [1]) else None |}.
  - intros t b. do 2 (destruct (teqb t _); [intros [= <-]; split; [done|]; repeat constructor; lia|]). done.
  - intros t b. destruct (_ || _); [|done]. intros [= <-]. split; [done|]. repeat constructor; lia.
Defined.

Lemma wire_meets_the_table_witness :
  wire_key 4 kTcp (txt "10.0.0.2") 50000 (txt "93.184.216.34") 443 = Some (tcp_key V4 (demo_row 50000 7)).
Proof.
  apply (proj1 (wire_meets_the_table 4 (txt "10.0.0.2") 50000 (txt "93.184.216.34") 443 V4)); [|split_and!; vm_compute; reflexivity].
  split; split; try reflexivity; repeat constructor; cbn; lia.
Defined.

Lemma cached_keys_are_well_formed_witness : key_ok (demo_key 50000).
Proof.
  apply (cached_keys_are_well_formed 4 4 (Starts :: demo_pass [demo_row 50000 7] [7] (fun _ => txt "a.exe"))
           (owner_after (Starts :: demo_pass [demo_row 50000 7] [7] (fun _ => txt "a.exe"))) (demo_key 50000) 7);
    [|vm_compute; reflexivity|vm_compute; reflexivity].
  intros t pids Hin. repeat (apply elem_of_cons in Hin as [Hin|Hin]; [try discriminate Hin|]); [|by apply elem_of_nil in Hin].
  injection Hin as -> ->. split_and!; intros rows [= <-]; repeat constructor; cbn; lia.
Defined.

Lemma stop_ends_the_worker_witness :
  exists tr o', Forall by_worker tr /\ steps (owner_after [Starts; Stops]) tr = Some o' /\ (worker o' = Exited \/ worker o' = NoWorker) /\ stop_ o' = true.
Proof. apply (stop_ends_the_worker (owner_after [Starts; Stops])). vm_compute. reflexivity. Defined.
