(* ===== verification/Controller.v ===== *)
(** The tunnel controller (TunnelController.h, TunnelController.cpp): the one object that owns
    the adapter, the routes, the firewall, the session's device and the provider-only
    device.  Its members are a record, each of its operations a computation in a monad
    with that state and C++'s exceptions; what Windows, the SDK and the other threads do at
    each call is an argument, [Platform], asked with everything that happened before.

    The operations run under the session lock.  The three things other threads do
    without it (a stop that arrives, the connecting watchdog, and the operations on the
    readiness object) happen at the calls that can block, in [yield] and [interfere]. *)

From S2P Require Import Prelude.
From S2P Require Import CxxText.
From S2P Require Import Wfp.
From S2P Require Import WfpPolicy.
From S2P Require Import DeadTunnel.
From S2P Require Import StopBudget.
From S2P Require Import Capture.
From S2P Require Import Gesture.
From S2P Require Import Provide.
From S2P Require Import WintunError.

(** * Members *)

(** What [NetworkConfig] answers once it was asked to apply settings: [DnsApplied] and
    [AppliedIpv6]. *)
Record NetConfig := mkNetConfig { DnsApplied : bool; AppliedIpv6 : bool }.

Record TunnelStatus := mkTunnelStatus {
  ts_state : TunnelState; ts_mode : StartMode; ts_routes_installed : bool; ts_dns_applied : bool; ts_wfp_state : text;
  ts_rpc_listen_hostport : text; ts_instance_id : text; ts_rpc_session_id : text; ts_error : text;
  ts_tunnel_local_up_millis : Z; ts_egress_index4 : Z; ts_egress_index6 : Z; ts_provider_running : bool;
  ts_provider_control_mode : text; ts_provider_mode : Z; ts_provider_network_key : bool; ts_stop_reason : text }.

Definition empty_status : TunnelStatus :=
  mkTunnelStatus Stopped ModeTunnel false false (txt "off") [] [] [] [] 0 0 0 false [] 0 false [].

(** The fields of [StartTunnel] the controller reads. *)
Record StartTunnel := mkStartTunnel {
  identity : StartProvider; rpc_listen_hostport : text; rpc_session_id : text; excluded_app_paths : list text;
  allowlist_mode : bool; start_mode : StartMode; kill_switch : bool }.

Record TunnelNetworkSettings := mkNetworkSettings {
  local_address_v4 : text; prefix_v4 : Z; local_address_v6 : text; prefix_v6 : Z; mtu : Z;
  dns_servers_v4 : list text; dns_servers_v6 : list text }.

(** A question to the outside whose answer is yes or no; a call that throws answers no. *)
Inductive Query :=
  | StopArrives | WindowExpires
  | LoadsWintun | CreatesAdapter | StartsEgress | ImportsSpace | BuildsDevice | StartsRpcServer
  | SplitTunnelOpens | PumpStarts | HasDefaultRoute
  | AppliesNetwork | AppliesDns | AppliesIpv6
  | ReadsControlMode | Finishes (gate : nat) | ClearsSession | HandsBack
  | AppliesTransport | AppliesMode | ReadsProviderFacts | HasNetworkKey | WatchesNetwork | ClearsSdkState.

(** What the controller does to the machine and to the devices, in order. *)
Inductive Effect :=
  | Asked (q : Query) (answer : bool)
  | AdapterCreated (luid : Z)
  | NetworkApplied (settings : TunnelNetworkSettings)
  | NetworkReverted
  | CrashReverted
  | ResolverCacheFlushed
  | MarkerSet (active : bool)
  | FirewallAsked (s : WfpState) (ok : bool)
  | DeviceBuilt (d : nat)
  | TeardownStarted (device : option nat)
  | DeviceClosed (d : nat)
  | IdentityCleared
  | StateNotified.

Record Ctl := mkCtl {
  state_ : TunnelState;
  startMode_ : StartMode;
  killSwitch_ : bool;
  rpcOnlyClamp_ : bool;
  stopAfterStep_ : Z;
  error_ : text;
  rpcHostPort_ : text;
  activeInstanceId_ : text;
  rpcSessionId_ : text;
  upSinceMillis_ : Z;
  networkSpace_ : bool;
  device_ : option nat;
  providerSpace_ : bool;
  providerDevice_ : option nat;
  providerRequest_ : StartProvider;
  sessionIdentity_ : StartProvider;
  providerTier_ : Z;
  providerNetworkKey_ : bool;
  providerEgress_ : bool;
  providerNetwork_ : bool;
  wintun_ : bool;
  adapter_ : option Z;
  netConfig_ : option NetConfig;
  egress_ : bool;
  pump_ : bool;
  splitTunnel_ : bool;
  excludedPaths_ : list text;
  allowlist_ : bool;
  appliedResolvers_ : list text;
  appliedResolversV6_ : list text;
  captureReadiness_ : option nat;
  readinesses : gmap nat CaptureReadiness;  (* the shared readiness objects *)
  stopGeneration_ : Z;
  watchdog_ : bool;                         (* the connecting watchdog waits *)
  deadTunnelWatchdog_ : bool;
  wfp_ : WfpPolicy;
  bfe_calls : Trace;
  lastStopReason_ : text;
  statusMirror_ : TunnelStatus;
  upSinceMirror_ : Z;
  marker : bool;                            (* the tunnel_active file *)
  budget : Budget;                          (* the flags of StopBudget.h *)
  next_name : nat;                            (* names of devices, gates and objects *)
  handedDevice : option nat;                (* [handedOff] of a start that runs *)
  handedSpace : bool;
  log : list Effect;
}.

(** The initial values of the members. *)
Definition new_controller : Ctl :=
  mkCtl Stopped ModeTunnel false false 0 [] [] [] [] 0 false None false None no_provider no_provider 0 false false false
    false None None false false false [] false [] [] None ∅ 0 false false (mkPolicy false WOff [] None) [] (StopReasonOf ReasonNone)
    empty_status 0 false new_budget 0 None false [].

(** ** Updates of one member *)

Class Update {A} (f : Ctl -> A) := update : (A -> A) -> Ctl -> Ctl.

Definition members (c : Ctl) : Ctl :=
  mkCtl (state_ c) (startMode_ c) (killSwitch_ c) (rpcOnlyClamp_ c) (stopAfterStep_ c) (error_ c) (rpcHostPort_ c)
    (activeInstanceId_ c) (rpcSessionId_ c) (upSinceMillis_ c) (networkSpace_ c) (device_ c) (providerSpace_ c)
    (providerDevice_ c) (providerRequest_ c) (sessionIdentity_ c) (providerTier_ c) (providerNetworkKey_ c)
    (providerEgress_ c) (providerNetwork_ c) (wintun_ c) (adapter_ c) (netConfig_ c) (egress_ c) (pump_ c) (splitTunnel_ c)
    (excludedPaths_ c) (allowlist_ c) (appliedResolvers_ c) (appliedResolversV6_ c) (captureReadiness_ c) (readinesses c)
    (stopGeneration_ c) (watchdog_ c) (deadTunnelWatchdog_ c) (wfp_ c) (bfe_calls c) (lastStopReason_ c) (statusMirror_ c)
    (upSinceMirror_ c) (marker c) (budget c) (next_name c) (handedDevice c) (handedSpace c) (log c).

Ltac build_update f :=
  let g := fresh "g" in let c := fresh "c" in
  refine (fun g c => _);
  let whole := eval cbv beta delta [members] in (members c) in
  match eval pattern (f c) in whole with
  | ?k _ => let r := eval cbv beta in (k (g (f c))) in exact r
  end.

#[export] Instance update_state : Update state_ := ltac:(build_update state_).
#[export] Instance update_startMode : Update startMode_ := ltac:(build_update startMode_).
#[export] Instance update_killSwitch : Update killSwitch_ := ltac:(build_update killSwitch_).
#[export] Instance update_rpcOnlyClamp : Update rpcOnlyClamp_ := ltac:(build_update rpcOnlyClamp_).
#[export] Instance update_stopAfterStep : Update stopAfterStep_ := ltac:(build_update stopAfterStep_).
#[export] Instance update_error : Update error_ := ltac:(build_update error_).
#[export] Instance update_rpcHostPort : Update rpcHostPort_ := ltac:(build_update rpcHostPort_).
#[export] Instance update_activeInstanceId : Update activeInstanceId_ := ltac:(build_update activeInstanceId_).
#[export] Instance update_rpcSessionId : Update rpcSessionId_ := ltac:(build_update rpcSessionId_).
#[export] Instance update_upSinceMillis : Update upSinceMillis_ := ltac:(build_update upSinceMillis_).
#[export] Instance update_networkSpace : Update networkSpace_ := ltac:(build_update networkSpace_).
#[export] Instance update_device : Update device_ := ltac:(build_update device_).
#[export] Instance update_providerSpace : Update providerSpace_ := ltac:(build_update providerSpace_).
#[export] Instance update_providerDevice : Update providerDevice_ := ltac:(build_update providerDevice_).
#[export] Instance update_providerRequest : Update providerRequest_ := ltac:(build_update providerRequest_).
#[export] Instance update_sessionIdentity : Update sessionIdentity_ := ltac:(build_update sessionIdentity_).
#[export] Instance update_providerTier : Update providerTier_ := ltac:(build_update providerTier_).
#[export] Instance update_providerNetworkKey : Update providerNetworkKey_ := ltac:(build_update providerNetworkKey_).
#[export] Instance update_providerEgress : Update providerEgress_ := ltac:(build_update providerEgress_).
#[export] Instance update_providerNetwork : Update providerNetwork_ := ltac:(build_update providerNetwork_).
#[export] Instance update_wintun : Update wintun_ := ltac:(build_update wintun_).
#[export] Instance update_adapter : Update adapter_ := ltac:(build_update adapter_).
#[export] Instance update_netConfig : Update netConfig_ := ltac:(build_update netConfig_).
#[export] Instance update_egress : Update egress_ := ltac:(build_update egress_).
#[export] Instance update_pump : Update pump_ := ltac:(build_update pump_).
#[export] Instance update_splitTunnel : Update splitTunnel_ := ltac:(build_update splitTunnel_).
#[export] Instance update_excludedPaths : Update excludedPaths_ := ltac:(build_update excludedPaths_).
#[export] Instance update_allowlist : Update allowlist_ := ltac:(build_update allowlist_).
#[export] Instance update_appliedResolvers : Update appliedResolvers_ := ltac:(build_update appliedResolvers_).
#[export] Instance update_appliedResolversV6 : Update appliedResolversV6_ := ltac:(build_update appliedResolversV6_).
#[export] Instance update_captureReadiness : Update captureReadiness_ := ltac:(build_update captureReadiness_).
#[export] Instance update_readinesses : Update readinesses := ltac:(build_update readinesses).
#[export] Instance update_stopGeneration : Update stopGeneration_ := ltac:(build_update stopGeneration_).
#[export] Instance update_watchdog : Update watchdog_ := ltac:(build_update watchdog_).
#[export] Instance update_deadTunnelWatchdog : Update deadTunnelWatchdog_ := ltac:(build_update deadTunnelWatchdog_).
#[export] Instance update_wfp : Update wfp_ := ltac:(build_update wfp_).
#[export] Instance update_bfe_calls : Update bfe_calls := ltac:(build_update bfe_calls).
#[export] Instance update_lastStopReason : Update lastStopReason_ := ltac:(build_update lastStopReason_).
#[export] Instance update_statusMirror : Update statusMirror_ := ltac:(build_update statusMirror_).
#[export] Instance update_upSinceMirror : Update upSinceMirror_ := ltac:(build_update upSinceMirror_).
#[export] Instance update_marker : Update marker := ltac:(build_update marker).
#[export] Instance update_budget : Update budget := ltac:(build_update budget).
#[export] Instance update_next_name : Update next_name := ltac:(build_update next_name).
#[export] Instance update_handedDevice : Update handedDevice := ltac:(build_update handedDevice).
#[export] Instance update_handedSpace : Update handedSpace := ltac:(build_update handedSpace).
#[export] Instance update_log : Update log := ltac:(build_update log).

Declare Scope ctl_scope.
Delimit Scope ctl_scope with ctl.
Notation "c <| f := v |>" := (@update _ f _ (fun _ => v) c) (at level 1, left associativity, f at level 0) : ctl_scope.
Open Scope ctl_scope.

(** Reads the members of an updated controller, one update at a time. *)
Ltac member_of p A f i v c k :=
  let t := constr:(p (@update A f i (fun _ => v) c)) in
  tryif constr_eq p f then k t v constr:(fun x : Ctl => eq_refl v : p (@update A f i (fun _ => v) x) = v)
  else k t constr:(p c) constr:(fun x : Ctl => eq_refl (p x) : p (@update A f i (fun _ => v) x) = p x).
Ltac members :=
  repeat match goal with
  | |- context [?p (@update ?A ?f ?i (fun _ => ?v) ?c)] =>
      member_of p A f i v c ltac:(fun t t' E => pattern t;
        match goal with |- ?F t => refine (@eq_ind_r _ t' F _ t (E c)); cbv beta end)
  end.
Ltac members_in H :=
  repeat match type of H with
  | context [?p (@update ?A ?f ?i (fun _ => ?v) ?c)] =>
      member_of p A f i v c ltac:(fun t t' E => pattern t in H;
        match type of H with ?F t => let H' := fresh in pose proof (@eq_ind _ t F H t' (E c)) as H';
          clear H; rename H' into H; cbv beta in H end)
  end.

(** * The monad *)

Definition M (A : Type) := Ctl -> Ctl * (text + A).

Definition ret {A} (a : A) : M A := fun c => (c, inr a).
Definition bind {A B} (m : M A) (f : A -> M B) : M B := fun c =>
  match m c with (c, inr a) => f a c | (c, inl e) => (c, inl e) end.
Definition throw {A} (e : text) : M A := fun c => (c, inl e).

Notation "x ← y ; z" := (bind y (fun x => z))
  (at level 20, y at level 100, z at level 200, only parsing) : ctl_scope.
Notation "x ;; z" := (bind x (fun _ => z)) (at level 100, z at level 200, right associativity) : ctl_scope.

Definition catch {A} (m : M A) (handler : text -> M A) : M A := fun c =>
  match m c with (c, inr a) => (c, inr a) | (c, inl e) => handler e c end.
(** An exception of a named step: its handler reports the step. *)
Definition named {A} (step : text) (m : M A) : M A := catch m (fun _ => throw step).
Definition gets {A} (f : Ctl -> A) : M A := fun c => (c, inr (f c)).
Definition modify (f : Ctl -> Ctl) : M unit := fun c => (f c, inr tt).
Definition skip : M unit := ret tt.
Definition emit (e : Effect) : M unit := modify (fun c => c <| log := log c ++ [e] |>).
Definition new_name : M nat := fun c => (c <| next_name := S (next_name c) |>, inr (next_name c)).

(** * The outside *)

(** What Windows, the SDK and the other threads answer, by what happened before. *)
Class Platform := {
  answers : list Effect -> Query -> bool;
  what : list Effect -> text;                    (* the text of an exception *)
  clock : list Effect -> Z;                      (* [NowMillis] *)
  egress_now : list Effect -> Z * Z;             (* [egress_->Current()] *)
  adapter_luid : list Effect -> Z;
  wintunError : list Effect -> Z;                (* the error code of a Wintun call *)
  HostResolversV4 : list Effect -> option Z -> list text;
  ServiceImagePath : wtext;
  AppImagePath : wtext;
  getProvideControlMode : list Effect -> text;
  getProvideMode : list Effect -> Z;
  tunnelLocalAddress : list Effect -> text;
  tunnelLocalAddressIpv6 : list Effect -> text;
  tunnelDnsAddressesIpv4 : list Effect -> option (list text);
  tunnelDnsAddressesIpv6 : list Effect -> option (list text);
  getDefaultTunnelDnsAddressIpv4 : text;
  getDefaultTunnelDnsAddressIpv6 : text;
  getTunnelLocalPrefixLengthIpv6 : Z;
  others : list Effect -> list Op;               (* what other threads did to the readiness object *)
}.

Section Controller.
Context `{Winsock} `{Bfe} `{Platform} `{Json}.

(** ** The status *)

(** [ToString] of the firewall's state. *)
Definition wfp_in_force (c : Ctl) : WfpState := WfpPolicy.state_ (wfp_ c).

Definition has_routes (c : Ctl) : bool := bool_decide (netConfig_ c <> None).

Definition ComposeStatusLocked (c : Ctl) : TunnelStatus :=
  let bound := if egress_ c && has_routes c then egress_now (log c) else (0, 0) in
  let running := bool_decide (providerDevice_ c <> None) in
  mkTunnelStatus (state_ c) (startMode_ c) (has_routes c)
    (match netConfig_ c with Some n => DnsApplied n | None => false end) (wfp_name (wfp_in_force c))
    (rpcHostPort_ c) (activeInstanceId_ c) (rpcSessionId_ c) (error_ c)
    (if upSinceMillis_ c =? 0 then 0 else clock (log c) - upSinceMillis_ c) (fst bound) (snd bound) running
    (if running then sp_provide_mode (providerRequest_ c) else []) (if running then providerTier_ c else 0)
    (running && providerNetworkKey_ c) [].

Definition StatusLocked : M TunnelStatus := fun c =>
  let s := ComposeStatusLocked c in
  (c <| upSinceMirror_ := upSinceMillis_ c |> <| statusMirror_ := s |>, inr s).
Definition PublishStatusLocked : M unit := _ ← StatusLocked; skip.

(** [Status], which takes no session lock; the live egress indices are what the monitor
    holds. *)
Definition Status (c : Ctl) : TunnelStatus :=
  let s := statusMirror_ c in
  let bound := if ts_routes_installed s then egress_now (log c) else (ts_egress_index4 s, ts_egress_index6 s) in
  mkTunnelStatus (ts_state s) (ts_mode s) (ts_routes_installed s) (ts_dns_applied s) (ts_wfp_state s)
    (ts_rpc_listen_hostport s) (ts_instance_id s) (ts_rpc_session_id s) (ts_error s)
    (if upSinceMirror_ c =? 0 then 0 else clock (log c) - upSinceMirror_ c) (fst bound) (snd bound)
    (ts_provider_running s) (ts_provider_control_mode s) (ts_provider_mode s) (ts_provider_network_key s)
    (lastStopReason_ c).

Definition RepublishMachineFactsLockFree (routesReverted : bool) : M unit := modify (fun c =>
  let s := statusMirror_ c in
  let keep {A} (no v : A) := if routesReverted then no else v in
  c <| statusMirror_ :=
    mkTunnelStatus (ts_state s) (ts_mode s) (keep false (ts_routes_installed s)) (keep false (ts_dns_applied s))
      (wfp_name (wfp_in_force c)) (ts_rpc_listen_hostport s) (ts_instance_id s) (ts_rpc_session_id s) (ts_error s)
      (ts_tunnel_local_up_millis s) (keep 0 (ts_egress_index4 s)) (keep 0 (ts_egress_index6 s)) (ts_provider_running s)
      (ts_provider_control_mode s) (ts_provider_mode s) (ts_provider_network_key s) (ts_stop_reason s) |>).

Definition SetStateLocked (next : TunnelState) : M unit :=
  modify (fun c => c <| state_ := next |>);; PublishStatusLocked.

(** ** The readiness object and the threads that do not take the lock *)

Definition on_readiness (id : nat) (f : CaptureReadiness -> CaptureReadiness) (c : Ctl) : Ctl :=
  c <| readinesses := alter f id (readinesses c) |>.

Definition CancelCapture : M unit := modify (fun c =>
  match captureReadiness_ c with Some id => on_readiness id Cancel c | None => c end).

Definition Cancelled (c : Ctl) (id : nat) : bool :=
  match readinesses c !! id with Some r => cancelled_ r | None => false end.

Definition SetActiveMarker (active : bool) : M unit :=
  modify (fun c => c <| marker := active |>);; emit (MarkerSet active).

Definition BaseWfpConfig : WfpConfig :=
  mkWfpConfig 0 [] [] false [] true true true ServiceImagePath AppImagePath.

(** [wfp_.Apply]. *)
Definition wfp_apply (s : WfpState) (cfg : WfpConfig) : M bool := fun c =>
  let '(ok, p, t) := ApplyLocked s cfg (wfp_ c) (bfe_calls c) in
  (c <| wfp_ := p |> <| bfe_calls := t |> <| log := log c ++ [FirewallAsked s ok] |>, inr ok).

(** [wfp_.Revert]. *)
Definition wfp_revert : M unit := fun c =>
  let '(p, t) := RevertLocked (wfp_ c) (bfe_calls c) in
  (c <| wfp_ := p |> <| bfe_calls := t |> <| log := log c ++ [FirewallAsked WOff true] |>, inr tt).

Definition ask (q : Query) : M bool := fun c =>
  let b := answers (log c) q in (c <| log := log c ++ [Asked q b] |>, inr b).

(** What [Stop] and [Disconnect] do before they wait for the lock. *)
Definition stop_prelude : M unit :=
  modify (fun c => c <| stopGeneration_ := stopGeneration_ c + 1 |>);;
  CancelCapture;;
  modify (fun c => c <| lastStopReason_ := kStopReasonUser |>).

(** The connecting watchdog's window ran out. *)
Definition ConnectingWatchdogFires : M unit :=
  modify (fun c => c <| watchdog_ := false |>);;
  _ ← wfp_apply WArmed BaseWfpConfig;
  RepublishMachineFactsLockFree false.

(** A point where the thread that holds the lock can be held up. *)
Definition yield : M unit :=
  arrived ← ask StopArrives;
  (if arrived then stop_prelude else skip);;
  waits ← gets watchdog_;
  if waits then expires ← ask WindowExpires; if expires then ConnectingWatchdogFires else skip else skip.

Definition blocking (q : Query) : M bool := yield;; ask q.

(** A call into the SDK or Windows that throws when it fails. *)
Definition must (q : Query) : M unit :=
  ok ← blocking q;
  if ok then skip else (e ← gets (fun c => what (log c)); throw e).

(** ** The firewall *)

Definition CancelConnectingWatchdogLocked : M unit := modify (fun c => c <| watchdog_ := false |>).
Definition ArmConnectingWatchdogLocked : M unit :=
  CancelConnectingWatchdogLocked;; modify (fun c => c <| watchdog_ := true |>).

Definition ApplyWfpLocked (s : WfpState) : M bool :=
  CancelConnectingWatchdogLocked;;
  if bool_decide (s = WOff) then wfp_revert;; PublishStatusLocked;; ret true else
  c ← gets id;
  let tunnel_ipv6 := bool_decide (s = WConnected) && match netConfig_ c with Some n => AppliedIpv6 n | None => false end in
  let cfg := mkWfpConfig (if bool_decide (s = WConnected) then default 0 (adapter_ c) else 0)
    (if bool_decide (s = WConnected) then appliedResolvers_ c else [])
    (if tunnel_ipv6 then appliedResolversV6_ c else []) tunnel_ipv6
    (if bool_decide (s = WConnecting) then HostResolversV4 (log c) (adapter_ c) else [])
    true true true ServiceImagePath AppImagePath in
  if bool_decide (ServiceImagePath = []) then ret false else
  ok ← wfp_apply s cfg;
  PublishStatusLocked;;
  (if ok && bool_decide (s = WConnecting) then ArmConnectingWatchdogLocked else skip);;
  ret ok.

Definition RevertMachineStateLocked (finalDisarm hadRoutes : bool) : M unit :=
  owned ← gets has_routes;
  (if owned : bool then emit NetworkReverted;; modify (fun c => c <| netConfig_ := None |>) else skip);;
  modify (fun c => c <| appliedResolvers_ := [] |> <| appliedResolversV6_ := [] |>);;
  PublishStatusLocked;;
  (if hadRoutes then emit ResolverCacheFlushed else skip);;
  SetActiveMarker false;;
  c ← gets id;
  let on := negb (bool_decide (wfp_in_force c = WOff)) in
  if finalDisarm then _ ← ApplyWfpLocked WOff; skip else
  if killSwitch_ c && on then _ ← ApplyWfpLocked WArmed; skip else
  if killSwitch_ c && hadRoutes then _ ← ApplyWfpLocked WArmed; skip else
  if on then _ ← ApplyWfpLocked WOff; skip else
  skip.

(** ** Bounded waits *)

(** [SweepAbandonedTeardowns] on the process's flags. *)
Definition Sweep : M AbandonedTeardownSweep := fun c =>
  let '(b, swept) := SweepAbandonedTeardowns (budget c) in (c <| budget := b |>, inr swept).

(** [RunBounded] of a worker that takes a device with it: whether it finished inside the
    budget ([StopBudget.WaitBounded] ends with that answer), and the gate. *)
Definition run_bounded (device : option nat) : M (bool * nat) :=
  gate ← new_name;
  modify (fun c => c <| budget := set_done (budget c) gate false |>);;
  emit (TeardownStarted device);;
  finished ← blocking (Finishes gate);
  modify (fun c => c <| budget :=
    EndBounded (if finished then set_done (budget c) gate true else budget c) gate HoldsSessionDevice finished |>);;
  ret (finished, gate).

Definition close_device (device : option nat) : M unit :=
  match device with Some d => emit (DeviceClosed d) | None => skip end.

(** ** The provider-only device *)

Definition RetireProviderDeviceLocked : M unit :=
  c ← gets id;
  if bool_decide (providerDevice_ c = None) && negb (providerSpace_ c) then skip else
  let device := providerDevice_ c in
  modify (fun c => c <| providerEgress_ := false |> <| providerNetwork_ := false |> <| providerDevice_ := None |>
    <| providerSpace_ := false |> <| providerRequest_ := no_provider |> <| providerTier_ := 0 |>
    <| providerNetworkKey_ := false |>);;
  PublishStatusLocked;;
  finished ← run_bounded device;
  if fst finished then close_device device else skip.

Definition ReadProviderFactsLocked : M unit :=
  modify (fun c => c <| providerTier_ := 0 |> <| providerNetworkKey_ := false |>);;
  running ← gets (fun c => bool_decide (providerDevice_ c <> None));
  if negb running then skip else
  read ← blocking ReadsProviderFacts;
  if negb read then skip else
  modify (fun c => c <| providerTier_ := getProvideMode (log c) |>);;
  key ← ask HasNetworkKey;
  modify (fun c => c <| providerNetworkKey_ := key |>).

Definition WatchProviderNetworkLocked : M unit :=
  running ← gets (fun c => bool_decide (providerDevice_ c <> None));
  if negb running then skip else
  watches ← blocking WatchesNetwork;
  if watches then modify (fun c => c <| providerNetwork_ := true |>) else skip.

Definition StartProviderEgressLocked : M unit :=
  modify (fun c => c <| providerEgress_ := true |>);; must StartsEgress.

(** A start of the same identity takes the provider's device and space into its local
    [handedOff]. *)
Definition TakeProviderDeviceLocked (config : StartTunnel) : M unit :=
  c ← gets id;
  if negb (PromotesProviderDevice (bool_decide (providerDevice_ c <> None)) (IdentityOf (providerRequest_ c))
             (IdentityOf (identity config))) then skip else
  yield;;
  modify (fun c => c <| providerNetwork_ := false |> <| providerEgress_ := false |>
    <| handedDevice := providerDevice_ c |> <| handedSpace := providerSpace_ c |> <| providerDevice_ := None |>
    <| providerSpace_ := false |> <| providerRequest_ := no_provider |> <| providerTier_ := 0 |>
    <| providerNetworkKey_ := false |>);;
  PublishStatusLocked.

(** The destructor of the start's guard. *)
Definition CloseHandedOffDeviceLocked : M unit :=
  c ← gets id;
  if bool_decide (handedDevice c = None) && negb (handedSpace c) then skip else
  modify (fun c => c <| handedDevice := None |> <| handedSpace := false |>);;
  finished ← run_bounded (handedDevice c);
  if fst finished then close_device (handedDevice c) else skip.

Definition ResumeProvidingLocked (device : nat) (space : bool) : M unit :=
  modify (fun c => c <| providerEgress_ := true |>);;
  started ← blocking StartsEgress;
  if negb started then
    modify (fun c => c <| providerSpace_ := space |> <| providerDevice_ := Some device |>);; RetireProviderDeviceLocked
  else
  modify (fun c => c <| providerSpace_ := space |> <| providerDevice_ := Some device |>);;
  read ← blocking ReadsControlMode;
  modify (fun c =>
    let r := sessionIdentity_ c in
    c <| providerRequest_ := mkStartProvider (sp_by_jwt r) (sp_network_space_json r) (sp_instance_id r)
      (sp_device_description r) (sp_device_spec r) (sp_app_version r)
      (if read then getProvideControlMode (log c) else []) (sp_transport r) |>);;
  ReadProviderFactsLocked;;
  WatchProviderNetworkLocked;;
  PublishStatusLocked.

(** ** The teardown *)

(** Whether it finished, and the device and space a disconnect kept. *)
Definition TearDownSessionLocked (keepDevice : bool) : M (bool * option (nat * bool)) :=
  c ← gets id;
  if negb (pump_ c) && negb (egress_ c) && bool_decide (device_ c = None) && bool_decide (adapter_ c = None) &&
     negb (wintun_ c) && negb (networkSpace_ c) && negb (splitTunnel_ c) then ret (true, None) else
  modify (fun c => c <| splitTunnel_ := false |> <| pump_ := false |> <| egress_ := false |> <| device_ := None |>
    <| adapter_ := None |> <| wintun_ := false |> <| networkSpace_ := false |>);;
  let handback := if keepDevice then device_ c else None in
  clears ← (match handback with Some _ => ask ClearsSession | None => ret false end);
  finished ← run_bounded (device_ c);
  hands ← (if clears : bool then if fst finished then ret true else ask HandsBack else ret false);
  match handback with
  | Some d => if hands : bool then ret (fst finished, Some (d, networkSpace_ c))
              else (if fst finished then close_device (device_ c) else skip);; ret (fst finished, None)
  | None => (if fst finished then close_device (device_ c) else skip);; ret (fst finished, None)
  end.

Definition is_live_or_starting (s : TunnelState) : bool := IsSessionLive s || bool_decide (s = Starting).

Definition keeps_device : M bool :=
  read ← blocking ReadsControlMode;
  mode ← gets (fun c => if read then ControlModeFrom (getProvideControlMode (log c)) else Unknown);
  firewall ← gets (fun c => negb (bool_decide (wfp_in_force c = WOff)));
  swept ← Sweep;
  pending ← gets (fun c => SelfRestartPending (budget c));
  ret (KeepsSessionDevice (mkStopFacts true true mode firewall (0 <? outstanding swept)%nat pending)).

Definition StopLocked (finalDisarm disconnect : bool) : M unit :=
  CancelCapture;;
  c ← gets id;
  (if is_live_or_starting (state_ c) then SetStateLocked Stopping else skip);;
  yield;;
  modify (fun c => c <| deadTunnelWatchdog_ := false |>);;
  RevertMachineStateLocked finalDisarm (has_routes c);;
  RetireProviderDeviceLocked;;
  session ← gets (fun c => bool_decide (device_ c <> None));
  keepDevice ← (if disconnect && session then keeps_device else ret false);
  torn ← TearDownSessionLocked keepDevice;
  modify (fun c => c <| rpcHostPort_ := [] |> <| activeInstanceId_ := [] |> <| rpcSessionId_ := [] |>
    <| upSinceMillis_ := 0 |>);;
  SetStateLocked Stopped;;
  (match snd torn with Some (device, space) => ResumeProvidingLocked device space | None => skip end);;
  modify (fun c => c <| sessionIdentity_ := no_provider |>).

(** [--stop-after]: the staged bring-up. *)
Definition HaltAfterStepLocked (step : Z) : M bool :=
  stopAfter ← gets stopAfterStep_;
  if (stopAfter =? 0) || (step <? stopAfter) then ret false else
  StopLocked true false;; ret true.

(** * The start *)

(** [sessionIdentity_] of a start. *)
Definition session_identity (r : StartProvider) : StartProvider :=
  mkStartProvider (sp_by_jwt r) (sp_network_space_json r) (sp_instance_id r) (sp_device_description r) (sp_device_spec r)
    (sp_app_version r) [] [].

(** The first device step of a session: a provider's device, or a new one. *)
Definition device_step (config : StartTunnel) : M unit :=
  c ← gets id;
  match handedDevice c with
  | Some d => modify (fun c => c <| device_ := Some d |> <| handedDevice := None |>)
  | None =>
      must BuildsDevice;;
      d ← new_name;
      emit (DeviceBuilt d);;
      modify (fun c => c <| device_ := Some d |>)
  end.

Definition space_step : M unit :=
  c ← gets id;
  (if handedSpace c then modify (fun c => c <| handedSpace := false |>) else must ImportsSpace);;
  modify (fun c => c <| networkSpace_ := true |>).

Definition adapter_step : M unit :=
  loads ← blocking LoadsWintun;
  c ← gets id;
  if negb loads then throw (LoadFailure (wintunError (log c))) else
  modify (fun c => c <| wintun_ := true |>);;
  creates ← blocking CreatesAdapter;
  c ← gets id;
  if negb creates then throw (AdapterFailure (wintunError (log c))) else
  luid ← gets (fun c => adapter_luid (log c));
  modify (fun c => c <| adapter_ := Some luid |>);;
  emit (AdapterCreated luid).

(** The [try] block of [StartLocked], from its first step to its last; a true answer of a
    halt ends it. *)
Definition start_steps (config : StartTunnel) (id : nat) : M unit :=
  c ← gets Datatypes.id;
  let rpcOnly := bool_decide (startMode_ c = ModeRpcOnly) in
  (if rpcOnly then skip else adapter_step);;
  h1 ← HaltAfterStepLocked 1; if h1 then skip else
  modify (fun c => c <| egress_ := true |>);;
  must StartsEgress;;
  h2 ← HaltAfterStepLocked 2; if h2 then skip else
  space_step;;
  h3 ← HaltAfterStepLocked 3; if h3 then skip else
  device_step config;;
  h4 ← HaltAfterStepLocked 4; if h4 then skip else
  must StartsRpcServer;;
  modify (fun c => c <| rpcHostPort_ := rpc_listen_hostport config |>);;
  PublishStatusLocked;;
  h5 ← HaltAfterStepLocked 5; if h5 then skip else
  c ← gets Datatypes.id;
  if Cancelled c id then StopLocked true false else
  if rpcOnly then
    SetStateLocked RpcOnly;;
    modify (fun c => c <| upSinceMillis_ := clock (log c) |>);;
    PublishStatusLocked;;
    modify (fun c => c <| deadTunnelWatchdog_ := true |>)
  else
    SetStateLocked Preparing;;
    modify (fun c => c <| deadTunnelWatchdog_ := true |>).

Definition start_failed (e : text) : M unit :=
  modify (fun c => c <| error_ := e |>);;
  SetStateLocked StateError;;
  StopLocked false false;;
  SetStateLocked StateError.

(** [error_] after a refusal, and the reply. *)
Definition refuse (why : text) : M unit := modify (fun c => c <| error_ := why |>).

Definition RequestRestart : M bool := fun c =>
  let '(b, restarting) := RequestSelfRestart (budget c) (txt "a previous sdk teardown is still holding this session's device") in
  (c <| budget := b |>, inr restarting).

(** [StartLocked] up to the guard's destructor. *)
Definition start_body (config : StartTunnel) : M unit :=
  generation ← gets stopGeneration_;
  modify (fun c => c <| killSwitch_ := kill_switch config |>);;
  TakeProviderDeviceLocked config;;
  StopLocked false false;;
  id ← new_name;
  modify (fun c => c <| readinesses := <[id := new_readiness default_capture_settings]> (readinesses c) |>
    <| captureReadiness_ := Some id |>);;
  moved ← gets (fun c => negb (stopGeneration_ c =? generation));
  (if moved then modify (on_readiness id Cancel) else skip);;
  modify (fun c => c <| lastStopReason_ := StopReasonOf ReasonNone |>);;
  pending ← gets (fun c => SelfRestartPending (budget c));
  if pending then
    SetStateLocked StateError;;
    refuse (txt "this service is already restarting itself — reconnecting in a few seconds")
  else
  swept ← Sweep;
  if (0 <? outstanding swept)%nat then
    SetStateLocked StateError;;
    restarting ← RequestRestart;
    refuse (if restarting : bool then txt "a previous teardown is still holding its device, so this service is restarting itself now — reconnecting in a few seconds"
            else txt "a previous teardown is still holding its device; this service process must be restarted before another tunnel can start")
  else
  modify (fun c => c <| activeInstanceId_ := sp_instance_id (identity config) |>
    <| rpcSessionId_ := rpc_session_id config |> <| sessionIdentity_ := session_identity (identity config) |>
    <| excludedPaths_ := excluded_app_paths config |> <| allowlist_ := allowlist_mode config |>);;
  SetStateLocked Starting;;
  modify (fun c => c <| startMode_ := if rpcOnlyClamp_ c && negb (bool_decide (start_mode config = ModeRpcOnly))
                                     then ModeRpcOnly else start_mode config |>
    <| error_ := [] |>);;
  PublishStatusLocked;;
  c ← gets Datatypes.id;
  (if negb (bool_decide (startMode_ c = ModeRpcOnly)) && negb (bool_decide (wfp_in_force c = WOff))
   then _ ← ApplyWfpLocked WConnecting; skip else skip);;
  catch (start_steps config id) start_failed.

Definition StartLocked (config : StartTunnel) : M TunnelStatus :=
  start_body config;;
  s ← StatusLocked;
  CloseHandedOffDeviceLocked;;
  ret s.

(** * The capture *)

(** The four stages of [BringUpTunnelLocked]; false halts. *)
Definition tunnel_settings (c : Ctl) : TunnelNetworkSettings :=
  let l := log c in
  let some_of (dns : option (list text)) (fallback : text) :=
    match dns with Some (d :: ds) => d :: ds | _ => [fallback] end in
  let local6 := tunnelLocalAddressIpv6 l in
  let has6 := negb (bool_decide (local6 = [])) in
  mkNetworkSettings
    (if bool_decide (tunnelLocalAddress l = []) then txt "169.254.2.1" else tunnelLocalAddress l) 24 local6
    (if has6 then if (0 <? getTunnelLocalPrefixLengthIpv6) && (getTunnelLocalPrefixLengthIpv6 <=? 128)
                  then getTunnelLocalPrefixLengthIpv6 else 64 else 64)
    1280 (some_of (tunnelDnsAddressesIpv4 l) getDefaultTunnelDnsAddressIpv4)
    (if has6 then some_of (tunnelDnsAddressesIpv6 l) getDefaultTunnelDnsAddressIpv6 else []).

Definition prepare_stage : M bool :=
  opens ← blocking SplitTunnelOpens;
  modify (fun c => c <| splitTunnel_ := opens |>);;
  c ← gets id;
  (if pump_ c then skip else
    modify (fun c => c <| pump_ := true |>);;
    starts ← blocking PumpStarts;
    if starts then skip else throw (txt "packet pump failed to start"));;
  ret true.

Definition firewall_stage : M bool :=
  egress ← blocking HasDefaultRoute;
  if negb egress then throw (txt "no physical default route") else
  ok ← ApplyWfpLocked WConnecting;
  c ← gets id;
  if negb ok && killSwitch_ c then throw (txt "kill switch policy unavailable") else ret true.

Definition network_stage (settings : TunnelNetworkSettings) : M bool :=
  modify (fun c => c <| netConfig_ := Some (mkNetConfig false false) |>);;
  SetActiveMarker true;;
  emit (NetworkApplied settings);;
  applies ← blocking AppliesNetwork;
  dns ← ask AppliesDns;
  v6 ← ask AppliesIpv6;
  modify (fun c => c <| netConfig_ := Some (mkNetConfig dns v6) |>);;
  if negb applies then throw (txt "network configuration failed") else
  modify (fun c => c <| appliedResolvers_ := dns_servers_v4 settings |>
    <| appliedResolversV6_ := if v6 then dns_servers_v6 settings else [] |>);;
  PublishStatusLocked;;
  if negb dns then throw (txt "tunnel DNS configuration failed") else ret true.

Definition connected_stage : M bool :=
  c ← gets id;
  (if negb (bool_decide (wfp_in_force c = WOff)) then
     ok ← ApplyWfpLocked WConnected;
     if ok then skip else throw (txt "connected policy unavailable")
   else skip);;
  emit ResolverCacheFlushed;;
  h6 ← HaltAfterStepLocked 6; if h6 then ret false else
  h7 ← HaltAfterStepLocked 7; if h7 then ret false else
  h8 ← HaltAfterStepLocked 8; ret (negb h8).

Definition capture_stage (settings : TunnelNetworkSettings) (stage : CaptureStage) : M bool :=
  match stage with
  | Prepare => prepare_stage
  | Firewall => firewall_stage
  | NetworkStage => network_stage settings
  | ConnectedStage => connected_stage
  end.

(** [step] when a stage throws. *)
Definition stage_step (stage : CaptureStage) : text :=
  match stage with
  | Prepare => txt "packet pump and split tunnel"
  | Firewall => txt "capture firewall"
  | NetworkStage => txt "capture routes and DNS"
  | ConnectedStage => txt "connected firewall"
  end.

Definition capture_rollback (id : nat) : M unit :=
  routes ← gets has_routes;
  RevertMachineStateLocked false routes;;
  c ← gets Datatypes.id;
  if negb (Cancelled c id) && killSwitch_ c && negb (bool_decide (wfp_in_force c = WOff))
  then _ ← ApplyWfpLocked WConnecting; skip else skip.

(** A look at the readiness object, after what the other threads did to it. *)
Definition interfere (id : nat) : M unit :=
  yield;; modify (fun c => on_readiness id (fun r => run_ops r (others (log c))) c).

Definition readiness_current (id : nat) (ticket : CaptureTicket) : M bool :=
  interfere id;;
  gets (fun c => match readinesses c !! id with Some r => Current r (clock (log c)) ticket | None => false end).

Definition commit (id : nat) (ticket : CaptureTicket) : M bool :=
  interfere id;;
  c ← gets Datatypes.id;
  match readinesses c !! id with
  | None => ret false
  | Some r =>
      let '(r, ok) := Commit r (clock (log c)) ticket in
      modify (fun c => c <| readinesses := <[id := r]> (readinesses c) |>);; ret ok
  end.

(** The loop of [ApplyCapture] over the stages that are left. *)
Fixpoint run_stages (settings : TunnelNetworkSettings) (id : nat) (ticket : CaptureTicket) (stages : list CaptureStage) :
    M (option CaptureResult) :=
  match stages with
  | [] => ret None
  | stage :: stages =>
      current ← readiness_current id ticket;
      if negb current then capture_rollback id;; ret (Some Waiting) else
      goes ← catch (named (stage_step stage) (capture_stage settings stage)) (fun e => capture_rollback id;; throw e);
      if negb goes then capture_rollback id;; ret (Some Halted) else
      run_stages settings id ticket stages
  end.

Definition ApplyCapture (settings : TunnelNetworkSettings) (id : nat) (ticket : CaptureTicket) : M CaptureResult :=
  current ← readiness_current id ticket;
  if negb current then ret Waiting else
  stopped ← run_stages settings id ticket stages_in_order;
  match stopped with
  | Some result => ret result
  | None =>
      committed ← commit id ticket;
      if committed then ret Active else capture_rollback id;; ret Waiting
  end.

Definition BringUpTunnelLocked (id : nat) (ticket : CaptureTicket) : M CaptureResult :=
  c ← gets Datatypes.id;
  if negb (bool_decide (startMode_ c = ModeTunnel)) || bool_decide (adapter_ c = None) || bool_decide (device_ c = None)
  then named (txt "readiness") (throw (txt "capture requires a prepared tunnel session"))
  else settings ← gets tunnel_settings; ApplyCapture settings id ticket.

Definition activation_failed (step : text) : M unit :=
  modify (fun c => c <| error_ := txt "tunnel activation failed at " ++ step |>);;
  StopLocked false false;;
  SetStateLocked StateError.

(** [ActivateCapture], once it holds the lock or has given up waiting for it. *)
Definition ActivateCapture (id : nat) (ticket : CaptureTicket) : M unit :=
  c ← gets Datatypes.id;
  if Cancelled c id || negb (bool_decide (captureReadiness_ c = Some id)) || negb (bool_decide (state_ c = Preparing))
  then skip else
  finish ← catch (
    result ← BringUpTunnelLocked id ticket;
    yield;;
    c ← gets Datatypes.id;
    if bool_decide (result = Halted) || Cancelled c id then ret false else
    if bool_decide (result = Waiting) then modify (fun c => c <| deadTunnelWatchdog_ := true |>);; ret true else
    modify (fun c => c <| upSinceMillis_ := clock (log c) |>);;
    SetStateLocked Up;;
    modify (fun c => c <| deadTunnelWatchdog_ := true |>);;
    ret true) (fun step => activation_failed step;; ret true);
  if finish : bool then emit StateNotified else skip.

(** * The stops *)

Definition DropFirewallOnEscape : M unit :=
  c ← gets id;
  if killSwitch_ c then skip else
  if bool_decide (wfp_in_force c = WOff) then skip else wfp_revert.

(** The way out when the lock cannot be had. *)
Definition escape : M unit :=
  emit CrashReverted;;
  SetActiveMarker false;;
  DropFirewallOnEscape;;
  RepublishMachineFactsLockFree true;;
  modify (fun c => c <| budget := NoteTeardownAbandoned (budget c) |>).

(** [locked]: the lock was free inside its budget. *)
Definition StopWith (locked disconnect : bool) : M unit :=
  stop_prelude;;
  if locked then StopLocked true disconnect else escape.

Definition Stop (locked : bool) : M unit := StopWith locked false.
Definition Disconnect (locked : bool) : M unit := StopWith locked true.

Definition FailsafeStop (locked : bool) (reason : DeadTunnelReason) : M unit :=
  modify (fun c => c <| stopGeneration_ := stopGeneration_ c + 1 |>);;
  CancelCapture;;
  modify (fun c => c <| lastStopReason_ := StopReasonOf reason |>);;
  c ← gets id;
  (if locked then StopLocked (FailsafeFinalDisarm (killSwitch_ c)) false else escape);;
  emit StateNotified.

(** * The other requests *)

Definition SetKillSwitch (on : bool) : M bool :=
  c ← gets id;
  if Bool.eqb (killSwitch_ c) on then ret true else
  modify (fun c => c <| killSwitch_ := on |>);;
  let up := bool_decide (state_ c = Up) in
  let wfp := wfp_in_force c in
  if negb on && negb up && (bool_decide (wfp = WArmed) || bool_decide (wfp = WConnecting)) then
    _ ← ApplyWfpLocked WOff; ret true
  else if on && up && bool_decide (wfp = WOff) then ApplyWfpLocked WConnected
  else ret true.

(** The driver's calls are left out. *)
Definition SetSplitTunnel (excludedPaths : list text) (allowlist : bool) : M bool :=
  modify (fun c => c <| excludedPaths_ := excludedPaths |> <| allowlist_ := allowlist |>);; ret true.

Definition Logout (locked : bool) (networkSpaceJson : text) : M bool :=
  modify (fun c => c <| stopGeneration_ := stopGeneration_ c + 1 |>);;
  CancelCapture;;
  if negb locked then ret false else
  modify (fun c => c <| lastStopReason_ := kStopReasonUser |>);;
  StopLocked true false;;
  emit IdentityCleared;;
  if bool_decide (networkSpaceJson = []) then ret true else
  imports ← blocking ImportsSpace;
  if imports then blocking ClearsSdkState else ret false.

Definition provider_state : M ServiceProviderState :=
  c ← gets id;
  let session := bool_decide (state_ c = Starting) || IsSessionLive (state_ c) || bool_decide (state_ c = Stopping) ||
    bool_decide (device_ c <> None) || bool_decide (adapter_ c <> None) || has_routes c || pump_ c || egress_ c in
  swept ← Sweep;
  ret (mkProviderState session (negb (bool_decide (wfp_in_force c = WOff))) (0 <? outstanding swept)%nat
         (SelfRestartPending (budget c))).

(** The running provider takes a new policy and mode in place. *)
Definition update_provider (request : StartProvider) : M (bool * text) :=
  let refused (applying : text) := (false, txt "the " ++ applying ++ txt " could not be applied") in
  c ← gets id;
  policy ← (if negb (bool_decide (sp_transport request = [])) &&
               negb (teqb (sp_transport request) (sp_transport (providerRequest_ c)))
            then blocking AppliesTransport else ret true);
  if negb policy then ret (refused (txt "provider transport policy")) else
  applied ← blocking AppliesMode;
  if negb applied then ret (refused (txt "provide mode")) else
  modify (fun c => c <| providerRequest_ := request |>);;
  ReadProviderFactsLocked;;
  PublishStatusLocked;;
  ret (true, []).

Definition build_provider (request : StartProvider) : M unit :=
  named (txt "egress") StartProviderEgressLocked;;
  named (txt "network space") (must ImportsSpace);;
  modify (fun c => c <| providerSpace_ := true |>);;
  named (txt "device") (must BuildsDevice);;
  d ← new_name;
  emit (DeviceBuilt d);;
  modify (fun c => c <| providerDevice_ := Some d |>);;
  (if bool_decide (sp_transport request = []) then skip
   else named (txt "provider transport policy") (must AppliesTransport));;
  named (txt "provide mode") (must AppliesMode);;
  modify (fun c => c <| providerRequest_ := request |>);;
  ReadProviderFactsLocked;;
  WatchProviderNetworkLocked;;
  PublishStatusLocked.

(** The answer, and the error's text. *)
Definition StartProviderRequest (locked : bool) (request : StartProvider) : M (bool * text) :=
  if negb locked then ret (false, txt "a tunnel operation is in progress") else
  state ← provider_state;
  let refusal := ProviderStartRefusal (ControlModeFrom (sp_provide_mode request)) state in
  if negb (bool_decide (refusal = RefusalNone)) then ret (false, RefusalReason refusal) else
  c ← gets id;
  if bool_decide (providerDevice_ c <> None) && SameProviderDevice (providerRequest_ c) request then
    update_provider request
  else
  RetireProviderDeviceLocked;;
  catch (build_provider request;; ret (true, []))
    (fun step => RetireProviderDeviceLocked;;
                 ret (false, txt "the provider could not be started at the " ++ step ++ txt " step")).

Definition StopProvider (locked : bool) : M bool :=
  if negb locked then ret false else RetireProviderDeviceLocked;; ret true.

Definition ClampToRpcOnly : M unit := modify (fun c => c <| rpcOnlyClamp_ := true |>).

Definition ClampStopAfterStep (step : Z) : Z := if step <? 1 then 1 else if 8 <? step then 8 else step.
Definition SetStopAfterStep (step : Z) : M unit := modify (fun c => c <| stopAfterStep_ := ClampStopAfterStep step |>).
End Controller.
