(* ===== verification/ControllerFacts.v ===== *)
(** What the controller's operations do to it: a weakest precondition for the monad of
    [Controller], what the threads without the lock may change, and the specifications of
    the operations the others are made of. *)

From S2P Require Import Prelude.
From S2P Require Import CxxText.
From S2P Require Import Wfp.
From S2P Require Import WfpPolicy.
From S2P Require Import DeadTunnel.
From S2P Require Import StopBudget.
From S2P Require Import Capture.
From S2P Require Import Gesture.
From S2P Require Import Provide.
From S2P Require Import Controller.

(** * Weakest preconditions *)

Definition wp {A} (m : M A) (Q : A -> Ctl -> Prop) (E : text -> Ctl -> Prop) (c : Ctl) : Prop :=
  match m c with (c', inr a) => Q a c' | (c', inl e) => E e c' end.

(** A computation that throws nothing. *)
Definition never : text -> Ctl -> Prop := fun _ _ => False.

Lemma wp_bind {A B} (m : M A) (f : A -> M B) Q E c : wp m (fun a => wp (f a) Q E) E c -> wp (bind m f) Q E c.
Proof. unfold wp, bind. by destruct (m c) as [c' [e|a]]. Qed.

Lemma wp_mono {A} (m : M A) (Q Q' : A -> Ctl -> Prop) (E E' : text -> Ctl -> Prop) c :
  wp m Q E c -> (forall a c', Q a c' -> Q' a c') -> (forall e c', E e c' -> E' e c') -> wp m Q' E' c.
Proof. unfold wp. destruct (m c) as [c' [e|a]]; auto. Qed.

(** A run, with the equation that says it is one. *)
Lemma wp_result {A} (m : M A) (Q : A -> Ctl -> Prop) E c :
  wp m Q E c -> wp m (fun a c' => m c = (c', inr a) /\ Q a c') E c.
Proof. unfold wp. by destruct (m c) as [c' [e|a]]. Qed.

Lemma wp_and {A} (m : M A) (Q Q' : A -> Ctl -> Prop) (E E' : text -> Ctl -> Prop) c :
  wp m Q E c -> wp m Q' E' c -> wp m (fun a c' => Q a c' /\ Q' a c') (fun e c' => E e c' /\ E' e c') c.
Proof. unfold wp. by destruct (m c) as [c' [e|a]]. Qed.

Lemma wp_ret {A} (a : A) (Q : A -> Ctl -> Prop) E c : Q a c -> wp (ret a) Q E c.
Proof. done. Qed.
Lemma wp_skip (Q : unit -> Ctl -> Prop) E c : Q tt c -> wp skip Q E c.
Proof. done. Qed.
Lemma wp_throw {A} e (Q : A -> Ctl -> Prop) (E : text -> Ctl -> Prop) c : E e c -> wp (throw e) Q E c.
Proof. done. Qed.
Lemma wp_gets {A} (f : Ctl -> A) (Q : A -> Ctl -> Prop) E c : Q (f c) c -> wp (gets f) Q E c.
Proof. done. Qed.
Lemma wp_modify f (Q : unit -> Ctl -> Prop) E c : Q tt (f c) -> wp (modify f) Q E c.
Proof. done. Qed.
Lemma wp_emit e (Q : unit -> Ctl -> Prop) E c : Q tt c <| log := log c ++ [e] |> -> wp (emit e) Q E c.
Proof. done. Qed.
Lemma wp_catch {A} (m : M A) h (Q : A -> Ctl -> Prop) E c : wp m Q (fun e => wp (h e) Q E) c -> wp (catch m h) Q E c.
Proof. unfold wp, catch. by destruct (m c) as [c' [e|a]]. Qed.

(** The step's name says nothing of the state. *)
Lemma wp_named {A} step (m : M A) (Q : A -> Ctl -> Prop) (E : text -> Ctl -> Prop) c :
  (forall e e' c', E e c' -> E e' c') -> wp m Q E c -> wp (named step m) Q E c.
Proof.
  intros He Hm. unfold named. apply wp_catch. unfold wp in *. destruct (m c) as [c' [e|a]]; [|done].
  unfold throw. by eapply He.
Qed.

(** Runs the first computation by its specification; it throws nothing. *)
Tactic Notation "run" constr(spec) "as" simple_intropattern(c) simple_intropattern(A) :=
  eapply wp_mono; [apply spec| |done]; cbv beta; [..|intros _ c A].
Tactic Notation "run" constr(spec) "as" simple_intropattern(a) simple_intropattern(c) simple_intropattern(A) :=
  eapply wp_mono; [apply spec| |done]; cbv beta; [..|intros a c A].

(** Reads members. *)
Ltac reads := apply wp_bind, wp_gets; cbv beta zeta delta [Datatypes.id].

(** * Members that only the thread with the lock writes *)

Definition core (c : Ctl) :=
  (state_ c, startMode_ c, killSwitch_ c, (rpcOnlyClamp_ c, stopAfterStep_ c, excludedPaths_ c, allowlist_ c),
   (error_ c, rpcHostPort_ c, activeInstanceId_ c, rpcSessionId_ c, upSinceMillis_ c, sessionIdentity_ c),
   (device_ c, adapter_ c, netConfig_ c, pump_ c), (egress_ c, wintun_ c, networkSpace_ c, splitTunnel_ c),
   (providerDevice_ c, providerSpace_ c, providerRequest_ c, providerTier_ c),
   (providerNetworkKey_ c, providerEgress_ c, providerNetwork_ c), (handedDevice c, handedSpace c),
   (appliedResolvers_ c, appliedResolversV6_ c, captureReadiness_ c, deadTunnelWatchdog_ c, marker c)).

Definition Core : Type := ltac:(match type of core with _ -> ?t => exact t end).

(** A member of the core. *)
Class Framed {A} (f : Ctl -> A) := framed : forall c c', core c' = core c -> f c' = f c.

Ltac frame := intros c c' E; unfold core in E; injection E; intros; assumption.
#[export] Instance framed_state : Framed state_. Proof. frame. Qed.
#[export] Instance framed_startMode : Framed startMode_. Proof. frame. Qed.
#[export] Instance framed_killSwitch : Framed killSwitch_. Proof. frame. Qed.
#[export] Instance framed_clamp : Framed rpcOnlyClamp_. Proof. frame. Qed.
#[export] Instance framed_stopAfterStep : Framed stopAfterStep_. Proof. frame. Qed.
#[export] Instance framed_excludedPaths : Framed excludedPaths_. Proof. frame. Qed.
#[export] Instance framed_allowlist : Framed allowlist_. Proof. frame. Qed.
#[export] Instance framed_error : Framed error_. Proof. frame. Qed.
#[export] Instance framed_rpcHostPort : Framed rpcHostPort_. Proof. frame. Qed.
#[export] Instance framed_activeInstanceId : Framed activeInstanceId_. Proof. frame. Qed.
#[export] Instance framed_rpcSessionId : Framed rpcSessionId_. Proof. frame. Qed.
#[export] Instance framed_upSinceMillis : Framed upSinceMillis_. Proof. frame. Qed.
#[export] Instance framed_sessionIdentity : Framed sessionIdentity_. Proof. frame. Qed.
#[export] Instance framed_device : Framed device_. Proof. frame. Qed.
#[export] Instance framed_adapter : Framed adapter_. Proof. frame. Qed.
#[export] Instance framed_netConfig : Framed netConfig_. Proof. frame. Qed.
#[export] Instance framed_pump : Framed pump_. Proof. frame. Qed.
#[export] Instance framed_egress : Framed egress_. Proof. frame. Qed.
#[export] Instance framed_wintun : Framed wintun_. Proof. frame. Qed.
#[export] Instance framed_networkSpace : Framed networkSpace_. Proof. frame. Qed.
#[export] Instance framed_splitTunnel : Framed splitTunnel_. Proof. frame. Qed.
#[export] Instance framed_providerDevice : Framed providerDevice_. Proof. frame. Qed.
#[export] Instance framed_providerSpace : Framed providerSpace_. Proof. frame. Qed.
#[export] Instance framed_providerRequest : Framed providerRequest_. Proof. frame. Qed.
#[export] Instance framed_providerTier : Framed providerTier_. Proof. frame. Qed.
#[export] Instance framed_providerNetworkKey : Framed providerNetworkKey_. Proof. frame. Qed.
#[export] Instance framed_providerEgress : Framed providerEgress_. Proof. frame. Qed.
#[export] Instance framed_providerNetwork : Framed providerNetwork_. Proof. frame. Qed.
#[export] Instance framed_handedDevice : Framed handedDevice. Proof. frame. Qed.
#[export] Instance framed_handedSpace : Framed handedSpace. Proof. frame. Qed.
#[export] Instance framed_resolvers : Framed appliedResolvers_. Proof. frame. Qed.
#[export] Instance framed_resolversV6 : Framed appliedResolversV6_. Proof. frame. Qed.
#[export] Instance framed_readiness : Framed captureReadiness_. Proof. frame. Qed.
#[export] Instance framed_deadTunnelWatchdog : Framed deadTunnelWatchdog_. Proof. frame. Qed.
#[export] Instance framed_marker : Framed marker. Proof. frame. Qed.
#[export] Instance framed_has_routes : Framed has_routes.
Proof. intros c c' E. unfold has_routes. by rewrite (framed (f := netConfig_) c c' E). Qed.

(** Replaces the members of a controller by those of one with the same core. *)
Ltac chase := repeat (members; match goal with
  | E : core ?c' = core _ |- context [?f ?c'] => rewrite (framed (f := f) _ c' E)
  end); members.
Ltac chase_in H := repeat (members_in H; match type of H with
  | context [?f ?c'] => match goal with E : core c' = core _ |- _ => rewrite (framed (f := f) _ c' E) in H end
  end); members_in H.

(** * The reported status *)

(** The status without what a clock or the egress monitor says. *)
Definition facts (s : TunnelStatus) : TunnelStatus :=
  mkTunnelStatus (ts_state s) (ts_mode s) (ts_routes_installed s) (ts_dns_applied s) (ts_wfp_state s)
    (ts_rpc_listen_hostport s) (ts_instance_id s) (ts_rpc_session_id s) (ts_error s) 0 0 0 (ts_provider_running s)
    (ts_provider_control_mode s) (ts_provider_mode s) (ts_provider_network_key s) [].

Section Facts.
Context `{Winsock} `{Bfe} `{Platform} `{Json}.

(** The mirror [Status] reads without the lock says what the members say. *)
Definition mirror_ok (c : Ctl) : Prop :=
  facts (statusMirror_ c) = facts (ComposeStatusLocked c) /\ upSinceMirror_ c = upSinceMillis_ c.

(** The controller with its status published. *)
Definition published (c : Ctl) : Ctl :=
  c <| upSinceMirror_ := upSinceMillis_ c |> <| statusMirror_ := ComposeStatusLocked c |>.

Lemma mirror_published c : mirror_ok (published c).
Proof. done. Qed.

Lemma wp_publish (Q : unit -> Ctl -> Prop) E c : Q tt (published c) -> wp PublishStatusLocked Q E c.
Proof. done. Qed.

Lemma wp_set_state s (Q : unit -> Ctl -> Prop) E c : Q tt (published c <| state_ := s |>) -> wp (SetStateLocked s) Q E c.
Proof. done. Qed.

(** ** Steady progress *)

(** The firewall's policy is well formed, and the watchdog waits only for a policy in
    [Connecting]. *)
Definition fire_ok (c : Ctl) : Prop := policy_wf (wfp_ c) /\ (watchdog_ c = true -> wfp_in_force c = WConnecting).

Definition grows (P : Effect -> Prop) (c c' : Ctl) : Prop := exists l, log c' = log c ++ l /\ Forall P l.

Lemma grows_refl P c : grows P c c.
Proof. exists []. rewrite app_nil_r. split; [done|constructor]. Qed.
Lemma grows_same P c c' : log c' = log c -> grows P c c'.
Proof. intros E. exists []. rewrite app_nil_r. split; [done|constructor]. Qed.
Lemma grows_trans P a b c : grows P a b -> grows P b c -> grows P a c.
Proof.
  intros (l & E & F) (l' & E' & F'). exists (l ++ l'). split; [by rewrite E', E, app_assoc|by apply Forall_app].
Qed.
Lemma grows_mono (P P' : Effect -> Prop) c c' : (forall e, P e -> P' e) -> grows P c c' -> grows P' c c'.
Proof. intros HP (l & E & F). exists l. split; [done|]. eapply Forall_impl; eauto. Qed.
Lemma grows_one (P : Effect -> Prop) c c' e : log c' = log c ++ [e] -> P e -> grows P c c'.
Proof. intros E F. exists [e]. split; [done|]. by apply List.Forall_cons, List.Forall_nil. Qed.

(** What every step of an operation keeps, as long as it keeps the readiness object: the
    firewall stays well formed, a cancelled readiness object stays so, a stop that
    arrived has cancelled this session's, and only effects of kind [P] happened. *)
Record steady (P : Effect -> Prop) (c c' : Ctl) : Prop := {
  sd_log : grows P c c';
  sd_fire : fire_ok c -> fire_ok c';
  sd_ready : captureReadiness_ c' = captureReadiness_ c;
  sd_cancel : forall id, Cancelled c id = true -> Cancelled c' id = true;
  sd_generation : stopGeneration_ c <= stopGeneration_ c';
  sd_stop : forall id, captureReadiness_ c = Some id -> is_Some (readinesses c !! id) ->
    is_Some (readinesses c' !! id) /\ (stopGeneration_ c' <> stopGeneration_ c -> Cancelled c' id = true);
  sd_pending : SelfRestartPending (budget c) = true -> SelfRestartPending (budget c') = true;
}.

Lemma steady_refl P c : steady P c c.
Proof. split; try done; apply grows_refl. Qed.

Lemma steady_trans P a b c : steady P a b -> steady P b c -> steady P a c.
Proof.
  intros AB BC. split.
  - eapply grows_trans; by apply sd_log.
  - intros. by apply (sd_fire _ _ _ BC), (sd_fire _ _ _ AB).
  - rewrite (sd_ready _ _ _ BC). apply (sd_ready _ _ _ AB).
  - intros. by apply (sd_cancel _ _ _ BC), (sd_cancel _ _ _ AB).
  - pose proof (sd_generation _ _ _ AB). pose proof (sd_generation _ _ _ BC). lia.
  - intros id Hid Hr. destruct (sd_stop _ _ _ AB id Hid Hr) as [Hr' S1].
    assert (captureReadiness_ b = Some id) as Hid' by (rewrite (sd_ready _ _ _ AB); done).
    destruct (sd_stop _ _ _ BC id Hid' Hr') as [Hr'' S2]. split; [done|]. intros Hg.
    destruct (decide (stopGeneration_ c = stopGeneration_ b)) as [E|E]; [|by apply S2].
    apply (sd_cancel _ _ _ BC), S1. congruence.
  - intros. by apply (sd_pending _ _ _ BC), (sd_pending _ _ _ AB).
Qed.

Lemma steady_mono (P P' : Effect -> Prop) c c' : (forall e, P e -> P' e) -> steady P c c' -> steady P' c c'.
Proof. intros HP S. split; try apply S. eapply grows_mono; [exact HP|apply S]. Qed.

(** A step that leaves all that alone. *)
Lemma steady_quiet P c c' :
  log c' = log c -> wfp_ c' = wfp_ c -> watchdog_ c' = watchdog_ c -> captureReadiness_ c' = captureReadiness_ c ->
  readinesses c' = readinesses c -> stopGeneration_ c' = stopGeneration_ c -> budget c' = budget c -> steady P c c'.
Proof.
  intros El Ew Ed Er Em Eg Eb. split.
  - by apply grows_same.
  - unfold fire_ok, wfp_in_force. by rewrite Ew, Ed.
  - done.
  - intros id. unfold Cancelled. by rewrite Em.
  - lia.
  - intros id Hid Hr. rewrite Em. split; [done|]. by rewrite Eg.
  - by rewrite Eb.
Qed.

(** ** What the threads without the lock do *)

(** What may change while the thread that holds the lock is held up: the firewall, by
    the connecting watchdog alone; the readiness objects, which a stop that arrives
    cancels; the process's flags, and the names given out; and the log. *)
Record async (P : Effect -> Prop) (c c' : Ctl) : Prop := {
  as_steady : steady P c c';
  as_frame : core c' = core c;
  as_policy : wfp_in_force c' = wfp_in_force c \/ (watchdog_ c = true /\ wfp_in_force c' = WArmed);
  as_watch : watchdog_ c' = true -> watchdog_ c = true /\ wfp_in_force c' = wfp_in_force c;
  as_mirror : mirror_ok c -> mirror_ok c';
}.

Lemma async_refl P c : async P c c.
Proof. split; try done; [apply steady_refl|by left]. Qed.

Lemma async_trans P a b c : async P a b -> async P b c -> async P a c.
Proof.
  intros AB BC. split.
  - eapply steady_trans; by apply as_steady.
  - rewrite (as_frame _ _ _ BC). apply (as_frame _ _ _ AB).
  - destruct (as_policy _ _ _ BC) as [->|[Wb E]]; [apply (as_policy _ _ _ AB)|].
    right. split; [by apply (as_watch _ _ _ AB)|done].
  - intros W. destruct (as_watch _ _ _ BC W) as [W' E]. destruct (as_watch _ _ _ AB W') as [W'' E']. split; congruence.
  - intros. by apply (as_mirror _ _ _ BC), (as_mirror _ _ _ AB).
Qed.

Lemma async_mono (P P' : Effect -> Prop) c c' : (forall e, P e -> P' e) -> async P c c' -> async P' c c'.
Proof. intros HP A. split; try apply A. eapply steady_mono; [exact HP|apply A]. Qed.

(** The effects of a background thread, and of the calls that ask the outside. *)
Definition background (e : Effect) : Prop :=
  match e with Asked _ _ | FirewallAsked WArmed _ => True | _ => False end.

Lemma async_log (P : Effect -> Prop) c e : P e -> async P c c <| log := log c ++ [e] |>.
Proof.
  intros Pe. split; try done; [|by left]. split; try done. by eapply grows_one.
Qed.

Lemma async_name P c n : async P c c <| next_name := n |>.
Proof. split; try done; [by apply steady_quiet|by left]. Qed.
Lemma steady_budget P c b :
  (SelfRestartPending (budget c) = true -> SelfRestartPending b = true) -> steady P c c <| budget := b |>.
Proof. intros Hb. split; try done. by apply grows_same. Qed.
Lemma async_budget P c b :
  (SelfRestartPending (budget c) = true -> SelfRestartPending b = true) -> async P c c <| budget := b |>.
Proof. intros Hb. split; try done; [by apply steady_budget|by left]. Qed.

Lemma Cancelled_alter c id id' f :
  (forall r, cancelled_ r = true -> cancelled_ (f r) = true) ->
  Cancelled c id = true -> Cancelled (on_readiness id' f c) id = true.
Proof.
  intros Hf. unfold Cancelled, on_readiness. members.
  destruct (decide (id = id')) as [->|]; [|by rewrite lookup_alter_ne].
  rewrite lookup_alter_eq. destruct (readinesses c !! id') as [r|]; [apply Hf|done].
Qed.

Lemma alter_is_Some (f : CaptureReadiness -> CaptureReadiness) (rs : gmap nat CaptureReadiness) id id' :
  is_Some (rs !! id) -> is_Some (alter f id' rs !! id).
Proof.
  intros [r Hr]. destruct (decide (id = id')) as [->|]; [rewrite lookup_alter_eq, Hr|rewrite lookup_alter_ne, Hr]; by eauto.
Qed.

(** A readiness object moved by an operation that does not bring it back to life. *)
Lemma async_alter P c id f :
  (forall r, cancelled_ r = true -> cancelled_ (f r) = true) -> async P c (on_readiness id f c).
Proof.
  intros Hf. split; try done; [|by left]. split; try done.
  - by apply grows_same.
  - intros id'. by apply Cancelled_alter.
  - intros id' Hid Hr. split; [by apply alter_is_Some|done].
Qed.

Lemma Cancelled_cancel c id : is_Some (readinesses c !! id) -> Cancelled (on_readiness id Cancel c) id = true.
Proof. intros [r Hr]. unfold Cancelled, on_readiness. members. by rewrite lookup_alter_eq, Hr. Qed.

Definition cancel_capture (c : Ctl) : Ctl :=
  match captureReadiness_ c with Some id => on_readiness id Cancel c | None => c end.

Lemma async_cancel_capture P c : async P c (cancel_capture c).
Proof.
  unfold cancel_capture. destruct (captureReadiness_ c); [by apply async_alter|apply async_refl].
Qed.

Lemma cancel_capture_Cancelled c id :
  captureReadiness_ c = Some id -> is_Some (readinesses c !! id) -> Cancelled (cancel_capture c) id = true.
Proof. intros E Hr. unfold cancel_capture. rewrite E. by apply Cancelled_cancel. Qed.

Lemma wp_cancel (Q : unit -> Ctl -> Prop) E c : Q tt (cancel_capture c) -> wp CancelCapture Q E c.
Proof. done. Qed.

(** A stop's first lines: it is counted, and the capture cancelled. *)
Definition bumped (c : Ctl) : Ctl := cancel_capture c <| stopGeneration_ := stopGeneration_ c + 1 |>.

Lemma async_bumped P c : async P c (bumped c).
Proof.
  unfold bumped. set (c1 := c <| stopGeneration_ := _ |>).
  pose proof (async_cancel_capture P c1) as A.
  split; try apply A. destruct (as_steady _ _ _ A) as [L F R C G S B]. split; try assumption.
  - assert (stopGeneration_ c1 = stopGeneration_ c + 1) by done. lia.
  - intros id Hid Hr. destruct (S id Hid Hr) as [Hr' _]. split; [exact Hr'|]. intros _.
    exact (cancel_capture_Cancelled c1 id Hid Hr).
Qed.

Lemma bumped_cancels c id : captureReadiness_ c = Some id -> is_Some (readinesses c !! id) -> Cancelled (bumped c) id = true.
Proof. intros Hid Hr. unfold bumped. set (c1 := c <| stopGeneration_ := _ |>). by apply (cancel_capture_Cancelled c1). Qed.

Lemma async_reason P c reason : async P c c <| lastStopReason_ := reason |>.
Proof. split; try done; [by apply steady_quiet|by left]. Qed.

Lemma wp_bumped {R} (k : M R) (Q : R -> Ctl -> Prop) E c :
  wp k Q E (bumped c) -> wp (modify (fun c => c <| stopGeneration_ := stopGeneration_ c + 1 |>);; CancelCapture;; k) Q E c.
Proof. intros Hk. by apply wp_bind, wp_modify, wp_bind, wp_cancel. Qed.

(** ** The firewall's calls *)

Lemma wfp_apply_spec s cfg c :
  policy_wf (wfp_ c) ->
  wp (wfp_apply s cfg) (fun ok c' => exists p t, c' = c <| wfp_ := p |> <| bfe_calls := t |>
      <| log := log c ++ [FirewallAsked s ok] |> /\ policy_wf p /\
      WfpPolicy.state_ p = (if ok then s else wfp_in_force c) /\ (s = WOff -> ok = true)) never c.
Proof.
  intros W. unfold wp, wfp_apply. pose proof (ApplyLocked_spec s cfg (wfp_ c) (bfe_calls c) W) as S.
  destruct (ApplyLocked s cfg (wfp_ c) (bfe_calls c)) as [[ok p] t]. destruct S as (W' & e & -> & S).
  exists p, (bfe_calls c ++ e). split_and!; [done|done| |]; destruct ok; try done; naive_solver.
Qed.

Lemma wfp_revert_spec c :
  policy_wf (wfp_ c) ->
  wp wfp_revert (fun _ c' => exists p t, c' = c <| wfp_ := p |> <| bfe_calls := t |>
      <| log := log c ++ [FirewallAsked WOff true] |> /\ policy_wf p /\ WfpPolicy.state_ p = WOff) never c.
Proof.
  intros W. unfold wp, wfp_revert, RevertLocked, CloseEngine. destruct (engine_ (wfp_ c)) eqn:E; cbn [negb].
  - eexists _, _. split; [reflexivity|]. done.
  - eexists _, _. split; [reflexivity|]. split; [|done]. intros _. cbn. by destruct (W E).
Qed.

(** A new policy with the watchdog away. *)
Lemma steady_policy (P : Effect -> Prop) c p t e :
  policy_wf p -> P e ->
  steady P c c <| watchdog_ := false |> <| wfp_ := p |> <| bfe_calls := t |> <| log := log c ++ [e] |>.
Proof. intros W Pe. split; try done. by eapply grows_one. Qed.

(** The mirror patched without the lock. *)
Definition republished (routesReverted : bool) (c : Ctl) : Ctl := fst (RepublishMachineFactsLockFree routesReverted c).

Lemma wp_republish b (Q : unit -> Ctl -> Prop) E c : Q tt (republished b c) -> wp (RepublishMachineFactsLockFree b) Q E c.
Proof. done. Qed.

Lemma steady_republished P b c : steady P c (republished b c).
Proof. by apply steady_quiet. Qed.
Lemma core_republished b c : core (republished b c) = core c.
Proof. done. Qed.

(** A status with another firewall state. *)
Definition with_policy (w : WfpState) (s : TunnelStatus) : TunnelStatus :=
  mkTunnelStatus (ts_state s) (ts_mode s) (ts_routes_installed s) (ts_dns_applied s) (wfp_name w)
    (ts_rpc_listen_hostport s) (ts_instance_id s) (ts_rpc_session_id s) (ts_error s) (ts_tunnel_local_up_millis s)
    (ts_egress_index4 s) (ts_egress_index6 s) (ts_provider_running s) (ts_provider_control_mode s) (ts_provider_mode s)
    (ts_provider_network_key s) (ts_stop_reason s).

Lemma compose_core c c' :
  core c' = core c ->
  facts (ComposeStatusLocked c') = with_policy (wfp_in_force c') (facts (ComposeStatusLocked c)).
Proof.
  intros E. unfold with_policy, facts, ComposeStatusLocked.
  cbn [ts_state ts_mode ts_routes_installed ts_dns_applied ts_wfp_state ts_rpc_listen_hostport ts_instance_id
       ts_rpc_session_id ts_error ts_tunnel_local_up_millis ts_egress_index4 ts_egress_index6 ts_provider_running
       ts_provider_control_mode ts_provider_mode ts_provider_network_key ts_stop_reason].
  by chase.
Qed.

(** The mirror tells the truth when only the policy is new. *)
Lemma mirror_republished c c' :
  core c' = core c -> statusMirror_ c' = statusMirror_ c -> upSinceMirror_ c' = upSinceMirror_ c ->
  mirror_ok c -> mirror_ok (republished false c').
Proof.
  intros E Es Eu [Hm Hu]. split.
  - change (facts (statusMirror_ (republished false c'))) with (with_policy (wfp_in_force c') (facts (statusMirror_ c'))).
    change (facts (ComposeStatusLocked (republished false c'))) with (facts (ComposeStatusLocked c')).
    by rewrite Es, Hm, (compose_core c c' E).
  - change (upSinceMirror_ c' = upSinceMillis_ c'). rewrite Eu. by chase.
Qed.

(** ** Points where the thread with the lock is held up *)

(** What the waits do to the process's flags leaves a restart that is due. *)
Lemma Sweep_pending b : SelfRestartPending (fst (SweepAbandonedTeardowns b)) = SelfRestartPending b.
Proof. done. Qed.
Lemma RequestSelfRestart_pending b why :
  SelfRestartPending b = true -> SelfRestartPending (fst (RequestSelfRestart b why)) = true.
Proof. unfold RequestSelfRestart. destruct (g_selfRestart b) as [h|]; [|done]. by destruct (h why). Qed.
Lemma EndBounded_pending b g hazard d : SelfRestartPending (EndBounded b g hazard d) = SelfRestartPending b.
Proof. unfold EndBounded. destruct d; [done|]. by case_bool_decide. Qed.

Section Quiet.
Context (P : Effect -> Prop) (HP : forall e, background e -> P e).

Lemma async_watchdog c :
  watchdog_ c = true -> fire_ok c -> wp ConnectingWatchdogFires (fun _ c' => async P c c') never c.
Proof.
  intros Hw [W Hc]. unfold ConnectingWatchdogFires. apply wp_bind, wp_modify, wp_bind.
  run (wfp_apply_spec WArmed BaseWfpConfig c <| watchdog_ := false |>) as ok c' (p & t & E & Wp & Sp & _); [exact W|].
  apply wp_republish.
  assert (steady P c c') as S by (rewrite E; by apply (steady_policy P c p t (FirewallAsked WArmed ok)), HP).
  assert (core c' = core c) as F by (rewrite E; reflexivity).
  assert (wfp_in_force c' = WfpPolicy.state_ p) as Ew by (rewrite E; reflexivity).
  assert (watchdog_ c' = false) as Ed by (rewrite E; reflexivity).
  assert (statusMirror_ c' = statusMirror_ c) as Es by (rewrite E; reflexivity).
  assert (upSinceMirror_ c' = upSinceMirror_ c) as Eu by (rewrite E; reflexivity).
  clear E. split.
  - eapply steady_trans; [exact S|apply steady_republished].
  - exact F.
  - change (wfp_in_force c' = wfp_in_force c \/ watchdog_ c = true /\ wfp_in_force c' = WArmed).
    rewrite Ew, Sp. destruct ok; [by right|by left].
  - change (watchdog_ c' = true -> watchdog_ c = true /\ wfp_in_force c' = wfp_in_force c). by rewrite Ed.
  - by apply mirror_republished.
Qed.

Lemma wp_ask q (Q : bool -> Ctl -> Prop) E c :
  Q (answers (log c) q) c <| log := log c ++ [Asked q (answers (log c) q)] |> -> wp (ask q) Q E c.
Proof. done. Qed.

Lemma async_ask q b c : async P c c <| log := log c ++ [Asked q b] |>.
Proof. by apply async_log, HP. Qed.

Lemma stop_prelude_spec c : wp stop_prelude (fun _ c' => async P c c') never c.
Proof.
  unfold stop_prelude. apply wp_bumped, wp_modify. eapply async_trans; [apply async_bumped|apply async_reason].
Qed.

Lemma yield_spec c : fire_ok c -> wp yield (fun _ c' => async P c c') never c.
Proof.
  intros W. unfold yield. apply wp_bind, wp_ask, wp_bind.
  set (c1 := c <| log := _ |>). assert (async P c c1) as A1 by apply async_ask.
  apply (wp_mono _ (fun _ c2 => async P c1 c2) _ never); [| |done].
  { destruct (answers (log c) StopArrives); [apply stop_prelude_spec|apply async_refl]. }
  intros _ c2 A2. pose proof (async_trans _ _ _ _ A1 A2) as A12. clearbody c1.
  apply wp_bind, wp_gets. destruct (watchdog_ c2) eqn:Ew; [|done].
  apply wp_bind, wp_ask. set (c3 := c2 <| log := _ |>).
  assert (async P c c3) as A3 by (eapply async_trans; [exact A12|apply async_ask]).
  destruct (answers (log c2) WindowExpires); [|done].
  run (async_watchdog c3 Ew (sd_fire _ _ _ (as_steady _ _ _ A3) W)) as c4 A4. exact (async_trans _ _ _ _ A3 A4).
Qed.

Lemma blocking_spec q c : fire_ok c -> wp (blocking q) (fun _ c' => async P c c') never c.
Proof.
  intros W. unfold blocking. apply wp_bind. run (yield_spec c W) as c1 A1.
  apply wp_ask. eapply async_trans; [exact A1|apply async_ask].
Qed.

Lemma must_spec q c : fire_ok c -> wp (must q) (fun _ c' => async P c c') (fun _ c' => async P c c') c.
Proof.
  intros W. unfold must. apply wp_bind.
  eapply wp_mono; [by apply blocking_spec| |done]. cbv beta. intros ok c1 A1.
  by destruct ok.
Qed.

(** The operations of the other threads on a readiness object end no cancellation. *)
Lemma run_ops_keep_cancelled l r : cancelled_ r = true -> cancelled_ (run_ops r l) = true.
Proof. intros E. by apply run_ops_cancelled. Qed.

Lemma interfere_spec id c : fire_ok c -> wp (interfere id) (fun _ c' => async P c c') never c.
Proof.
  intros W. unfold interfere. apply wp_bind. run (yield_spec c W) as c1 A1.
  apply wp_modify. eapply async_trans; [exact A1|]. apply async_alter. intros r. apply run_ops_keep_cancelled.
Qed.

Lemma Sweep_spec c : wp Sweep (fun _ c' => async P c c') never c.
Proof. exact (async_budget P c (fst (SweepAbandonedTeardowns (budget c))) (fun Hp => Hp)). Qed.
End Quiet.

(** ** The firewall under the lock *)

Lemma steady_published P c : steady P c (published c).
Proof. by apply steady_quiet. Qed.
Lemma core_published c : core (published c) = core c.
Proof. done. Qed.

(** A wish for [s] that was not met: Windows refused it, or the service does not know the
    image it would permit and does not ask. *)
Definition refused (s : WfpState) (c c' : Ctl) : Prop :=
  ServiceImagePath = [] \/ exists l, log c' = log c ++ l /\ FirewallAsked s false ∈ l.

Lemma refused_log s c c1 c2 c' l l' :
  refused s c1 c2 -> log c1 = log c ++ l -> log c' = log c2 ++ l' -> refused s c c'.
Proof.
  intros [?|(k & E & Hk)] E1 E2; [by left|right]. exists (l ++ k ++ l'). split; [by rewrite E2, E, E1, !app_assoc|].
  rewrite !elem_of_app. auto.
Qed.

(** The policy a call left in force, after a wish for [s] that was met or not. *)
Record applied (P : Effect -> Prop) (s : WfpState) (ok : bool) (c c' : Ctl) : Prop := {
  ap_steady : steady P c c';
  ap_frame : core c' = core c;
  ap_policy : wfp_in_force c' = if ok then s else wfp_in_force c;
  ap_watch : watchdog_ c' = true -> ok = true /\ s = WConnecting;
  ap_off : s = WOff -> ok = true;
  ap_mirror : mirror_ok c -> mirror_ok c';
  ap_refused : ok = false -> refused s c c';
}.

(** A policy that is in, without the watchdog yet. *)
Lemma applied_in (P : Effect -> Prop) s ok c c' p t :
  (forall ok, P (FirewallAsked s ok)) ->
  c' = c <| watchdog_ := false |> <| wfp_ := p |> <| bfe_calls := t |> <| log := log c ++ [FirewallAsked s ok] |> ->
  policy_wf p -> WfpPolicy.state_ p = (if ok then s else wfp_in_force c) -> (s = WOff -> ok = true) ->
  applied P s ok c (published c') /\ watchdog_ (published c') = false.
Proof.
  intros HP E Wp Sp Hoff.
  assert (steady P c c') as S by (rewrite E; by apply steady_policy).
  assert (core c' = core c) as F by (rewrite E; reflexivity).
  assert (wfp_in_force c' = WfpPolicy.state_ p) as Ew by (rewrite E; reflexivity).
  assert (watchdog_ c' = false) as Ed by (rewrite E; reflexivity).
  assert (log c' = log c ++ [FirewallAsked s ok]) as El by (rewrite E; reflexivity).
  clear E. split; [|exact Ed]. split.
  - eapply steady_trans; [exact S|apply steady_published].
  - exact F.
  - change (wfp_in_force c' = if ok then s else wfp_in_force c). by rewrite Ew.
  - change (watchdog_ c' = true -> ok = true /\ s = WConnecting). by rewrite Ed.
  - done.
  - intros _. apply mirror_published.
  - intros ->. right. exists [FirewallAsked s false]. split; [exact El|by left].
Qed.

Lemma applied_arm (P : Effect -> Prop) c c' :
  applied P WConnecting true c c' -> applied P WConnecting true c c' <| watchdog_ := false |> <| watchdog_ := true |>.
Proof.
  intros [S F Po W O Mi Rf]. split; try done. eapply steady_trans; [exact S|].
  split; try done; [by apply grows_same|]. by intros [W' _].
Qed.

Lemma ApplyWfpLocked_spec (P : Effect -> Prop) s c :
  (forall ok, P (FirewallAsked s ok)) -> fire_ok c ->
  wp (ApplyWfpLocked s) (fun ok c' => applied P s ok c c') never c.
Proof.
  intros HP [W Hc]. unfold ApplyWfpLocked, CancelConnectingWatchdogLocked. apply wp_bind, wp_modify.
  case_bool_decide as Es.
  - subst s. apply wp_bind.
    run (wfp_revert_spec c <| watchdog_ := false |>) as c' (p & t & E & Wp & Sp); [exact W|].
    apply wp_bind, wp_publish, wp_ret. exact (proj1 (applied_in P WOff true c c' p t HP E Wp Sp (fun _ => eq_refl))).
  - apply wp_bind, wp_gets. case_bool_decide as Ei.
    { apply wp_ret. split; try done; [|by left]. split; try done. by apply grows_same. }
    apply wp_bind.
    match goal with |- wp (wfp_apply ?s ?cfg) _ _ _ => run (wfp_apply_spec s cfg c <| watchdog_ := false |>) as ok c' (p & t & E & Wp & Sp & Ho); [exact W|] end.
    apply wp_bind, wp_publish, wp_bind.
    destruct (applied_in P s ok c c' p t HP E Wp Sp Ho) as [A Ed].
    destruct (ok && bool_decide (s = WConnecting)) eqn:Ea; [|by apply wp_skip, wp_ret].
    apply andb_true_iff in Ea as [-> ->%bool_decide_eq_true].
    unfold ArmConnectingWatchdogLocked, CancelConnectingWatchdogLocked.
    apply wp_bind, wp_modify, wp_modify, wp_ret. by apply applied_arm.
Qed.

(** ** Giving the machine back *)

Lemma has_routes_false c : has_routes c = false -> netConfig_ c = None.
Proof. unfold has_routes. intros E%bool_decide_eq_false. destruct (netConfig_ c); [|done]. by destruct E. Qed.

(** The firewall after a teardown: off for a final disarm, kept or narrowed to the armed
    policy by the kill switch, off otherwise. *)
Definition firewall_after (finalDisarm kill hadRoutes : bool) (w w' : WfpState) : Prop :=
  if finalDisarm || negb (kill && (negb (bool_decide (w = WOff)) || hadRoutes)) then w' = WOff
  else w' = WArmed \/ w' = w.

(** The effects that give the machine back, and those that wind a session down. *)
Definition giving_back (e : Effect) : Prop :=
  match e with
  | NetworkReverted | ResolverCacheFlushed | MarkerSet false | FirewallAsked WArmed _ | FirewallAsked WOff _ => True
  | _ => False
  end.

(** The machine's part of the members, given back. *)
Definition unrouted (c : Ctl) : Ctl :=
  c <| netConfig_ := None |> <| appliedResolvers_ := [] |> <| appliedResolversV6_ := [] |> <| marker := false |>.

(** The kill switch leaves a machine that was blocked, or routed, with the armed policy:
    anything else was refused. *)
Definition armed_or_refused (finalDisarm hadRoutes : bool) (c c' : Ctl) : Prop :=
  finalDisarm = false -> killSwitch_ c = true -> wfp_in_force c <> WOff \/ hadRoutes = true ->
  wfp_in_force c' = WArmed \/ refused WArmed c c'.

Record reverted (finalDisarm hadRoutes : bool) (c c' : Ctl) : Prop := {
  rv_steady : steady giving_back c c';
  rv_frame : core c' = core (unrouted c);
  rv_policy : firewall_after finalDisarm (killSwitch_ c) hadRoutes (wfp_in_force c) (wfp_in_force c');
  rv_watch : watchdog_ c' = false;
  rv_mirror : mirror_ok c';
  rv_routes : forall l, log c' = log c ++ l -> has_routes c = true -> NetworkReverted ∈ l;
  rv_marker : forall l, log c' = log c ++ l -> MarkerSet false ∈ l;
  rv_refused : armed_or_refused finalDisarm hadRoutes c c';
}.

(** Up to the marker. *)
Record unmarked (c c' : Ctl) : Prop := {
  um_steady : steady giving_back c c';
  um_frame : core c' = core (unrouted c);
  um_wfp : wfp_ c' = wfp_ c;
  um_watch : watchdog_ c' = watchdog_ c;
  um_mirror : mirror_ok c';
  um_log : exists l, log c' = log c ++ l /\ (has_routes c = true -> NetworkReverted ∈ l) /\ MarkerSet false ∈ l;
}.

Lemma unmarked_reverted finalDisarm hadRoutes s ok c c1 c' :
  unmarked c c1 -> applied giving_back s ok c1 c' -> s <> WConnecting ->
  firewall_after finalDisarm (killSwitch_ c) hadRoutes (wfp_in_force c) (if ok then s else wfp_in_force c) ->
  s = WArmed \/ finalDisarm = true \/ killSwitch_ c = false -> reverted finalDisarm hadRoutes c c'.
Proof.
  intros [S F W D Mi (l & El & Er & Em)] [S' F' Po Wa O Mi' Rf] Hs HF Hk.
  assert (forall l', log c' = log c ++ l' -> exists k, l' = l ++ k) as Hl.
  { intros l' E. destruct (sd_log _ _ _ S') as (k & Ek & _). exists k. rewrite Ek, El, <- app_assoc in E.
    by apply app_inv_head in E. }
  split.
  - by eapply steady_trans.
  - by rewrite F', F.
  - rewrite Po. unfold wfp_in_force in *. by rewrite W.
  - destruct (watchdog_ c') eqn:E; [|done]. by destruct (Wa eq_refl) as [_ ?].
  - by apply Mi'.
  - intros l' (k & ->)%Hl Hr. apply elem_of_app. left. by apply Er.
  - intros l' (k & ->)%Hl. apply elem_of_app. by left.
  - intros Hd Hki _. destruct Hk as [->|[?|?]]; [|congruence..]. destruct ok; [by left|right].
    eapply refused_log; [by apply Rf|exact El|by rewrite app_nil_r].
Qed.

Lemma unmarked_done finalDisarm hadRoutes c c' :
  fire_ok c -> unmarked c c' -> wfp_in_force c = WOff ->
  (finalDisarm = true \/ killSwitch_ c = false \/ hadRoutes = false) -> reverted finalDisarm hadRoutes c c'.
Proof.
  intros [_ Hc] [S F W D Mi (l & El & Er & Em)] Hw Hk. split; try done.
  - unfold firewall_after. unfold wfp_in_force in *. rewrite W, Hw.
    destruct finalDisarm, (killSwitch_ c), hadRoutes; cbn; naive_solver.
  - rewrite D. destruct (watchdog_ c); [|done]. rewrite (Hc eq_refl) in Hw. done.
  - intros l' E. rewrite El in E. apply app_inv_head in E as <-. done.
  - intros l' E. rewrite El in E. apply app_inv_head in E as <-. done.
  - intros -> Hki [?|Hr]; [done|]. destruct Hk as [?|[?|?]]; congruence.
Qed.

(** A quiet update whose effect on the log is known. *)
Lemma steady_logged (P : Effect -> Prop) c c' l :
  log c' = log c ++ l -> Forall P l -> wfp_ c' = wfp_ c -> watchdog_ c' = watchdog_ c ->
  captureReadiness_ c' = captureReadiness_ c -> readinesses c' = readinesses c ->
  stopGeneration_ c' = stopGeneration_ c -> budget c' = budget c -> steady P c c'.
Proof.
  intros El Fl Ew Ed Er Em Eg Eb.
  eapply (steady_trans _ _ c <| log := log c ++ l |>).
  - split; try done. by exists l.
  - by apply steady_quiet.
Qed.

Lemma unmarked_spec (hadRoutes : bool) (k : M unit) (Q : unit -> Ctl -> Prop) E c :
  (forall c', unmarked c c' -> wp k Q E c') ->
  wp (owned ← gets has_routes;
      (if owned : bool then emit NetworkReverted;; modify (fun c => c <| netConfig_ := None |>) else skip);;
      modify (fun c => c <| appliedResolvers_ := [] |> <| appliedResolversV6_ := [] |>);;
      PublishStatusLocked;;
      (if hadRoutes then emit ResolverCacheFlushed else skip);;
      SetActiveMarker false;; k) Q E c.
Proof.
  intros Hk. apply wp_bind, wp_gets, wp_bind.
  set (reverts := if has_routes c then [NetworkReverted] else []).
  eapply (wp_mono _ (fun _ c1 => steady giving_back c c1 /\ log c1 = log c ++ reverts /\
    core c1 = core c <| netConfig_ := None |> /\ wfp_ c1 = wfp_ c /\ watchdog_ c1 = watchdog_ c) _ never); [| |done].
  { subst reverts. destruct (has_routes c) eqn:Er.
    - apply wp_bind, wp_emit, wp_modify. split; [|done]. eapply (steady_logged _ _ _ [_]); try reflexivity.
      by apply List.Forall_cons, List.Forall_nil.
    - apply wp_skip. split_and!; [apply steady_refl|by rewrite app_nil_r| |done|done].
      unfold core. members. by rewrite (has_routes_false c Er). }
  cbv beta. intros _ c1 (S & El & F & Ew & Ed). apply wp_bind, wp_modify, wp_bind, wp_publish, wp_bind.
  set (flushes := if hadRoutes then [ResolverCacheFlushed] else []).
  set (c2 := c1 <| appliedResolvers_ := [] |> <| appliedResolversV6_ := [] |>).
  eapply (wp_mono _ (fun _ c3 => steady giving_back c c3 /\ log c3 = log c ++ reverts ++ flushes /\
    core c3 = core c2 /\ wfp_ c3 = wfp_ c /\ watchdog_ c3 = watchdog_ c /\ mirror_ok c3) _ never); [| |done].
  { assert (steady giving_back c (published c2)) as S2.
    { eapply steady_trans; [exact S|]. eapply steady_trans; [|apply steady_published]. by apply steady_quiet. }
    subst flushes. destruct hadRoutes.
    - apply wp_emit. split_and!; [|by rewrite app_assoc, <- El|done|done|done|exact (mirror_published c2)].
      eapply steady_trans; [exact S2|]. eapply (steady_logged _ _ _ [_]); try reflexivity.
      by apply List.Forall_cons, List.Forall_nil.
    - apply wp_skip. split_and!; [exact S2|by rewrite app_nil_r|done|done|done|exact (mirror_published c2)]. }
  cbv beta. intros _ c3 (S3 & El3 & F3 & Ew3 & Ed3 & M3). apply wp_bind. unfold SetActiveMarker.
  apply wp_bind, wp_modify, wp_emit, Hk. split; [| |done|done|exact M3|].
  - eapply steady_trans; [exact S3|]. eapply (steady_logged _ _ _ [_]); try reflexivity.
    by apply List.Forall_cons, List.Forall_nil.
  - unfold core, unrouted. chase. subst c2. chase. done.
  - exists (reverts ++ flushes ++ [MarkerSet false]). split_and!.
    + members. by rewrite El3, <- !app_assoc.
    + intros Er. subst reverts. rewrite Er. by left.
    + rewrite !elem_of_app. right. right. by left.
Qed.

Lemma RevertMachineStateLocked_spec finalDisarm hadRoutes c :
  fire_ok c -> wp (RevertMachineStateLocked finalDisarm hadRoutes) (fun _ c' => reverted finalDisarm hadRoutes c c') never c.
Proof.
  intros W. unfold RevertMachineStateLocked. apply unmarked_spec. intros c1 U.
  pose proof (sd_fire _ _ _ (um_steady _ _ U) W) as W1.
  assert (wfp_in_force c1 = wfp_in_force c) as Ew by (unfold wfp_in_force; by rewrite (um_wfp _ _ U)).
  assert (killSwitch_ c1 = killSwitch_ c) as Ek by (pose proof (um_frame _ _ U); by chase).
  reads. rewrite Ew, Ek.
  assert (forall s, s = WArmed \/ s = WOff -> forall Q : unit -> Ctl -> Prop,
    (forall ok c', applied giving_back s ok c1 c' -> (s = WOff -> ok = true) -> Q tt c') ->
    wp (_ ← ApplyWfpLocked s; skip) Q never c1) as HA.
  { intros s Hs Q HQ. apply wp_bind. run (ApplyWfpLocked_spec giving_back s c1) as ok c2 A; [|done|].
    - intros ok. by destruct Hs as [-> | ->].
    - apply wp_skip. by apply (HQ ok), (ap_off _ _ _ _ _ A). }
  destruct finalDisarm.
  { apply HA; [by right|]. intros ok c2 A Ho. apply (unmarked_reverted true hadRoutes _ _ _ _ _ U A); [done|by rewrite (Ho eq_refl)|auto]. }
  destruct (killSwitch_ c && negb (bool_decide (wfp_in_force c = WOff))) eqn:Eb.
  { apply HA; [by left|]. intros ok c2 A _. apply (unmarked_reverted false hadRoutes _ _ _ _ _ U A); [done| |by left].
    unfold firewall_after. apply andb_true_iff in Eb as [-> ->]. destruct ok; [by left|by right]. }
  destruct (killSwitch_ c && hadRoutes) eqn:Eh.
  { apply HA; [by left|]. intros ok c2 A _. apply (unmarked_reverted false hadRoutes _ _ _ _ _ U A); [done| |by left].
    unfold firewall_after. apply andb_true_iff in Eh as [-> ->]. rewrite orb_true_r. destruct ok; [by left|by right]. }
  destruct (negb (bool_decide (wfp_in_force c = WOff))) eqn:En.
  - rewrite andb_true_r in Eb. apply HA; [by right|]. intros ok c2 A Ho.
    apply (unmarked_reverted false hadRoutes _ _ _ _ _ U A); [done| |by right; right].
    unfold firewall_after. by rewrite Eb, (Ho eq_refl).
  - apply wp_skip. apply negb_false_iff, bool_decide_eq_true in En. apply unmarked_done; try done.
    right. by apply andb_false_iff.
Qed.

End Facts.

(** * Drift: what [async] says of all but the members *)

Section Drift.
Context `{Winsock} `{Bfe} `{Platform} `{Json}.

Record drift (P : Effect -> Prop) (c c' : Ctl) : Prop := {
  dr_steady : steady P c c';
  dr_policy : wfp_in_force c' = wfp_in_force c \/ (watchdog_ c = true /\ wfp_in_force c' = WArmed);
  dr_watch : watchdog_ c' = true -> watchdog_ c = true /\ wfp_in_force c' = wfp_in_force c;
}.

Lemma async_drift P c c' : async P c c' -> drift P c c'.
Proof. intros []. by split. Qed.

Lemma drift_refl P c : drift P c c.
Proof. apply async_drift, async_refl. Qed.

Lemma drift_trans P a b c : drift P a b -> drift P b c -> drift P a c.
Proof.
  intros AB BC. split.
  - eapply steady_trans; by apply dr_steady.
  - destruct (dr_policy _ _ _ BC) as [->|[Wb E]]; [apply (dr_policy _ _ _ AB)|].
    right. split; [by apply (dr_watch _ _ _ AB)|done].
  - intros W. destruct (dr_watch _ _ _ BC W) as [W' E]. destruct (dr_watch _ _ _ AB W') as [W'' E']. split; congruence.
Qed.

Lemma drift_quiet P c c' :
  log c' = log c -> wfp_ c' = wfp_ c -> watchdog_ c' = watchdog_ c -> captureReadiness_ c' = captureReadiness_ c ->
  readinesses c' = readinesses c -> stopGeneration_ c' = stopGeneration_ c -> budget c' = budget c -> drift P c c'.
Proof.
  intros El Ew Ed Er Em Eg Eb. split; [by apply steady_quiet|left|]; unfold wfp_in_force; rewrite Ew; [done|].
  rewrite Ed. done.
Qed.

Lemma drift_budget P c b :
  (SelfRestartPending (budget c) = true -> SelfRestartPending b = true) -> drift P c c <| budget := b |>.
Proof. intros Hb. by apply async_drift, async_budget. Qed.

Lemma drift_published P c : drift P c (published c).
Proof. by apply drift_quiet. Qed.

Lemma drift_log (P : Effect -> Prop) c e : P e -> drift P c c <| log := log c ++ [e] |>.
Proof. intros Pe. by apply async_drift, async_log. Qed.

Lemma drift_fire P c c' : drift P c c' -> fire_ok c -> fire_ok c'.
Proof. intros D. apply (sd_fire _ _ _ (dr_steady _ _ _ D)). Qed.

(** With the watchdog away nothing moves the firewall. *)
Lemma drift_still P c c' :
  drift P c c' -> watchdog_ c = false -> watchdog_ c' = false /\ wfp_in_force c' = wfp_in_force c.
Proof.
  intros [_ Po Wa] E. split.
  - destruct (watchdog_ c'); [|done]. by destruct (Wa eq_refl) as [? _]; congruence.
  - destruct Po as [?|[? _]]; [done|congruence].
Qed.

End Drift.

(** Reads members through a publication. *)
Ltac through :=
  match goal with
  | |- context [?p (published ?c)] =>
      let t := constr:(p (published c)) in
      let E := constr:(fun x : Ctl => eq_refl (p x) : p (published x) = p x) in
      pattern t; match goal with |- ?F t => refine (@eq_ind_r _ (p c) F _ t (E c)); cbv beta end
  end.

(** A quiet update: the members [steady_quiet] names are read off. *)
Ltac quiet :=
  first [apply drift_published|first [apply drift_quiet|apply steady_quiet]; repeat progress (members; try through); reflexivity].

(** One update at a time: what follows sees only the members it left. *)
Lemma wp_step `{Platform} {R} P (f : Ctl -> Ctl) (F : Core -> Core) (k : M R) (Q : R -> Ctl -> Prop) E c :
  drift P c (f c) -> core (f c) = F (core c) ->
  (forall c', drift P c c' -> core c' = F (core c) -> wp k Q E c') -> wp (modify f;; k) Q E c.
Proof. intros D F' Hk. apply wp_bind, wp_modify. by apply Hk. Qed.

Lemma wp_published `{Platform} {R} P (k : M R) (Q : R -> Ctl -> Prop) E c :
  (forall c', drift P c c' -> core c' = core c -> mirror_ok c' -> wp k Q E c') -> wp (PublishStatusLocked;; k) Q E c.
Proof. intros Hk. apply wp_bind, wp_publish, Hk; [apply drift_published|done|apply mirror_published]. Qed.

Lemma wp_status `{Platform} P (Q : TunnelStatus -> Ctl -> Prop) E c :
  (forall s c', drift P c c' -> core c' = core c -> mirror_ok c' -> Q s c') -> wp StatusLocked Q E c.
Proof. intros HQ. exact (HQ _ _ (drift_published P c) (core_published c) (mirror_published c)). Qed.


(** A new state, published. *)
Definition set_state (s : TunnelState) (x : Core) : Core :=
  match x with (_, a2, a3, a4, a5, a6, a7, a8, a9, a10, a11) => (s, a2, a3, a4, a5, a6, a7, a8, a9, a10, a11) end.

Lemma core_set_state s c : core c <| state_ := s |> = set_state s (core c).
Proof. reflexivity. Qed.

Lemma wp_state `{Platform} {R} P s (k : M R) (Q : R -> Ctl -> Prop) E c :
  (forall c', drift P c c' -> core c' = set_state s (core c) -> mirror_ok c' -> wp k Q E c') -> wp (SetStateLocked s;; k) Q E c.
Proof.
  intros Hk. apply wp_bind, wp_set_state, Hk; [quiet|done|apply mirror_published].
Qed.

(** * Winding the session down *)

Definition winding_down (e : Effect) : Prop :=
  match e with
  | Asked _ _ | FirewallAsked WArmed _ | TeardownStarted _ | DeviceClosed _ => True
  | _ => False
  end.

(** The provider's members. *)
Definition with_provider e n d s r t k (c : Ctl) : Ctl :=
  c <| providerEgress_ := e |> <| providerNetwork_ := n |> <| providerDevice_ := d |> <| providerSpace_ := s |>
    <| providerRequest_ := r |> <| providerTier_ := t |> <| providerNetworkKey_ := k |>.

(** The members are those of [c], but for the provider's; its device is [d], its space [s]. *)
Definition provider_is (d : option nat) (s : bool) (c c' : Ctl) : Prop :=
  exists e n r t k, core c' = core (with_provider e n d s r t k c).

Definition set_provider e n d s r t k (x : Core) : Core :=
  match x with (a1, a2, a3, a4, a5, a6, a7, _, _, a8, a9) => (a1, a2, a3, a4, a5, a6, a7, (d, s, r, t), (k, e, n), a8, a9) end.

Lemma core_with_provider e n d s r t k c : core (with_provider e n d s r t k c) = set_provider e n d s r t k (core c).
Proof. reflexivity. Qed.

Lemma provider_is_trans d s d' s' a b c : provider_is d s a b -> provider_is d' s' b c -> provider_is d' s' a c.
Proof.
  intros (e & n & r & t & k & E) (e' & n' & r' & t' & k' & E'). exists e', n', r', t', k'.
  rewrite E', core_with_provider, E, !core_with_provider. by destruct (core a) as [[[[[[[[[[]]]]]]]]]].
Qed.

Lemma provider_is_same c c' : core c' = core c -> provider_is (providerDevice_ c) (providerSpace_ c) c c'.
Proof.
  intros E. exists (providerEgress_ c), (providerNetwork_ c), (providerRequest_ c), (providerTier_ c), (providerNetworkKey_ c).
  rewrite E. done.
Qed.

Lemma provider_is_reads d s c c' : provider_is d s c c' -> providerDevice_ c' = d /\ providerSpace_ c' = s.
Proof. intros (e & n & r & t & k & E). split; [exact (framed _ _ E)|exact (framed _ _ E)]. Qed.

Section Winding.
Context `{Winsock} `{Bfe} `{Platform} `{Json}.
Context (P : Effect -> Prop) (HP : forall e, winding_down e -> P e).

Lemma winding_background e : background e -> P e.
Proof. intros B. apply HP. by destruct e as [| | | | | | |[] ?| | | | |]. Qed.

Lemma winding_blocking q c : fire_ok c -> wp (blocking q) (fun _ c' => async P c c') never c.
Proof. apply blocking_spec, winding_background. Qed.

Lemma wp_log e c : P e -> wp (emit e) (fun _ c' => async P c c') never c.
Proof. intros Pe. by apply wp_emit, async_log. Qed.

Lemma run_bounded_spec d c : fire_ok c -> wp (run_bounded d) (fun _ c' => async P c c') never c.
Proof.
  intros W. unfold run_bounded, new_name. apply wp_bind. unfold wp at 1. apply wp_bind, wp_modify, wp_bind, wp_emit.
  set (c1 := c <| next_name := _ |>). assert (async P c c1) as A1 by apply async_name. clearbody c1.
  set (c2 := c1 <| budget := _ |>). assert (async P c1 c2) as A2 by by apply async_budget. clearbody c2.
  set (c3 := c2 <| log := _ |>). assert (async P c2 c3) as A3 by (by apply async_log, HP). clearbody c3.
  pose proof (async_trans _ _ _ _ A1 (async_trans _ _ _ _ A2 A3)) as A. clear A1 A2 A3.
  apply wp_bind. run (winding_blocking (Finishes (next_name c)) c3 (sd_fire _ _ _ (as_steady _ _ _ A) W)) as ok c4 A4.
  apply wp_bind, wp_modify, wp_ret. eapply async_trans; [exact A|]. eapply async_trans; [exact A4|].
  apply async_budget. rewrite EndBounded_pending. by destruct ok.
Qed.

Lemma close_device_spec d c : wp (close_device d) (fun _ c' => async P c c') never c.
Proof. destruct d; [by apply wp_log, HP|apply wp_skip, async_refl]. Qed.

Lemma RetireProviderDeviceLocked_spec c :
  fire_ok c ->
  wp RetireProviderDeviceLocked (fun _ c' => drift P c c' /\ provider_is None false c c' /\
      (mirror_ok c \/ providerDevice_ c <> None -> mirror_ok c'))
    never c.
Proof.
  intros W. unfold RetireProviderDeviceLocked. reads.
  destruct (bool_decide (providerDevice_ c = None) && negb (providerSpace_ c)) eqn:E.
  - apply andb_true_iff in E as [Ed%bool_decide_eq_true Es%negb_true_iff]. apply wp_skip.
    split_and!; [apply drift_refl| |by intros [?|?]].
    rewrite <- Ed, <- Es. by apply provider_is_same.
  - apply wp_bind, wp_modify, wp_bind, wp_publish, wp_bind.
    set (c1 := c <| providerEgress_ := _ |> <| providerNetwork_ := _ |> <| providerDevice_ := _ |> <| providerSpace_ := _ |>
      <| providerRequest_ := _ |> <| providerTier_ := _ |> <| providerNetworkKey_ := _ |>).
    assert (drift P c c1) as D1 by quiet.
    assert (core c1 = core (with_provider false false None false no_provider 0 false c)) as F1 by reflexivity.
    clearbody c1.
    assert (drift P c (published c1)) as D2 by (eapply drift_trans; [exact D1|quiet]).
    run (run_bounded_spec (providerDevice_ c) (published c1) (drift_fire _ _ _ D2 W)) as fin c2 A2.
    apply (wp_mono _ (fun _ c3 => async P (published c1) c3) _ never); [| |done].
    { destruct (fst fin); [|by apply wp_skip]. run (close_device_spec (providerDevice_ c) c2) as c3 A3.
      exact (async_trans _ _ _ _ A2 A3). }
    intros _ c3 A. split_and!.
    + eapply drift_trans; [exact D2|by apply async_drift].
    + do 5 eexists. rewrite (as_frame _ _ _ A), core_published, F1. reflexivity.
    + intros _. apply (as_mirror _ _ _ A), mirror_published.
Qed.

Lemma ReadProviderFactsLocked_spec c :
  fire_ok c ->
  wp ReadProviderFactsLocked (fun _ c' => drift P c c' /\ provider_is (providerDevice_ c) (providerSpace_ c) c c') never c.
Proof.
  intros W. unfold ReadProviderFactsLocked. apply wp_bind, wp_modify.
  set (c1 := c <| providerTier_ := _ |> <| providerNetworkKey_ := _ |>).
  assert (drift P c c1) as D1 by quiet.
  assert (provider_is (providerDevice_ c) (providerSpace_ c) c c1) as F1.
  { exists (providerEgress_ c), (providerNetwork_ c), (providerRequest_ c), 0, false. reflexivity. }
  assert (providerDevice_ c1 = providerDevice_ c) as Ed by reflexivity.
  assert (providerSpace_ c1 = providerSpace_ c) as Es by reflexivity. clearbody c1.
  reads. destruct (negb _); [by apply wp_skip|]. apply wp_bind.
  run (winding_blocking ReadsProviderFacts c1 (drift_fire _ _ _ D1 W)) as read c2 A2.
  assert (drift P c c2 /\ provider_is (providerDevice_ c) (providerSpace_ c) c c2) as [D2 F2].
  { split; [eapply drift_trans; [exact D1|by apply async_drift]|].
    rewrite <- Ed, <- Es. rewrite <- Ed, <- Es in F1. eapply provider_is_trans; [exact F1|apply provider_is_same, A2]. }
  destruct read; [|by apply wp_skip]. apply wp_bind, wp_modify, wp_bind, wp_ask, wp_modify. split.
  - eapply drift_trans; [exact D2|]. eapply (drift_trans _ _ c2 <| providerTier_ := getProvideMode (log c2) |>); [quiet|].
    eapply drift_trans; [apply (drift_log P _ (Asked HasNetworkKey (answers (log c2) HasNetworkKey))), HP; exact I|quiet].
  - eapply provider_is_trans; [exact F2|]. destruct (provider_is_reads _ _ _ _ F2) as [<- <-].
    exists (providerEgress_ c2), (providerNetwork_ c2), (providerRequest_ c2), (getProvideMode (log c2)),
      (answers (log c2) HasNetworkKey). reflexivity.
Qed.

Lemma WatchProviderNetworkLocked_spec c :
  fire_ok c ->
  wp WatchProviderNetworkLocked (fun _ c' => drift P c c' /\ provider_is (providerDevice_ c) (providerSpace_ c) c c') never c.
Proof.
  intros W. unfold WatchProviderNetworkLocked. reads. destruct (negb _).
  { apply wp_skip. split; [apply drift_refl|by apply provider_is_same]. }
  apply wp_bind. run (winding_blocking WatchesNetwork c W) as watches c1 A1.
  assert (drift P c c1) as D by by apply async_drift. pose proof (as_frame _ _ _ A1) as F.
  destruct watches; [|apply wp_skip; by split; [|apply provider_is_same]].
  apply wp_modify. split; [eapply drift_trans; [exact D|quiet]|].
  eapply provider_is_trans; [by apply provider_is_same|]. rewrite <- (framed (f := providerDevice_) _ _ F), <- (framed (f := providerSpace_) _ _ F).
  exists (providerEgress_ c1), true, (providerRequest_ c1), (providerTier_ c1), (providerNetworkKey_ c1). reflexivity.
Qed.

Lemma ResumeProvidingLocked_spec device space c :
  fire_ok c ->
  wp (ResumeProvidingLocked device space) (fun _ c' => drift P c c' /\ mirror_ok c' /\
      exists d s, (d = Some device \/ d = None) /\ (d = None -> s = false) /\ provider_is d s c c') never c.
Proof.
  intros W. unfold ResumeProvidingLocked. apply wp_bind, wp_modify.
  set (c1 := c <| providerEgress_ := true |>). assert (drift P c c1) as D1 by quiet.
  assert (provider_is (providerDevice_ c) (providerSpace_ c) c c1) as F1.
  { exists true, (providerNetwork_ c), (providerRequest_ c), (providerTier_ c), (providerNetworkKey_ c). reflexivity. }
  clearbody c1. apply wp_bind.
  run (winding_blocking StartsEgress c1 (drift_fire _ _ _ D1 W)) as started c2 A2.
  pose proof (drift_trans _ _ _ _ D1 (async_drift _ _ _ A2)) as D2.
  assert (forall r, provider_is (Some device) space c c2 <| providerSpace_ := space |> <| providerDevice_ := Some device |>
    <| providerRequest_ := r |>) as F2.
  { intros r. eapply provider_is_trans; [exact F1|]. eapply provider_is_trans; [apply provider_is_same, A2|].
    exists (providerEgress_ c2), (providerNetwork_ c2), r, (providerTier_ c2), (providerNetworkKey_ c2). reflexivity. }
  destruct (negb started).
  - apply wp_bind, wp_modify. set (c3 := c2 <| providerSpace_ := space |> <| providerDevice_ := Some device |>).
    assert (drift P c c3) as D3 by (eapply drift_trans; [exact D2|quiet]).
    assert (provider_is (Some device) space c c3) as F3 by exact (F2 (providerRequest_ c2)).
    assert (providerDevice_ c3 <> None) as N3 by done. clearbody c3.
    run (RetireProviderDeviceLocked_spec c3 (drift_fire _ _ _ D3 W)) as c4 (D4 & F4 & M4). split_and!.
    + by eapply drift_trans.
    + apply M4. by right.
    + exists None, false. split_and!; [by right|done|]. by eapply provider_is_trans.
  - apply wp_bind, wp_modify. set (c3 := c2 <| providerSpace_ := space |> <| providerDevice_ := Some device |>).
    assert (drift P c c3) as D3 by (eapply drift_trans; [exact D2|quiet]).
    assert (provider_is (Some device) space c c3) as F3 by exact (F2 (providerRequest_ c2)). clearbody c3. clear F2.
    apply wp_bind. run (winding_blocking ReadsControlMode c3 (drift_fire _ _ _ D3 W)) as read c4 A4.
    pose proof (drift_trans _ _ _ _ D3 (async_drift _ _ _ A4)) as D4.
    pose proof (provider_is_trans _ _ _ _ _ _ _ F3 (provider_is_same _ _ (as_frame _ _ _ A4))) as F4.
    destruct (provider_is_reads _ _ _ _ F3) as [E3 S3]. rewrite E3, S3 in F4.
    destruct (provider_is_reads _ _ _ _ F4) as [E4 S4].
    apply wp_bind, wp_modify.
    match goal with |- wp _ _ _ ?x => set (c5 := x) end.
    assert (drift P c c5) as D5 by (eapply drift_trans; [exact D4|quiet]).
    assert (provider_is (providerDevice_ c5) (providerSpace_ c5) c c5) as F5.
    { eapply provider_is_trans; [exact F4|].
      exists (providerEgress_ c4), (providerNetwork_ c4), (providerRequest_ c5), (providerTier_ c4), (providerNetworkKey_ c4).
      reflexivity. }
    assert (providerDevice_ c5 = Some device) as E5 by exact E4.
    assert (providerSpace_ c5 = space) as S5 by exact S4. clearbody c5.
    apply wp_bind. run (ReadProviderFactsLocked_spec c5 (drift_fire _ _ _ D5 W)) as c6 (D6 & F6).
    pose proof (drift_trans _ _ _ _ D5 D6) as D56. rewrite E5, S5 in F5, F6.
    pose proof (provider_is_trans _ _ _ _ _ _ _ F5 F6) as F56.
    apply wp_bind. run (WatchProviderNetworkLocked_spec c6 (drift_fire _ _ _ D56 W)) as c7 (D7 & F7).
    apply wp_publish. split_and!.
    + eapply drift_trans; [exact D56|]. eapply drift_trans; [exact D7|quiet].
    + apply mirror_published.
    + exists (Some device), space. split_and!; [by left|done|].
      destruct (provider_is_reads _ _ _ _ F6) as [E6 S6].
      rewrite E6, S6 in F7. eapply provider_is_trans; [exact F56|].
      eapply provider_is_trans; [exact F7|]. eapply provider_is_trans; [by apply provider_is_same|].
      destruct (provider_is_reads _ _ _ _ F7) as [<- <-].
      exists (providerEgress_ c7), (providerNetwork_ c7), (providerRequest_ c7), (providerTier_ c7), (providerNetworkKey_ c7).
      reflexivity.
Qed.

(** What a session's teardown leaves of its members. *)
Definition torn_down (c : Ctl) : Ctl :=
  c <| splitTunnel_ := false |> <| pump_ := false |> <| egress_ := false |> <| device_ := None |>
    <| adapter_ := None |> <| wintun_ := false |> <| networkSpace_ := false |>.

Definition tear (x : Core) : Core :=
  match x with (a1, a2, a3, a4, a5, (_, _, n, _), _, a8, a9, a10, a11) =>
    (a1, a2, a3, a4, a5, (None, None, n, false), (false, false, false, false), a8, a9, a10, a11) end.

Lemma core_torn_down c : core (torn_down c) = tear (core c).
Proof. reflexivity. Qed.

Lemma TearDownSessionLocked_spec keepDevice c :
  fire_ok c ->
  wp (TearDownSessionLocked keepDevice) (fun r c' => drift P c c' /\ core c' = core (torn_down c) /\
      forall d s, snd r = Some (d, s) -> keepDevice = true /\ device_ c = Some d) never c.
Proof.
  intros W. unfold TearDownSessionLocked. reads.
  destruct (_ && negb (splitTunnel_ c)) eqn:E.
  { rewrite !andb_true_iff, !negb_true_iff, !bool_decide_eq_true in E.
    destruct E as [[[[[[Ep Ee] Ed] Ea] Ew] En] Es]. apply wp_ret. split_and!; [apply drift_refl| |done].
    rewrite core_torn_down. unfold tear, core. by rewrite Ep, Ee, Ed, Ea, Ew, En, Es. }
  clear E. apply wp_bind, wp_modify. set (c1 := c <| splitTunnel_ := _ |> <| pump_ := _ |> <| egress_ := _ |>
    <| device_ := _ |> <| adapter_ := _ |> <| wintun_ := _ |> <| networkSpace_ := _ |>).
  assert (drift P c c1) as D1 by quiet. assert (core c1 = core (torn_down c)) as F1 by reflexivity. clearbody c1.
  set (handback := if keepDevice then device_ c else None).
  assert (forall d, handback = Some d -> keepDevice = true /\ device_ c = Some d) as Hh.
  { intros d. subst handback. by destruct keepDevice. }
  clearbody handback. apply wp_bind.
  apply (wp_mono _ (fun _ c2 => async P c1 c2) _ never); [| |done].
  { destruct handback; [apply wp_ask, async_ask, winding_background|apply wp_ret, async_refl]. }
  intros clears c2 A2. pose proof (drift_trans _ _ _ _ D1 (async_drift _ _ _ A2)) as D2.
  apply wp_bind. run (run_bounded_spec (device_ c) c2 (drift_fire _ _ _ D2 W)) as fin c3 A3.
  pose proof (async_trans _ _ _ _ A2 A3) as A23. clear D2. apply wp_bind.
  apply (wp_mono _ (fun _ c4 => async P c1 c4) _ never); [| |done].
  { destruct clears, (fst fin); try by apply wp_ret. apply wp_ask. eapply async_trans; [exact A23|].
    apply async_ask, winding_background. }
  intros hands c4 A4.
  assert (forall c', async P c1 c' -> drift P c c' /\ core c' = core (torn_down c)) as Hdone.
  { intros c' A. split; [eapply drift_trans; [exact D1|by apply async_drift]|]. by rewrite (as_frame _ _ _ A). }
  assert (forall r : bool * option (nat * bool), wp ((if fst fin then close_device (device_ c) else skip);; ret r) (fun r' c' => r' = r /\ async P c1 c') never c4)
    as Hclose.
  { intros r. apply wp_bind. apply (wp_mono _ (fun _ c5 => async P c1 c5) _ never); [| |done].
    - destruct (fst fin); [|by apply wp_skip]. run (close_device_spec (device_ c) c4) as c5 A5.
      exact (async_trans _ _ _ _ A4 A5).
    - intros _ c5 A5. by apply wp_ret. }
  destruct handback as [d|]; [destruct hands|].
  - apply wp_ret. destruct (Hdone c4 A4) as [D F]. split_and!; [done|done|]. cbn. intros d' s [= <- _]. by apply Hh.
  - eapply wp_mono; [apply Hclose| |done]. cbv beta. intros r c5 [-> A5]. destruct (Hdone c5 A5). by split_and!.
  - eapply wp_mono; [apply Hclose| |done]. cbv beta. intros r c5 [-> A5]. destruct (Hdone c5 A5). by split_and!.
Qed.

Lemma keeps_device_spec c :
  fire_ok c -> wp keeps_device (fun keeps c' => async P c c' /\ (keeps = true -> wfp_in_force c' = WOff)) never c.
Proof.
  intros W. unfold keeps_device. apply wp_bind. run (winding_blocking ReadsControlMode c W) as read c1 A1.
  reads. reads. apply wp_bind. unfold Sweep at 1, wp at 1.
  pose proof (Sweep_pending (budget c1)) as Hb.
  destruct (SweepAbandonedTeardowns (budget c1)) as [b sw]. reads. apply wp_ret. split.
  - eapply async_trans; [exact A1|]. apply async_budget. intros Hp. cbn in Hb. by rewrite Hb.
  - unfold KeepsSessionDevice. cbn. intros E%bool_decide_eq_true%ProviderStartRefusal_none.
    destruct E as (_ & _ & E & _). cbn in E. by apply negb_false_iff, bool_decide_eq_true in E.
Qed.
End Winding.
