(* ===== verification/ControllerStop.v ===== *)
(** The stop: what [StopLocked] leaves, whatever the outside answers, and the stops that
    are built on it. *)

From S2P Require Import Prelude.
From S2P Require Import CxxText.
From S2P Require Import Wfp.
From S2P Require Import WfpPolicy.
From S2P Require Import DeadTunnel.
From S2P Require Import StopBudget.
From S2P Require Import Capture.
From S2P Require Import Gesture.
From S2P Require Import Provide.
From S2P Require Import Controller.
From S2P Require Import ControllerFacts.

(** * The members a stop leaves *)

(** The members of a stopped session, the provider's left as they are. *)
Definition take_down (x : Core) : Core :=
  match x with (_, mode, kill, settings, (err, _, _, _, _, _), _, _, provider, provider', handed, (_, _, ready, _, _)) =>
    (Stopped, mode, kill, settings, (err, [], [], [], 0, no_provider), (None, None, None, false),
     (false, false, false, false), provider, provider', handed, ([], [], ready, false, false)) end.

(** The updates on the way, on the members as a tuple. *)
Definition unroute (x : Core) : Core :=
  match x with (a1, a2, a3, a4, a5, (d, a, _, p), a7, a8, a9, a10, (_, _, ready, watchdog, _)) =>
    (a1, a2, a3, a4, a5, (d, a, None, p), a7, a8, a9, a10, ([], [], ready, watchdog, false)) end.

Definition set_dead_watchdog (b : bool) (x : Core) : Core :=
  match x with (a1, a2, a3, a4, a5, a6, a7, a8, a9, a10, (r, r6, ready, _, m)) =>
    (a1, a2, a3, a4, a5, a6, a7, a8, a9, a10, (r, r6, ready, b, m)) end.

(** The session's identity, and what it listens on. *)
Definition clear_ids (x : Core) : Core :=
  match x with (a1, a2, a3, a4, (err, _, _, _, _, si), a6, a7, a8, a9, a10, a11) =>
    (a1, a2, a3, a4, (err, [], [], [], 0, si), a6, a7, a8, a9, a10, a11) end.
Definition clear_identity (x : Core) : Core :=
  match x with (a1, a2, a3, a4, (err, a, b, d, e, _), a6, a7, a8, a9, a10, a11) =>
    (a1, a2, a3, a4, (err, a, b, d, e, no_provider), a6, a7, a8, a9, a10, a11) end.
Definition clear_session (x : Core) : Core :=
  match x with (a1, a2, a3, a4, (err, _, _, _, _, _), a6, a7, a8, a9, a10, a11) =>
    (a1, a2, a3, a4, (err, [], [], [], 0, no_provider), a6, a7, a8, a9, a10, a11) end.

Lemma core_unrouted c : core (unrouted c) = unroute (core c).
Proof. reflexivity. Qed.

(** Takes the members of a controller as a tuple. *)
Ltac untuple c :=
  let x := fresh "x" in generalize (core c); intros x; unfold Core in x;
  repeat match goal with y : (_ * _)%type |- _ => destruct y end.

(** The effects of a stop. *)
Definition calm (e : Effect) : Prop := giving_back e \/ winding_down e.

(** The effects before the machine is given back. *)
Definition opening (e : Effect) : Prop := giving_back e \/ background e.

Lemma opening_background e : background e -> opening e.
Proof. by right. Qed.

Lemma opening_calm e : opening e -> calm e.
Proof. intros [G|B]; [by left|right; by destruct e as [| | | | | | |[] ?| | | | |]]. Qed.

(** Until the machine is given back, nothing is wound down. *)
Definition machine_first (c c' : Ctl) : Prop :=
  exists l l', log c' = log c ++ l ++ l' /\ Forall opening l /\ Forall winding_down l' /\
    MarkerSet false ∈ l /\ (has_routes c = true -> NetworkReverted ∈ l).

Section Stop.
Context `{Winsock} `{Bfe} `{Platform} `{Json}.

Record stopped (finalDisarm disconnect : bool) (c c' : Ctl) : Prop := {
  so_steady : steady calm c c';
  so_core : exists e n d s r t k, core c' = set_provider e n d s r t k (take_down (core c)) /\
    (d = None -> s = false) /\ (d <> None -> disconnect = true /\ d = device_ c /\ wfp_in_force c' = WOff);
  so_policy : firewall_after finalDisarm (killSwitch_ c) (has_routes c) (wfp_in_force c) (wfp_in_force c');
  so_watch : watchdog_ c' = false;
  so_mirror : mirror_ok c';
  so_cancelled : forall id, captureReadiness_ c = Some id -> is_Some (readinesses c !! id) -> Cancelled c' id = true;
  so_log : machine_first c c';
  so_refused : armed_or_refused finalDisarm (has_routes c) c c';
}.

Lemma firewall_after_watchdog finalDisarm kill hadRoutes w w1 w2 :
  (w1 = w \/ (w = WConnecting /\ w1 = WArmed)) ->
  firewall_after finalDisarm kill hadRoutes w1 w2 -> firewall_after finalDisarm kill hadRoutes w w2.
Proof.
  intros [->|[-> ->]]; [done|]. unfold firewall_after. cbn.
  destruct (finalDisarm || _); [done|]. intros [->| ->]; by left.
Qed.

(** The first half: the machine is given back. *)
Record half (finalDisarm : bool) (c c' : Ctl) : Prop := {
  ha_steady : steady opening c c';
  ha_core : exists s, core c' = unroute (set_dead_watchdog false (set_state s (core c)));
  ha_policy : firewall_after finalDisarm (killSwitch_ c) (has_routes c) (wfp_in_force c) (wfp_in_force c');
  ha_watch : watchdog_ c' = false;
  ha_mirror : mirror_ok c';
  ha_cancelled : forall id, captureReadiness_ c = Some id -> is_Some (readinesses c !! id) -> Cancelled c' id = true;
  ha_log : exists l, log c' = log c ++ l /\ Forall opening l /\ MarkerSet false ∈ l /\ (has_routes c = true -> NetworkReverted ∈ l);
  ha_refused : armed_or_refused finalDisarm (has_routes c) c c';
}.

Lemma steady_log_trans (P P' Q : Effect -> Prop) a b c :
  steady P a b -> steady P' b c -> (forall e, P e -> Q e) -> (forall e, P' e -> Q e) -> steady Q a c.
Proof. intros AB BC H1' H2'. eapply steady_trans; [exact (steady_mono _ _ _ _ H1' AB)|exact (steady_mono _ _ _ _ H2' BC)]. Qed.

Lemma half_of_reverted finalDisarm c c1 c' s :
  drift opening c c1 -> fire_ok c -> core c1 = set_dead_watchdog false (set_state s (core c)) ->
  (forall id, captureReadiness_ c = Some id -> is_Some (readinesses c !! id) -> Cancelled c1 id = true) ->
  reverted finalDisarm (has_routes c) c1 c' -> half finalDisarm c c'.
Proof.
  intros D W F Hc [S' F' Po Wa Mi Ro Ma Rf].
  assert (has_routes c1 = has_routes c /\ killSwitch_ c1 = killSwitch_ c) as [Er Ek].
  { unfold core in F. cbn in F. injection F. intros. assert (netConfig_ c1 = netConfig_ c) as En by congruence.
    split; [|congruence]. unfold has_routes. by rewrite En. }
  split.
  - by eapply (steady_log_trans _ _ _ _ _ _ (dr_steady _ _ _ D) S'); [|left].
  - exists s. by rewrite F', core_unrouted, F.
  - rewrite Ek in Po. eapply firewall_after_watchdog; [|exact Po].
    destruct (dr_policy _ _ _ D) as [->|[Hw ->]]; [by left|right]. split; [by apply W|done].
  - done.
  - done.
  - intros id Hid Hr. by apply (sd_cancel _ _ _ S'), Hc.
  - destruct (sd_log _ _ _ (dr_steady _ _ _ D)) as (l & El & Fl), (sd_log _ _ _ S') as (l' & El' & Fl').
    exists (l ++ l'). split_and!.
    + by rewrite El', El, app_assoc.
    + apply Forall_app. split; [done|]. eapply Forall_impl; [exact Fl'|by left].
    + apply elem_of_app. right. by apply Ma.
    + intros R. apply elem_of_app. right. apply Ro; [done|by rewrite Er].
  - intros Hd Hk Hn. destruct Rf as [?|Rf]; [done|by rewrite Ek| |by left|right].
    + destruct Hn as [Hn|Hn]; [left|by right]. by destruct (dr_policy _ _ _ D) as [->|[_ ->]].
    + destruct (sd_log _ _ _ (dr_steady _ _ _ D)) as (l & El & _). eapply refused_log; [exact Rf|exact El|by rewrite app_nil_r].
Qed.

Lemma first_half finalDisarm (k : M unit) (Q : unit -> Ctl -> Prop) E c :
  fire_ok c -> (forall c', half finalDisarm c c' -> wp k Q E c') ->
  wp (CancelCapture;;
      c ← gets Datatypes.id;
      (if is_live_or_starting (state_ c) then SetStateLocked Stopping else skip);;
      yield;;
      modify (fun c => c <| deadTunnelWatchdog_ := false |>);;
      RevertMachineStateLocked finalDisarm (has_routes c);; k) Q E c.
Proof.
  intros W Hk. apply wp_bind, wp_cancel. set (c1 := cancel_capture c).
  assert (async opening c c1) as A1 by apply (async_cancel_capture opening c).
  assert (forall id, captureReadiness_ c = Some id -> is_Some (readinesses c !! id) -> Cancelled c1 id = true) as Hc
    by apply cancel_capture_Cancelled.
  clearbody c1. pose proof (as_frame _ _ _ A1) as F1. reads.
  assert (has_routes c1 = has_routes c) as -> by exact (framed _ _ F1). apply wp_bind.
  apply (wp_mono _ (fun _ c2 => drift opening c1 c2 /\ exists s, core c2 = set_state s (core c)) _ never); [| |done].
  { destruct (is_live_or_starting (state_ c1)).
    - apply wp_set_state. split; [eapply (drift_trans _ _ c1 <| state_ := Stopping |>); quiet|].
      exists Stopping. rewrite <- F1. reflexivity.
    - apply wp_skip. split; [apply drift_refl|]. exists (state_ c). rewrite F1. reflexivity. }
  intros _ c2 (D2 & s & F2). pose proof (drift_trans _ _ _ _ (async_drift _ _ _ A1) D2) as D12.
  apply wp_bind. run (yield_spec opening opening_background c2 (drift_fire _ _ _ D12 W)) as c3 A3.
  apply wp_bind, wp_modify. set (c4 := c3 <| deadTunnelWatchdog_ := false |>).
  assert (drift opening c c4) as D4.
  { eapply drift_trans; [exact D12|]. eapply drift_trans; [by apply async_drift|quiet]. }
  assert (core c4 = set_dead_watchdog false (set_state s (core c))) as F4.
  { rewrite <- F2, <- (as_frame _ _ _ A3). reflexivity. }
  assert (forall id, captureReadiness_ c = Some id -> is_Some (readinesses c !! id) -> Cancelled c4 id = true) as Hc4.
  { intros id Hid Hr. apply (sd_cancel _ _ _ (as_steady _ _ _ A3)), (sd_cancel _ _ _ (dr_steady _ _ _ D2)). by apply Hc. }
  clearbody c4. apply wp_bind.
  run (RevertMachineStateLocked_spec finalDisarm (has_routes c) c4 (drift_fire _ _ _ D4 W)) as c5 R5.
  apply Hk. by eapply half_of_reverted.
Qed.

(** The device of the members as a tuple. *)
Definition core_device (x : Core) : option nat := match x with (_, _, _, _, _, (d, _, _, _), _, _, _, _, _) => d end.

(** The second half: the session is wound down, or its device goes back to providing. *)
Record wound (disconnect : bool) (c c' : Ctl) : Prop := {
  wo_drift : drift winding_down c c';
  wo_core : exists e n d s r t k, core c' = set_provider e n d s r t k (set_state Stopped (clear_session (tear (core c)))) /\
    (d = None -> s = false) /\ (d <> None -> disconnect = true /\ d = device_ c /\ wfp_in_force c' = WOff);
  wo_mirror : mirror_ok c';
}.

(** How the session's end is asked for. *)
Definition wind_down (disconnect : bool) : M unit :=
  RetireProviderDeviceLocked;;
  session ← gets (fun c => bool_decide (device_ c <> None));
  keepDevice ← (if disconnect && session then keeps_device else ret false);
  torn ← TearDownSessionLocked keepDevice;
  modify (fun c => c <| rpcHostPort_ := [] |> <| activeInstanceId_ := [] |> <| rpcSessionId_ := [] |>
    <| upSinceMillis_ := 0 |>);;
  SetStateLocked Stopped;;
  (match snd torn with Some (device, space) => ResumeProvidingLocked device space | None => skip end);;
  modify (fun c => c <| sessionIdentity_ := no_provider |>).

Lemma winding_refl e : winding_down e -> winding_down e.
Proof. done. Qed.

Lemma wind_down_spec disconnect c :
  fire_ok c -> watchdog_ c = false -> wp (wind_down disconnect) (fun _ c' => wound disconnect c c') never c.
Proof.
  intros W Hw. unfold wind_down. apply wp_bind.
  run (RetireProviderDeviceLocked_spec _ winding_refl c W) as c1 (D1 & (e1 & n1 & r1 & t1 & k1 & F1) & _).
  rewrite core_with_provider in F1. reads. apply wp_bind.
  apply (wp_mono _ (fun keeps c2 => drift winding_down c c2 /\ core c2 = core c1 /\
    (keeps = true -> disconnect = true /\ wfp_in_force c2 = WOff)) _ never); [| |done].
  { destruct (disconnect && _) eqn:E; [|by apply wp_ret]. apply andb_true_iff in E as [-> _].
    run (keeps_device_spec _ winding_refl c1 (drift_fire _ _ _ D1 W)) as keeps c2 (A2 & K2).
    split_and!; [|apply A2|by intros ->%K2]. eapply drift_trans; [exact D1|by apply async_drift]. }
  intros keeps c2 (D2 & F2 & K2). apply wp_bind.
  run (TearDownSessionLocked_spec _ winding_refl keeps c2 (drift_fire _ _ _ D2 W)) as torn c3 (D3 & F3 & T3).
  pose proof (drift_trans _ _ _ _ D2 D3) as D23. rewrite core_torn_down, F2, F1 in F3.
  assert (device_ c2 = device_ c) as Ed.
  { change (core_device (core c2) = core_device (core c)). rewrite F2, F1. by untuple c. }
  apply wp_bind, wp_modify. set (c4 := c3 <| rpcHostPort_ := [] |> <| activeInstanceId_ := [] |> <| rpcSessionId_ := [] |>
    <| upSinceMillis_ := 0 |>).
  assert (drift winding_down c3 c4) as D4 by quiet.
  assert (core c4 = clear_ids (core c3)) as F4 by reflexivity. clearbody c4.
  apply wp_bind, wp_set_state. set (c5 := published c4 <| state_ := Stopped |>).
  assert (drift winding_down c4 c5) as D5 by (eapply (drift_trans _ _ c4 <| state_ := Stopped |>); quiet).
  assert (core c5 = set_state Stopped (clear_ids (core c3))) as F5 by (rewrite <- F4; reflexivity).
  assert (mirror_ok c5) as M5 by exact (mirror_published c4 <| state_ := Stopped |>). clearbody c5.
  pose proof (drift_trans _ _ _ _ D23 (drift_trans _ _ _ _ D4 D5)) as D25. clear D4 D5 F4 c4.
  assert (watchdog_ c5 = false /\ wfp_in_force c5 = wfp_in_force c2) as [Hw5 E5].
  { destruct (drift_still _ _ _ D25 Hw) as [Hw5 E5], (drift_still _ _ _ D2 Hw) as [_ E2]. split; congruence. }
  apply wp_bind.
  apply (wp_mono _ (fun _ c6 => drift winding_down c c6 /\ mirror_ok c6 /\
    exists e n d s r t k, core c6 = set_provider e n d s r t k (core c5) /\
    (d = None -> s = false) /\ (d <> None -> disconnect = true /\ d = device_ c /\ wfp_in_force c6 = WOff)) _ never);
    [| |done].
  { destruct (snd torn) as [[device space]|] eqn:Et.
    - destruct (T3 _ _ eq_refl) as [-> Edev]. destruct (K2 eq_refl) as [-> Hoff].
      run (ResumeProvidingLocked_spec _ winding_refl device space c5 (drift_fire _ _ _ D25 W)) as c6 (D6 & M6 & d & s & Hd & Hs & F6).
      destruct F6 as (e & n & r & t & k & F6). rewrite core_with_provider in F6. split_and!; [by eapply drift_trans|done|].
      exists e, n, d, s, r, t, k. split_and!; [done|done|]. intros Hn. split_and!; [done| |].
      + destruct Hd as [->|?]; [congruence|done].
      + destruct (drift_still _ _ _ D6 Hw5). congruence.
    - apply wp_skip. split_and!; [done|done|].
      exists e1, n1, None, false, r1, t1, k1. split_and!; [|done|done]. rewrite F5, F3. by untuple c. }
  intros _ c6 (D6 & M6 & e & n & d & s & r & t & k & F6 & Hs & Hd). apply wp_modify. split.
  - eapply drift_trans; [exact D6|quiet].
  - exists e, n, d, s, r, t, k. split_and!; [|done|done].
    assert (core c6 <| sessionIdentity_ := no_provider |> = clear_identity (core c6)) as -> by reflexivity.
    rewrite F6, F5, F3. by untuple c.
  - exact M6.
Qed.

Lemma StopLocked_halves finalDisarm disconnect (Q : unit -> Ctl -> Prop) E c :
  fire_ok c -> (forall c', half finalDisarm c c' -> wp (wind_down disconnect) Q E c') -> wp (StopLocked finalDisarm disconnect) Q E c.
Proof. intros W Hk. exact (first_half finalDisarm (wind_down disconnect) Q E c W Hk). Qed.

Lemma StopLocked_spec finalDisarm disconnect c :
  fire_ok c -> wp (StopLocked finalDisarm disconnect) (fun _ c' => stopped finalDisarm disconnect c c') never c.
Proof.
  intros W. apply StopLocked_halves; [done|]. intros c1 [S1 [s F1] Po W1 M1 C1 (l & El & Fl & Ml & Rl) Rf].
  run (wind_down_spec disconnect c1 (sd_fire _ _ _ S1 W) W1) as c2 [D2 F2 M2].
  destruct (drift_still _ _ _ D2 W1) as [Hw2 E2]. split.
  - eapply (steady_log_trans _ _ _ _ _ _ S1 (dr_steady _ _ _ D2)); [apply opening_calm|by right].
  - destruct F2 as (e & n & d & sp & r & t & k & F2 & Hs & Hd). exists e, n, d, sp, r, t, k. split_and!; [|done|].
    + rewrite F2, F1. by untuple c.
    + intros Hn. destruct (Hd Hn) as (? & -> & ?). split_and!; [done| |done].
      change (core_device (core c1) = core_device (core c)). rewrite F1. by untuple c.
  - by rewrite E2.
  - done.
  - done.
  - intros id Hid Hr. by apply (sd_cancel _ _ _ (dr_steady _ _ _ D2)), C1.
  - destruct (sd_log _ _ _ (dr_steady _ _ _ D2)) as (l' & El' & Fl'). exists l, l'. split_and!; try done.
    by rewrite El', El, app_assoc.
  - intros Hd Hk Hn. rewrite E2. destruct (Rf Hd Hk Hn) as [?|R]; [by left|right].
    destruct (sd_log _ _ _ (dr_steady _ _ _ D2)) as (l' & El' & _). eapply refused_log; [exact R|by rewrite app_nil_r|exact El'].
Qed.
End Stop.
