(* ===== verification/ControllerSession.v ===== *)
(** The controller between its operations: what holds of the members whenever the session
    lock is free, and that every request that gets the lock keeps it. *)

From S2P Require Import Prelude.
From S2P Require Import CxxText.
From S2P Require Import Wfp.
From S2P Require Import WfpPolicy.
From S2P Require Import DeadTunnel.
From S2P Require Import StopBudget.
From S2P Require Import Capture.
From S2P Require Import Gesture.
From S2P Require Import Provide.
From S2P Require Import Controller.
From S2P Require Import ControllerFacts.
From S2P Require Import ControllerStop.

(** * What holds when the lock is free *)

(** This session's readiness object is cancelled: a stop has arrived. *)
Definition session_cancelled (c : Ctl) : Prop := exists id, captureReadiness_ c = Some id /\ Cancelled c id = true.

(** Nothing of a session is left. *)
Definition nothing_left (c : Ctl) : Prop :=
  device_ c = None /\ adapter_ c = None /\ netConfig_ c = None /\ pump_ c = false /\ egress_ c = false /\
  wintun_ c = false /\ networkSpace_ c = false /\ splitTunnel_ c = false /\ deadTunnelWatchdog_ c = false.

(** What every live session has. *)
Definition session_parts (c : Ctl) : Prop :=
  is_Some (device_ c) /\ networkSpace_ c = true /\ egress_ c = true /\ deadTunnelWatchdog_ c = true /\
  providerDevice_ c = None /\ exists id, captureReadiness_ c = Some id /\ is_Some (readinesses c !! id).

(** What a captured machine has. *)
Definition captured (c : Ctl) : Prop :=
  (exists n, netConfig_ c = Some n /\ DnsApplied n = true) /\ pump_ c = true /\
  (wfp_in_force c = WOff \/ wfp_in_force c = WConnected).

Record members_ok (c : Ctl) : Prop := {
  mo_fire : fire_ok c;
  mo_state : state_ c <> Starting /\ state_ c <> Stopping;
  mo_marker : marker c = has_routes c;
  mo_down : IsSessionLive (state_ c) = false -> nothing_left c;
  mo_live : IsSessionLive (state_ c) = true -> session_parts c;
  mo_rpc : state_ c = RpcOnly -> adapter_ c = None /\ netConfig_ c = None /\ pump_ c = false;
  mo_tunnel : state_ c = Preparing \/ state_ c = Up -> is_Some (adapter_ c) /\ startMode_ c = ModeTunnel;
  mo_preparing : state_ c = Preparing -> has_routes c = false \/ session_cancelled c;
  mo_up : state_ c = Up -> captured c;
  mo_firewall : state_ c <> Up -> wfp_in_force c = WArmed \/ wfp_in_force c = WConnecting -> killSwitch_ c = true;
}.

Section Session.
Context `{Winsock} `{Bfe} `{Platform} `{Json}.

(** The invariant. *)
Definition session_ok (c : Ctl) : Prop :=
  members_ok c /\ mirror_ok c /\ handedDevice c = None /\ handedSpace c = false.

(** A session that is down. *)
Lemma members_down c :
  fire_ok c -> state_ c = Stopped \/ state_ c = StateError -> nothing_left c -> marker c = false ->
  (wfp_in_force c = WArmed \/ wfp_in_force c = WConnecting -> killSwitch_ c = true) -> members_ok c.
Proof.
  intros W Es L Em Ew. destruct L as (Ed & Ea & En & L).
  assert (has_routes c = false) as Er by (unfold has_routes; by rewrite En).
  destruct Es as [Es|Es]; split; try done; rewrite ?Es; try done; try (by intros []); try (by rewrite Em, Er);
    by intros _; split_and!.
Qed.

(** What a stop leaves is a session that is down. *)
Definition down (c : Ctl) : Prop :=
  fire_ok c /\ watchdog_ c = false /\ nothing_left c /\ marker c = false /\ rpcHostPort_ c = [] /\
  activeInstanceId_ c = [] /\ rpcSessionId_ c = [] /\ upSinceMillis_ c = 0 /\ sessionIdentity_ c = no_provider /\
  (wfp_in_force c = WOff \/ killSwitch_ c = true).

Lemma stopped_down finalDisarm disconnect c c' :
  fire_ok c -> stopped finalDisarm disconnect c c' -> down c' /\ state_ c' = Stopped.
Proof.
  intros W [S (e & n & d & s & r & t & k & F & _) Po Wa _ _ _].
  unfold core, take_down, set_provider in F. injection F. intros. split; [|done].
  split_and!; try done; [by apply (sd_fire _ _ _ S)|].
  unfold firewall_after in Po. destruct (finalDisarm || _) eqn:E; [by left|right].
  apply orb_false_iff in E as [_ E%negb_false_iff]. apply andb_true_iff in E as [E _]. congruence.
Qed.

Lemma down_members c : down c -> state_ c = Stopped \/ state_ c = StateError -> members_ok c.
Proof.
  intros (W & _ & L & Em & _ & _ & _ & _ & _ & Hw) Es. apply members_down; try done.
  destruct Hw as [->|?]; [by intros [?|?]|done].
Qed.

(** The members the invariant is about, the provider's device apart. *)
Definition held (c : Ctl) :=
  (state_ c, startMode_ c, killSwitch_ c, (device_ c, adapter_ c, netConfig_ c, pump_ c),
   (egress_ c, wintun_ c, networkSpace_ c, splitTunnel_ c), (deadTunnelWatchdog_ c, captureReadiness_ c, marker c)).

Lemma core_held c c' : core c' = core c -> held c' = held c.
Proof. intros F. unfold held. by chase. Qed.

(** The other threads, and changes of other members, keep the invariant. *)
Lemma drift_members_ok P c c' :
  drift P c c' -> held c' = held c -> (IsSessionLive (state_ c) = true -> providerDevice_ c' = None) ->
  members_ok c -> members_ok c'.
Proof.
  intros [S Po Wa] F Hp [W St Ma Do Li Rp Tu Pr Up' Fw].
  unfold held in F. injection F as E1 E2 E3 E4 E5 E6 E7 E8 E9 E10 E11 E12 E13 E14.
  assert (has_routes c' = has_routes c) as E15 by (unfold has_routes; by rewrite E6).
  assert (session_cancelled c -> session_cancelled c') as Hc.
  { intros (id & Hid & Hca). exists id. split; [congruence|by apply (sd_cancel _ _ _ S)]. }
  split; rewrite ?E1, ?E14, ?E15, ?E4, ?E5, ?E6, ?E7, ?E2, ?E3; try done.
  - by apply (sd_fire _ _ _ S).
  - unfold nothing_left in *. by rewrite E4, E5, E6, E7, E8, E9, E10, E11, E12.
  - unfold session_parts in *. intros L. rewrite E4, E8, E10, E12, E13. destruct (Li L) as (? & ? & ? & ? & ? & id & Hid & Hr).
    split_and!; try done; [by apply Hp|]. exists id. split; [done|]. by apply (sd_stop _ _ _ S).
  - intros E. destruct (Pr E); [by left|right; by apply Hc].
  - intros E. destruct (Up' E) as (Hn & Hpu & Hf). unfold captured. rewrite E6, E7. split_and!; try done.
    assert (watchdog_ c = false) as Ew.
    { destruct (watchdog_ c) eqn:Ew; [|done]. destruct W as [_ W]. rewrite (W Ew) in Hf. by destruct Hf. }
    destruct Po as [->|[? _]]; [done|congruence].
  - intros E Hf. apply (Fw E). destruct Po as [<-|[Ew _]]; [done|]. right. by apply W.
Qed.

Lemma async_members_ok P c c' : async P c c' -> members_ok c -> members_ok c'.
Proof.
  intros A M. pose proof (as_frame _ _ _ A) as F.
  apply (drift_members_ok P c); [by apply async_drift|by apply core_held| |done].
  intros L. rewrite (framed (f := providerDevice_) _ _ F). by apply (mo_live _ M).
Qed.

Lemma async_session_ok P c c' : async P c c' -> session_ok c -> session_ok c'.
Proof.
  intros A (M & Mi & Hd & Hs). pose proof (as_frame _ _ _ A) as F. split_and!.
  - by eapply async_members_ok.
  - by apply (as_mirror _ _ _ A).
  - by chase.
  - by chase.
Qed.

(** A stop of any kind ends in the invariant. *)
Lemma stopped_session_ok finalDisarm disconnect c c' :
  fire_ok c -> handedDevice c = None -> handedSpace c = false -> stopped finalDisarm disconnect c c' -> session_ok c'.
Proof.
  intros W Hd Hs S. destruct (stopped_down _ _ _ _ W S) as [D E]. split_and!.
  - apply down_members; [done|by left].
  - apply S.
  - destruct (so_core _ _ _ _ S) as (e & n & d & s & r & t & k & F & _).
    unfold core, take_down, set_provider in F. injection F. intros. congruence.
  - destruct (so_core _ _ _ _ S) as (e & n & d & s & r & t & k & F & _).
    unfold core, take_down, set_provider in F. injection F. intros. congruence.
Qed.
End Session.
