(* ===== verification/ControllerStart.v ===== *)
(** The start: a session's objects built one after the other, a stop that arrives
    meanwhile, and every way a start can end. *)

From S2P Require Import Prelude.
From S2P Require Import CxxText.
From S2P Require Import Wfp.
From S2P Require Import WfpPolicy.
From S2P Require Import DeadTunnel.
From S2P Require Import StopBudget.
From S2P Require Import Capture.
From S2P Require Import Gesture.
From S2P Require Import Provide.
From S2P Require Import Controller.
From S2P Require Import ControllerFacts.
From S2P Require Import ControllerStop.
From S2P Require Import ControllerSession.

(** The members of a session that is being built: which of wintun, the adapter, the
    egress monitor, the network space and the device it has so far. *)
Definition booted (mode : StartMode) (kill clamp : bool) (id : nat) (w a e s d : bool) (x : Core) : Prop :=
  match x with
    (state, m, k, (cl, _, _, _), _, (device, adapter, net, pump), (egress, wintun, space, split), (pdevice, pspace, _, _), _, _,
     (_, _, ready, watchdog, mark)) =>
    state = Starting /\ m = mode /\ k = kill /\ cl = clamp /\ (is_Some device <-> d = true) /\ (is_Some adapter <-> a = true) /\ net = None /\
    pump = false /\ egress = e /\ wintun = w /\ space = s /\ split = false /\ pdevice = None /\ pspace = false /\
    ready = Some id /\ watchdog = false /\ mark = false
  end.

(** What a start may do to the machine and its devices. *)
Definition start_effect (mode : StartMode) (e : Effect) : Prop :=
  match e with
  | AdapterCreated _ | FirewallAsked WConnecting _ => mode = ModeTunnel
  | DeviceBuilt _ => True
  | _ => calm e
  end.

Lemma calm_start mode e : calm e -> start_effect mode e.
Proof. intros C. destruct e as [| | | | | |[]|[] ?| | | | |]; try done; by destruct C. Qed.

Lemma winding_start mode e : winding_down e -> start_effect mode e.
Proof. intros W. apply calm_start. by right. Qed.

Lemma background_start mode e : background e -> start_effect mode e.
Proof. intros B. apply calm_start, opening_calm. by right. Qed.

Section Start.
Context `{Winsock} `{Bfe} `{Platform} `{Json}.

(** ** Halts *)

Lemma HaltAfterStepLocked_spec step c :
  fire_ok c -> wp (HaltAfterStepLocked step) (fun h c' => if h : bool then stopped true false c c' else c' = c) never c.
Proof.
  intros W. unfold HaltAfterStepLocked. reads. destruct (_ || _); [by apply wp_ret|]. apply wp_bind.
  run (StopLocked_spec true false c W) as c' S. by apply wp_ret.
Qed.

Lemma wp_halt step (k : M unit) (Q : unit -> Ctl -> Prop) E c :
  fire_ok c -> (forall c', stopped true false c c' -> Q tt c') -> wp k Q E c ->
  wp (h ← HaltAfterStepLocked step; if h then skip else k) Q E c.
Proof.
  intros W Hs Hk. apply wp_bind. run (HaltAfterStepLocked_spec step c W) as h c' Hh.
  destruct h; [apply wp_skip; by apply Hs|by subst].
Qed.

(** ** The steps *)

Section Steps.
Context (mode : StartMode) (id : nat) (c0 : Ctl) (W0 : fire_ok c0).

(** Where the steps are, and what an exception leaves. *)
Definition at_step (w a e s d : bool) (c : Ctl) : Prop :=
  drift (start_effect mode) c0 c /\ booted mode (killSwitch_ c0) (rpcOnlyClamp_ c0) id w a e s d (core c).
Definition aborted (_ : text) (c : Ctl) : Prop := drift (start_effect mode) c0 c /\ netConfig_ c = None /\
  killSwitch_ c = killSwitch_ c0 /\ rpcOnlyClamp_ c = rpcOnlyClamp_ c0.

Lemma at_step_aborted w a e s d x c : at_step w a e s d c -> aborted x c.
Proof. intros [D B]. split; [done|]. unfold core, booted in B. naive_solver. Qed.

Lemma at_step_fire w a e s d c : at_step w a e s d c -> fire_ok c.
Proof. intros [D _]. by apply (drift_fire _ _ _ D). Qed.

Lemma at_step_async w a e s d c c' : at_step w a e s d c -> async (start_effect mode) c c' -> at_step w a e s d c'.
Proof.
  intros [D B] A. split; [eapply drift_trans; [exact D|by apply async_drift]|]. by rewrite (as_frame _ _ _ A).
Qed.

Lemma blocking_at q w a e s d (k : bool -> M unit) (Q : unit -> Ctl -> Prop) E c :
  at_step w a e s d c -> (forall b c', at_step w a e s d c' -> wp (k b) Q E c') -> wp (bind (blocking q) k) Q E c.
Proof.
  intros S Hk. apply wp_bind. run (blocking_spec _ (background_start mode) q c (at_step_fire _ _ _ _ _ _ S)) as b c' A.
  by apply Hk, (at_step_async _ _ _ _ _ c).
Qed.

Lemma must_at q w a e s d (k : M unit) (Q : unit -> Ctl -> Prop) c :
  at_step w a e s d c -> (forall c', at_step w a e s d c' -> wp k Q aborted c') -> wp (must q;; k) Q aborted c.
Proof.
  intros S Hk. apply wp_bind.
  eapply wp_mono; [apply (must_spec _ (background_start mode) q c (at_step_fire _ _ _ _ _ _ S))|cbv beta; intros _ c' A|cbv beta; intros x c' A].
  - by apply Hk, (at_step_async _ _ _ _ _ c).
  - eapply at_step_aborted. by apply (at_step_async w a e s d c).
Qed.

(** A quiet change of the members. *)
Lemma at_step_quiet w a e s d w' a' e' s' d' c c' :
  at_step w a e s d c -> drift (start_effect mode) c c' ->
  (booted mode (killSwitch_ c0) (rpcOnlyClamp_ c0) id w a e s d (core c) -> booted mode (killSwitch_ c0) (rpcOnlyClamp_ c0) id w' a' e' s' d' (core c')) -> at_step w' a' e' s' d' c'.
Proof. intros [D B] D' HB. split; [by eapply drift_trans|by apply HB]. Qed.

Lemma adapter_step_at c (Q : unit -> Ctl -> Prop) (k : M unit) :
  mode = ModeTunnel -> at_step false false false false false c ->
  (forall c', at_step true true false false false c' -> wp k Q aborted c') -> wp (adapter_step;; k) Q aborted c.
Proof.
  intros Hm S Hk. apply wp_bind.
  apply (wp_mono _ (fun _ => at_step true true false false false) _ aborted); [|intros _; apply Hk|done].
  unfold adapter_step. apply (blocking_at _ _ _ _ _ _ _ _ _ _ S). intros loads c1 S1.
  reads. destruct (negb loads); [apply wp_throw; by eapply at_step_aborted|].
  apply wp_bind, wp_modify. set (c2 := c1 <| wintun_ := true |>).
  assert (at_step true false false false false c2) as S2.
  { apply (at_step_quiet _ _ _ _ _ _ _ _ _ _ c1 c2 S1); [quiet|]. unfold core, booted. members. naive_solver. }
  clearbody c2. apply (blocking_at _ _ _ _ _ _ _ _ _ _ S2). intros creates c3 S3.
  reads. destruct (negb creates); [apply wp_throw; by eapply at_step_aborted|].
  reads. apply wp_bind, wp_modify, wp_emit. set (l := adapter_luid (log c3)). set (c4 := c3 <| adapter_ := Some l |>).
  apply (at_step_quiet _ _ _ _ _ _ _ _ _ _ c3 _ S3).
  - eapply (drift_trans _ _ c4); [quiet|]. by apply drift_log.
  - unfold core, booted, c4. members. naive_solver.
Qed.

Lemma egress_step_at w a c (Q : unit -> Ctl -> Prop) (k : M unit) :
  at_step w a false false false c ->
  (forall c', at_step w a true false false c' -> wp k Q aborted c') ->
  wp (modify (fun c => c <| egress_ := true |>);; must StartsEgress;; k) Q aborted c.
Proof.
  intros S Hk. apply wp_bind, wp_modify. set (c1 := c <| egress_ := true |>).
  apply (must_at _ w a true false false); [|done].
  apply (at_step_quiet _ _ _ _ _ _ _ _ _ _ c c1 S); [quiet|]. unfold core, booted, c1. members. naive_solver.
Qed.

Lemma space_step_at w a c (Q : unit -> Ctl -> Prop) (k : M unit) :
  at_step w a true false false c ->
  (forall c', at_step w a true true false c' -> wp k Q aborted c') -> wp (space_step;; k) Q aborted c.
Proof.
  intros S Hk. apply wp_bind.
  apply (wp_mono _ (fun _ => at_step w a true true false) _ aborted); [|intros _; apply Hk|done].
  unfold space_step. reads.
  assert (forall c', at_step w a true false false c' ->
    wp (modify (fun c => c <| networkSpace_ := true |>)) (fun _ => at_step w a true true false) aborted c') as Hset.
  { intros c' S'. apply wp_modify. apply (at_step_quiet _ _ _ _ _ _ _ _ _ _ c' _ S'); [quiet|].
    unfold core, booted. members. naive_solver. }
  destruct (handedSpace c).
  - apply wp_bind, wp_modify, Hset. apply (at_step_quiet _ _ _ _ _ _ _ _ _ _ c _ S); [quiet|].
    unfold core, booted. members. naive_solver.
  - by apply (must_at _ w a true false false).
Qed.

Lemma device_step_at w a config c (Q : unit -> Ctl -> Prop) (k : M unit) :
  at_step w a true true false c ->
  (forall c', at_step w a true true true c' -> wp k Q aborted c') -> wp (device_step config;; k) Q aborted c.
Proof.
  intros S Hk. apply wp_bind.
  apply (wp_mono _ (fun _ => at_step w a true true true) _ aborted); [|intros _; apply Hk|done].
  unfold device_step. reads. destruct (handedDevice c) as [d|].
  - apply wp_modify. apply (at_step_quiet _ _ _ _ _ _ _ _ _ _ c _ S).
    + eapply (drift_trans _ _ c <| device_ := Some d |>); quiet.
    + unfold core, booted. members. naive_solver.
  - apply (must_at _ w a true true false); [done|]. intros c1 S1. apply wp_bind. unfold new_name. unfold wp at 1.
    apply wp_bind, wp_emit, wp_modify. set (c2 := c1 <| next_name := _ |>).
    assert (drift (start_effect mode) c1 c2) as D2 by quiet. assert (core c2 = core c1) as F2 by reflexivity.
    set (d := next_name c1). clearbody c2 d.
    apply (at_step_quiet _ _ _ _ _ _ _ _ _ _ c1 _ S1).
    + eapply drift_trans; [exact D2|]. eapply drift_trans; [by apply (drift_log _ c2 (DeviceBuilt d))|quiet].
    + rewrite <- F2. unfold core, booted. members. naive_solver.
Qed.

(** ** The steps together *)

Definition live_state : TunnelState := if bool_decide (mode = ModeRpcOnly) then RpcOnly else Preparing.

(** A session that is up as far as its start takes it. *)
Record live (c : Ctl) : Prop := {
  lv_drift : drift (start_effect mode) c0 c;
  lv_state : state_ c = live_state;
  lv_mode : startMode_ c = mode;
  lv_device : is_Some (device_ c);
  lv_adapter : is_Some (adapter_ c) <-> mode = ModeTunnel;
  lv_clear : netConfig_ c = None /\ pump_ c = false /\ marker c = false;
  lv_parts : networkSpace_ c = true /\ egress_ c = true /\ deadTunnelWatchdog_ c = true /\ providerDevice_ c = None;
  lv_ready : captureReadiness_ c = Some id;
  lv_wanted : Cancelled c id = false;
  lv_kept : killSwitch_ c = killSwitch_ c0 /\ rpcOnlyClamp_ c = rpcOnlyClamp_ c0;
}.

(** How the steps end without an exception: down again, or live. *)
Definition ended (c : Ctl) : Prop :=
  (exists c1, aborted [] c1 /\ stopped true false c1 c) \/ live c.

Lemma ended_stopped w a e s d c1 c : at_step w a e s d c1 -> stopped true false c1 c -> ended c.
Proof.
  intros S St. left. exists c1. split; [by eapply at_step_aborted|done].
Qed.

Lemma halt_at step w a e s d (k : M unit) c :
  at_step w a e s d c -> wp k (fun _ => ended) aborted c ->
  wp (h ← HaltAfterStepLocked step; if h then skip else k) (fun _ => ended) aborted c.
Proof.
  intros S Hk. apply wp_halt; [by eapply at_step_fire| |done]. intros c' St. by eapply ended_stopped.
Qed.

(** The last lines of the steps, on the members. *)
Definition set_live (up : Z) (x : Core) : Core :=
  match x with (_, a2, a3, a4, (err, rh, ai, rs, _, si), a6, a7, a8, a9, a10, (r, r6, ready, _, m)) =>
    (live_state, a2, a3, a4, (err, rh, ai, rs, up, si), a6, a7, a8, a9, a10, (r, r6, ready, true, m)) end.

Lemma goes_live up c c' :
  let tunnel := bool_decide (mode = ModeTunnel) in
  at_step tunnel tunnel true true true c -> Cancelled c id = false ->
  drift (start_effect mode) c c' -> readinesses c' = readinesses c -> core c' = set_live up (core c) -> live c'.
Proof.
  intros tunnel [D B] Hc D' Er F. unfold core, booted in B. destruct B as (_ & Bm & Bk1 & Bk2 & Bd & Ba & Bn & Bp & Be & _ & Bs & _ & Bq & _ & Br & _ & Bk).
  unfold core, set_live in F. injection F. intros. split.
  - by eapply drift_trans.
  - done.
  - congruence.
  - replace (device_ c') with (device_ c). by apply Bd.
  - replace (adapter_ c') with (adapter_ c). rewrite Ba. apply bool_decide_eq_true.
  - split_and!; congruence.
  - split_and!; congruence.
  - congruence.
  - unfold Cancelled in *. by rewrite Er.
  - split; congruence.
Qed.

(** The steps end stopped, live or aborted. *)
Lemma start_steps_spec config :
  at_step false false false false false c0 -> wp (start_steps config id) (fun _ => ended) aborted c0.
Proof.
  intros S. unfold start_steps. reads.
  assert (startMode_ c0 = mode) as -> by (destruct S as [_ S]; unfold core, booted in S; naive_solver).
  set (tunnel := bool_decide (mode = ModeTunnel)).
  assert (forall k : M unit, (forall c, at_step tunnel tunnel false false false c -> wp k (fun _ => ended) aborted c) ->
    wp ((if bool_decide (mode = ModeRpcOnly) then skip else adapter_step);; k) (fun _ => ended) aborted c0) as HA.
  { intros k Hk. subst tunnel. case_bool_decide as Em.
    - rewrite bool_decide_eq_false_2 by congruence. by apply adapter_step_at.
    - assert (mode = ModeRpcOnly) as Et by (clear -Em; by destruct mode).
      rewrite bool_decide_eq_true_2 by done. by apply wp_bind, wp_skip, Hk. }
  apply HA. intros c1 S1. apply (halt_at _ _ _ _ _ _ _ _ S1).
  apply (egress_step_at _ _ _ _ _ S1). intros c2 S2. apply (halt_at _ _ _ _ _ _ _ _ S2).
  apply (space_step_at _ _ _ _ _ S2). intros c3 S3. apply (halt_at _ _ _ _ _ _ _ _ S3).
  apply (device_step_at _ _ _ _ _ _ S3). intros c4 S4. apply (halt_at _ _ _ _ _ _ _ _ S4).
  apply (must_at _ _ _ _ _ _ _ _ _ S4). intros c5 S5.
  apply wp_bind, wp_modify, wp_bind, wp_publish. set (c6 := c5 <| rpcHostPort_ := rpc_listen_hostport config |>).
  assert (at_step tunnel tunnel true true true (published c6)) as S6.
  { apply (at_step_quiet _ _ _ _ _ _ _ _ _ _ c5 _ S5); [eapply (drift_trans _ _ c6); quiet|].
    rewrite core_published. unfold core, booted, c6. members. naive_solver. }
  apply (halt_at _ _ _ _ _ _ _ _ S6). clearbody c6. set (c7 := published c6) in *. clearbody c7. clear c6.
  reads. destruct (Cancelled c7 id) eqn:Ec.
  { run (StopLocked_spec true false c7 (at_step_fire _ _ _ _ _ _ S6)) as c8 St. by eapply ended_stopped. }
  case_bool_decide as Em.
  - apply wp_bind, wp_set_state, wp_bind, wp_modify, wp_bind, wp_publish, wp_modify. right.
    set (c8 := published c7 <| state_ := RpcOnly |>). set (now := clock (log c8)).
    set (c9 := c8 <| upSinceMillis_ := now |>).
    apply (goes_live now c7 _ S6 Ec); [|reflexivity|].
    + quiet.
    + unfold set_live, live_state. rewrite bool_decide_eq_true_2 by done. reflexivity.
  - apply wp_bind, wp_set_state, wp_modify. right. set (c8 := published c7 <| state_ := Preparing |>).
    apply (goes_live (upSinceMillis_ c7) c7 _ S6 Ec); [|reflexivity|].
    + quiet.
    + unfold set_live, live_state. rewrite bool_decide_eq_false_2 by done. reflexivity.
Qed.
End Steps.

(** ** The start's first lines *)

(** The readiness object of this start; [generation] is the count of stops when it began. *)
Definition watched (id : nat) (generation : Z) (c : Ctl) : Prop :=
  is_Some (readinesses c !! id) /\ generation <= stopGeneration_ c /\
  (stopGeneration_ c <> generation -> Cancelled c id = true).

Lemma watched_steady P id generation c c' :
  steady P c c' -> captureReadiness_ c = Some id -> watched id generation c -> watched id generation c'.
Proof.
  intros S Hid (Hr & Hg & Hc). destruct (sd_stop _ _ _ S id Hid Hr) as [Hr' Hc'].
  pose proof (sd_generation _ _ _ S). split_and!; [done|lia|]. intros Hn.
  destruct (decide (stopGeneration_ c = generation)) as [E|E]; [apply Hc'; congruence|].
  by apply (sd_cancel _ _ _ S), Hc.
Qed.

Definition set_handed (h : option nat) (hs : bool) (x : Core) : Core :=
  match x with (a1, a2, a3, a4, a5, a6, a7, a8, a9, _, a11) => (a1, a2, a3, a4, a5, a6, a7, a8, a9, (h, hs), a11) end.

Lemma TakeProviderDeviceLocked_spec config c :
  fire_ok c ->
  wp (TakeProviderDeviceLocked config) (fun _ c' => drift winding_down c c' /\
      exists e n d s r t k h hs, core c' = set_handed h hs (set_provider e n d s r t k (core c))) never c.
Proof.
  intros W. unfold TakeProviderDeviceLocked. reads. destruct (negb _).
  { apply wp_skip. split; [apply drift_refl|]. exists (providerEgress_ c), (providerNetwork_ c), (providerDevice_ c),
      (providerSpace_ c), (providerRequest_ c), (providerTier_ c), (providerNetworkKey_ c), (handedDevice c), (handedSpace c).
    reflexivity. }
  apply wp_bind. run (yield_spec winding_down (winding_background _ winding_refl) c W) as c1 A1.
  apply wp_bind, wp_modify, wp_publish.
  set (c2 := c1 <| providerNetwork_ := _ |> <| providerEgress_ := _ |> <| handedDevice := _ |> <| handedSpace := _ |>
    <| providerDevice_ := _ |> <| providerSpace_ := _ |> <| providerRequest_ := _ |> <| providerTier_ := _ |>
    <| providerNetworkKey_ := _ |>).
  assert (drift winding_down c1 c2) as D2 by quiet.
  assert (core c2 = set_handed (providerDevice_ c1) (providerSpace_ c1)
    (set_provider false false None false no_provider 0 false (core c1))) as F2 by reflexivity. clearbody c2. split.
  - eapply drift_trans; [by apply async_drift|]. eapply drift_trans; [exact D2|quiet].
  - do 9 eexists. rewrite core_published, F2, (as_frame _ _ _ A1). reflexivity.
Qed.

(** What the start's first lines leave. *)
Record fresh_session (config : StartTunnel) (c : Ctl) (id : nat) (c' : Ctl) : Prop := {
  fs_down : down c';
  fs_state : state_ c' = Stopped;
  fs_provider : providerDevice_ c' = None /\ providerSpace_ c' = false;
  fs_ready : captureReadiness_ c' = Some id;
  fs_watched : watched id (stopGeneration_ c) c';
  fs_log : grows calm c c';
  fs_kill : killSwitch_ c' = kill_switch config;
  fs_clamp : rpcOnlyClamp_ c' = rpcOnlyClamp_ c;
  fs_off : wfp_in_force c = WOff -> has_routes c = false -> wfp_in_force c' = WOff;
  fs_pending : SelfRestartPending (budget c) = true -> SelfRestartPending (budget c') = true;
}.

Definition set_ready (id : option nat) (x : Core) : Core :=
  match x with (a1, a2, a3, a4, a5, a6, a7, a8, a9, a10, (r, r6, _, w, m)) =>
    (a1, a2, a3, a4, a5, a6, a7, a8, a9, a10, (r, r6, id, w, m)) end.

(** A stopped controller with a readiness object of its own. *)
Lemma fresh_of config id c c2 c3 c4 :
  drift winding_down c c2 -> fire_ok c -> killSwitch_ c2 = kill_switch config -> rpcOnlyClamp_ c2 = rpcOnlyClamp_ c ->
  has_routes c2 = has_routes c -> stopped false false c2 c3 ->
  core c4 = set_ready (Some id) (core c3) -> wfp_ c4 = wfp_ c3 -> watchdog_ c4 = watchdog_ c3 -> log c4 = log c3 ->
  budget c4 = budget c3 ->
  watched id (stopGeneration_ c) c4 -> fresh_session config c id c4.
Proof.
  intros D W K2 L2 R2 St F Ew Ed El Eb Hw. pose proof (drift_fire _ _ _ D W) as W2.
  destruct (stopped_down _ _ _ _ W2 St) as [Dn E3]. destruct St as [S (e & n & d & s & r & t & k & F3 & Hs & Hd) Po _ _ _ _ _].
  assert (d = None) as -> by (destruct d; [by destruct Hd|done]). rewrite (Hs eq_refl) in F3.
  rewrite F3 in F. unfold core, set_ready, take_down, set_provider in F. cbn in F. injection F. intros. split; try done.
  - destruct Dn as (W3 & Wd & _ & _ & _ & _ & _ & _ & _ & Hf). unfold down, nothing_left, fire_ok, wfp_in_force in *.
    rewrite Ew, Ed. split_and!; try done; try apply W3.
    destruct Hf as [?|Hk]; [by left|right]. unfold core, take_down, set_provider in F3. injection F3. intros. congruence.
  - eapply (grows_trans _ _ c2); [apply (grows_mono winding_down); [by right|apply D]|].
    eapply (grows_trans _ _ c3); [apply S|by apply grows_same].
  - congruence.
  - congruence.
  - intros Eo Er. unfold wfp_in_force in *. rewrite Ew. destruct (dr_policy _ _ _ D) as [E|[Hwd _]].
    + unfold wfp_in_force in E. rewrite E, Eo, R2, Er in Po. unfold firewall_after in Po. cbn in Po.
      rewrite andb_false_r in Po. exact Po.
    + destruct W as [_ W]. specialize (W Hwd). unfold wfp_in_force in W. congruence.
  - intros Hp. rewrite Eb. apply (sd_pending _ _ _ S), (sd_pending _ _ _ (dr_steady _ _ _ D)), Hp.
Qed.

Lemma start_prelude_spec config (k : nat -> M unit) (Q : unit -> Ctl -> Prop) E c :
  fire_ok c -> (forall id c', fresh_session config c id c' -> wp (k id) Q E c') ->
  wp (generation ← gets stopGeneration_;
      modify (fun c => c <| killSwitch_ := kill_switch config |>);;
      TakeProviderDeviceLocked config;;
      StopLocked false false;;
      id ← new_name;
      modify (fun c => c <| readinesses := <[id := new_readiness default_capture_settings]> (readinesses c) |>
        <| captureReadiness_ := Some id |>);;
      moved ← gets (fun c => negb (stopGeneration_ c =? generation));
      (if moved then modify (on_readiness id Cancel) else skip);;
      modify (fun c => c <| lastStopReason_ := StopReasonOf ReasonNone |>);; k id) Q E c.
Proof.
  intros W Hk. apply wp_bind, wp_gets, wp_bind, wp_modify. set (c1 := c <| killSwitch_ := kill_switch config |>).
  assert (drift winding_down c c1) as D1 by quiet.
  assert (killSwitch_ c1 = kill_switch config /\ rpcOnlyClamp_ c1 = rpcOnlyClamp_ c /\ has_routes c1 = has_routes c) as (K1 & L1 & R1) by done.
  clearbody c1. apply wp_bind.
  run (TakeProviderDeviceLocked_spec config c1 (drift_fire _ _ _ D1 W)) as c2 (D2 & e & n & d & s & r & t & k1 & h & hs & F2).
  pose proof (drift_trans _ _ _ _ D1 D2) as D12. clear D1 D2.
  assert (killSwitch_ c2 = kill_switch config /\ rpcOnlyClamp_ c2 = rpcOnlyClamp_ c /\ has_routes c2 = has_routes c) as (K2 & L2 & R2).
  { unfold core, set_handed, set_provider in F2. injection F2. intros.
    split_and!; [congruence|congruence|]. rewrite <- R1. unfold has_routes. by replace (netConfig_ c2) with (netConfig_ c1). }
  apply wp_bind. run (StopLocked_spec false false c2 (drift_fire _ _ _ D12 W)) as c3 St.
  destruct (stopped_down _ _ _ _ (drift_fire _ _ _ D12 W) St) as [Dn E3].
  apply wp_bind. unfold new_name. unfold wp at 1. set (id := next_name c3).
  apply wp_bind, wp_modify.
  match goal with |- wp _ _ _ ?x => set (c5 := x) end.
  assert (core c5 = set_ready (Some id) (core c3)) as F5 by reflexivity.
  assert (readinesses c5 !! id = Some (new_readiness default_capture_settings)) as Hr5 by apply lookup_insert_eq.
  assert (stopGeneration_ c <= stopGeneration_ c5) as Hg5.
  { pose proof (sd_generation _ _ _ (dr_steady _ _ _ D12)). pose proof (sd_generation _ _ _ (so_steady _ _ _ _ St)).
    change (stopGeneration_ c5) with (stopGeneration_ c3). lia. }
  assert (forall c6, core c6 = core c5 -> wfp_ c6 = wfp_ c5 -> watchdog_ c6 = watchdog_ c5 -> log c6 = log c5 ->
    budget c6 = budget c5 -> watched id (stopGeneration_ c) c6 -> wp (k id) Q E c6) as Hdone.
  { intros c6 F6 Ew6 Ed6 El6 Eb6 Hw6. apply Hk.
    by apply (fresh_of config id c c2 c3 c6). }
  clearbody c5. apply wp_bind, wp_gets. destruct (negb (stopGeneration_ c5 =? stopGeneration_ c)) eqn:Em.
  - apply wp_bind, wp_modify, wp_bind, wp_modify. apply Hdone; try done. split_and!.
    + unfold on_readiness. members. rewrite lookup_alter_eq, Hr5. by eexists.
    + exact Hg5.
    + intros _. apply (Cancelled_cancel c5 id). by rewrite Hr5.
  - apply wp_bind, wp_skip, wp_bind, wp_modify. apply Hdone; try done. apply negb_false_iff, Z.eqb_eq in Em. split_and!.
    + members. by rewrite Hr5.
    + exact Hg5.
    + members. done.
Qed.

(** ** The whole start *)

(** The mode a start runs in. *)
Definition mode_of (config : StartTunnel) (c : Ctl) : StartMode :=
  if rpcOnlyClamp_ c && negb (bool_decide (start_mode config = ModeRpcOnly)) then ModeRpcOnly else start_mode config.

(** How a start ends: down, or with a live session that no stop has asked to end. *)
Record start_done (config : StartTunnel) (c c' : Ctl) : Prop := {
  sn_end : (down c' /\ (state_ c' = Stopped \/ state_ c' = StateError)) \/
    (members_ok c' /\ state_ c' = live_state (mode_of config c) /\ stopGeneration_ c' = stopGeneration_ c);
  sn_routes : has_routes c' = false;
  sn_log : grows (start_effect (mode_of config c)) c c';
  sn_off : mode_of config c = ModeRpcOnly -> wfp_in_force c = WOff -> has_routes c = false -> wfp_in_force c' = WOff;
  sn_clamp : rpcOnlyClamp_ c' = rpcOnlyClamp_ c;
}.

(** The members as a tuple, with another error text. *)
Definition set_error (e : text) (x : Core) : Core :=
  match x with (a1, a2, a3, a4, (_, b, d, f, g, h), a6, a7, a8, a9, a10, a11) =>
    (a1, a2, a3, a4, (e, b, d, f, g, h), a6, a7, a8, a9, a10, a11) end.

Lemma down_routes c : down c -> has_routes c = false.
Proof. intros (_ & _ & (_ & _ & En & _) & _). unfold has_routes. by rewrite En. Qed.

Lemma down_error P c c' st e :
  down c -> drift P c c' -> core c' = set_error e (set_state st (core c)) ->
  down c' /\ state_ c' = st /\ wfp_in_force c' = wfp_in_force c.
Proof.
  intros (W & Hw & L & R) D F. destruct (drift_still _ _ _ D Hw) as [Hw' E].
  unfold core, set_error, set_state in F. cbn in F. injection F. intros.
  split; [|done]. unfold down, nothing_left in *. rewrite E.
  split_and!; try (by apply (drift_fire _ _ _ D)); try done; try (destruct_and?; congruence).
Qed.

Lemma refused config c id c6 c' e :
  fresh_session config c id c6 -> drift calm c6 c' -> core c' = set_error e (set_state StateError (core c6)) -> start_done config c c'.
Proof.
  intros Fs D F. destruct (down_error _ _ _ _ _ (fs_down _ _ _ _ Fs) D F) as (Dn & Es & Ew). split.
  - left. split; [done|by right].
  - by apply down_routes.
  - eapply (grows_trans _ _ c6); [eapply grows_mono; [apply calm_start|apply Fs]|].
    eapply grows_mono; [apply calm_start|apply D].
  - intros _ Eo Er. rewrite Ew. by apply (fs_off _ _ _ _ Fs).
  - rewrite <- (fs_clamp _ _ _ _ Fs). unfold core, set_error, set_state in F. injection F. intros. congruence.
Qed.

Lemma refuse_spec config c id c6 c7 why :
  fresh_session config c id c6 -> drift calm c6 c7 -> core c7 = set_state StateError (core c6) ->
  wp (refuse why) (fun _ c' => start_done config c c') never c7.
Proof.
  intros Fs D F. apply wp_modify. apply (refused config c id c6 _ why Fs).
  - eapply drift_trans; [exact D|quiet].
  - rewrite <- F. reflexivity.
Qed.

(** Where the steps begin. *)
Record begun (config : StartTunnel) (c : Ctl) (id : nat) (c0 : Ctl) : Prop := {
  bg_fire : fire_ok c0;
  bg_booted : booted (mode_of config c) (killSwitch_ c0) (rpcOnlyClamp_ c0) id false false false false false (core c0);
  bg_log : grows (start_effect (mode_of config c)) c c0;
  bg_watched : watched id (stopGeneration_ c) c0;
  bg_firewall : wfp_in_force c0 <> WOff -> killSwitch_ c0 = true;
  bg_clamp : rpcOnlyClamp_ c0 = rpcOnlyClamp_ c;
  bg_off : mode_of config c = ModeRpcOnly -> wfp_in_force c = WOff -> has_routes c = false -> wfp_in_force c0 = WOff;
}.

Lemma begun_not_off config c id c0 w :
  begun config c id c0 -> drift (start_effect (mode_of config c)) c0 w ->
  (wfp_in_force c0 = WOff -> wfp_in_force w = WOff) /\ (killSwitch_ w = killSwitch_ c0 -> wfp_in_force w <> WOff -> killSwitch_ w = true).
Proof.
  intros B D. assert (wfp_in_force c0 = WOff -> wfp_in_force w = WOff) as Ho.
  { intros E. destruct (dr_policy _ _ _ D) as [->|[Hw _]]; [done|].
    destruct (bg_fire _ _ _ _ B) as [_ W]. rewrite (W Hw) in E. done. }
  split; [done|]. intros -> Hn. apply (bg_firewall _ _ _ _ B). intros E. by apply Hn, Ho.
Qed.

(** Live steps end the start with the invariant. *)
Lemma live_done config c id c0 c' :
  begun config c id c0 -> live (mode_of config c) id c0 c' -> start_done config c c'.
Proof.
  intros B [D Es Em Ed Ea (En & Ep & Ek) (Esp & Eeg & Edw & Epd) Er Ec (Kk & Kc)].
  destruct (begun_not_off _ _ _ _ _ B D) as [Ho Hk].
  assert (watched id (stopGeneration_ c) c') as (Wr & Wg & Wc).
  { eapply watched_steady; [apply D| |apply B]. rewrite <- (sd_ready _ _ _ (dr_steady _ _ _ D)). exact Er. }
  assert (has_routes c' = false) as Eh by (unfold has_routes; by rewrite En).
  split.
  - right. split_and!; [|done|].
    + unfold live_state in Es. split; try (rewrite Es; case_bool_decide; done).
      * apply (drift_fire _ _ _ D), B.
      * by rewrite Ek, Eh.
      * intros _. unfold session_parts. split_and!; try done. by exists id.
      * rewrite Es. case_bool_decide as Er'; [|done]. intros _. split_and!; [|done|done].
        destruct (adapter_ c'); [|done]. destruct Ea as [Ea _]. rewrite Ea in Er' by done. done.
      * rewrite Es. case_bool_decide as Er'; [by intros []|]. intros _.
        assert (mode_of config c = ModeTunnel) as Et by (by destruct (mode_of config c)). split; [by apply Ea|congruence].
      * intros _. by left.
      * intros _ [E|E]; apply Hk; congruence.
    + destruct (decide (stopGeneration_ c' = stopGeneration_ c)) as [E|E]; [done|]. rewrite (Wc E) in Ec. done.
  - done.
  - eapply grows_trans; [apply B|apply D].
  - intros Hm Eo Eh'. apply Ho. by apply (bg_off _ _ _ _ B).
  - rewrite Kc. apply B.
Qed.

(** A stop of a start that is under way. *)
Lemma stopped_done config c id c0 x c1 finalDisarm c' :
  begun config c id c0 -> aborted (mode_of config c) c0 x c1 -> stopped finalDisarm false c1 c' -> start_done config c c' /\ down c'.
Proof.
  intros B (D & En & Kk & Kc) St. pose proof (drift_fire _ _ _ D (bg_fire _ _ _ _ B)) as W1.
  destruct (stopped_down _ _ _ _ W1 St) as [Dn Es]. split; [|done]. split.
  - left. split; [done|by left].
  - by apply down_routes.
  - eapply grows_trans; [apply B|]. eapply grows_trans; [apply D|]. eapply grows_mono; [apply calm_start|apply St].
  - intros Hm Eo Eh. destruct (begun_not_off _ _ _ _ _ B D) as [Ho _].
    pose proof (so_policy _ _ _ _ St) as Po. rewrite (Ho (bg_off _ _ _ _ B Hm Eo Eh)) in Po.
    assert (has_routes c1 = false) as Eh1 by (unfold has_routes; by rewrite En).
    unfold firewall_after in Po. rewrite Eh1 in Po. cbn in Po. rewrite andb_false_r, orb_true_r in Po. done.
  - rewrite <- (bg_clamp _ _ _ _ B), <- Kc. destruct (so_core _ _ _ _ St) as (e & n & d & s & r & t & k & F & _).
    unfold core, set_provider, take_down in F. injection F. intros. congruence.
Qed.

Lemma done_error config c c1 c' e :
  start_done config c c1 -> down c1 -> drift calm c1 c' -> core c' = set_error e (set_state StateError (core c1)) ->
  start_done config c c'.
Proof.
  intros [_ _ L O Kc] Dn D F. destruct (down_error _ _ _ _ _ Dn D F) as (Dn' & Es & Ew). split.
  - left. split; [done|by right].
  - by apply down_routes.
  - eapply grows_trans; [exact L|]. eapply grows_mono; [apply calm_start|apply D].
  - rewrite Ew. exact O.
  - rewrite <- Kc. unfold core, set_error, set_state in F. injection F. intros. congruence.
Qed.

Lemma start_failed_spec config c id c0 x e c1 :
  begun config c id c0 -> aborted (mode_of config c) c0 x c1 -> wp (start_failed e) (fun _ c' => start_done config c c') never c1.
Proof.
  intros B A. unfold start_failed. apply wp_bind, wp_modify, wp_bind, wp_set_state.
  set (c2 := c1 <| error_ := e |> <| state_ := StateError |>).
  assert (aborted (mode_of config c) c0 x (published c2)) as A2.
  { destruct A as (D & En & Kk & Kc). split_and!; [|exact En|exact Kk|exact Kc].
    eapply drift_trans; [exact D|]. eapply (drift_trans _ _ c2); quiet. }
  clearbody c2. apply wp_bind.
  run (StopLocked_spec false false (published c2) (drift_fire _ _ _ (proj1 A2) (bg_fire _ _ _ _ B))) as c3 St.
  destruct (stopped_done _ _ _ _ _ _ _ _ B A2 St) as [Sd Dn]. apply wp_set_state.
  apply (done_error config c c3 _ (error_ c3) Sd Dn).
  - eapply (drift_trans _ _ c3 <| state_ := StateError |>); quiet.
  - reflexivity.
Qed.

Lemma start_session_spec config c id c0 :
  begun config c id c0 -> wp (catch (start_steps config id) start_failed) (fun _ c' => start_done config c c') never c0.
Proof.
  intros B. apply wp_catch.
  eapply wp_mono; [apply (start_steps_spec (mode_of config c) id c0 (bg_fire _ _ _ _ B))| |].
  - split; [apply drift_refl|apply B].
  - cbv beta. intros _ c' [(c1 & A & St)|L]; [by destruct (stopped_done _ _ _ _ _ _ _ _ B A St)|].
    by apply (live_done config c id c0).
  - cbv beta. intros x c1 A. by apply (start_failed_spec config c id c0 x).
Qed.

(** A session's identity taken from its start's request, on the members. *)
Definition set_request (config : StartTunnel) (m : StartMode) (x : Core) : Core :=
  match x with (_, _, kill, (cl, after, _, _), (_, rh, _, _, up, _), a6, a7, a8, a9, a10, a11) =>
    (Starting, m, kill, (cl, after, excluded_app_paths config, allowlist_mode config),
     ([], rh, sp_instance_id (identity config), rpc_session_id config, up, session_identity (identity config)), a6, a7, a8, a9, a10, a11) end.

(** The same in two updates, around the published state. *)
Definition set_ids (config : StartTunnel) (x : Core) : Core :=
  match x with (a1, a2, a3, (cl, after, _, _), (err, rh, _, _, up, _), a6, a7, a8, a9, a10, a11) =>
    (a1, a2, a3, (cl, after, excluded_app_paths config, allowlist_mode config),
     (err, rh, sp_instance_id (identity config), rpc_session_id config, up, session_identity (identity config)), a6, a7, a8, a9, a10, a11) end.
Definition set_mode (m : StartMode) (x : Core) : Core :=
  match x with (a1, _, a3, a4, a5, a6, a7, a8, a9, a10, a11) => (a1, m, a3, a4, a5, a6, a7, a8, a9, a10, a11) end.

(** The last lines before the steps. *)
Lemma begun_quiet config c id c6 c7 :
  fresh_session config c id c6 -> drift calm c6 c7 -> core c7 = set_request config (mode_of config c) (core c6) ->
  begun config c id c7.
Proof.
  intros Fs D F. destruct (fs_down _ _ _ _ Fs) as (W & Hw & L & Em & _ & _ & _ & _ & _ & Hf).
  destruct (drift_still _ _ _ D Hw) as [Hw7 E7]. destruct L as (Ed & Ea & En & Ep & Ee & Ewt & Es & Esp & Edw).
  unfold core, set_request in F. injection F. intros. split.
  - by apply (drift_fire _ _ _ D).
  - unfold core, booted. destruct (fs_provider _ _ _ _ Fs) as [Epd Eps]. pose proof (fs_ready _ _ _ _ Fs).
    split_and!; try congruence; split; try done; [intros [? Hx]|intros [? Hx]]; congruence.
  - eapply grows_trans; [eapply grows_mono; [apply calm_start|apply Fs]|]. eapply grows_mono; [apply calm_start|apply D].
  - eapply watched_steady; [apply D|apply Fs|apply Fs].
  - rewrite E7. intros Hn. destruct Hf as [?|?]; [done|congruence].
  - rewrite <- (fs_clamp _ _ _ _ Fs). congruence.
  - intros _ Eo Eh. rewrite E7. by apply (fs_off _ _ _ _ Fs).
Qed.

Lemma begun_connecting config c id c7 ok c8 :
  begun config c id c7 -> mode_of config c = ModeTunnel -> wfp_in_force c7 <> WOff ->
  applied (start_effect (mode_of config c)) WConnecting ok c7 c8 -> begun config c id c8.
Proof.
  intros [W B L Wt Fw Kc O] Hm Hn [S F Po Wa Of Mi]. split.
  - by apply (sd_fire _ _ _ S).
  - rewrite F. by rewrite (framed (f := killSwitch_) _ _ F), (framed (f := rpcOnlyClamp_) _ _ F).
  - eapply grows_trans; [exact L|apply S].
  - eapply watched_steady; [exact S| |exact Wt]. unfold core, booted in B. naive_solver.
  - intros _. rewrite (framed (f := killSwitch_) _ _ F). by apply Fw.
  - by rewrite (framed (f := rpcOnlyClamp_) _ _ F).
  - congruence.
Qed.

Lemma start_body_spec config c :
  fire_ok c -> wp (start_body config) (fun _ c' => start_done config c c') never c.
Proof.
  intros W. unfold start_body. eapply start_prelude_spec; [done|]. intros id c6 Fs.
  apply wp_bind, wp_gets. destruct (SelfRestartPending (budget c6)).
  { apply (wp_state calm). intros c7 D7 F7 _. by apply (refuse_spec config c id c6). }
  apply wp_bind. unfold wp at 1, Sweep. pose proof (Sweep_pending (budget c6)) as Hb.
  destruct (SweepAbandonedTeardowns (budget c6)) as [b swept]. cbn [fst] in Hb.
  assert (drift calm c6 c6 <| budget := b |>) as Db by (apply drift_budget; by rewrite Hb).
  destruct (0 <? outstanding swept)%nat.
  { apply (wp_state calm). intros c7 D7 F7 _. apply wp_bind. unfold wp at 1, RequestRestart.
    match goal with |- context [RequestSelfRestart ?x ?w] => pose proof (RequestSelfRestart_pending x w) as Hr;
      destruct (RequestSelfRestart x w) as [b' restarting] end.
    apply (refuse_spec config c id c6); [done| |exact F7].
    eapply drift_trans; [exact Db|]. eapply drift_trans; [exact D7|by apply drift_budget]. }
  apply (wp_step calm _ (set_ids config)); [quiet|reflexivity|]. intros c1 D1 F1.
  apply (wp_state calm). intros c2 D2 F2 _.
  apply (wp_step calm _ (set_mode (mode_of config c) ∘ set_error [])); [quiet| |].
  { unfold mode_of. rewrite <- (fs_clamp _ _ _ _ Fs).
    assert (rpcOnlyClamp_ c2 = rpcOnlyClamp_ c6) as <- by
      (unfold core, set_state, set_ids in F1, F2; cbn in F1, F2; congruence).
    reflexivity. }
  intros c3 D3 F3. apply (wp_published calm). intros c7 D7 F7 _.
  assert (begun config c id c7) as B.
  { apply (begun_quiet _ _ _ _ _ Fs).
    - eapply drift_trans; [exact Db|]. eapply drift_trans; [exact D1|]. eapply drift_trans; [exact D2|]. by eapply drift_trans.
    - rewrite F7, F3, F2, F1. change (core c6 <| budget := b |>) with (core c6). unfold compose. by untuple c6. }
  clear D1 D2 D3 D7 F1 F2 F3 F7. reads. apply wp_bind.
  apply (wp_mono _ (fun _ c8 => begun config c id c8) _ never); [|intros _; apply start_session_spec|done].
  destruct (negb (bool_decide (startMode_ c7 = ModeRpcOnly)) && _) eqn:E; [|by apply wp_skip].
  apply andb_true_iff in E as [Em%negb_true_iff%bool_decide_eq_false Ew%negb_true_iff%bool_decide_eq_false].
  assert (mode_of config c = ModeTunnel) as Et.
  { pose proof (bg_booted _ _ _ _ B) as Bt. unfold core, booted in Bt. destruct_and? Bt. destruct (mode_of config c); congruence. }
  apply wp_bind. run (ApplyWfpLocked_spec (start_effect (mode_of config c)) WConnecting c7) as ok c8 A8; [done|apply B|].
  apply wp_skip. by apply (begun_connecting _ _ _ _ _ _ B Et Ew A8).
Qed.

(** The guard's destructor. *)
Lemma CloseHandedOffDeviceLocked_spec c :
  fire_ok c ->
  wp CloseHandedOffDeviceLocked (fun _ c' => drift winding_down c c' /\ core c' = set_handed None false (core c) /\
      (mirror_ok c -> mirror_ok c')) never c.
Proof.
  intros W. unfold CloseHandedOffDeviceLocked. reads.
  destruct (_ && _) eqn:E.
  { apply andb_true_iff in E as [Ed%bool_decide_eq_true Es%negb_true_iff]. apply wp_skip.
    split_and!; [apply drift_refl| |done]. unfold core, set_handed. by rewrite Ed, Es. }
  apply wp_bind, wp_modify, wp_bind. set (c1 := c <| handedDevice := None |> <| handedSpace := false |>).
  assert (drift winding_down c c1) as D1 by quiet. assert (core c1 = set_handed None false (core c)) as F1 by reflexivity.
  assert (mirror_ok c -> mirror_ok c1) as M1 by done. clearbody c1.
  run (run_bounded_spec winding_down winding_refl (handedDevice c) c1 (drift_fire _ _ _ D1 W)) as fin c2 A2.
  apply (wp_mono _ (fun _ c3 => async winding_down c1 c3) _ never); [| |done].
  { destruct (fst fin); [|by apply wp_skip].
    run (close_device_spec winding_down winding_refl (handedDevice c) c2) as c3 A3. exact (async_trans _ _ _ _ A2 A3). }
  intros _ c3 A3. split_and!.
  - eapply drift_trans; [exact D1|by apply async_drift].
  - by rewrite (as_frame _ _ _ A3).
  - intros M. by apply (as_mirror _ _ _ A3), M1.
Qed.

(** What a start leaves when it gives the lock back. *)
Record start_left (config : StartTunnel) (c c' : Ctl) : Prop := {
  sl_ok : session_ok c';
  sl_state : state_ c' = Stopped \/ state_ c' = StateError \/ state_ c' = live_state (mode_of config c);
  sl_overtaken : IsSessionLive (state_ c') = true -> stopGeneration_ c' <> stopGeneration_ c -> session_cancelled c';
  sl_routes : has_routes c' = false;
  sl_log : grows (start_effect (mode_of config c)) c c';
  sl_off : mode_of config c = ModeRpcOnly -> wfp_in_force c = WOff -> has_routes c = false -> wfp_in_force c' = WOff;
  sl_clamp : rpcOnlyClamp_ c' = rpcOnlyClamp_ c;
}.

Lemma StartLocked_spec config c :
  fire_ok c -> wp (StartLocked config) (fun _ c' => start_left config c c') never c.
Proof.
  intros W. unfold StartLocked. apply wp_bind. run (start_body_spec config c W) as c1 [En Ro Lg Off Kc].
  assert (fire_ok c1) as W1 by (destruct En as [[Dn _]|[M _]]; [apply Dn|apply M]).
  apply wp_bind, (wp_status winding_down). intros s c2 D2 F2 M2.
  apply wp_bind. run (CloseHandedOffDeviceLocked_spec c2 (drift_fire _ _ _ D2 W1)) as c3 (D3 & F3 & M3). apply wp_ret.
  pose proof (drift_trans _ _ _ _ D2 D3) as D. rewrite F2 in F3. clear D2 D3 F2.
  unfold core, set_handed in F3. injection F3. intros.
  assert (held c3 = held c1) as Eh by (unfold held; congruence).
  assert (session_ok c3) as Ok.
  { split_and!; [|by apply M3|done|done]. apply (drift_members_ok _ _ _ D Eh).
    - intros L. destruct En as [[_ [E|E]]|[M _]]; [by rewrite E in L|by rewrite E in L|].
      destruct (mo_live _ M L) as (_ & _ & _ & _ & ? & _). congruence.
    - destruct En as [[Dn Es]|[M _]]; [by apply down_members|done]. }
  assert (state_ c3 = state_ c1) as Es by done. split.
  - done.
  - rewrite Es. destruct En as [[_ [?|?]]|(_ & ? & _)]; auto.
  - rewrite Es. intros L Hg. destruct En as [[_ [E|E]]|(M & _ & E)]; [by rewrite E in L|by rewrite E in L|].
    destruct (mo_live _ M L) as (_ & _ & _ & _ & _ & id & Hid & Hr). exists id. split; [congruence|].
    apply (sd_stop _ _ _ (dr_steady _ _ _ D) id Hid Hr). congruence.
  - rewrite <- Ro. unfold has_routes. by replace (netConfig_ c3) with (netConfig_ c1) by congruence.
  - eapply grows_trans; [exact Lg|]. eapply grows_mono; [apply winding_start|apply D].
  - intros Hm Eo Er. specialize (Off Hm Eo Er). destruct (dr_policy _ _ _ D) as [->|[Hw _]]; [done|].
    destruct W1 as [_ W1]. rewrite (W1 Hw) in Off. done.
  - congruence.
Qed.

(** ** A service that is leaving *)

(** What a start of a service that restarts itself answers. *)
Definition leaving_text : text := txt "this service is already restarting itself — reconnecting in a few seconds".

Record left_alone (c c' : Ctl) : Prop := {
  la_state : state_ c' = StateError;
  la_down : nothing_left c';
  la_error : error_ c' = leaving_text;
  la_log : grows calm c c';
}.

Lemma start_body_leaving config c :
  fire_ok c -> SelfRestartPending (budget c) = true ->
  wp (start_body config) (fun _ c' => left_alone c c' /\ fire_ok c') never c.
Proof.
  intros W Hp. unfold start_body. eapply start_prelude_spec; [done|]. intros id c6 Fs.
  apply wp_bind, wp_gets. rewrite (fs_pending _ _ _ _ Fs Hp).
  apply (wp_state calm). intros c7 D7 F7 _. unfold refuse. apply wp_modify.
  match goal with |- left_alone _ (c7 <| error_ := ?e |>) /\ _ => set (c8 := c7 <| error_ := e |>) end.
  assert (drift calm c6 c8) as D8 by (eapply drift_trans; [exact D7|quiet]).
  assert (core c8 = set_error leaving_text (set_state StateError (core c6))) as F8 by (rewrite <- F7; reflexivity).
  clearbody c8. destruct (down_error _ _ _ _ _ (fs_down _ _ _ _ Fs) D8 F8) as (Dn & Es & _).
  split; [|apply Dn]. split.
  - done.
  - apply Dn.
  - unfold core, set_error, set_state in F8. injection F8. intros. done.
  - eapply grows_trans; [apply Fs|apply D8].
Qed.

Lemma StartLocked_leaving config c :
  fire_ok c -> SelfRestartPending (budget c) = true -> wp (StartLocked config) (fun _ c' => left_alone c c') never c.
Proof.
  intros W Hp. unfold StartLocked. apply wp_bind. run (start_body_leaving config c W Hp) as c1 ([Es L Ee G] & W1).
  apply wp_bind, (wp_status winding_down). intros s c2 D2 F2 _.
  apply wp_bind. run (CloseHandedOffDeviceLocked_spec c2 (drift_fire _ _ _ D2 W1)) as c3 (D3 & F3 & _). apply wp_ret.
  rewrite F2 in F3. unfold core, set_handed in F3. injection F3. intros. unfold nothing_left in *. destruct_and! L.
  split; [congruence|unfold nothing_left; split_and!; congruence|congruence|].
  eapply grows_trans; [exact G|]. eapply grows_mono; [intros e; by right|].
  eapply grows_trans; [apply D2|apply D3].
Qed.
End Start.
