(* ===== verification/ControllerCapture.v ===== *)
(** The capture: the stages that take the machine's traffic, the rollback, and how an
    activation ends. *)

From S2P Require Import Prelude.
From S2P Require Import CxxText.
From S2P Require Import Wfp.
From S2P Require Import WfpPolicy.
From S2P Require Import DeadTunnel.
From S2P Require Import StopBudget.
From S2P Require Import Capture.
From S2P Require Import Gesture.
From S2P Require Import Provide.
From S2P Require Import Controller.
From S2P Require Import ControllerFacts.
From S2P Require Import ControllerStop.
From S2P Require Import ControllerSession.
From S2P Require Import ControllerStart.

(** Any effect. *)
Definition any (_ : Effect) : Prop := True.

(** The members a capture changes. *)
Definition set_capture (pump split : bool) (net : option NetConfig) (r r6 : list text) (x : Core) : Core :=
  match x with (a1, a2, a3, a4, a5, (d, a, _, _), (e, w, ns, _), a8, a9, a10, (_, _, ready, dw, _)) =>
    (a1, a2, a3, a4, a5, (d, a, net, pump), (e, w, ns, split), a8, a9, a10,
     (r, r6, ready, dw, bool_decide (net <> None))) end.

(** The same, one member at a time. *)
Definition set_split (s : bool) (x : Core) : Core :=
  match x with (a1, a2, a3, a4, a5, a6, (e, w, n, _), a8, a9, a10, a11) =>
    (a1, a2, a3, a4, a5, a6, (e, w, n, s), a8, a9, a10, a11) end.
Definition set_pump (p : bool) (x : Core) : Core :=
  match x with (a1, a2, a3, a4, a5, (d, a, n, _), a7, a8, a9, a10, a11) =>
    (a1, a2, a3, a4, a5, (d, a, n, p), a7, a8, a9, a10, a11) end.
Definition set_net (n : option NetConfig) (x : Core) : Core :=
  match x with (a1, a2, a3, a4, a5, (d, a, _, p), a7, a8, a9, a10, a11) =>
    (a1, a2, a3, a4, a5, (d, a, n, p), a7, a8, a9, a10, a11) end.
Definition set_mark (m : bool) (x : Core) : Core :=
  match x with (a1, a2, a3, a4, a5, a6, a7, a8, a9, a10, (r, r6, ready, w, _)) =>
    (a1, a2, a3, a4, a5, a6, a7, a8, a9, a10, (r, r6, ready, w, m)) end.
Definition set_resolvers (r r6 : list text) (x : Core) : Core :=
  match x with (a1, a2, a3, a4, a5, a6, a7, a8, a9, a10, (_, _, ready, w, m)) =>
    (a1, a2, a3, a4, a5, a6, a7, a8, a9, a10, (r, r6, ready, w, m)) end.

Lemma set_capture_twice p s n r r6 p' s' n' r' r6' x :
  set_capture p' s' n' r' r6' (set_capture p s n r r6 x) = set_capture p' s' n' r' r6' x.
Proof. unfold Core in x. by repeat match goal with y : (_ * _)%type |- _ => destruct y end. Qed.

Section Capturing.
Context `{Winsock} `{Bfe} `{Platform} `{Json}.
Context (c0 : Ctl).

(** A capture of the session of [c0] under way: its routes are marked as long as they are in. *)
Definition capturing (pump : bool) (net : option NetConfig) (c : Ctl) : Prop :=
  steady any c0 c /\ exists split r r6, core c = set_capture pump split net r r6 (core c0).

Lemma capturing_reads pump net c :
  capturing pump net c ->
  state_ c = state_ c0 /\ startMode_ c = startMode_ c0 /\ killSwitch_ c = killSwitch_ c0 /\ device_ c = device_ c0 /\
  adapter_ c = adapter_ c0 /\ netConfig_ c = net /\ pump_ c = pump /\ egress_ c = egress_ c0 /\
  networkSpace_ c = networkSpace_ c0 /\ providerDevice_ c = providerDevice_ c0 /\ handedDevice c = handedDevice c0 /\
  handedSpace c = handedSpace c0 /\ captureReadiness_ c = captureReadiness_ c0 /\
  deadTunnelWatchdog_ c = deadTunnelWatchdog_ c0 /\ marker c = has_routes c.
Proof.
  intros (S & s & r & r6 & F). unfold core, set_capture in F. injection F. intros. split_and!; try done.
  unfold has_routes. assert (netConfig_ c = net) as -> by done. done.
Qed.

Lemma capturing_steady pump net c c' :
  capturing pump net c -> steady any c c' -> core c' = core c -> capturing pump net c'.
Proof. intros (S & s & r & r6 & F) S' F'. split; [by eapply steady_trans|]. exists s, r, r6. by rewrite F'. Qed.

Lemma capturing_async pump net c c' : capturing pump net c -> async any c c' -> capturing pump net c'.
Proof. intros C A. apply (capturing_steady _ _ c); [done|apply A|apply A]. Qed.

Lemma capturing_set pump net c p s n r r6 c' :
  capturing pump net c -> steady any c c' -> core c' = set_capture p s n r r6 (core c) -> capturing p n c'.
Proof.
  intros (S & s0 & r0 & r60 & F) S' F'. split; [by eapply steady_trans|]. exists s, r, r6. by rewrite F', F, set_capture_twice.
Qed.

(** ** The rollback *)

Lemma steady_any P c c' : steady P c c' -> steady any c c'.
Proof. by apply steady_mono. Qed.

(** What a rollback leaves. *)
Record rolled_back (pump : bool) (c : Ctl) : Prop := {
  rb_capturing : capturing pump None c;
  rb_mirror : mirror_ok c;
  rb_firewall : wfp_in_force c <> WOff -> killSwitch_ c = true;
}.

Lemma capture_rollback_spec id pump net c :
  fire_ok c -> capturing pump net c -> wp (capture_rollback id) (fun _ => rolled_back pump) never c.
Proof.
  intros W C. unfold capture_rollback. reads. apply wp_bind.
  run (RevertMachineStateLocked_spec false (has_routes c) c W) as c1 [S1 F1 Po Wa Mi _ _ _].
  assert (capturing pump None c1) as C1.
  { pose proof C as (_ & s & r & r6 & F). eapply (capturing_set _ _ c pump s None [] []); [exact C|by eapply steady_any|].
    rewrite F1, core_unrouted, F. by untuple c0. }
  assert (wfp_in_force c1 <> WOff -> killSwitch_ c1 = true) as K1.
  { assert (killSwitch_ c1 = killSwitch_ c) as ->.
    { destruct (capturing_reads _ _ _ C1) as (_ & _ & -> & _), (capturing_reads _ _ _ C) as (_ & _ & -> & _). done. }
    intros Hn. unfold firewall_after in Po. destruct (killSwitch_ c); [done|]. cbn in Po. done. }
  reads. destruct (_ && _ && _) eqn:E; [|by apply wp_skip].
  apply andb_true_iff in E as [[_ Ek]%andb_true_iff _]. apply wp_bind.
  run (ApplyWfpLocked_spec any WConnecting c1) as ok c2 [S2 F2 Po2 _ _ Mi2 _]; [done|by apply (sd_fire _ _ _ S1)|].
  apply wp_skip. split; [|by apply Mi2|].
  - by eapply capturing_steady.
  - intros _. by rewrite (framed (f := killSwitch_) _ _ F2).
Qed.

(** ** The stages *)

Context (W0 : fire_ok c0).

Lemma capturing_fire pump net c : capturing pump net c -> fire_ok c.
Proof. intros [S _]. by apply (sd_fire _ _ _ S). Qed.

(** What an exception leaves. *)
Definition thrown (_ : text) (c : Ctl) : Prop := exists pump net, capturing pump net c.

Lemma any_background e : background e -> any e.
Proof. done. Qed.

Lemma blocking_capturing {R} q pump net (k : bool -> M R) (Q : R -> Ctl -> Prop) E c :
  capturing pump net c -> (forall b c', async any c c' -> capturing pump net c' -> wp (k b) Q E c') -> wp (bind (blocking q) k) Q E c.
Proof.
  intros C Hk. apply wp_bind. run (blocking_spec _ any_background q c (capturing_fire _ _ _ C)) as b c' A.
  apply Hk; [done|]. by eapply capturing_async.
Qed.

Lemma async_asks q c : wp (ask q) (fun _ c' => async any c c') never c.
Proof. by apply wp_ask, async_ask. Qed.

Lemma throw_capturing {A} e pump net (Q : A -> Ctl -> Prop) c : capturing pump net c -> wp (throw e) Q thrown c.
Proof. intros C. apply wp_throw. by exists pump, net. Qed.

Lemma prepare_stage_spec pump net c :
  capturing pump net c -> wp prepare_stage (fun goes c' => goes = true /\ capturing true net c') thrown c.
Proof.
  intros C. unfold prepare_stage. apply (blocking_capturing _ _ _ _ _ _ _ C). intros opens c1 _ C1.
  apply (wp_step any _ (set_split opens)); [quiet|reflexivity|]. intros c2 D2 F2.
  assert (capturing pump net c2) as C2.
  { pose proof C1 as (_ & s & r & r6 & F). eapply (capturing_set _ _ c1 pump opens net r r6); [exact C1|apply D2|].
    rewrite F2, F. by untuple c0. }
  clear F2 D2 C1. reads.
  assert (pump_ c2 = pump) as -> by (by destruct (capturing_reads _ _ _ C2) as (_ & _ & _ & _ & _ & _ & ? & _)).
  apply wp_bind. apply (wp_mono _ (fun _ c' => capturing true net c') _ thrown); [|by intros _ c3 C3; apply wp_ret|done].
  destruct pump; [by apply wp_skip|].
  apply (wp_step any _ (set_pump true)); [quiet|reflexivity|]. intros c3 D3 F3.
  assert (capturing true net c3) as C3.
  { pose proof C2 as (_ & s & r & r6 & F). eapply (capturing_set _ _ c2 true s net r r6); [exact C2|apply D3|].
    rewrite F3, F. by untuple c0. }
  apply (blocking_capturing _ _ _ _ _ _ _ C3). intros starts c4 _ C4.
  destruct starts; [by apply wp_skip|by eapply throw_capturing].
Qed.

Lemma firewall_stage_spec pump net c :
  capturing pump net c -> wp firewall_stage (fun goes c' => goes = true /\ capturing pump net c') thrown c.
Proof.
  intros C. unfold firewall_stage. apply (blocking_capturing _ _ _ _ _ _ _ C). intros egress c1 _ C1.
  destruct (negb egress); [by eapply throw_capturing|]. apply wp_bind.
  eapply wp_mono; [apply (ApplyWfpLocked_spec any WConnecting c1); [done|by eapply capturing_fire]| |done].
  cbv beta. intros ok c2 A. assert (capturing pump net c2) as C2 by (eapply capturing_steady; [done|apply A|apply A]).
  reads. destruct (negb ok && killSwitch_ c2); [by eapply throw_capturing|by apply wp_ret].
Qed.

(** The routes and DNS are in. *)
Definition routed (c : Ctl) : Prop :=
  mirror_ok c /\ exists n, DnsApplied n = true /\ capturing true (Some n) c.

Lemma wp_emits {R} (e : Effect) (k : M R) (Q : R -> Ctl -> Prop) E c :
  (forall c', async any c c' -> wp k Q E c') -> wp (emit e;; k) Q E c.
Proof. intros Hk. by apply wp_bind, wp_emit, Hk, async_log. Qed.

Lemma network_stage_spec settings net c :
  capturing true net c -> wp (network_stage settings) (fun goes c' => goes = true /\ routed c') thrown c.
Proof.
  intros C. pose proof C as (_ & s & r & r6 & F). unfold network_stage, SetActiveMarker.
  apply (wp_step any _ (set_net (Some (mkNetConfig false false)))); [quiet|reflexivity|]. intros c1 D1 F1.
  apply wp_bind, (wp_step any _ (set_mark true)); [quiet|reflexivity|]. intros c2 D2 F2.
  apply wp_emit. match goal with |- wp _ _ _ ?x => assert (drift any c2 x /\ core x = core c2) as [D3 F3] by
    (split; [by apply drift_log|done]); destruct (ex_intro (fun y => y = x) _ eq_refl) as [c3 E3]; rewrite <- E3 in D3, F3 |- *; clear E3 end.
  apply wp_emits. intros c4 A4. pose proof (as_frame _ _ _ A4) as F4. pose proof (as_steady _ _ _ A4) as D4.
  assert (capturing true (Some (mkNetConfig false false)) c4) as C4.
  { eapply (capturing_set _ _ c true s _ r r6); [exact C| |].
    - eapply steady_trans; [apply D1|]. eapply steady_trans; [apply D2|]. eapply steady_trans; [apply D3|exact D4].
    - rewrite F4, F3, F2, F1, F. by untuple c0. }
  clear F4 F3 F2 F1 F D1 D2 D3 D4. apply (blocking_capturing _ _ _ _ _ _ _ C4). intros applies c5 _ C5.
  apply wp_bind. run (async_asks AppliesDns c5) as dns c6 A6. apply wp_bind. run (async_asks AppliesIpv6 c6) as v6 c7 A7.
  pose proof (capturing_async _ _ _ _ (capturing_async _ _ _ _ C5 A6) A7) as C7. clear C4 C5 A6 A7.
  apply (wp_step any _ (set_net (Some (mkNetConfig dns v6)))); [quiet|reflexivity|]. intros c8 D8 F8.
  assert (capturing true (Some (mkNetConfig dns v6)) c8) as C8.
  { pose proof C7 as (_ & s' & r' & r6' & F7). eapply (capturing_set _ _ c7 true s' _ r' r6'); [exact C7|apply D8|].
    rewrite F8, F7. by untuple c0. }
  destruct (negb applies); [by eapply throw_capturing|].
  apply (wp_step any _ (set_resolvers (dns_servers_v4 settings) (if v6 then dns_servers_v6 settings else [])));
    [quiet|reflexivity|]. intros c9 D9 F9.
  apply (wp_published any). intros c10 D10 F10 M10.
  assert (capturing true (Some (mkNetConfig dns v6)) c10) as C10.
  { pose proof C8 as (_ & s' & r' & r6' & F8'). eapply (capturing_set _ _ c8 true s'); [exact C8|eapply steady_trans; [apply D9|apply D10]|].
    rewrite F10, F9, F8'. by untuple c0. }
  destruct dns; cbn [negb]; [|by eapply throw_capturing]. apply wp_ret. split; [done|]. split; [exact M10|]. by exists (mkNetConfig true v6).
Qed.

(** The firewall lets only the tunnel through, or was never up. *)
Definition sealed (c : Ctl) : Prop := routed c /\ (wfp_in_force c = WOff \/ wfp_in_force c = WConnected).

Lemma routed_async c c' : routed c -> async any c c' -> routed c'.
Proof.
  intros (M & n & Hn & C) A. split; [by apply (as_mirror _ _ _ A)|]. exists n. split; [done|]. by eapply capturing_async.
Qed.

Lemma routed_fire c : routed c -> fire_ok c.
Proof. intros (_ & n & _ & C). by eapply capturing_fire. Qed.

Lemma sealed_still c : sealed c -> watchdog_ c = false.
Proof.
  intros [R Hw]. destruct (watchdog_ c) eqn:E; [|done]. destruct (routed_fire _ R) as [_ W].
  rewrite (W E) in Hw. by destruct Hw.
Qed.

Lemma sealed_async c c' : sealed c -> async any c c' -> sealed c'.
Proof.
  intros Se A. pose proof (sealed_still _ Se) as Hw. destruct Se as [R Hf]. split; [by eapply routed_async|].
  by destruct (drift_still _ _ _ (async_drift _ _ _ A) Hw) as [_ ->].
Qed.

(** A debug halt inside the capture took the session down. *)
Definition halted (c : Ctl) : Prop := exists pump net c1, capturing pump net c1 /\ stopped true false c1 c.

Lemma halt_sealed step (k : M bool) (Q : bool -> Ctl -> Prop) E c :
  sealed c -> (forall c', halted c' -> Q false c') -> wp k Q E c ->
  wp (h ← HaltAfterStepLocked step; if h then ret false else k) Q E c.
Proof.
  intros Se Hh Hk. apply wp_bind. run (HaltAfterStepLocked_spec step c (routed_fire _ (proj1 Se))) as h c' Hc.
  destruct h; [|by subst]. apply wp_ret, Hh. destruct Se as [(_ & n & _ & C) _]. by exists true, (Some n), c.
Qed.

Lemma connected_stage_spec c :
  routed c -> wp connected_stage (fun goes c' => if goes : bool then sealed c' else halted c') thrown c.
Proof.
  intros R. unfold connected_stage. reads. apply wp_bind.
  apply (wp_mono _ (fun _ => sealed) _ thrown); [| |done].
  { case_bool_decide as Ew; [apply wp_skip; split; [done|by left]|]. apply wp_bind.
    eapply wp_mono; [apply (ApplyWfpLocked_spec any WConnected c); [done|by apply routed_fire]| |done].
    cbv beta. intros ok c1 A. destruct R as (M & n & Hn & C).
    assert (capturing true (Some n) c1) as C1 by (eapply capturing_steady; [done|apply A|apply A]).
    destruct ok; [apply wp_skip|by eapply throw_capturing]. split.
    - split; [by apply A|]. by exists n.
    - right. apply (ap_policy _ _ _ _ _ A). }
  intros _ c1 Se. apply wp_emits. intros c2 A2. pose proof (sealed_async _ _ Se A2) as Se2.
  apply halt_sealed; [done|done|]. apply halt_sealed; [done|done|]. apply wp_bind.
  eapply wp_mono; [apply (HaltAfterStepLocked_spec 8 c2), routed_fire, Se2| |done].
  cbv beta. intros h c3 Hh. apply wp_ret. destruct h; cbn [negb]; [|by subst].
  destruct Se2 as [(_ & n & _ & C) _]. by exists true, (Some n), c2.
Qed.

Lemma readiness_current_spec id ticket c :
  fire_ok c -> wp (readiness_current id ticket) (fun _ c' => async any c c') never c.
Proof.
  intros W. unfold readiness_current. apply wp_bind. run (interfere_spec any any_background id c W) as c1 A1.
  by apply wp_gets.
Qed.

(** A session that is down, without a start that holds a device back. *)
Definition settled (c : Ctl) : Prop :=
  down c /\ state_ c = Stopped /\ mirror_ok c /\ handedDevice c = handedDevice c0 /\ handedSpace c = handedSpace c0.

Lemma rollback_halted id c : halted c -> wp (capture_rollback id) (fun _ => settled) never c.
Proof.
  intros (pump & net & c1 & C1 & St). pose proof (capturing_fire _ _ _ C1) as W1.
  destruct (stopped_down _ _ _ _ W1 St) as [Dn Es]. pose proof (so_policy _ _ _ _ St) as Eo. cbn in Eo.
  assert (handedDevice c = handedDevice c0 /\ handedSpace c = handedSpace c0) as [Hd Hs].
  { destruct (so_core _ _ _ _ St) as (e & n & d & s & r & t & k & F & _), C1 as (_ & s1 & r1 & r61 & F1). rewrite F1 in F.
    unfold core, set_provider, take_down, set_capture in F. cbn in F. injection F. intros. done. }
  destruct Dn as (W & Hw & (Ed & Ea & En & Ep & Ee & Ewt & Ens & Esp & Edw) & Em & Dn).
  assert (has_routes c = false) as Er by (unfold has_routes; by rewrite En).
  unfold capture_rollback. reads. rewrite Er. apply wp_bind.
  run (RevertMachineStateLocked_spec false false c W) as c2 [S2 F2 Po _ Mi _ _ _].
  assert (wfp_in_force c2 = WOff) as Eo2.
  { rewrite Eo in Po. unfold firewall_after in Po. cbn in Po. rewrite andb_false_r in Po. exact Po. }
  reads. rewrite bool_decide_eq_true_2 by done. rewrite andb_false_r. apply wp_skip.
  rewrite core_unrouted in F2. unfold core, unroute in F2. cbn in F2. injection F2. intros.
  assert (watchdog_ c2 = false) as Hw2.
  { destruct (watchdog_ c2) eqn:E; [|done]. destruct (sd_fire _ _ _ S2 W) as [_ W2]. rewrite (W2 E) in Eo2. done. }
  destruct_and! Dn. split; [|split_and!; try done; congruence].
  unfold down, nothing_left. split_and!; try (by left); try apply (sd_fire _ _ _ S2 W); congruence.
Qed.

(** How a run of stages ends. *)
Definition stages_end (done_all : Ctl -> Prop) (result : option CaptureResult) (c : Ctl) : Prop :=
  match result with
  | None => done_all c
  | Some Waiting => exists pump, rolled_back pump c
  | Some Halted => settled c
  | Some _ => False
  end.

(** One stage of the loop. *)
Lemma run_stages_cons settings id ticket stage stages (pre post : Ctl -> Prop) done_all c :
  (forall c, pre c -> exists pump net, capturing pump net c) ->
  (forall c c', pre c -> async any c c' -> pre c') ->
  (forall c, pre c -> wp (capture_stage settings stage) (fun goes c' => if goes : bool then post c' else halted c') thrown c) ->
  (forall c, post c -> wp (run_stages settings id ticket stages) (stages_end done_all) thrown c) ->
  pre c -> wp (run_stages settings id ticket (stage :: stages)) (stages_end done_all) thrown c.
Proof.
  intros Hp Ha Hs Hk P. cbn [run_stages]. apply wp_bind. destruct (Hp c P) as (pump & net & C).
  eapply wp_mono; [apply (readiness_current_spec id ticket c), (capturing_fire _ _ _ C)| |done].
  cbv beta. intros current c1 A1. pose proof (Ha _ _ P A1) as P1. destruct (negb current).
  { apply wp_bind. destruct (Hp c1 P1) as (p1 & n1 & C1).
    eapply wp_mono; [apply (capture_rollback_spec id p1 n1 c1); [by eapply capturing_fire|done]| |done].
    cbv beta. intros _ c2 R2. apply wp_ret. by exists p1. }
  apply wp_bind, wp_catch. apply (wp_mono _ (fun goes c' => if goes : bool then post c' else halted c') _ thrown); [apply wp_named; [done|by apply Hs]| |].
  - cbv beta. intros goes c2 Hg. destruct goes; cbn [negb]; [by apply Hk|]. apply wp_bind.
    eapply wp_mono; [by apply (rollback_halted id c2)| |done]. cbv beta. intros _ c3 Se. by apply wp_ret.
  - cbv beta. intros e c2 (p2 & n2 & C2). apply wp_bind.
    eapply wp_mono; [apply (capture_rollback_spec id p2 n2 c2); [by eapply capturing_fire|done]| |done].
    cbv beta. intros _ c3 [C3 _ _]. by eapply throw_capturing.
Qed.

(** The four stages of a session without routes. *)
Lemma run_stages_spec settings id ticket pump c :
  capturing pump None c -> wp (run_stages settings id ticket stages_in_order) (stages_end sealed) thrown c.
Proof.
  intros C.
  eapply (run_stages_cons _ _ _ _ _ (capturing pump None) (capturing true None)); [|apply capturing_async| | |exact C].
  { intros c1 C1. by exists pump, None. }
  { intros c1 C1. eapply wp_mono; [by apply (prepare_stage_spec pump None)| |done]. by cbv beta; intros ? ? [-> ?]. }
  clear c C. intros c C.
  eapply (run_stages_cons _ _ _ _ _ (capturing true None) (capturing true None)); [|apply capturing_async| | |exact C].
  { intros c1 C1. by exists true, None. }
  { intros c1 C1. eapply wp_mono; [by apply (firewall_stage_spec true None)| |done]. by cbv beta; intros ? ? [-> ?]. }
  clear c C. intros c C.
  eapply (run_stages_cons _ _ _ _ _ (capturing true None) routed); [|apply capturing_async| | |exact C].
  { intros c1 C1. by exists true, None. }
  { intros c1 C1. eapply wp_mono; [by apply (network_stage_spec settings None)| |done]. by cbv beta; intros ? ? [-> ?]. }
  clear c C. intros c R.
  eapply (run_stages_cons _ _ _ _ _ routed sealed); [|apply routed_async|apply connected_stage_spec| |exact R].
  { intros c1 (_ & n & _ & C1). by exists true, (Some n). }
  clear c R. intros c Se. by apply wp_ret.
Qed.

Lemma commit_spec id ticket c :
  sealed c -> wp (commit id ticket) (fun ok c' => sealed c' /\ (ok = true -> Cancelled c' id = false)) never c.
Proof.
  intros Se. unfold commit. apply wp_bind. run (interfere_spec any any_background id c (routed_fire _ (proj1 Se))) as c1 A1.
  pose proof (sealed_async _ _ Se A1) as Se1. reads. destruct (readinesses c1 !! id) as [r|] eqn:Er; [|by apply wp_ret].
  destruct (Commit r (clock (log c1)) ticket) as [r' ok] eqn:Ec. apply wp_bind, wp_modify, wp_ret. split.
  2: { intros ->. unfold Cancelled. members. rewrite lookup_insert_eq. unfold Commit in Ec.
    destruct (negb _) eqn:Eq; injection Ec as <-; [done|]. unfold CurrentWithLock in Eq. by destruct (cancelled_ r). }
  apply (sealed_async c1); [done|]. split; try done; [|by left]. split; try done.
  - by apply grows_same.
  - intros id' Hc. unfold Cancelled in *. members. destruct (decide (id' = id)) as [->|].
    + rewrite lookup_insert_eq. rewrite Er in Hc. unfold Commit in Ec.
      destruct (negb (CurrentWithLock _ _ _)); injection Ec as <- _; done.
    + by rewrite lookup_insert_ne.
  - intros id' Hid [x Hx]. members. split; [|done]. destruct (decide (id' = id)) as [->|];
      [rewrite lookup_insert_eq|rewrite lookup_insert_ne by done]; by eauto.
Qed.

(** How a capture ends: a committed one was not cancelled when it committed. *)
Definition capture_end (id : nat) (result : CaptureResult) (c : Ctl) : Prop :=
  match result with
  | Active => sealed c /\ Cancelled c id = false
  | Waiting => (exists pump, rolled_back pump c) \/ async any c0 c
  | Halted => settled c
  | Threw => False
  end.

Lemma ApplyCapture_spec settings id ticket pump :
  capturing pump None c0 -> wp (ApplyCapture settings id ticket) (capture_end id) thrown c0.
Proof.
  intros C. unfold ApplyCapture. apply wp_bind.
  eapply wp_mono; [by apply (readiness_current_spec id ticket c0)| |done]. cbv beta. intros current c1 A1.
  destruct (negb current); [apply wp_ret; by right|]. apply wp_bind.
  eapply wp_mono; [apply (run_stages_spec settings id ticket pump); by eapply capturing_async| |done].
  cbv beta. intros [[]|] c2 Hc; try done; [apply wp_ret; by left|].
  apply wp_bind. eapply wp_mono; [by apply (commit_spec id ticket c2)| |done]. cbv beta. intros committed c3 [Se Hnc].
  destruct committed; [apply wp_ret; split; [done|by apply Hnc]|]. apply wp_bind. destruct Se as [(_ & n & _ & C3) _].
  eapply wp_mono; [apply (capture_rollback_spec id true (Some n) c3); [by eapply capturing_fire|done]| |done].
  cbv beta. intros _ c4 R. apply wp_ret. left. by exists true.
Qed.
End Capturing.

(** ** The activation *)

Section Activate.
Context `{Winsock} `{Bfe} `{Platform} `{Json}.

(** A session that waits, or one a stop has asked to end, is in order. *)
Lemma capturing_members_ok c0 pump net c :
  members_ok c0 -> state_ c0 = Preparing -> capturing c0 pump net c ->
  has_routes c = false \/ session_cancelled c ->
  (wfp_in_force c = WArmed \/ wfp_in_force c = WConnecting -> killSwitch_ c = true) -> members_ok c.
Proof.
  intros M Es C Hr Hf.
  destruct (capturing_reads _ _ _ _ C) as (E1 & E2 & E3 & E4 & E5 & E6 & E7 & E8 & E9 & E10 & _ & _ & E11 & E12 & E13).
  assert (IsSessionLive (state_ c0) = true) as L by (by rewrite Es).
  destruct (mo_live _ M L) as (Hd & Hn & He & Hw & Hp & id & Hid & Hrd).
  destruct (mo_tunnel _ M (or_introl Es)) as (Ha & Hm). destruct C as [S _].
  split; rewrite ?E1, ?Es; try done.
  - by apply (sd_fire _ _ _ S), M.
  - intros _. unfold session_parts. rewrite E4, E8, E9, E10, E11, E12. split_and!; try done. exists id. split; [done|].
    by apply (sd_stop _ _ _ S).
  - intros _. by rewrite E2, E5.
Qed.

(** The watchdog's restart, on the members. *)
Lemma watch_again c0 pump net c :
  capturing c0 pump net c -> deadTunnelWatchdog_ c0 = true ->
  core c <| deadTunnelWatchdog_ := true |> = core c.
Proof.
  intros C Hw. destruct (capturing_reads _ _ _ _ C) as (_ & _ & _ & _ & _ & _ & _ & _ & _ & _ & _ & _ & _ & E & _).
  rewrite Hw in E. unfold core. members. by rewrite E.
Qed.

(** The session goes up: its members, with the time. *)
Definition set_up (now : Z) (x : Core) : Core :=
  match x with (_, a2, a3, a4, (err, rh, ai, rs, _, si), a6, a7, a8, a9, a10, (r, r6, ready, _, m)) =>
    (Up, a2, a3, a4, (err, rh, ai, rs, now, si), a6, a7, a8, a9, a10, (r, r6, ready, true, m)) end.

Lemma goes_up c0 c c' now :
  members_ok c0 -> state_ c0 = Preparing -> sealed c0 c -> drift any c c' -> core c' = set_up now (core c) -> members_ok c'.
Proof.
  intros M Es Se D F. pose proof (sealed_still _ (mo_fire _ M) _ Se) as Hw0. destruct Se as [(_ & n & Hn & C) Hf].
  destruct (drift_still _ _ _ D Hw0) as [Hw Ew].
  destruct (capturing_reads _ _ _ _ C) as (E1 & E2 & E3 & E4 & E5 & E6 & E7 & E8 & E9 & E10 & _ & _ & E11 & E12 & E13).
  assert (IsSessionLive (state_ c0) = true) as L by (by rewrite Es).
  destruct (mo_live _ M L) as (Hd & Hsp & He & _ & Hp & id & Hid & Hrd).
  destruct (mo_tunnel _ M (or_introl Es)) as (Ha & Hm).
  unfold core, set_up in F. cbn in F. injection F. intros.
  assert (has_routes c' = has_routes c) as Er.
  { assert (netConfig_ c' = netConfig_ c) as En by congruence. unfold has_routes. by rewrite En. }
  split; try (intros E; congruence).
  - apply (drift_fire _ _ _ D). by eapply capturing_fire; [apply M|].
  - split; congruence.
  - congruence.
  - intros E. replace (state_ c') with Up in E by done. done.
  - intros _. unfold session_parts. split_and!; try congruence.
    exists id. split; [congruence|]. destruct C as [S _].
    apply (sd_stop _ _ _ (dr_steady _ _ _ D)); [congruence|]. by apply (sd_stop _ _ _ S).
  - intros _. split; congruence.
  - intros _. unfold captured. split_and!; [exists n; split; [congruence|done]|congruence|by rewrite Ew].
Qed.

(** A stop arrived too late for the capture to roll back: the transaction of [c0]'s session
    had committed in [c1], which no stop had cancelled, and the next look found it
    cancelled.  Nothing has happened between the two but the arrival. *)
Definition stopped_late (id : nat) (ticket : CaptureTicket) (c0 c : Ctl) : Prop :=
  exists c1, BringUpTunnelLocked id ticket c0 = (c1, inr Active) /\ Cancelled c1 id = false /\ captured c1 /\
    yield c1 = (c, inr tt) /\ Cancelled c id = true /\ captured c /\ state_ c = Preparing.

(** How an activation leaves the controller: in order, up only if no stop arrived, and with
    routes of a session that is not up only if [late]. *)
Definition activated (late : Ctl -> Prop) (c0 c : Ctl) : Prop :=
  session_ok c /\ (state_ c = Up -> stopGeneration_ c = stopGeneration_ c0) /\
  (state_ c <> Up -> has_routes c = true -> late c).

(** The same, when the activation is about to tell its listeners. *)
Definition settles (late : Ctl -> Prop) (c0 : Ctl) (finish : bool) (c : Ctl) : Prop :=
  activated late c0 c /\ (finish = true -> state_ c <> Up -> has_routes c = false).

(** In order, not up, and without routes. *)
Definition in_order (c : Ctl) : Prop := session_ok c /\ state_ c <> Up /\ has_routes c = false.

Lemma in_order_async c c' : in_order c -> async any c c' -> in_order c'.
Proof.
  intros (Ok & Es & En) A. split; [by eapply async_session_ok|].
  rewrite (framed (f := state_) _ _ (as_frame _ _ _ A)). by rewrite (framed (f := has_routes) _ _ (as_frame _ _ _ A)).
Qed.

Lemma sealed_captured c0 c : sealed c0 c -> captured c.
Proof.
  intros [(_ & n & Hn & C) Hf]. destruct (capturing_reads _ _ _ _ C) as (_ & _ & _ & _ & _ & En & Ep & _).
  split; [by exists n|done].
Qed.

Lemma rolled_back_in_order c0 pump c :
  session_ok c0 -> state_ c0 = Preparing -> rolled_back c0 pump c -> in_order c.
Proof.
  intros (M & _ & Hd & Hs) Es [C Mi Fw].
  destruct (capturing_reads _ _ _ _ C) as (E1 & _ & _ & _ & _ & En & _ & _ & _ & _ & Ehd & Ehs & _).
  assert (has_routes c = false) as Er by (unfold has_routes; by rewrite En).
  split; [|by rewrite E1, Es]. split_and!; [|done|congruence|congruence].
  apply (capturing_members_ok c0 pump None); try done.
  - by left.
  - intros Hw. apply Fw. by destruct Hw as [-> | ->].
Qed.

Lemma settled_in_order c0 c : session_ok c0 -> settled c0 c -> in_order c.
Proof.
  intros (_ & _ & Hd & Hs) (Dn & Es & Mi & Ed & Ehs). split; [|by rewrite Es, (down_routes c Dn)].
  split_and!; [apply down_members; [done|by left]|done|congruence|congruence].
Qed.

(** An activation that failed is a session that is down. *)
Lemma activation_failed_spec c0 step c e :
  session_ok c0 -> thrown c0 e c -> wp (activation_failed step) (fun _ => in_order) never c.
Proof.
  intros (M0 & _ & Hd & Hs) (pump & net & C).
  destruct (capturing_reads _ _ _ _ C) as (_ & _ & _ & _ & _ & _ & _ & _ & _ & _ & Ehd & Ehs & _).
  pose proof (capturing_fire _ (mo_fire _ M0) _ _ _ C) as W. unfold activation_failed.
  apply (wp_step any _ (set_error (txt "tunnel activation failed at " ++ step))); [quiet|reflexivity|]. intros c1 D1 F1.
  assert (handedDevice c1 = None /\ handedSpace c1 = false) as [Hd1 Hs1].
  { unfold core, set_error in F1. injection F1. intros. split; congruence. }
  apply wp_bind. run (StopLocked_spec false false c1 (drift_fire _ _ _ D1 W)) as c2 St.
  destruct (stopped_down _ _ _ _ (drift_fire _ _ _ D1 W) St) as [Dn Es].
  destruct (stopped_session_ok _ _ _ _ (drift_fire _ _ _ D1 W) Hd1 Hs1 St) as (_ & _ & Hd2 & Hs2).
  apply wp_set_state. set (c3 := c2 <| state_ := StateError |>).
  assert (drift any c2 (published c3)) as D3 by quiet.
  destruct (down_error any c2 (published c3) StateError (error_ c2) Dn D3 eq_refl) as (Dn3 & Es3 & _).
  split; [|by rewrite Es3, (down_routes _ Dn3)]. split_and!; [|apply (mirror_published c3)..|exact Hd2|exact Hs2].
  apply down_members; [done|by right].
Qed.

(** What the activation does with the capture's result. *)
Definition settle (id : nat) (result : CaptureResult) : M bool :=
  yield;;
  c ← gets Datatypes.id;
  if bool_decide (result = Halted) || Cancelled c id then ret false else
  if bool_decide (result = Waiting) then modify (fun c => c <| deadTunnelWatchdog_ := true |>);; ret true else
  modify (fun c => c <| upSinceMillis_ := clock (log c) |>);;
  SetStateLocked Up;;
  modify (fun c => c <| deadTunnelWatchdog_ := true |>);;
  ret true.

Lemma watch_in_order c : in_order c -> state_ c = Preparing -> in_order c <| deadTunnelWatchdog_ := true |>.
Proof.
  intros Io Es. apply (in_order_async c); [done|]. destruct Io as [(M & _) _].
  assert (deadTunnelWatchdog_ c = true) as Hw by (apply (mo_live _ M); by rewrite Es).
  split; [quiet| |by left|done|done]. unfold core. members. by rewrite Hw.
Qed.

Lemma mirror_watch c b : mirror_ok c -> mirror_ok c <| deadTunnelWatchdog_ := b |>.
Proof. done. Qed.

Lemma settle_up late c0 id c :
  session_ok c0 -> state_ c0 = Preparing -> captureReadiness_ c0 = Some id -> sealed c0 c -> Cancelled c id = false ->
  wp (modify (fun c => c <| upSinceMillis_ := clock (log c) |>);; SetStateLocked Up;;
      modify (fun c => c <| deadTunnelWatchdog_ := true |>);; ret true) (settles late c0) (thrown c0) c.
Proof.
  intros (M0 & Mi0 & Hd & Hs) Es Hid Se Hc. apply wp_bind, wp_modify, wp_bind, wp_set_state, wp_bind, wp_modify, wp_ret.
  set (now := clock (log c)). clearbody now. set (c1 := c <| upSinceMillis_ := now |>).
  assert (drift any c (published c1 <| state_ := Up |>) <| deadTunnelWatchdog_ := true |>) as D by (unfold c1; quiet).
  assert (core (published c1 <| state_ := Up |>) <| deadTunnelWatchdog_ := true |> = set_up now (core c)) as F by reflexivity.
  assert (mirror_ok (published c1 <| state_ := Up |>) <| deadTunnelWatchdog_ := true |>) as M3
    by (apply mirror_watch, mirror_published).
  assert (stopGeneration_ (published c1 <| state_ := Up |>) <| deadTunnelWatchdog_ := true |> = stopGeneration_ c) as Eg by reflexivity.
  match goal with |- _ _ ?x => destruct (ex_intro (fun y => y = x) _ eq_refl) as [c3 E3] end.
  rewrite <- E3. rewrite <- E3 in D. rewrite <- E3 in F. rewrite <- E3 in M3. rewrite <- E3 in Eg. clear E3 c1.
  pose proof (goes_up c0 c c3 now M0 Es Se D F) as M.
  destruct Se as [(_ & n & _ & C) _]. destruct (capturing_reads _ _ _ _ C) as (_ & _ & _ & _ & _ & _ & _ & _ & _ & _ & Ehd & Ehs & _).
  unfold core, set_up in F. cbn in F. injection F. intros. split; [|congruence]. split; [split_and!; try done; try apply M3; congruence|]. split; [intros _|congruence].
  assert (IsSessionLive (state_ c0) = true) as L by (by rewrite Es).
  destruct (mo_live _ M0 L) as (_ & _ & _ & _ & _ & id' & Hid' & Hr). assert (id' = id) as -> by congruence.
  destruct (sd_stop _ _ _ (proj1 C) id Hid Hr) as [_ Hg]. rewrite Eg.
  destruct (decide (stopGeneration_ c = stopGeneration_ c0)) as [E|E]; [done|]. rewrite (Hg E) in Hc. done.
Qed.

Lemma settle_spec c0 id ticket result c :
  session_ok c0 -> state_ c0 = Preparing -> netConfig_ c0 = None -> captureReadiness_ c0 = Some id -> capture_end c0 id result c ->
  BringUpTunnelLocked id ticket c0 = (c, inr result) ->
  wp (settle id result) (settles (stopped_late id ticket c0) c0) (thrown c0) c.
Proof.
  intros Ok Es En0 Hid Hc Eb. unfold settle.
  assert (fire_ok c) as W.
  { destruct Ok as (M & _). destruct result; cbn in Hc; try done.
    - destruct Hc as [[p [C _ _]]|A]; [by eapply capturing_fire; [apply M|]|by apply (sd_fire _ _ _ (as_steady _ _ _ A)), M].
    - by eapply routed_fire; [apply M|apply (proj1 Hc)].
    - apply Hc. }
  apply wp_bind. eapply wp_mono; [by apply wp_result, (yield_spec any any_background c)| |done].
  cbv beta. intros [] c1 [Ey A1]. reads.
  assert (forall finish c', in_order c' -> settles (stopped_late id ticket c0) c0 finish c') as Hin.
  { intros finish c' (Ok' & Eu & En). split; [|done]. split; [done|]. split; intros; congruence. }
  destruct result; cbn in Hc; [| | |done].
  - assert (in_order c1 /\ state_ c1 = Preparing) as [Io Es1].
    { destruct Hc as [[p R]|A].
      - split; [apply (in_order_async c); [by eapply rolled_back_in_order|done]|].
        destruct R as [C _ _]. destruct (capturing_reads _ _ _ _ C) as (E & _).
        rewrite (framed (f := state_) _ _ (as_frame _ _ _ A1)). congruence.
      - pose proof (async_trans _ _ _ _ A A1) as A2.
        assert (state_ c1 = Preparing) as E by (by rewrite (framed (f := state_) _ _ (as_frame _ _ _ A2))).
        split; [|done]. split; [by eapply async_session_ok|]. rewrite E.
        assert (has_routes c1 = has_routes c0) as -> by exact (framed _ _ (as_frame _ _ _ A2)).
        unfold has_routes. by rewrite En0. }
    rewrite bool_decide_eq_false_2 by done. cbn [orb]. destruct (Cancelled c1 id); [by apply wp_ret, Hin|].
    rewrite bool_decide_eq_true_2 by done. apply wp_bind, wp_modify, wp_ret. by apply Hin, watch_in_order.
  - destruct Hc as [Hc Hnc]. pose proof (sealed_async c0 (mo_fire _ (proj1 Ok)) _ _ Hc A1) as Se.
    rewrite bool_decide_eq_false_2 by done. cbn [orb]. destruct (Cancelled c1 id) eqn:Ec.
    { apply wp_ret. pose proof (sealed_captured _ _ Hc) as Cc. pose proof (sealed_captured _ _ Se) as Cs.
      destruct Se as [(Mi & n & Hn & C) Hf]. destruct Ok as (M & _ & Hd & Hs).
      destruct (capturing_reads _ _ _ _ C) as (E1 & _ & _ & _ & _ & _ & _ & _ & _ & _ & Ehd & Ehs & Er & _).
      split; [|done]. split; [|split; [congruence|intros _ _; exists c; split_and!; try done; congruence]].
      split; [|split; [exact Mi|split; congruence]].
      apply (capturing_members_ok c0 true (Some n)); try done.
      - right. exists id. split; [congruence|done].
      - intros Hw. destruct Hf as [Hf|Hf]; rewrite Hf in Hw; by destruct Hw. }
    rewrite bool_decide_eq_false_2 by done. by apply (settle_up _ c0 id).
  - rewrite bool_decide_eq_true_2 by done. cbn [orb]. apply wp_ret, Hin, (in_order_async c); [|done].
    by apply (settled_in_order c0).
Qed.

Lemma BringUpTunnelLocked_spec c0 id ticket :
  session_ok c0 -> state_ c0 = Preparing -> netConfig_ c0 = None ->
  wp (BringUpTunnelLocked id ticket) (capture_end c0 id) (thrown c0) c0.
Proof.
  intros (M & _) Es En.
  assert (capturing c0 (pump_ c0) None c0) as C.
  { split; [apply steady_refl|]. exists (splitTunnel_ c0), (appliedResolvers_ c0), (appliedResolversV6_ c0).
    pose proof (mo_marker _ M) as Em. unfold has_routes in Em. unfold core, set_capture. cbn. by rewrite Em, En. }
  unfold BringUpTunnelLocked. reads. destruct (_ || _); [apply wp_named; [done|by eapply throw_capturing]|]. reads.
  by eapply ApplyCapture_spec; [apply M|].
Qed.

Lemma ActivateCapture_spec id ticket c :
  session_ok c ->
  wp (ActivateCapture id ticket) (fun _ c' => session_ok c' /\
    if Cancelled c id || negb (bool_decide (captureReadiness_ c = Some id)) || negb (bool_decide (state_ c = Preparing))
    then c' = c else activated (stopped_late id ticket c) c c') never c.
Proof.
  intros Ok. unfold ActivateCapture. reads.
  destruct (Cancelled c id || _ || _) eqn:E; [by apply wp_skip|].
  rewrite !orb_false_iff, !negb_false_iff, !bool_decide_eq_true in E. destruct E as [[Ec Er] Es].
  assert (netConfig_ c = None) as En.
  { apply has_routes_false. destruct (mo_preparing _ (proj1 Ok) Es) as [?|(i & Hi & Hc)]; [done|].
    assert (i = id) as -> by congruence. congruence. }
  set (late := stopped_late id ticket c). apply wp_bind. apply (wp_mono _ (settles late c) _ never); [| |done].
  - apply wp_catch. eapply wp_mono with (Q := settles late c) (E := thrown c); [|done|].
    + apply wp_bind. eapply wp_mono; [by apply wp_result, BringUpTunnelLocked_spec| |done]. cbv beta. intros result c1 [Eb Hc].
      exact (settle_spec c id ticket result c1 Ok Es En Er Hc Eb).
    + intros e c1 Ht. apply wp_bind. eapply wp_mono; [by apply (activation_failed_spec c e c1 e)| |done].
      cbv beta. intros _ c2 (Ok2 & Es2 & En2). apply wp_ret. split; [|done]. split; [done|]. split; [done|congruence].
  - intros finish c1 [(Ok1 & Hg & Hl) Hf]. destruct finish; [|apply wp_skip; by split_and!].
    pose proof (async_log any c1 StateNotified I) as A. apply wp_emit. assert (session_ok (c1 <| log := log c1 ++ [StateNotified] |>)) as Ok2
      by by eapply async_session_ok. split; [done|]. split; [done|]. split; [apply Hg|].
    intros Eu Hr. assert (has_routes c1 = true) as Hr1 by exact Hr. rewrite (Hf eq_refl) in Hr1; [done|exact Eu].
Qed.
End Activate.
