(* ===== verification/ControllerProvider.v ===== *)
(** The provider-only device: what a request to provide does to the members, and when it
    is refused. *)

From S2P Require Import Prelude.
From S2P Require Import CxxText.
From S2P Require Import Wfp.
From S2P Require Import WfpPolicy.
From S2P Require Import DeadTunnel.
From S2P Require Import StopBudget.
From S2P Require Import Capture.
From S2P Require Import Gesture.
From S2P Require Import Provide.
From S2P Require Import Controller.
From S2P Require Import ControllerFacts.
From S2P Require Import ControllerStop.
From S2P Require Import ControllerSession.
From S2P Require Import ControllerStart.

(** The effects of a request to provide. *)
Definition providing (e : Effect) : Prop := match e with DeviceBuilt _ => True | _ => winding_down e end.

Lemma winding_providing e : winding_down e -> providing e.
Proof. by destruct e. Qed.

Lemma background_providing e : background e -> providing e.
Proof. intros B. apply winding_providing. by destruct e as [| | | | | | |[] ?| | | | |]. Qed.

Section Provider.
Context `{Winsock} `{Bfe} `{Platform} `{Json}.

(** Only the provider's members differ. *)
Definition provider_only (c c' : Ctl) : Prop := drift providing c c' /\ exists d s, provider_is d s c c'.

Lemma provider_only_refl c : provider_only c c.
Proof. split; [apply drift_refl|]. exists (providerDevice_ c), (providerSpace_ c). by apply provider_is_same. Qed.

Lemma provider_only_trans a b c : provider_only a b -> provider_only b c -> provider_only a c.
Proof.
  intros [D (d & s & F)] [D' (d' & s' & F')]. split; [by eapply drift_trans|].
  exists d', s'. by eapply provider_is_trans.
Qed.

Lemma provider_only_async c c' : async providing c c' -> provider_only c c'.
Proof.
  intros A. split; [by apply async_drift|]. exists (providerDevice_ c), (providerSpace_ c). by apply provider_is_same, A.
Qed.

Lemma drift_mono (P P' : Effect -> Prop) c c' : (forall e, P e -> P' e) -> drift P c c' -> drift P' c c'.
Proof. intros HP [S Po Wa]. split; [by eapply steady_mono|done|done]. Qed.

Lemma provider_only_held c c' :
  provider_only c c' -> held c' = held c /\ handedDevice c' = handedDevice c /\ handedSpace c' = handedSpace c /\ error_ c' = error_ c.
Proof.
  intros [_ (d & s & e & n & r & t & k & F)]. rewrite core_with_provider in F. unfold core, set_provider in F. injection F. intros.
  split_and!; try done. unfold held. congruence.
Qed.

Lemma provider_only_ok c c' :
  provider_only c c' -> IsSessionLive (state_ c) = false -> mirror_ok c' -> session_ok c -> session_ok c'.
Proof.
  intros P L Mi (M & _ & Hd & Hs). destruct (provider_only_held _ _ P) as (Eh & Ehd & Ehs & _).
  split_and!; [|done|congruence|congruence].
  apply (drift_members_ok providing c); [apply P|done| |done]. by rewrite L.
Qed.

(** A provider under construction: its device is reported, or not there yet. *)
Definition building (c0 c : Ctl) : Prop := provider_only c0 c /\ (mirror_ok c \/ providerDevice_ c <> None).

Lemma building_async c0 c c' : building c0 c -> async providing c c' -> building c0 c'.
Proof.
  intros [P Mi] A. split; [eapply provider_only_trans; [exact P|by apply provider_only_async]|].
  destruct Mi as [Mi|Hd]; [left; by apply (as_mirror _ _ _ A)|right].
  by rewrite (framed (f := providerDevice_) _ _ (as_frame _ _ _ A)).
Qed.

Lemma building_fire c0 c : fire_ok c0 -> building c0 c -> fire_ok c.
Proof. intros W [[D _] _]. by apply (drift_fire _ _ _ D). Qed.

Lemma must_building c0 step q (k : M unit) (Q : unit -> Ctl -> Prop) c :
  fire_ok c0 -> building c0 c -> (forall c', building c0 c' -> providerDevice_ c' = providerDevice_ c ->
    providerSpace_ c' = providerSpace_ c -> wp k Q (fun _ => building c0) c') ->
  wp (named step (must q);; k) Q (fun _ => building c0) c.
Proof.
  intros W B Hk. apply wp_bind, wp_named; [done|].
  eapply wp_mono; [apply (must_spec _ background_providing q c (building_fire _ _ W B))|cbv beta; intros _ c' A|cbv beta; intros x c' A].
  - apply Hk; [by eapply building_async| |].
    + exact (framed (f := providerDevice_) _ _ (as_frame _ _ _ A)).
    + exact (framed (f := providerSpace_) _ _ (as_frame _ _ _ A)).
  - by eapply building_async.
Qed.

(** A change of the provider's members. *)
Lemma building_set c0 c c' e n d s r t k :
  building c0 c -> drift providing c c' -> core c' = core (with_provider e n d s r t k c) ->
  (mirror_ok c -> providerDevice_ c = None -> d = None -> mirror_ok c') -> (providerDevice_ c <> None -> d <> None) -> building c0 c'.
Proof.
  intros [P Mi] D F Hm Hd. assert (provider_is d s c c') as Pi by (by exists e, n, r, t, k). split.
  - eapply provider_only_trans; [exact P|]. split; [done|by exists d, s].
  - destruct (provider_is_reads _ _ _ _ Pi) as [E _]. rewrite E.
    destruct d; [by right|]. destruct (providerDevice_ c) eqn:Ec; [by destruct Hd|]. left. apply Hm; [|done|done].
    by destruct Mi as [|[]].
Qed.

(** The provider's facts, read again. *)
Lemma read_building {R} c0 c (k : M R) Q E :
  fire_ok c0 -> building c0 c -> providerDevice_ c <> None ->
  (forall c', building c0 c' -> providerDevice_ c' <> None -> wp k Q E c') -> wp (ReadProviderFactsLocked;; k) Q E c.
Proof.
  intros W B Hn Hk. apply wp_bind.
  run (ReadProviderFactsLocked_spec providing winding_providing c (building_fire _ _ W B)) as c1 [D1 F1].
  destruct (provider_is_reads _ _ _ _ F1) as [Ed _].
  destruct F1 as (e & n & r & t & k1 & F1). apply Hk; [|by rewrite Ed].
  by eapply building_set; [exact B|exact D1|exact F1| |].
Qed.

Lemma watch_building {R} c0 c (k : M R) Q E :
  fire_ok c0 -> building c0 c -> providerDevice_ c <> None ->
  (forall c', building c0 c' -> wp k Q E c') -> wp (WatchProviderNetworkLocked;; k) Q E c.
Proof.
  intros W B Hn Hk. apply wp_bind.
  run (WatchProviderNetworkLocked_spec providing winding_providing c (building_fire _ _ W B)) as c1 [D1 (e & n & r & t & k1 & F1)].
  apply Hk. by eapply building_set; [exact B|exact D1|exact F1| |].
Qed.

(** A provider that is complete. *)
Definition provided (c0 c : Ctl) : Prop := provider_only c0 c /\ mirror_ok c.

Lemma publish_provided c0 c : building c0 c -> provided c0 (published c).
Proof.
  intros [P _]. split; [|apply mirror_published].
  eapply provider_only_trans; [exact P|]. split; [apply drift_published|].
  exists (providerDevice_ c), (providerSpace_ c). by apply provider_is_same.
Qed.

Lemma build_provider_spec request c0 c :
  fire_ok c0 -> building c0 c -> wp (build_provider request) (fun _ => provided c0) (fun _ => building c0) c.
Proof.
  intros W B. unfold build_provider, StartProviderEgressLocked. apply wp_bind, wp_named; [done|]. apply wp_bind, wp_modify.
  set (c1 := c <| providerEgress_ := true |>).
  assert (building c0 c1) as B1.
  { apply (building_set c0 c c1 true (providerNetwork_ c) (providerDevice_ c) (providerSpace_ c) (providerRequest_ c)
      (providerTier_ c) (providerNetworkKey_ c)); try done. quiet. }
  clearbody c1.
  eapply wp_mono; [apply (must_spec _ background_providing StartsEgress c1 (building_fire _ _ W B1))|cbv beta; intros _ c2 A2|cbv beta; intros x c2 A2];
    [|by eapply building_async].
  pose proof (building_async _ _ _ B1 A2) as B2. clear B1 A2 c1.
  apply (must_building c0); [done|done|]. intros c3 B3 _ _.
  apply wp_bind, wp_modify. set (c4 := c3 <| providerSpace_ := true |>).
  assert (building c0 c4) as B4.
  { apply (building_set c0 c3 c4 (providerEgress_ c3) (providerNetwork_ c3) (providerDevice_ c3) true (providerRequest_ c3)
      (providerTier_ c3) (providerNetworkKey_ c3)); try done. quiet. }
  clearbody c4. clear B3 c3. apply (must_building c0); [done|done|]. intros c5 B5 _ _.
  apply wp_bind. unfold new_name. unfold wp at 1. set (d := next_name c5). clearbody d.
  match goal with |- wp _ _ _ ?x => set (c6 := x) end.
  assert (building c0 c6) as B6.
  { apply (building_async c0 c5); [done|]. apply async_name. }
  clearbody c6. clear B4 B5 c4 c5. apply wp_bind, wp_emit. set (c7 := c6 <| log := _ |>).
  assert (building c0 c7) as B7 by (apply (building_async c0 c6); [done|by apply async_log]).
  clearbody c7. clear B6 c6. apply wp_bind, wp_modify. set (c8 := c7 <| providerDevice_ := Some d |>).
  assert (building c0 c8) as B8.
  { apply (building_set c0 c7 c8 (providerEgress_ c7) (providerNetwork_ c7) (Some d) (providerSpace_ c7) (providerRequest_ c7)
      (providerTier_ c7) (providerNetworkKey_ c7)); try done. quiet. }
  assert (providerDevice_ c8 <> None) as N8 by done. clearbody c8. clear B7 c7.
  assert (forall (k : M unit) Q, (forall c', building c0 c' -> providerDevice_ c' <> None -> wp k Q (fun _ => building c0) c') ->
    wp ((if bool_decide (sp_transport request = []) then skip
         else named (txt "provider transport policy") (must AppliesTransport));; k) Q (fun _ => building c0) c8) as HT.
  { intros k Q Hk. case_bool_decide; [by apply wp_bind, wp_skip, Hk|].
    apply (must_building c0); [done|done|]. intros c9 B9 E9 _. apply Hk; [done|by rewrite E9]. }
  apply HT. intros c9 B9 N9. apply (must_building c0); [done|done|]. intros c10 B10 E10 _. rewrite <- E10 in N9.
  apply wp_bind, wp_modify. set (c11 := c10 <| providerRequest_ := request |>).
  assert (building c0 c11) as B11.
  { apply (building_set c0 c10 c11 (providerEgress_ c10) (providerNetwork_ c10) (providerDevice_ c10) (providerSpace_ c10) request
      (providerTier_ c10) (providerNetworkKey_ c10)); try done. quiet. }
  assert (providerDevice_ c11 <> None) as N11 by done. clearbody c11.
  apply (read_building c0); [done|done|done|]. intros c12 B12 N12.
  apply (watch_building c0); [done|done|done|]. intros c13 B13.
  by apply wp_publish, publish_provided.
Qed.

Lemma update_provider_spec request c :
  session_ok c -> providerDevice_ c <> None -> wp (update_provider request) (fun _ => provided c) never c.
Proof.
  intros (M & Mi & _) Hn. pose proof (mo_fire _ M) as W. unfold update_provider. reads. apply wp_bind.
  assert (provided c c) as P0 by (split; [apply provider_only_refl|done]).
  apply (wp_mono _ (fun _ c' => async providing c c') _ never); [| |done].
  { destruct (_ && _); [by apply blocking_spec; [apply background_providing|]|apply wp_ret, async_refl]. }
  assert (forall c', async providing c c' -> provided c c') as HA.
  { intros c' A. split; [by apply provider_only_async|by apply (as_mirror _ _ _ A)]. }
  intros policy c1 A1. destruct (negb policy); [by apply wp_ret, HA|]. apply wp_bind.
  run (blocking_spec providing background_providing AppliesMode c1 (sd_fire _ _ _ (as_steady _ _ _ A1) W)) as applied c2 A2.
  pose proof (async_trans _ _ _ _ A1 A2) as A12. destruct (negb applied); [by apply wp_ret, HA|].
  assert (providerDevice_ c2 <> None) as N2 by (by rewrite (framed (f := providerDevice_) _ _ (as_frame _ _ _ A12))).
  apply wp_bind, wp_modify. set (c3 := c2 <| providerRequest_ := request |>).
  assert (building c c2) as B2 by (split; [|left]; by apply HA).
  assert (building c c3) as B3.
  { apply (building_set c c2 c3 (providerEgress_ c2) (providerNetwork_ c2) (providerDevice_ c2) (providerSpace_ c2) request
      (providerTier_ c2) (providerNetworkKey_ c2)); try done. quiet. }
  assert (providerDevice_ c3 <> None) as N3 by done.
  clearbody c3. apply (read_building c); [done|done|done|]. intros c4 B4 N4.
  by apply wp_bind, wp_publish, wp_ret, publish_provided.
Qed.

Lemma RetireProviderDeviceLocked_provided c0 c :
  fire_ok c0 -> building c0 c -> wp RetireProviderDeviceLocked (fun _ => provided c0) never c.
Proof.
  intros W B. eapply wp_mono; [apply (RetireProviderDeviceLocked_spec providing winding_providing c), (building_fire _ _ W B)| |done].
  cbv beta. intros _ c1 (D & F & Mi). split; [|apply Mi, B].
  eapply provider_only_trans; [apply B|]. split; [done|by exists None, false].
Qed.

(** A request to provide leaves all but the provider's members alone. *)
Lemma StartProviderRequest_spec locked request c :
  session_ok c -> wp (StartProviderRequest locked request) (fun _ => provided c) never c.
Proof.
  intros Ok. pose proof Ok as (M & Mi & _). pose proof (mo_fire _ M) as W. unfold StartProviderRequest.
  assert (provided c c) as P0 by (split; [apply provider_only_refl|done]).
  destruct (negb locked); [by apply wp_ret|]. apply wp_bind. unfold provider_state at 1. reads. apply wp_bind.
  run (Sweep_spec providing c) as swept c1 A1. apply wp_ret; cbv beta zeta.
  assert (provided c c1) as P1 by (split; [by apply provider_only_async|by apply (as_mirror _ _ _ A1)]).
  pose proof (async_session_ok _ _ _ A1 Ok) as Ok1. clear P0.
  destruct (negb (bool_decide _)); [by apply wp_ret|]. reads.
  destruct (bool_decide (providerDevice_ c1 <> None) && _) eqn:E.
  { apply andb_true_iff in E as [En%bool_decide_eq_true _].
    run (update_provider_spec request c1 Ok1 En) as ok c2 [P2 M2]. split; [|done].
    eapply provider_only_trans; [apply P1|done]. }
  assert (building c c1) as B1 by (split; [apply P1|left; apply P1]). apply wp_bind.
  run (RetireProviderDeviceLocked_provided c c1 W B1) as c2 [P2 M2].
  assert (building c c2) as B2 by (split; [done|by left]). apply wp_catch, wp_bind.
  eapply wp_mono; [by apply (build_provider_spec request c c2)|cbv beta; intros _ c3 P3; by apply wp_ret|].
  cbv beta. intros e c3 B3. apply wp_bind. run (RetireProviderDeviceLocked_provided c c3 W B3) as c4 P4. by apply wp_ret.
Qed.

(** A live session refuses it. *)
Lemma StartProviderRequest_live locked request c :
  fire_ok c -> IsSessionLive (state_ c) = true ->
  wp (StartProviderRequest locked request) (fun r c' => async providing c c' /\ log c' = log c /\ wfp_ c' = wfp_ c /\
      fst r = false /\ snd r <> []) never c.
Proof.
  intros W L. unfold StartProviderRequest. destruct (negb locked); [apply wp_ret; by split_and!; [apply async_refl|..]|].
  apply wp_bind. unfold provider_state at 1. reads. apply wp_bind.
  assert (wp Sweep (fun _ c' => async providing c c' /\ log c' = log c /\ wfp_ c' = wfp_ c) never c) as HS.
  { split_and!; [apply (Sweep_spec providing c)|done|done]. }
  eapply wp_mono; [exact HS| |done]. cbv beta. intros swept c1 (A1 & El & Ew). apply wp_ret; cbv beta zeta.
  rewrite L, orb_true_r. cbn [orb]. case_bool_decide as E.
  { apply ProviderStartRefusal_none in E as (_ & E & _). done. }
  cbn [negb]. apply wp_ret. split_and!; try done. cbn [snd]. by destruct (ProviderStartRefusal _ _).
Qed.

Lemma StartProviderRequest_ok locked request c :
  session_ok c -> wp (StartProviderRequest locked request) (fun _ c' => session_ok c' /\ provider_only c c') never c.
Proof.
  intros Ok. destruct (IsSessionLive (state_ c)) eqn:L.
  - run (StartProviderRequest_live locked request c (mo_fire _ (proj1 Ok)) L) as r c1 (A & _).
    split; [by eapply async_session_ok|by apply provider_only_async].
  - run (StartProviderRequest_spec locked request c Ok) as r c1 (P & Mi). split; [by eapply provider_only_ok|done].
Qed.

Lemma StopProvider_ok locked c :
  session_ok c -> wp (StopProvider locked) (fun _ c' => session_ok c' /\ provider_only c c') never c.
Proof.
  intros Ok. pose proof Ok as (M & Mi & Hd & Hs). unfold StopProvider.
  destruct (negb locked); [apply wp_ret; by split; [|apply provider_only_refl]|]. apply wp_bind.
  run (RetireProviderDeviceLocked_spec providing winding_providing c (mo_fire _ M)) as c1 (D & F & Mi1). apply wp_ret.
  specialize (Mi1 (or_introl Mi)).
  assert (provider_only c c1) as P by (split; [done|by exists None, false]). split; [|done].
  destruct (provider_only_held _ _ P) as (Eh & Ehd & Ehs & _).
  split_and!; [|done|congruence|congruence].
  apply (drift_members_ok providing c); [done|done| |done]. intros _. by destruct (provider_is_reads _ _ _ _ F).
Qed.
End Provider.
