(* ===== verification/ControllerRequests.v ===== *)
(** The controller's requests, one after the other: what every one of them keeps, and what
    the ones that matter most promise. *)

From S2P Require Import Prelude.
From S2P Require Import CxxText.
From S2P Require Import NetPolicy.
From S2P Require Import Wfp.
From S2P Require Import WfpPolicy.
From S2P Require Import DeadTunnel.
From S2P Require Import StopBudget.
From S2P Require Import Capture.
From S2P Require Import Gesture.
From S2P Require Import Provide.
From S2P Require Import Controller.
From S2P Require Import ControllerFacts.
From S2P Require Import ControllerStop.
From S2P Require Import ControllerSession.
From S2P Require Import ControllerStart.
From S2P Require Import ControllerCapture.
From S2P Require Import ControllerProvider.

(** What can be asked of the controller while the session lock is free, and what the
    other threads do to a readiness object meanwhile. *)
Inductive Request :=
  | ReqStart (config : StartTunnel)
  | ReqActivate (id : nat) (ticket : CaptureTicket)
  | ReqStop
  | ReqDisconnect
  | ReqFailsafe (reason : DeadTunnelReason)
  | ReqKillSwitch (on : bool)
  | ReqSplitTunnel (paths : list text) (allowlist : bool)
  | ReqLogout (locked : bool) (networkSpaceJson : text)
  | ReqStartProvider (locked : bool) (request : StartProvider)
  | ReqStopProvider (locked : bool)
  | ReqClamp
  | ReqStopAfter (step : Z)
  | Meanwhile (id : nat).

Section Requests.
Context `{Winsock} `{Bfe} `{Platform} `{Json}.

Definition serve (r : Request) : M unit :=
  match r with
  | ReqStart config => _ ← StartLocked config; skip
  | ReqActivate id ticket => ActivateCapture id ticket
  | ReqStop => Stop true
  | ReqDisconnect => Disconnect true
  | ReqFailsafe reason => FailsafeStop true reason
  | ReqKillSwitch on => _ ← SetKillSwitch on; skip
  | ReqSplitTunnel paths allowlist => _ ← SetSplitTunnel paths allowlist; skip
  | ReqLogout locked json => _ ← Logout locked json; skip
  | ReqStartProvider locked request => _ ← StartProviderRequest locked request; skip
  | ReqStopProvider locked => _ ← StopProvider locked; skip
  | ReqClamp => ClampToRpcOnly
  | ReqStopAfter step => SetStopAfterStep step
  | Meanwhile id => interfere id
  end.

(** The controller after a list of requests. *)
Definition serves (rs : list Request) (c : Ctl) : Ctl := fold_left (fun c r => fst (serve r c)) rs c.

Lemma wp_serves (I : Ctl -> Prop) rs : forall c,
  I c -> (forall c, I c -> forall r, r ∈ rs -> wp (serve r) (fun _ => I) never c) -> I (serves rs c).
Proof.
  induction rs as [|r rs IH]; intros c Ic Hs; [done|]. apply IH.
  - pose proof (Hs c Ic r ltac:(by left)) as W. unfold wp in W. cbn. destruct (serve r c) as [c' [e|a]]; [done|exact W].
  - intros c' Ic' r' Hr. apply Hs; [done|by right].
Qed.

(** ** Every request keeps the invariant *)

(** The kill switch and the policy in force, of a session that is otherwise the same. *)
Lemma members_repolicy c c' k :
  members_ok c -> steady any c c' -> core c' = core c <| killSwitch_ := k |> ->
  (state_ c = Up -> wfp_in_force c' = WOff \/ wfp_in_force c' = WConnected) ->
  (state_ c <> Up -> wfp_in_force c' = WArmed \/ wfp_in_force c' = WConnecting -> k = true) -> members_ok c'.
Proof.
  intros [W St Ma Do Li Rp Tu Pr Up' Fw] S F Hu Hf. unfold core in F. members_in F. injection F. clear F. intros.
  assert (has_routes c' = has_routes c) as Er by (unfold has_routes; by replace (netConfig_ c') with (netConfig_ c)).
  assert (state_ c' = state_ c) as Es by done.
  split; rewrite ?Es, ?Er.
  - by apply (sd_fire _ _ _ S).
  - done.
  - congruence.
  - intros L. destruct (Do L) as (?&?&?&?&?&?&?&?&?). unfold nothing_left. split_and!; congruence.
  - intros L. destruct (Li L) as (?&?&?&?&?&id&?&?). unfold session_parts. split_and!; try congruence.
    exists id. split; [congruence|]. by apply (sd_stop _ _ _ S).
  - intros E. destruct (Rp E) as (?&?&?). split_and!; congruence.
  - intros E. destruct (Tu E) as (?&?). split; congruence.
  - intros E. destruct (Pr E) as [?|(id&?&?)]; [by left|right]. exists id. split; [congruence|by apply (sd_cancel _ _ _ S)].
  - intros E. destruct (Up' E) as (Hn & Hp & _). unfold captured. split_and!; [|congruence|by apply Hu].
    by replace (netConfig_ c') with (netConfig_ c).
  - intros E Hw. replace (killSwitch_ c') with k. by apply Hf.
Qed.

Lemma SetKillSwitch_ok on c : session_ok c -> wp (SetKillSwitch on) (fun _ => session_ok) never c.
Proof.
  intros (M & Mi & Hd & Hs). pose proof (mo_fire _ M) as W. unfold SetKillSwitch. reads.
  destruct (Bool.eqb (killSwitch_ c) on); [by apply wp_ret|]. apply wp_bind, wp_modify.
  set (c1 := c <| killSwitch_ := on |>). assert (steady any c c1) as S1 by quiet.
  assert (core c1 = core c <| killSwitch_ := on |>) as F1 by reflexivity.
  assert (mirror_ok c1) as M1 by exact Mi. assert (wfp_in_force c1 = wfp_in_force c) as E1 by reflexivity. clearbody c1.
  assert (forall c', steady any c1 c' -> core c' = core c1 -> mirror_ok c' ->
    (state_ c = Up -> wfp_in_force c' = WOff \/ wfp_in_force c' = WConnected) ->
    (state_ c <> Up -> wfp_in_force c' = WArmed \/ wfp_in_force c' = WConnecting -> on = true) -> session_ok c') as Hdone.
  { intros c' S F Mi' Hu Hf. split_and!; [|done| |].
    - apply (members_repolicy c c' on); try done; [by eapply steady_trans|congruence].
    - rewrite F1 in F. by rewrite (framed (f := handedDevice) _ _ F).
    - rewrite F1 in F. by rewrite (framed (f := handedSpace) _ _ F). }
  destruct (negb on && negb (bool_decide (state_ c = Up)) && _) eqn:Ea.
  { apply andb_true_iff in Ea as [[_ En%negb_true_iff%bool_decide_eq_false]%andb_true_iff _]. apply wp_bind.
    run (ApplyWfpLocked_spec any WOff c1) as ok c2 [S2 F2 Po2 _ Of2 Mi2]; [done|by apply (sd_fire _ _ _ S1)|]. apply wp_ret.
    rewrite (Of2 eq_refl) in Po2. apply Hdone; [done|done|by apply Mi2|done|]. rewrite Po2. by intros _ [?|?]. }
  destruct (on && bool_decide (state_ c = Up) && _) eqn:Eb.
  { apply andb_true_iff in Eb as [[-> Eu%bool_decide_eq_true]%andb_true_iff Eo%bool_decide_eq_true].
    run (ApplyWfpLocked_spec any WConnected c1) as ok c2 [S2 F2 Po2 _ _ Mi2 _]; [done|by apply (sd_fire _ _ _ S1)|].
    apply Hdone; [done|done|by apply Mi2| |by intros []]. intros _. rewrite Po2, E1, Eo. destruct ok; auto. }
  apply wp_ret, Hdone; [apply steady_refl|done|done| |].
  - rewrite E1. intros E. by apply (mo_up _ M).
  - rewrite E1. intros E Hw. destruct on; [done|]. cbn [negb] in Ea. rewrite (bool_decide_eq_false_2 (state_ c = Up)) in Ea by done.
    cbn [negb andb] in Ea. apply orb_false_iff in Ea as [?%bool_decide_eq_false ?%bool_decide_eq_false]. by destruct Hw.
Qed.

(** What a stop leaves, in the invariant's terms. *)
Lemma StopLocked_ok finalDisarm disconnect c :
  session_ok c -> wp (StopLocked finalDisarm disconnect) (fun _ c' => session_ok c' /\ stopped finalDisarm disconnect c c') never c.
Proof.
  intros (M & _ & Hd & Hs). pose proof (mo_fire _ M) as W.
  run (StopLocked_spec finalDisarm disconnect c W) as c' St. split; [|done]. by apply (stopped_session_ok finalDisarm disconnect c).
Qed.

(** A stop that got the lock: its first lines, then the teardown. *)
Definition stopped_from (finalDisarm disconnect : bool) (c c' : Ctl) : Prop :=
  session_ok c' /\ exists c1, async calm c c1 /\ stopped finalDisarm disconnect c1 c'.

Lemma calm_background e : background e -> calm e.
Proof. intros B. by apply opening_calm, opening_background. Qed.

Lemma StopWith_spec disconnect c :
  session_ok c -> wp (StopWith true disconnect) (fun _ c' => stopped_from true disconnect c c') never c.
Proof.
  intros Ok. unfold StopWith. apply wp_bind. run (stop_prelude_spec calm c) as c1 A1.
  run (StopLocked_ok true disconnect c1 (async_session_ok _ _ _ A1 Ok)) as c2 [Ok2 St]. split; [done|by exists c1].
Qed.

Lemma FailsafeStop_spec reason c :
  session_ok c ->
  wp (FailsafeStop true reason) (fun _ c' => exists c1, stopped_from (FailsafeFinalDisarm (killSwitch_ c)) false c c1 /\
      session_ok c' /\ c' = c1 <| log := log c1 ++ [StateNotified] |>) never c.
Proof.
  intros Ok. unfold FailsafeStop. apply wp_bumped, wp_bind, wp_modify. reads.
  set (c1 := (bumped c) <| lastStopReason_ := StopReasonOf reason |>).
  assert (async calm c c1) as A1 by (eapply async_trans; [apply async_bumped|apply async_reason]).
  assert (killSwitch_ c1 = killSwitch_ c) as -> by exact (framed _ _ (as_frame _ _ _ A1)). clearbody c1. apply wp_bind.
  run (StopLocked_ok (FailsafeFinalDisarm (killSwitch_ c)) false c1 (async_session_ok _ _ _ A1 Ok)) as c2 [Ok2 St].
  apply wp_emit. exists c2. split_and!; [split; [done|by exists c1]| |done].
  by apply (async_session_ok any c2), Ok2; apply async_log.
Qed.

Lemma Logout_ok locked json c : session_ok c -> wp (Logout locked json) (fun _ => session_ok) never c.
Proof.
  intros Ok. unfold Logout. apply wp_bumped. pose proof (async_bumped any c) as A1.
  pose proof (async_session_ok _ _ _ A1 Ok) as Ok1. set (c1 := bumped c) in *. clearbody c1.
  destruct (negb locked); [by apply wp_ret|]. apply wp_bind, wp_modify. set (c2 := c1 <| lastStopReason_ := _ |>).
  pose proof (async_session_ok any c1 c2 (async_reason _ _ _) Ok1) as Ok2. clearbody c2. apply wp_bind.
  run (StopLocked_ok true false c2 Ok2) as c3 [Ok3 _]. apply wp_bind, wp_emit. set (c4 := c3 <| log := _ |>).
  assert (session_ok c4) as Ok4 by (by apply (async_session_ok any c3 c4), Ok3; apply async_log). clearbody c4.
  case_bool_decide; [by apply wp_ret|]. apply wp_bind.
  run (blocking_spec any (fun _ _ => I) ImportsSpace c4 (mo_fire _ (proj1 Ok4))) as imports c5 A5.
  pose proof (async_session_ok _ _ _ A5 Ok4) as Ok5. destruct imports; [|by apply wp_ret].
  run (blocking_spec any (fun _ _ => I) ClearsSdkState c5 (mo_fire _ (proj1 Ok5))) as clears c6 A6.
  by eapply async_session_ok.
Qed.

(** Members outside the invariant. *)
Lemma quiet_session_ok c c' :
  steady any c c' -> core c' = core c \/ (exists cl after paths al, core c' = match core c with
    (a1, a2, a3, _, a5, a6, a7, a8, a9, a10, a11) => (a1, a2, a3, (cl, after, paths, al), a5, a6, a7, a8, a9, a10, a11) end) ->
  wfp_in_force c' = wfp_in_force c -> watchdog_ c' = watchdog_ c -> mirror_ok c' -> session_ok c -> session_ok c'.
Proof.
  intros S F Ew Ed Mi (M & _ & Hd & Hs).
  assert (held c' = held c /\ handedDevice c' = handedDevice c /\ handedSpace c' = handedSpace c /\ providerDevice_ c' = providerDevice_ c)
    as (Eh & E1 & E2 & E3).
  { destruct F as [F|(cl & after & paths & al & F)].
    - split; [by apply core_held|]. split_and!; by chase.
    - unfold core in F. cbn in F. injection F. intros. unfold held. split_and!; congruence. }
  split_and!; [|done|congruence|congruence]. apply (drift_members_ok any c); [split; [done|by left|by rewrite Ed]|done| |done].
  intros L. rewrite E3. by apply (mo_live _ M).
Qed.

(** Every request that gets the lock keeps the invariant, and throws nothing. *)
Lemma serve_ok r c : session_ok c -> wp (serve r) (fun _ => session_ok) never c.
Proof.
  intros Ok. pose proof Ok as (M & Mi & Hd & Hs). pose proof (mo_fire _ M) as W. destruct r; cbn [serve].
  - apply wp_bind. run (StartLocked_spec config c W) as s c1 L. apply wp_skip, L.
  - run (ActivateCapture_spec id ticket c Ok) as c1 [Ok1 _]. done.
  - run (StopWith_spec false c Ok) as c1 [Ok1 _]. done.
  - run (StopWith_spec true c Ok) as c1 [Ok1 _]. done.
  - run (FailsafeStop_spec reason c Ok) as c1 (c2 & _ & Ok1 & _). done.
  - apply wp_bind. run (SetKillSwitch_ok on c Ok) as b c1 Ok1. by apply wp_skip.
  - unfold SetSplitTunnel. apply wp_bind, wp_bind, wp_modify, wp_ret, wp_skip.
    apply (quiet_session_ok c); try done; [quiet|]. right. by exists (rpcOnlyClamp_ c), (stopAfterStep_ c), paths, allowlist.
  - apply wp_bind. run (Logout_ok locked networkSpaceJson c Ok) as b c1 Ok1. by apply wp_skip.
  - apply wp_bind. run (StartProviderRequest_ok locked request c Ok) as b c1 [Ok1 _]. by apply wp_skip.
  - apply wp_bind. run (StopProvider_ok locked c Ok) as b c1 [Ok1 _]. by apply wp_skip.
  - apply wp_modify. apply (quiet_session_ok c); try done; [quiet|]. right.
    by exists true, (stopAfterStep_ c), (excludedPaths_ c), (allowlist_ c).
  - apply wp_modify. apply (quiet_session_ok c); try done; [quiet|]. right.
    by exists (rpcOnlyClamp_ c), (ClampStopAfterStep step), (excludedPaths_ c), (allowlist_ c).
  - run (interfere_spec any (fun _ _ => I) id c W) as c1 A1. by eapply async_session_ok.
Qed.

Lemma new_controller_ok : session_ok new_controller.
Proof.
  split_and!; [|done|done|done]. split; try done; try (by intros [?|?]).
  by intros _ [?|?].
Qed.

Lemma serves_ok rs : session_ok (serves rs new_controller).
Proof. apply wp_serves; [apply new_controller_ok|]. intros c Ok r _. by apply serve_ok. Qed.
End Requests.
