(* ===== verification/ControllerProperties.v ===== *)
(** What the tunnel controller promises: its invariant, a status that tells the truth, the
    machine given back by every stop, a capture that is all or nothing, and the refusals. *)

From S2P Require Import Prelude.
From S2P Require Import CxxText.
From S2P Require Import NetPolicy.
From S2P Require Import Wfp.
From S2P Require Import WfpPolicy.
From S2P Require Import DeadTunnel.
From S2P Require Import StopBudget.
From S2P Require Import Capture.
From S2P Require Import Gesture.
From S2P Require Import Provide.
From S2P Require Import Controller.
From S2P Require Import ControllerFacts.
From S2P Require Import ControllerStop.
From S2P Require Import ControllerSession.
From S2P Require Import ControllerStart.
From S2P Require Import ControllerCapture.
From S2P Require Import ControllerProvider.
From S2P Require Import ControllerRequests.

Section Properties.
Context `{Winsock} `{Bfe} `{Platform} `{Json}.

Lemma wp_runs {A} (m : M A) (Q : A -> Ctl -> Prop) c : wp m Q never c -> exists c' a, m c = (c', inr a) /\ Q a c'.
Proof. unfold wp. destruct (m c) as [c' [e|a]]; [done|]. intros HQ. by exists c', a. Qed.


(** ** Stops *)

Lemma async_no_log c c' : async (fun _ => False) c c' -> log c' = log c.
Proof. intros A. destruct (sd_log _ _ _ (as_steady _ _ _ A)) as ([|e l] & -> & F); [by rewrite app_nil_r|by inversion F]. Qed.

Lemma prelude_then {R} (k : M R) (Q : R -> Ctl -> Prop) E c :
  (forall c1, async (fun _ => False) c c1 -> wp k Q E c1) -> wp (stop_prelude;; k) Q E c.
Proof. intros Hk. apply wp_bind. by run (stop_prelude_spec (fun _ => False) c) as c1 A1; apply Hk. Qed.

(** The failsafe up to the stop or the escape. *)
Lemma failsafe_runs (locked : bool) reason c (Q : unit -> Ctl -> Prop) :
  (forall c1, async (fun _ => False) c c1 -> lastStopReason_ c1 = StopReasonOf reason -> wfp_ c1 = wfp_ c ->
    killSwitch_ c1 = killSwitch_ c ->
    wp (if locked then StopLocked (FailsafeFinalDisarm (killSwitch_ c)) false else escape)
      (fun _ c2 => Q tt (c2 <| log := log c2 ++ [StateNotified] |>)) never c1) ->
  wp (FailsafeStop locked reason) Q never c.
Proof.
  intros Hk. unfold FailsafeStop. apply wp_bumped, wp_bind, wp_modify. reads.
  set (c1 := (bumped c) <| lastStopReason_ := StopReasonOf reason |>).
  assert (async (fun _ => False) c c1) as A1 by (eapply async_trans; [apply async_bumped|apply async_reason]).
  assert (wfp_ c1 = wfp_ c) as Ew by (subst c1; unfold bumped, cancel_capture; by destruct (captureReadiness_ _)).
  assert (killSwitch_ c1 = killSwitch_ c) as Ek by exact (framed _ _ (as_frame _ _ _ A1)). rewrite Ek.
  assert (lastStopReason_ c1 = StopReasonOf reason) as Er by done. clearbody c1. apply wp_bind.
  eapply wp_mono; [by apply (Hk c1)| |done]. cbv beta. intros [] c2 HQ. by apply wp_emit.
Qed.

(** A teardown that started after a stop's first lines. *)
Lemma stopped_after finalDisarm disconnect c c1 c' :
  fire_ok c -> async (fun _ => False) c c1 -> stopped finalDisarm disconnect c1 c' ->
  down c' /\ state_ c' = Stopped /\ machine_first c c' /\
  firewall_after finalDisarm (killSwitch_ c) (has_routes c) (wfp_in_force c) (wfp_in_force c') /\
  killSwitch_ c' = killSwitch_ c /\
  (providerDevice_ c' = None \/ (disconnect = true /\ providerDevice_ c' = device_ c /\ wfp_in_force c' = WOff)).
Proof.
  intros W A St. pose proof (as_frame _ _ _ A) as F1. pose proof (sd_fire _ _ _ (as_steady _ _ _ A) W) as W1.
  destruct (stopped_down _ _ _ _ W1 St) as [Dn Es].
  assert (has_routes c1 = has_routes c) as Er by exact (framed _ _ F1).
  assert (killSwitch_ c1 = killSwitch_ c) as Ek by exact (framed _ _ F1).
  assert (device_ c1 = device_ c) as Ed by exact (framed _ _ F1).
  destruct (so_core _ _ _ _ St) as (e & n & d & s & r & t & k & F & _ & Hd).
  unfold core, set_provider, take_down in F. cbn in F. injection F. intros.
  split_and!; [done|done| | |congruence|].
  - destruct (so_log _ _ _ _ St) as (l & l' & El & Fl & Fl' & Em & Hr). exists l, l'.
    rewrite (async_no_log _ _ A) in El. rewrite Er in Hr. by split_and!.
  - pose proof (so_policy _ _ _ _ St) as Po. rewrite Ek, Er in Po. eapply firewall_after_watchdog; [|exact Po].
    destruct (as_policy _ _ _ A) as [->|[Hw ->]]; [by left|right]. split; [by apply W|done].
  - destruct d as [d|]; [right|by left]. destruct (Hd ltac:(done)) as (-> & E & Eo). split_and!; [done|congruence|done].
Qed.

(** C3: a stop or a disconnect that gets the lock ends, throws nothing, and gives the machine
    back whatever else fails: the session is stopped, no device, adapter, pump, route or
    DNS setting is left of it, the marker is off, and the firewall is lifted even with the
    kill switch on, since a person asked.  The routes and the firewall come first: nothing
    of the SDK is torn down before them.  A provider is left only by a disconnect, and it
    is the session's own device. *)
Theorem stop_gives_the_machine_back disconnect c :
  session_ok c ->
  exists c', StopWith true disconnect c = (c', inr tt) /\ state_ c' = Stopped /\ nothing_left c' /\ marker c' = false /\
    wfp_in_force c' = WOff /\ facts (Status c') = facts (ComposeStatusLocked c') /\ machine_first c c' /\
    (providerDevice_ c' = None \/ (disconnect = true /\ providerDevice_ c' = device_ c)).
Proof.
  intros Ok. pose proof (mo_fire _ (proj1 Ok)) as W.
  assert (wp (StopWith true disconnect) (fun _ c' => session_ok c' /\ exists c1, async (fun _ => False) c c1 /\ stopped true disconnect c1 c') never c) as S.
  { unfold StopWith. apply prelude_then. intros c1 A1.
    run (StopLocked_ok true disconnect c1 (async_session_ok _ _ _ A1 Ok)) as c2 [Ok2 St]. split; [done|by exists c1]. }
  destruct (wp_runs _ _ _ S) as (c' & [] & E & (M' & [Mf _] & _) & c1 & A & St). exists c'.
  destruct (stopped_after _ _ _ _ _ W A St) as ((_ & _ & L & Em & _) & Es & Mach & Po & _ & Hp).
  split_and!; try done. destruct Hp as [?|(? & ? & _)]; [by left|by right].
Qed.

(** What a stop's refusals say of the controller it started from. *)
Lemma stopped_refused finalDisarm disconnect c c1 c' :
  fire_ok c -> async (fun _ => False) c c1 -> stopped finalDisarm disconnect c1 c' -> armed_or_refused finalDisarm (has_routes c) c c'.
Proof.
  intros W A St Hd Hk Hn. pose proof (as_frame _ _ _ A) as F.
  assert (has_routes c1 = has_routes c) as Er by exact (framed _ _ F).
  assert (killSwitch_ c1 = killSwitch_ c) as Ek by exact (framed _ _ F).
  destruct (so_refused _ _ _ _ St Hd) as [?|R]; [congruence| |by left|right].
  - destruct Hn as [Hn|Hn]; [left|right; congruence].
    by destruct (dr_policy _ _ _ (async_drift _ _ _ A)) as [->|[_ ->]].
  - eapply (refused_log _ c); [exact R|by rewrite (async_no_log _ _ A), app_nil_r|by rewrite app_nil_r].
Qed.

(** What the way out of a stop that cannot get the lock leaves. *)
Record escaped (c c' : Ctl) : Prop := {
  es_marker : marker c' = false;
  es_lifted : killSwitch_ c = false -> wfp_in_force c' = WOff;
  es_kept : killSwitch_ c = true -> wfp_in_force c' = wfp_in_force c;
  es_routes : ts_routes_installed (Status c') = false /\ ts_dns_applied (Status c') = false;
  es_status : ts_wfp_state (Status c') = wfp_name (wfp_in_force c');
  es_reason : lastStopReason_ c' = lastStopReason_ c;
  es_forced : TeardownAbandoned (budget c') = true;
  es_log : exists l, log c' = log c ++ CrashReverted :: MarkerSet false :: l /\ Forall giving_back l;
}.

Lemma escape_spec c : policy_wf (wfp_ c) -> wp escape (fun _ => escaped c) never c.
Proof.
  intros W. unfold escape, SetActiveMarker. apply wp_bind, wp_emit, wp_bind, wp_bind, wp_modify, wp_emit, wp_bind.
  set (c2 := c <| log := _ |> <| marker := false |> <| log := _ |>).
  assert (killSwitch_ c2 = killSwitch_ c /\ wfp_ c2 = wfp_ c /\ lastStopReason_ c2 = lastStopReason_ c /\ marker c2 = false /\
    log c2 = log c ++ [CrashReverted; MarkerSet false]) as (Ek2 & Ew2 & Es2 & Em2 & El2).
  { subst c2. members. rewrite <- app_assoc. done. }
  clearbody c2. unfold DropFirewallOnEscape. reads.
  apply (wp_mono _ (fun _ c3 => marker c3 = false /\ lastStopReason_ c3 = lastStopReason_ c /\
    (killSwitch_ c = false -> wfp_in_force c3 = WOff) /\ (killSwitch_ c = true -> wfp_in_force c3 = wfp_in_force c) /\
    exists l, log c3 = log c ++ CrashReverted :: MarkerSet false :: l /\ Forall giving_back l) _ never); [| |done].
  - rewrite Ek2. unfold wfp_in_force in *. destruct (killSwitch_ c).
    + apply wp_skip. rewrite Ew2. split_and!; try done. by exists [].
    + rewrite Ew2. case_bool_decide as Eo; [apply wp_skip; rewrite Ew2; split_and!; try done; by exists []|].
      eapply wp_mono; [apply wfp_revert_spec; by rewrite Ew2| |done]. cbv beta. intros _ c3 (p & t & E & _ & Sp).
      assert (wfp_ c3 = p /\ marker c3 = false /\ lastStopReason_ c3 = lastStopReason_ c /\ log c3 = log c2 ++ [FirewallAsked WOff true])
        as (E1 & E2 & E3 & E4) by (by subst c3).
      rewrite E1, E4, El2. split_and!; try done. exists [FirewallAsked WOff true]. split; [by rewrite <- app_assoc|].
      by apply List.Forall_cons, List.Forall_nil.
  - intros _ c3 (Em & Es & Hoff & Hkeep & l' & El & Fl). apply wp_bind, wp_republish, wp_modify.
    unfold Status. split; try done. by exists l'.
Qed.

(** The failsafe that gets the lock. *)
Lemma failsafe_locked reason c :
  session_ok c ->
  exists c', FailsafeStop true reason c = (c', inr tt) /\ state_ c' = Stopped /\ nothing_left c' /\ marker c' = false /\
    killSwitch_ c' = killSwitch_ c /\ (killSwitch_ c = false -> wfp_in_force c' = WOff) /\
    exists l l', log c' = log c ++ l ++ l' ++ [StateNotified] /\ Forall opening l /\ Forall winding_down l' /\
      (has_routes c = true -> NetworkReverted ∈ l) /\
      (killSwitch_ c = true ->
        if has_routes c || negb (bool_decide (wfp_in_force c = WOff))
        then wfp_in_force c' = WArmed \/
          (wfp_in_force c' = wfp_in_force c /\ (ServiceImagePath = [] \/ FirewallAsked WArmed false ∈ l ++ l'))
        else wfp_in_force c' = WOff).
Proof.
  intros Ok. pose proof (mo_fire _ (proj1 Ok)) as W.
  assert (wp (FailsafeStop true reason) (fun _ c' => exists c1 c2, async (fun _ => False) c c1 /\
    stopped (negb (killSwitch_ c)) false c1 c2 /\ c' = c2 <| log := log c2 ++ [StateNotified] |>) never c) as S.
  { apply failsafe_runs. intros c1 A1 _ _ _.
    run (StopLocked_spec (FailsafeFinalDisarm (killSwitch_ c)) false c1 (sd_fire _ _ _ (as_steady _ _ _ A1) W)) as c2 St.
    by exists c1, c2. }
  destruct (wp_runs _ _ _ S) as (c' & [] & E & c1 & c2 & A & St & Ec). exists c'. clear S.
  destruct (stopped_after _ _ _ _ _ W A St) as ((_ & _ & L & Em & _) & Es & (l & l' & El & Fl & Fl' & _ & Hr) & Po & Ek & _).
  assert (wfp_in_force c' = wfp_in_force c2) as -> by (by subst c').
  pose proof (stopped_refused _ _ _ _ _ W A St) as Rf. unfold firewall_after in Po. split_and!; try (by subst c').
  { intros Hk. by rewrite Hk in Po. }
  exists l, l'. split_and!; try done.
  { subst c'. members. by rewrite El, <- !app_assoc. }
  intros Hk. rewrite Hk, orb_comm in *. cbn in Po. destruct (_ || has_routes c) eqn:Eb; [|exact Po]. cbn in Po.
  destruct Rf as [Ha|Rf]; [done|done| |by left|].
  { apply orb_true_iff in Eb as [Eb|Eb]; [left|by right]. by apply negb_true_iff, bool_decide_eq_false in Eb. }
  destruct Po as [Po|Po]; [by left|right; split; [done|]]. destruct Rf as [?|(k & Ek' & Hk')]; [by left|right].
  rewrite El in Ek'. by apply app_inv_head in Ek' as ->.
Qed.

(** The failsafe that does not. *)
Lemma failsafe_escapes reason c :
  policy_wf (wfp_ c) ->
  exists c', FailsafeStop false reason c = (c', inr tt) /\ marker c' = false /\
    ts_routes_installed (Status c') = false /\ ts_wfp_state (Status c') = wfp_name (wfp_in_force c') /\
    lastStopReason_ c' = StopReasonOf reason /\
    (killSwitch_ c = false -> wfp_in_force c' = WOff) /\ (killSwitch_ c = true -> wfp_in_force c' = wfp_in_force c) /\
    exists l, log c' = log c ++ CrashReverted :: MarkerSet false :: l ++ [StateNotified].
Proof.
  intros W. assert (wp (FailsafeStop false reason) (fun _ c' => exists c1 c2, async (fun _ => False) c c1 /\
    lastStopReason_ c1 = StopReasonOf reason /\ wfp_ c1 = wfp_ c /\ killSwitch_ c1 = killSwitch_ c /\ escaped c1 c2 /\
    c' = c2 <| log := log c2 ++ [StateNotified] |>) never c) as S.
  { apply failsafe_runs. intros c1 A1 Er Ew Ek. cbv iota. eapply wp_mono; [apply escape_spec; by rewrite Ew| |done].
    cbv beta. intros _ c2 Es. by exists c1, c2. }
  destruct (wp_runs _ _ _ S) as (c' & [] & E & c1 & c2 & A & Er & Ew & Ek & [Em Ho Hk [R1 R2] Es Lr F (l & El & _)] & Ec).
  exists c'. clear S. assert (wfp_in_force c1 = wfp_in_force c) as Ew' by (unfold wfp_in_force; by rewrite Ew).
  rewrite Ek in Ho, Hk. rewrite Ew' in Hk. rewrite (async_no_log _ _ A) in El. split; [done|]. clear E. subst c'.
  split_and!; try done; [by rewrite <- Er, <- Lr|]. exists l. members. by rewrite El, <- app_assoc.
Qed.

(** C5: the dead-tunnel failsafe leaves the firewall to the kill switch.  When it gets the
    session lock it takes the session and its routes away like a stop does.  With the kill
    switch off the machine is unblocked.  With it on, a machine that was blocked or had
    routes is left with the armed policy; anything else means that the policy was refused,
    by Windows or for want of the service's own image path, and then the firewall is as it
    was; and a machine that had neither routes nor a firewall gets none.  When it does not
    get the lock the routes are asked to go all the same, the marker is off, the status
    says so, and the firewall is lifted with the kill switch off and not touched with it
    on. *)
Theorem failsafe_respects_the_kill_switch reason c :
  session_ok c ->
  (exists c', FailsafeStop true reason c = (c', inr tt) /\ state_ c' = Stopped /\ nothing_left c' /\ marker c' = false /\
    killSwitch_ c' = killSwitch_ c /\ (killSwitch_ c = false -> wfp_in_force c' = WOff) /\
    exists l l', log c' = log c ++ l ++ l' ++ [StateNotified] /\ Forall opening l /\ Forall winding_down l' /\
      (has_routes c = true -> NetworkReverted ∈ l) /\
      (killSwitch_ c = true ->
        if has_routes c || negb (bool_decide (wfp_in_force c = WOff))
        then wfp_in_force c' = WArmed \/
          (wfp_in_force c' = wfp_in_force c /\ (ServiceImagePath = [] \/ FirewallAsked WArmed false ∈ l ++ l'))
        else wfp_in_force c' = WOff)) /\
  (exists c', FailsafeStop false reason c = (c', inr tt) /\ marker c' = false /\
    ts_routes_installed (Status c') = false /\ ts_wfp_state (Status c') = wfp_name (wfp_in_force c') /\
    lastStopReason_ c' = StopReasonOf reason /\
    (killSwitch_ c = false -> wfp_in_force c' = WOff) /\ (killSwitch_ c = true -> wfp_in_force c' = wfp_in_force c) /\
    exists l, log c' = log c ++ CrashReverted :: MarkerSet false :: l ++ [StateNotified]).
Proof.
  intros Ok. pose proof (mo_fire _ (proj1 Ok)) as W. split; [by apply failsafe_locked|by apply failsafe_escapes, W].
Qed.

(** A stop or a disconnect that cannot get the lock, because a connect is stuck in the
    SDK, gives the machine back without it: the routes are asked to go, the marker is off,
    the firewall is lifted unless the kill switch is on, and then it is not touched, the
    status a client gets says so and says that a person asked, and the process is marked to
    end by force. *)
Theorem escape_frees_the_machine disconnect c :
  policy_wf (wfp_ c) ->
  exists c', StopWith false disconnect c = (c', inr tt) /\ marker c' = false /\
    (killSwitch_ c = false -> wfp_in_force c' = WOff) /\
    (killSwitch_ c = true -> wfp_in_force c' = wfp_in_force c) /\
    ts_routes_installed (Status c') = false /\ ts_dns_applied (Status c') = false /\
    ts_wfp_state (Status c') = wfp_name (wfp_in_force c') /\ ts_stop_reason (Status c') = kStopReasonUser /\
    TeardownAbandoned (budget c') = true /\
    exists l, log c' = log c ++ CrashReverted :: MarkerSet false :: l /\ Forall giving_back l.
Proof.
  intros W.
  assert (wp (StopWith false disconnect) (fun _ c' => exists c1, lastStopReason_ c1 = kStopReasonUser /\ wfp_ c1 = wfp_ c /\
    killSwitch_ c1 = killSwitch_ c /\ log c1 = log c /\ escaped c1 c') never c) as S.
  { unfold StopWith, stop_prelude. apply wp_bind, wp_bumped, wp_modify. cbv iota.
    set (c1 := (bumped c) <| lastStopReason_ := kStopReasonUser |>).
    assert (killSwitch_ c1 = killSwitch_ c /\ wfp_ c1 = wfp_ c /\ log c1 = log c /\ lastStopReason_ c1 = kStopReasonUser) as (Ek & Ew & El & Es).
    { subst c1. unfold bumped, cancel_capture. destruct (captureReadiness_ _); done. }
    clearbody c1. eapply wp_mono; [apply escape_spec; by rewrite Ew| |done]. cbv beta. intros _ c2 Es2. by exists c1. }
  destruct (wp_runs _ _ _ S) as (c' & [] & E & c1 & Er & Ew & Ek & El & [Em Ho Hk [R1 R2] Es Lr F (l & El' & Fl)]).
  exists c'. rewrite Ek in Ho, Hk. unfold wfp_in_force in Hk. rewrite Ew in Hk. rewrite El in El'.
  split_and!; try done; [by unfold Status; cbn; rewrite Lr|]. by exists l.
Qed.

(** ** Starts and captures *)

(** A start of a service that has decided to restart itself builds nothing: it ends the
    session there was, says why, and neither a device nor an adapter is made. *)
Theorem leaving_service_starts_nothing config c :
  session_ok c -> SelfRestartPending (budget c) = true ->
  exists c' s, StartLocked config c = (c', inr s) /\ state_ c' = StateError /\ error_ c' = leaving_text /\ nothing_left c' /\
    session_ok c' /\ exists l, log c' = log c ++ l /\ forall e, e ∈ l -> calm e.
Proof.
  intros Ok Hp. pose proof (mo_fire _ (proj1 Ok)) as W.
  pose proof (wp_and _ _ _ _ _ _ (StartLocked_leaving config c W Hp) (StartLocked_spec config c W)) as S.
  destruct (wp_runs _ _ _ (wp_mono _ _ _ _ never _ S (fun _ _ Q => Q) (fun _ _ Q => proj1 Q)))
    as (c' & s & E & [Es L Ee (l & El & Fl)] & Sl).
  exists c', s. split_and!; try done; [apply Sl|]. exists l. split; [done|]. by apply Forall_forall.
Qed.


(** What can happen to a waiting session before the next request: attempts to activate
    it, and whatever the other threads do. *)
Definition waiting_request (r : Request) : bool :=
  match r with ReqActivate _ _ | Meanwhile _ => true | _ => false end.

(** A session that a stop has asked to end, and that is not up. *)
Definition asked_to_end (c : Ctl) : Prop :=
  session_ok c /\ state_ c <> Up /\ has_routes c = false /\ (state_ c = Preparing -> session_cancelled c).

Lemma serve_asked_to_end r c : waiting_request r = true -> asked_to_end c -> wp (serve r) (fun _ => asked_to_end) never c.
Proof.
  intros Hr (Ok & Eu & En & Hc). destruct r; try done; cbn [serve].
  - unfold ActivateCapture. reads. destruct (Cancelled c id || _ || _) eqn:E; [by apply wp_skip|].
    rewrite !orb_false_iff, !negb_false_iff, !bool_decide_eq_true in E. destruct E as [[Ec Er] Es].
    destruct (Hc Es) as (i & Hi & Hca). assert (i = id) as -> by congruence. congruence.
  - run (interfere_spec any (fun _ _ => I) id c (mo_fire _ (proj1 Ok))) as c1 A1. pose proof (as_frame _ _ _ A1) as F.
    split_and!; [by eapply async_session_ok|by chase|by chase|]. chase. intros Es. destruct (Hc Es) as (i & Hi & Hca).
    exists i. split; [by chase|]. by apply (sd_cancel _ _ _ (as_steady _ _ _ A1)).
Qed.

(** C40: a stop that arrives while a start is under way, and has to wait for the lock, is
    never overtaken: however the start ended, whatever proofs arrive and activations are
    tried until the stop gets the lock, the session does not go up and no route goes in. *)
Theorem overtaken_start_never_captures config rs c :
  session_ok c -> stopGeneration_ (fst (StartLocked config c)) <> stopGeneration_ c -> forallb waiting_request rs = true ->
  state_ (serves rs (fst (StartLocked config c))) <> Up /\ has_routes (serves rs (fst (StartLocked config c))) = false.
Proof.
  intros Ok. set (c1 := fst (StartLocked config c)). intros Hg Hrs. destruct (wp_runs _ _ _ (StartLocked_spec config c (mo_fire _ (proj1 Ok)))) as (c' & s & E & Sl).
  assert (c1 = c') as -> by (subst c1; by rewrite E). clear E.
  assert (asked_to_end c') as Ha.
  { pose proof (sl_ok _ _ _ Sl) as (M & _).
    assert (state_ c' <> Up) as Eu by (destruct (sl_state _ _ _ Sl) as [->|[->| ->]]; unfold live_state; by try case_bool_decide).
    assert (state_ c' = Preparing -> session_cancelled c') as Hc.
    { intros Ep. apply (sl_overtaken _ _ _ Sl); [by rewrite Ep|done]. }
    split_and!; [apply Sl|done|apply Sl|done]. }
  destruct (wp_serves asked_to_end rs c' Ha) as (_ & Eu & Er & _); [|done].
  intros c2 H2' r Hr. apply serve_asked_to_end; [|done]. rewrite forallb_forall in Hrs. by apply Hrs, list_elem_of_In.
Qed.

(** ** The clamp *)

(** The effects that leave the machine's traffic and firewall as they are, or give it back. *)
Definition local_effect (e : Effect) : Prop :=
  match e with
  | AdapterCreated _ | NetworkApplied _ | MarkerSet true | FirewallAsked WConnecting _ | FirewallAsked WConnected _ => False
  | _ => True
  end.

Lemma calm_local e : calm e -> local_effect e.
Proof. intros [G|G]; by destruct e as [| | | | | |[]|[] ?| | | | |]. Qed.

Record clamped (c : Ctl) : Prop := {
  cl_ok : session_ok c;
  cl_clamp : rpcOnlyClamp_ c = true;
  cl_state : state_ c <> Preparing /\ state_ c <> Up;
  cl_firewall : wfp_in_force c = WOff;
  cl_log : Forall local_effect (log c);
}.

Lemma clamped_routes c : clamped c -> has_routes c = false.
Proof.
  intros [(M & _) _ [Ep Eu] _ _]. destruct (IsSessionLive (state_ c)) eqn:L.
  - assert (state_ c = RpcOnly) as Er by (destruct (state_ c); done).
    destruct (mo_rpc _ M Er) as (_ & En & _). unfold has_routes. by rewrite En.
  - destruct (mo_down _ M L) as (_ & _ & En & _). unfold has_routes. by rewrite En.
Qed.

Lemma clamped_grows (P : Effect -> Prop) c c' :
  clamped c -> (forall e, P e -> local_effect e) -> grows P c c' -> session_ok c' -> rpcOnlyClamp_ c' = true ->
  state_ c' <> Preparing /\ state_ c' <> Up -> wfp_in_force c' = WOff -> clamped c'.
Proof.
  intros Cl HP (l & El & Fl) Ok Ec Es Ew. split; try done. rewrite El. apply Forall_app. split; [apply Cl|].
  eapply Forall_impl; [exact Fl|exact HP].
Qed.

Lemma clamped_watchdog c : clamped c -> watchdog_ c = false.
Proof.
  intros Cl. destruct (watchdog_ c) eqn:E; [|done]. destruct (cl_ok _ Cl) as (M & _). destruct (mo_fire _ M) as [_ W].
  specialize (W E). rewrite (cl_firewall _ Cl) in W. done.
Qed.

Lemma clamped_async c c' : async (fun e => local_effect e) c c' -> clamped c -> clamped c'.
Proof.
  intros A Cl. pose proof (as_frame _ _ _ A) as F. apply (clamped_grows local_effect c); [done|done| | | | |].
  - exact (sd_log _ _ _ (as_steady _ _ _ A)).
  - exact (async_session_ok _ _ _ A (cl_ok _ Cl)).
  - rewrite (framed (f := rpcOnlyClamp_) _ _ F). exact (cl_clamp _ Cl).
  - rewrite (framed (f := state_) _ _ F). exact (cl_state _ Cl).
  - destruct (drift_still _ _ _ (async_drift _ _ _ A) (clamped_watchdog _ Cl)) as [_ ->]. exact (cl_firewall _ Cl).
Qed.

(** A stop keeps it. *)
Lemma clamped_stopped finalDisarm disconnect c c' :
  clamped c -> session_ok c' -> stopped finalDisarm disconnect c c' -> clamped c'.
Proof.
  intros Cl Ok St. pose proof (so_policy _ _ _ _ St) as Po. rewrite (cl_firewall _ Cl), (clamped_routes _ Cl) in Po.
  unfold firewall_after in Po. cbn in Po. rewrite andb_false_r, orb_true_r in Po.
  destruct (so_core _ _ _ _ St) as (e & n & d & s & r & t & k & F & _).
  unfold core, set_provider, take_down in F. cbn in F. injection F. intros.
  apply (clamped_grows calm c); [done|apply calm_local|apply St|done| | |done].
  - pose proof (cl_clamp _ Cl). congruence.
  - by replace (state_ c') with Stopped.
Qed.

Lemma clamped_provider c c' : clamped c -> provider_only c c' -> session_ok c' -> clamped c'.
Proof.
  intros Cl [D (d & s & F)] Ok. apply (clamped_grows providing c); [done| |apply D|done| | |].
  - intros e. by destruct e as [| | | | | |[]|[] ?| | | | |].
  - destruct F as (e & n & r & t & k & F). rewrite core_with_provider in F. unfold core, set_provider in F. injection F. intros.
    pose proof (cl_clamp _ Cl). congruence.
  - destruct F as (e & n & r & t & k & F). rewrite core_with_provider in F. unfold core, set_provider in F. injection F. intros.
    pose proof (cl_state _ Cl). replace (state_ c') with (state_ c). done.
  - destruct (drift_still _ _ _ D (clamped_watchdog _ Cl)) as [_ ->]. exact (cl_firewall _ Cl).
Qed.

Lemma clamped_start config c : clamped c -> wp (StartLocked config) (fun _ => clamped) never c.
Proof.
  intros Cl. assert (mode_of config c = ModeRpcOnly) as Em.
  { unfold mode_of. rewrite (cl_clamp _ Cl). cbn. case_bool_decide as E; [exact E|done]. }
  run (StartLocked_spec config c (mo_fire _ (proj1 (cl_ok _ Cl)))) as s c' [Ok Es _ _ G Off Ec].
  rewrite Em in Es, G, Off. apply (clamped_grows (start_effect ModeRpcOnly) c); try done.
  - intros e. unfold start_effect. destruct e as [| | | | | |[]|[] ?| | | | |]; try done; apply calm_local.
  - rewrite Ec. apply (cl_clamp _ Cl).
  - by destruct Es as [->|[->| ->]].
  - apply Off; [done|apply (cl_firewall _ Cl)|by apply clamped_routes].
Qed.

(** Without a firewall and a tunnel that is up, the kill switch is a note for later. *)
Lemma SetKillSwitch_quiet on c :
  state_ c <> Up -> wfp_in_force c = WOff ->
  wp (SetKillSwitch on) (fun _ c' => log c' = log c /\ rpcOnlyClamp_ c' = rpcOnlyClamp_ c /\ state_ c' = state_ c /\
      wfp_in_force c' = WOff) never c.
Proof.
  intros Eu Eo. unfold SetKillSwitch. reads. destruct (Bool.eqb _ _); [by apply wp_ret|]. apply wp_bind, wp_modify.
  rewrite Eo, (bool_decide_eq_false_2 (state_ c = Up) Eu), !andb_false_r. by apply wp_ret.
Qed.

Lemma Logout_clamped locked json c : clamped c -> wp (Logout locked json) (fun _ => clamped) never c.
Proof.
  intros Cl. unfold Logout. apply wp_bumped. pose proof (clamped_async _ _ (async_bumped _ c) Cl) as Cl1.
  set (c1 := bumped c) in *. clearbody c1. destruct (negb locked); [by apply wp_ret|].
  apply wp_bind, wp_modify. set (c2 := c1 <| lastStopReason_ := _ |>).
  pose proof (clamped_async c1 c2 (async_reason _ _ _) Cl1) as Cl2. clearbody c2. apply wp_bind.
  run (StopLocked_ok true false c2 (cl_ok _ Cl2)) as c3 [Ok3 St].
  pose proof (clamped_stopped _ _ _ _ Cl2 Ok3 St) as Cl3. apply wp_bind, wp_emit. set (c4 := c3 <| log := _ |>).
  assert (clamped c4) as Cl4 by (by apply (clamped_async c3 c4); [apply async_log|]). clearbody c4.
  case_bool_decide; [by apply wp_ret|]. apply wp_bind.
  assert (forall e, background e -> local_effect e) as HB by (intros e B; by apply calm_local, calm_background).
  run (blocking_spec local_effect HB ImportsSpace c4 (mo_fire _ (proj1 (cl_ok _ Cl4)))) as imports c5 A5.
  pose proof (clamped_async _ _ A5 Cl4) as Cl5. destruct imports; [|by apply wp_ret].
  run (blocking_spec local_effect HB ClearsSdkState c5 (mo_fire _ (proj1 (cl_ok _ Cl5)))) as clears c6 A6.
  by eapply clamped_async.
Qed.

Lemma StopWith_clamped disconnect c : clamped c -> wp (StopWith true disconnect) (fun _ => clamped) never c.
Proof.
  intros Cl. unfold StopWith. apply prelude_then. intros c1 A1.
  assert (clamped c1) as Cl1 by (eapply clamped_async; [eapply async_mono; [|exact A1]; done|done]).
  run (StopLocked_ok true disconnect c1 (cl_ok _ Cl1)) as c2 [Ok2 St]. by eapply clamped_stopped.
Qed.

(** A change of members the clamp is not about. *)
Lemma clamped_same c c' :
  clamped c -> session_ok c' -> log c' = log c -> rpcOnlyClamp_ c' = true -> state_ c' = state_ c ->
  wfp_in_force c' = WOff -> clamped c'.
Proof. intros [Ok Ec Es Eo El] Ok' El' Ec' Es' Eo'. split; [done|done|by rewrite Es'|done|by rewrite El']. Qed.

Lemma serve_clamped r c : clamped c -> wp (serve r) (fun _ => clamped) never c.
Proof.
  intros Cl. pose proof Cl as [Ok Ec [Ep Eu] Eo El]. pose proof (serve_ok r c Ok) as HI.
  assert (forall Q : Ctl -> Prop, wp (serve r) (fun _ => Q) never c -> (forall c', Q c' -> session_ok c' -> clamped c') ->
    wp (serve r) (fun _ => clamped) never c) as Hboth.
  { intros Q HQ Hk. eapply wp_mono; [apply (wp_and _ _ _ _ _ _ HQ HI)| |by intros ? ? []].
    cbv beta. intros _ c' [? ?]. by apply Hk. }
  destruct r; cbn [serve] in *.
  - apply wp_bind. run (clamped_start config c Cl) as s c1 Cl1. by apply wp_skip.
  - unfold ActivateCapture. reads. rewrite (bool_decide_eq_false_2 (state_ c = Preparing) Ep). cbn [negb].
    rewrite orb_true_r. by apply wp_skip.
  - by apply StopWith_clamped.
  - by apply StopWith_clamped.
  - run (FailsafeStop_spec reason c Ok) as c1 (c2 & (Ok2 & c3 & A3 & St) & Ok1 & E).
    assert (clamped c3) as Cl3 by (eapply clamped_async; [eapply async_mono; [apply calm_local|exact A3]|done]).
    pose proof (clamped_stopped _ _ _ _ Cl3 Ok2 St) as Cl2. subst c1.
    apply (clamped_async c2); [by apply async_log|done].
  - eapply Hboth.
    + apply wp_bind. run (SetKillSwitch_quiet on c Eu Eo) as b c1 Q1. apply wp_skip. exact Q1.
    + intros c' (E1 & E2 & E3 & E4) Ok'. apply (clamped_same c); try done. congruence.
  - eapply Hboth; [apply wp_bind, wp_bind, wp_modify, wp_ret, wp_skip; exact (eq_refl)|].
    intros c' <- Ok'. by apply (clamped_same c).
  - apply wp_bind. run (Logout_clamped locked networkSpaceJson c Cl) as b c1 Cl1. by apply wp_skip.
  - apply wp_bind. run (StartProviderRequest_ok locked request c Ok) as b c1 [Ok1 P1]. apply wp_skip. by eapply clamped_provider.
  - apply wp_bind. run (StopProvider_ok locked c Ok) as b c1 [Ok1 P1]. apply wp_skip. by eapply clamped_provider.
  - eapply Hboth; [apply wp_modify; exact (eq_refl)|]. intros c' <- Ok'. by apply (clamped_same c).
  - eapply Hboth; [apply wp_modify; exact (eq_refl)|]. intros c' <- Ok'. by apply (clamped_same c).
  - run (interfere_spec local_effect (fun e B => calm_local e (calm_background e B)) id c (mo_fire _ (proj1 Ok))) as c1 A1.
    by eapply clamped_async.
Qed.

(** Once the process is clamped to RPC sessions, as a debug run on a remote machine is,
    no request captures the machine: no adapter is made, no route or DNS setting applied,
    no marker set, no connecting or connected firewall asked for, and the firewall stays
    off, whatever modes the starts ask for and whatever the kill switch says. *)
Theorem clamped_never_captures rs :
  let c := serves rs (fst (serve ReqClamp new_controller)) in
  Forall local_effect (log c) /\ has_routes c = false /\ marker c = false /\ wfp_in_force c = WOff /\
  state_ c <> Up /\ state_ c <> Preparing.
Proof.
  intros c. assert (clamped c) as Cl.
  { apply wp_serves; [|intros c' Cl' r _; by apply serve_clamped].
    pose proof (serve_ok ReqClamp _ new_controller_ok) as Ok. by split. }
  pose proof (clamped_routes _ Cl) as Er. destruct Cl as [(M & _) _ [Ep Eu] Eo El].
  split_and!; try done. by rewrite (mo_marker _ M).
Qed.

(** While a session is live the service refuses to start the provider beside it, with a
    reason, and leaves the session, the provider and everything else of the controller as
    they were. *)
Theorem live_session_refuses_provider locked request c :
  session_ok c -> IsSessionLive (state_ c) = true ->
  exists c' why, StartProviderRequest locked request c = (c', inr (false, why)) /\ why <> [] /\
    core c' = core c /\ log c' = log c /\ wfp_in_force c' = wfp_in_force c /\ session_ok c'.
Proof.
  intros Ok L.
  pose proof (StartProviderRequest_live locked request c (mo_fire _ (proj1 Ok)) L) as S.
  destruct (wp_runs _ _ _ S) as (c' & [ok why] & E & A & El & Ew & Eok & Ewhy). cbn in Eok, Ewhy. subst ok.
  exists c', why. split_and!; [done|done|apply A|done|unfold wfp_in_force; by rewrite Ew|by eapply async_session_ok].
Qed.
End Properties.

(** * A machine to try it on *)

(** Windows grants everything, no stop arrives, and the proof of a session comes with the
    first look at it. *)
Definition willing_bfe : Bfe := {| answer t c := 0; new_id t := Z.of_nat (length t); null_blob _ := false; provider_disabled _ := false |}.

(** [stop_at]: a stop arrives when that many things have happened. *)
Definition demo_platform (stop_at : nat) : Platform := {|
  answers l q := match q with StopArrives => (length l =? stop_at)%nat | WindowExpires => false | _ => true end;
  what _ := txt "refused"; clock _ := 1000; egress_now _ := (12, 0); adapter_luid _ := 7;
  wintunError _ := 126; HostResolversV4 _ _ := [txt "192.0.2.53"]; ServiceImagePath := wtxt "urnetworkd.exe"; AppImagePath := wtxt "urnetwork.exe";
  getProvideControlMode _ := txt "never"; getProvideMode _ := 0; tunnelLocalAddress _ := []; tunnelLocalAddressIpv6 _ := [];
  tunnelDnsAddressesIpv4 _ := None; tunnelDnsAddressesIpv6 _ := None; getDefaultTunnelDnsAddressIpv4 := txt "1.1.1.1";
  getDefaultTunnelDnsAddressIpv6 := txt "2606:4700:4700::1111"; getTunnelLocalPrefixLengthIpv6 := 64;
  others _ := [OpComplete 1000 (mkSample 0 (-1) 1000) (mkWindow 3 1) (mkWindow 3 1) 1] |}.

Definition demo_start (kill : bool) : StartTunnel :=
  mkStartTunnel no_provider (txt "127.0.0.1:4000") (txt "session") [] false ModeTunnel kill.

(** A start, a look at its readiness object, and an activation. *)
Definition demo_requests (kill : bool) : list Request :=
  [ReqStart (demo_start kill); Meanwhile 0; ReqActivate 0 (mkTicket 1 3 1000)].

Definition demo_serves (stop_at : nat) (rs : list Request) : Ctl :=
  @serves demo_winsock willing_bfe (demo_platform stop_at) demo_json rs new_controller.

Lemma demo_serves_ok stop_at rs : @session_ok (demo_platform stop_at) (demo_serves stop_at rs).
Proof. apply serves_ok. Qed.

(** It works: a start, a proof and an activation capture the machine, for the kill switch
    behind a firewall. *)
Example demo_goes_up :
  let c := demo_serves 1000 (demo_requests true) in
  (state_ c, has_routes c, marker c, wfp_in_force c, adapter_ c) = (Up, true, true, WConnected, Some 7).
Proof. vm_compute. done. Qed.

(** The same machine, on which the first import of a network space fails. *)
Definition first_import (l : list Effect) : bool :=
  forallb (fun e => match e with Asked ImportsSpace _ => false | _ => true end) l.
Definition reluctant_platform : Platform :=
  let P := demo_platform 1000 in
  {| answers l q := match q with ImportsSpace => negb (first_import l) | _ => @answers P l q end;
     what := @what P; clock := @clock P; egress_now := @egress_now P; adapter_luid := @adapter_luid P;
     wintunError := @wintunError P; HostResolversV4 := @HostResolversV4 P; ServiceImagePath := @ServiceImagePath P;
     AppImagePath := @AppImagePath P; getProvideControlMode := @getProvideControlMode P; getProvideMode := @getProvideMode P;
     tunnelLocalAddress := @tunnelLocalAddress P; tunnelLocalAddressIpv6 := @tunnelLocalAddressIpv6 P;
     tunnelDnsAddressesIpv4 := @tunnelDnsAddressesIpv4 P; tunnelDnsAddressesIpv6 := @tunnelDnsAddressesIpv6 P;
     getDefaultTunnelDnsAddressIpv4 := @getDefaultTunnelDnsAddressIpv4 P;
     getDefaultTunnelDnsAddressIpv6 := @getDefaultTunnelDnsAddressIpv6 P;
     getTunnelLocalPrefixLengthIpv6 := @getTunnelLocalPrefixLengthIpv6 P; others := @others P |}.
Definition demo_provider : StartProvider := mkStartProvider [] [] (txt "i") [] [] [] (txt "always") [].

(** The provider's egress monitor is not always stopped before a session's adapter
    exists.  A request to provide whose network space cannot be imported is refused with
    that monitor running, no retire finds it because there is neither device nor space,
    and the next start goes up with it beside its own. *)
Example failed_import_leaves_the_egress_monitor :
  exists (P : Platform) (rs : list Request),
    let after rs := @serves demo_winsock willing_bfe P demo_json rs new_controller in
    let refused := after [ReqStartProvider true demo_provider] in
    (state_ refused = Stopped /\ providerEgress_ refused = true) /\
    let c := after (ReqStartProvider true demo_provider :: rs) in
    state_ c = Up /\ is_Some (adapter_ c) /\ egress_ c = true /\ providerDevice_ c = None /\ providerSpace_ c = false /\
    providerEgress_ c = true.
Proof.
  exists reluctant_platform, (demo_requests false). cbv zeta. split; [by vm_compute|].
  split_and!; try by vm_compute. exists 7. by vm_compute.
Qed.

#[local] Existing Instance demo_winsock.
#[local] Existing Instance willing_bfe.
#[local] Existing Instance demo_json.

Lemma stop_gives_the_machine_back_witness :
  let c := demo_serves 1000 (demo_requests true) in
  let P := demo_platform 1000 in
  session_ok c /\ has_routes c = true /\ killSwitch_ c = true /\
  exists c', StopWith true true c = (c', inr tt) /\ state_ c' = Stopped /\ nothing_left c' /\ marker c' = false /\
    wfp_in_force c' = WOff /\ facts (Status c') = facts (ComposeStatusLocked c') /\ machine_first c c' /\
    (providerDevice_ c' = None \/ (true = true /\ providerDevice_ c' = device_ c)).
Proof.
  intros c P. split; [apply demo_serves_ok|]. split; [vm_compute; reflexivity|]. split; [vm_compute; reflexivity|].
  exact (stop_gives_the_machine_back true c (demo_serves_ok 1000 (demo_requests true))).
Defined.

Lemma failsafe_respects_the_kill_switch_witness :
  let c := demo_serves 1000 (demo_requests true) in
  let P := demo_platform 1000 in
  session_ok c /\ killSwitch_ c = true /\ wfp_in_force c <> WOff /\
  (exists c', FailsafeStop true NoExit c = (c', inr tt) /\ state_ c' = Stopped /\ nothing_left c' /\ marker c' = false /\
    killSwitch_ c' = killSwitch_ c /\ (killSwitch_ c = false -> wfp_in_force c' = WOff) /\
    exists l l', log c' = log c ++ l ++ l' ++ [StateNotified] /\ Forall opening l /\ Forall winding_down l' /\
      (has_routes c = true -> NetworkReverted ∈ l) /\
      (killSwitch_ c = true ->
        if has_routes c || negb (bool_decide (wfp_in_force c = WOff))
        then wfp_in_force c' = WArmed \/
          (wfp_in_force c' = wfp_in_force c /\ (ServiceImagePath = [] \/ FirewallAsked WArmed false ∈ l ++ l'))
        else wfp_in_force c' = WOff)) /\
  (exists c', FailsafeStop false NoExit c = (c', inr tt) /\ marker c' = false /\
    ts_routes_installed (Status c') = false /\ ts_wfp_state (Status c') = wfp_name (wfp_in_force c') /\
    lastStopReason_ c' = StopReasonOf NoExit /\
    (killSwitch_ c = false -> wfp_in_force c' = WOff) /\ (killSwitch_ c = true -> wfp_in_force c' = wfp_in_force c) /\
    exists l, log c' = log c ++ CrashReverted :: MarkerSet false :: l ++ [StateNotified]).
Proof.
  intros c P. split; [apply demo_serves_ok|]. split; [vm_compute; reflexivity|].
  split; [replace (wfp_in_force c) with WConnected by (vm_compute; reflexivity); discriminate|].
  exact (failsafe_respects_the_kill_switch NoExit c (demo_serves_ok 1000 (demo_requests true))).
Defined.

Lemma escape_frees_the_machine_witness :
  let c := demo_serves 1000 (demo_requests false) in
  let P := demo_platform 1000 in
  policy_wf (wfp_ c) /\ has_routes c = true /\ killSwitch_ c = false /\
  exists c', StopWith false false c = (c', inr tt) /\ marker c' = false /\
    (killSwitch_ c = false -> wfp_in_force c' = WOff) /\
    (killSwitch_ c = true -> wfp_in_force c' = wfp_in_force c) /\
    ts_routes_installed (Status c') = false /\ ts_dns_applied (Status c') = false /\
    ts_wfp_state (Status c') = wfp_name (wfp_in_force c') /\ ts_stop_reason (Status c') = kStopReasonUser /\
    TeardownAbandoned (budget c') = true /\
    exists l, log c' = log c ++ CrashReverted :: MarkerSet false :: l /\ Forall giving_back l.
Proof.
  intros c P. assert (policy_wf (wfp_ c)) as W by apply (demo_serves_ok 1000 (demo_requests false)).
  split; [exact W|]. split; [vm_compute; reflexivity|]. split; [vm_compute; reflexivity|].
  exact (escape_frees_the_machine false c W).
Defined.

(** A service that restarts itself. *)
Definition leaving_controller : Ctl :=
  new_controller <| budget := mkBudget false false ∅ [] (Some (fun _ => true)) true |>.

Lemma leaving_service_starts_nothing_witness :
  let P := demo_platform 1000 in
  session_ok leaving_controller /\ SelfRestartPending (budget leaving_controller) = true /\
  exists c' s, StartLocked (demo_start true) leaving_controller = (c', inr s) /\ state_ c' = StateError /\
    error_ c' = leaving_text /\ nothing_left c' /\ session_ok c' /\
    exists l, log c' = log leaving_controller ++ l /\ forall e, e ∈ l -> calm e.
Proof.
  intros P. assert (session_ok leaving_controller) as Ok.
  { apply (quiet_session_ok new_controller); try done; [|by left|apply new_controller_ok].
    apply steady_budget. done. }
  split; [exact Ok|]. split; [reflexivity|].
  exact (leaving_service_starts_nothing (demo_start true) leaving_controller Ok eq_refl).
Defined.


(** The three ways an activation ends, by the moment at which a stop arrives: never, while
    the routes go in, and between the commit and the look at the result. *)
Example demo_activations :
  let waiting := demo_serves 1000 [ReqStart (demo_start true); Meanwhile 0] in
  let ends stop_at :=
    let c := fst (@ActivateCapture _ _ (demo_platform (length (log waiting) + stop_at)) 0 (mkTicket 1 3 1000) waiting) in
    (state_ c, has_routes c, marker c, wfp_in_force c, Cancelled c 0) in
  ends 1000%nat = (Up, true, true, WConnected, false) /\
  ends 14%nat = (Preparing, false, false, WArmed, true) /\
  ends 24%nat = (Preparing, true, true, WConnected, true).
Proof. vm_compute. done. Qed.

(** A start that a stop arrives in, and what is tried before that stop gets the lock. *)
Notation overtaken_controller := (fst (@StartLocked _ _ (demo_platform 4) _ (demo_start true) new_controller)) (only parsing).
Definition hopeful_requests : list Request := [Meanwhile 0; ReqActivate 0 (mkTicket 1 3 1000)].

Lemma overtaken_start_never_captures_witness :
  @session_ok (demo_platform 4) new_controller /\ stopGeneration_ overtaken_controller <> stopGeneration_ new_controller /\
  forallb waiting_request hopeful_requests = true /\
  state_ (@serves _ _ (demo_platform 4) _ hopeful_requests overtaken_controller) <> Up /\
  has_routes (@serves _ _ (demo_platform 4) _ hopeful_requests overtaken_controller) = false.
Proof.
  split; [apply new_controller_ok|]. split; [vm_compute; discriminate|]. split; [reflexivity|].
  apply (@overtaken_start_never_captures _ _ (demo_platform 4)); [apply new_controller_ok|vm_compute; discriminate|reflexivity].
Defined.

Lemma live_session_refuses_provider_witness :
  let P := demo_platform 1000 in
  let c := demo_serves 1000 (demo_requests true) in
  let request := mkStartProvider [] [] [] [] [] [] (txt "always") [] in
  session_ok c /\ IsSessionLive (state_ c) = true /\
  exists c' why, StartProviderRequest true request c = (c', inr (false, why)) /\ why <> [] /\
    core c' = core c /\ log c' = log c /\ wfp_in_force c' = wfp_in_force c /\ session_ok c'.
Proof.
  intros P c request. assert (session_ok c) as Ok by apply demo_serves_ok.
  assert (IsSessionLive (state_ c) = true) as L by (vm_compute; reflexivity). split; [exact Ok|]. split; [exact L|].
  exact (live_session_refuses_provider true request c Ok L).
Defined.
