(* ===== verification/StatusMirror.v ===== *)
(** The status served without the session lock, between the threads that write it
    (TunnelController.cpp).  In [Controller] a publish is one step.  Here [StatusLocked] is
    what the source makes of it, a status composed and then stored under the mirror's own
    lock, and the connecting watchdog, which takes no session lock, runs beside it: it
    narrows the firewall, reads back what holds, and patches the mirror.  The calls are
    [Controller]'s.  The lock-free escape of a stop, the other writer of the mirror, does
    not run here. *)

From S2P Require Import Prelude.
From S2P Require Import CxxText.
From S2P Require Import Wfp.
From S2P Require Import WfpPolicy.
From S2P Require Import Gesture.
From S2P Require Import Provide.
From S2P Require Import Controller.
From S2P Require Import ControllerFacts.
From S2P Require Import ControllerProperties.

(** The thread with the session lock: everything it changed is published; it changed
    something; it is in [StatusLocked], past [ComposeStatusLocked]. *)
Inductive Holder := Settled | Changed | Composed (s : TunnelStatus).

(** The connecting watchdog: none, one that waits its window, one past its [Apply], one past
    the read of the policy in [RepublishMachineFactsLockFree]. *)
Inductive Dog := NoDog | Waiting | Narrowed | ReadBack (wfp : text).

Inductive Event := Edits | AppliesPolicy | Composes | Stores | Arms | Cancels | Expires | Reads | Patches.
#[export] Instance Event_eq_dec : EqDecision Event.
Proof. solve_decision. Defined.

Record World := mkWorld { ctl : Ctl; holder : Holder; dog : Dog; history : list Event }.

Definition happens (w : World) (e : Event) (c : Ctl) (h : Holder) (d : Dog) : World := mkWorld c h d (history w ++ [e]).

Section StatusMirror.
Context `{Winsock} `{Bfe} `{Platform} `{Json}.

(** [statusMirror_.wfp_state = wfp]: the patch of a [RepublishMachineFactsLockFree(false)]
    whose read of the policy was earlier. *)
Definition patched (wfp : text) (c : Ctl) : Ctl :=
  let s := statusMirror_ c in
  c <| statusMirror_ :=
    mkTunnelStatus (ts_state s) (ts_mode s) (ts_routes_installed s) (ts_dns_applied s) wfp (ts_rpc_listen_hostport s)
      (ts_instance_id s) (ts_rpc_session_id s) (ts_error s) (ts_tunnel_local_up_millis s) (ts_egress_index4 s)
      (ts_egress_index6 s) (ts_provider_running s) (ts_provider_control_mode s) (ts_provider_mode s)
      (ts_provider_network_key s) (ts_stop_reason s) |>.

Definition busy (d : Dog) : bool := match d with Narrowed | ReadBack _ => true | _ => false end.

(** The holder changes members other than the policy and the mirror; asks for another policy,
    for which [CancelConnectingWatchdogLocked] joined the watchdog first; composes; stores;
    arms a watchdog, its changes published; or cancels one, whose wait it ends.  The
    watchdog's window runs out, it reads the policy back, it patches. *)
Inductive step : World -> World -> Prop :=
| edits w c : (forall s, holder w <> Composed s) -> wfp_ c = wfp_ (ctl w) -> statusMirror_ c = statusMirror_ (ctl w) ->
    step w (happens w Edits c Changed (dog w))
| applies w s cfg : (forall s, holder w <> Composed s) -> dog w = NoDog ->
    step w (happens w AppliesPolicy (if bool_decide (s = WOff) then fst (wfp_revert (ctl w)) else fst (wfp_apply s cfg (ctl w)))
              Changed NoDog)
| composes w : (forall s, holder w <> Composed s) ->
    step w (happens w Composes (ctl w) (Composed (ComposeStatusLocked (ctl w))) (dog w))
| stores w s : holder w = Composed s ->
    step w (happens w Stores (ctl w) <| upSinceMirror_ := upSinceMillis_ (ctl w) |> <| statusMirror_ := s |> Settled (dog w))
| arms w : holder w = Settled -> dog w = NoDog -> step w (happens w Arms (ctl w) Settled Waiting)
| cancels w : (forall s, holder w <> Composed s) -> dog w = Waiting -> step w (happens w Cancels (ctl w) (holder w) NoDog)
| expires w : dog w = Waiting ->
    step w (happens w Expires (fst (wfp_apply WArmed BaseWfpConfig (ctl w))) (holder w) Narrowed)
| reads w : dog w = Narrowed ->
    step w (happens w Reads (ctl w) (holder w) (ReadBack (wfp_name (wfp_in_force (ctl w)))))
| patches w wfp : dog w = ReadBack wfp ->
    step w (happens w Patches (patched wfp (ctl w)) (holder w) NoDog).

(** ** What the mirror says *)

(** The mirror's status and the members agree on all but the policy. *)
Definition agrees (s : TunnelStatus) (c : Ctl) : Prop :=
  with_policy WOff (facts s) = with_policy WOff (facts (ComposeStatusLocked c)).
Definition names_policy (s : TunnelStatus) (c : Ctl) : Prop := ts_wfp_state s = wfp_name (wfp_in_force c).

Lemma policy_back p s : ts_wfp_state s = wfp_name p -> facts s = with_policy p (with_policy WOff (facts s)).
Proof. intros E. unfold with_policy, facts. cbn [ts_wfp_state]. by rewrite E. Qed.

Lemma agrees_facts s c : agrees s c -> names_policy s c -> facts s = facts (ComposeStatusLocked c).
Proof.
  intros A N. rewrite (policy_back (wfp_in_force c) s N). rewrite A. symmetry. by apply policy_back.
Qed.

Lemma agrees_core s c c' : core c' = core c -> agrees s c -> agrees s c'.
Proof. intros E A. unfold agrees. by rewrite (compose_core c c' E). Qed.

(** The last compose of a history, a window that ran out since, and a patch since that. *)
Definition composing (h : list Event) : Prop := exists a b, h = a ++ Composes :: b /\ Composes ∉ b.
Definition narrowed (h : list Event) : Prop :=
  exists a b c, h = a ++ Composes :: b ++ Expires :: c /\ Composes ∉ b ++ c.
Definition passed (h : list Event) : Prop :=
  exists a b c d, h = a ++ Composes :: b ++ Expires :: c ++ Patches :: d /\ Composes ∉ b ++ c ++ d.

(** The last store put down a status composed before the watchdog narrowed and patched, and
    nothing wrote the mirror since. *)
Definition overtaken (h : list Event) : Prop :=
  exists h' after, h = h' ++ Stores :: after /\ passed h' /\ Stores ∉ after /\ Patches ∉ after /\ Composes ∉ after.

Lemma later_absent (e : Event) (l : list Event) x : e <> x -> e ∉ l -> e ∉ l ++ [x].
Proof. set_solver. Qed.

Lemma composing_now h : composing (h ++ [Composes]).
Proof. exists h, []. split; [done|set_solver]. Qed.
Lemma composing_on h e : Composes <> e -> composing h -> composing (h ++ [e]).
Proof. intros N (a & b & -> & Hb). exists a, (b ++ [e]). split; [by list_simplifier|by apply later_absent]. Qed.
Lemma narrowed_on h e : Composes <> e -> narrowed h -> narrowed (h ++ [e]).
Proof. intros N (a & b & c & -> & Hb). exists a, b, (c ++ [e]). split; [by list_simplifier|]. rewrite app_assoc. by apply later_absent. Qed.
Lemma passed_on h e : Composes <> e -> passed h -> passed (h ++ [e]).
Proof.
  intros N (a & b & c & d & -> & Hb). exists a, b, c, (d ++ [e]). split; [by list_simplifier|].
  rewrite !app_assoc. rewrite app_assoc in Hb. by apply later_absent.
Qed.
Lemma narrowed_now h : composing h -> narrowed (h ++ [Expires]).
Proof. intros (a & b & -> & Hb). exists a, b, []. split; [by list_simplifier|by rewrite app_nil_r]. Qed.
Lemma passed_now h : narrowed h -> passed (h ++ [Patches]).
Proof. intros (a & b & c & -> & Hb). exists a, b, c, []. split; [by list_simplifier|by rewrite app_nil_r]. Qed.
Lemma overtaken_now h : passed h -> overtaken (h ++ [Stores]).
Proof. intros P. exists h, []. split_and!; [done|done|set_solver..]. Qed.
Lemma overtaken_on h e : Composes <> e -> Stores <> e -> Patches <> e -> overtaken h -> overtaken (h ++ [e]).
Proof.
  intros N1 N2 N3 (h' & after & -> & P & S & Pa & C). exists h', (after ++ [e]).
  split_and!; [by list_simplifier|done|by apply later_absent..].
Qed.

(** ** The invariant *)

Definition read_ok (w : World) : Prop :=
  match dog w with ReadBack v => v = wfp_name (wfp_in_force (ctl w)) | _ => True end.
Definition holder_ok (w : World) : Prop :=
  match holder w with
  | Settled => agrees (statusMirror_ (ctl w)) (ctl w) /\
      (names_policy (statusMirror_ (ctl w)) (ctl w) \/ busy (dog w) = true \/ overtaken (history w))
  | Changed => True
  | Composed s => agrees s (ctl w) /\ composing (history w) /\
      (names_policy s (ctl w) \/ (busy (dog w) = true /\ narrowed (history w)) \/ passed (history w))
  end.

Lemma apply_frame s cfg c :
  core (fst (wfp_apply s cfg c)) = core c /\ statusMirror_ (fst (wfp_apply s cfg c)) = statusMirror_ c.
Proof. unfold wfp_apply. by destruct (ApplyLocked _ _ _ _) as [[ok p] t]. Qed.

(** Steps that leave the members, the policy and the mirror alone. *)
Lemma idle_ok w e d :
  e ∈ [Arms; Cancels; Reads] -> (busy (dog w) = true -> busy d = true) -> holder_ok w ->
  holder_ok (happens w e (ctl w) (holder w) d).
Proof.
  intros He Hd. assert (Composes <> e /\ Stores <> e /\ Patches <> e) as (N1 & N2 & N3) by (split_and!; set_solver).
  unfold holder_ok. cbn. destruct (holder w) as [| |s]; [|done|].
  - intros [A [N|[B|O]]]; split; [done|by left|done|by auto|done|]. do 2 right. by apply overtaken_on.
  - intros (A & C & HN). split_and!; [done|by apply composing_on|].
    destruct HN as [N|[[B Na]|Pa]]; [by left|right; left|do 2 right].
    + split; [by apply Hd|by apply narrowed_on].
    + by apply passed_on.
Qed.

Lemma step_ok w w' : read_ok w /\ holder_ok w -> step w w' -> read_ok w' /\ holder_ok w'.
Proof.
  intros [R Ho]. destruct 1 as [w c _ Ew _|w s cfg _ Hd|w _|w s Eh|w Eh Hd|w _ Hd|w Hd|w Hd|w wfp Hd].
  - split; [|done]. unfold read_ok, happens, wfp_in_force in *. cbn. by rewrite Ew.
  - by split.
  - split; [done|]. unfold holder_ok. cbn. split_and!; [done|apply composing_now|by left].
  - split; [done|]. unfold holder_ok in *. rewrite Eh in Ho. cbn. destruct Ho as (A & _ & HN). split; [done|].
    destruct HN as [N|[[B _]|P]]; [by left|by right; left|do 2 right; by apply overtaken_now].
  - split; [done|]. rewrite <- Eh. apply idle_ok; [set_solver|by rewrite Hd|done].
  - split; [done|]. apply idle_ok; [set_solver|by rewrite Hd|done].
  - split; [done|]. destruct (apply_frame WArmed BaseWfpConfig (ctl w)) as [F Em].
    unfold holder_ok in *. cbn. destruct (holder w) as [| |s]; [|done|].
    + destruct Ho as [A _]. rewrite Em. split; [by eapply agrees_core|by right; left].
    + destruct Ho as (A & C & HN). split_and!; [by eapply agrees_core|by apply composing_on|].
      destruct HN as [_|[[B _]|P]]; [right; left; split; [done|by apply narrowed_now]|by rewrite Hd in B|].
      do 2 right. by apply passed_on.
  - split; [done|]. apply idle_ok; [set_solver|done|done].
  - unfold read_ok in R. rewrite Hd in R. subst wfp. split; [done|].
    unfold holder_ok in *. cbn. destruct (holder w) as [| |s]; [|done|].
    + destruct Ho as [A _]. split; [exact A|by left].
    + destruct Ho as (A & C & HN). split_and!; [exact A|by apply composing_on|].
      destruct HN as [N|[[B Na]|P]]; [by left|do 2 right; by apply passed_now|do 2 right; by apply passed_on].
Qed.

Definition new_world (c : Ctl) : World := mkWorld c Settled NoDog [].

(** C8: once the thread with the session lock has published what it changed, the mirror from
    which [Status] is served says what the members say, whatever the order in which that
    thread composed and stored its statuses and a connecting watchdog narrowed the firewall
    and patched the mirror.  The policy it names is the one in force too, with two
    exceptions: the watchdog has narrowed and has its patch still to come, or it narrowed
    and patched between the compose and the store of the last publish, whose older status
    then stands until something writes the mirror again. *)
Theorem settled_mirror_tells_the_truth c w :
  facts (statusMirror_ c) = facts (ComposeStatusLocked c) -> star step (new_world c) w -> holder w = Settled ->
  agrees (statusMirror_ (ctl w)) (ctl w) /\
  (facts (statusMirror_ (ctl w)) = facts (ComposeStatusLocked (ctl w)) \/ busy (dog w) = true \/ overtaken (history w)).
Proof.
  intros E S Eh. destruct (star_invariant step (fun w => read_ok w /\ holder_ok w) _ _ step_ok S) as [_ Ho].
  - split; [done|]. split; [exact (f_equal (with_policy WOff) E)|left]. exact (f_equal ts_wfp_state E).
  - unfold holder_ok in Ho. rewrite Eh in Ho. destruct Ho as [A [N|Ho]]; split; [done|left; by apply agrees_facts|done|by right].
Qed.
End StatusMirror.

(** * A race *)

#[local] Existing Instance demo_winsock.
#[local] Existing Instance willing_bfe.
#[local] Existing Instance demo_json.
#[local] Instance demo_machine : Platform := demo_platform 1000.

(** One thread of each: the holder asks for Connecting, and changes its error text. *)
Definition play (w : World) (e : Event) : World :=
  match e with
  | Edits => happens w e (ctl w) <| error_ := txt "dialing" |> Changed (dog w)
  | AppliesPolicy => happens w e (fst (wfp_apply WConnecting BaseWfpConfig (ctl w))) Changed NoDog
  | Composes => happens w e (ctl w) (Composed (ComposeStatusLocked (ctl w))) (dog w)
  | Stores =>
      match holder w with
      | Composed s => happens w e (ctl w) <| upSinceMirror_ := upSinceMillis_ (ctl w) |> <| statusMirror_ := s |> Settled (dog w)
      | _ => w
      end
  | Arms => happens w e (ctl w) Settled Waiting
  | Cancels => happens w e (ctl w) (holder w) NoDog
  | Expires => happens w e (fst (wfp_apply WArmed BaseWfpConfig (ctl w))) (holder w) Narrowed
  | Reads => happens w e (ctl w) (holder w) (ReadBack (wfp_name (wfp_in_force (ctl w))))
  | Patches => match dog w with ReadBack v => happens w e (patched v (ctl w)) (holder w) NoDog | _ => w end
  end.

Definition in_compose (w : World) : bool := match holder w with Composed _ => true | _ => false end.
Definition possible (w : World) (e : Event) : bool :=
  match e, dog w with
  | (Edits | Composes), _ | AppliesPolicy, NoDog | Cancels, Waiting => negb (in_compose w)
  | Stores, _ => in_compose w
  | Arms, NoDog => match holder w with Settled => true | _ => false end
  | Expires, Waiting | Reads, Narrowed | Patches, ReadBack _ => true
  | _, _ => false
  end.

Lemma play_ok w e : possible w e = true -> step w (play w e).
Proof.
  assert (in_compose w = false -> forall s, holder w <> Composed s) as F by (intros C s E; unfold in_compose in C; by rewrite E in C).
  unfold possible. intros Hp. destruct e; [| | |clear F; unfold in_compose in Hp| | | | |]; cbn [play].
  - apply edits; [|reflexivity..]. apply F. by destruct (dog w), (in_compose w).
  - destruct (dog w) eqn:Ed; try done. apply (applies w WConnecting BaseWfpConfig); [|done]. apply F. by destruct (in_compose w).
  - apply composes, F. by destruct (dog w), (in_compose w).
  - destruct (holder w) eqn:Eh; [by destruct (dog w)..|]. by apply stores.
  - destruct (dog w) eqn:Ed; try done. destruct (holder w) eqn:Eh; try done. by apply arms.
  - destruct (dog w) eqn:Ed; try done. apply cancels; [|done]. apply F. by destruct (in_compose w).
  - destruct (dog w) eqn:Ed; try done. by apply expires.
  - destruct (dog w) eqn:Ed; try done. by apply reads.
  - destruct (dog w) eqn:Ed; try done. by apply patches.
Qed.

(** Whether the threads can take all the steps of a list. *)
Fixpoint playable (w : World) (l : list Event) : bool :=
  match l with [] => true | e :: l => possible w e && playable (play w e) l end.

Lemma plays l w : playable w l = true -> star step w (foldl play w l).
Proof.
  revert w. induction l as [|e l IH]; cbn; intros w P; [constructor|]. bool_hyps.
  eapply star_step; [by apply play_ok|by apply IH].
Qed.

(** The window runs out between the last compose and its store, or after it. *)
Definition opening_moves : list Event := [AppliesPolicy; Composes; Stores; Arms; Edits; Composes].
Definition raced : list Event := opening_moves ++ [Expires; Reads; Patches; Stores].
Definition unraced : list Event := opening_moves ++ [Stores; Expires; Reads; Patches].
Definition after (l : list Event) : World := foldl play (new_world new_controller) l.

(** Both orders end with the machine narrowed to Armed; the race leaves a mirror that still says
    Connecting, with no writer under way. *)
Example raced_mirror_is_stale :
  (ts_wfp_state (statusMirror_ (ctl (after unraced))), wfp_in_force (ctl (after unraced))) = (txt "armed", WArmed) /\
  (ts_wfp_state (statusMirror_ (ctl (after raced))), wfp_in_force (ctl (after raced))) = (txt "connecting", WArmed) /\
  busy (dog (after raced)) = false /\ playable (new_world new_controller) raced = true.
Proof. vm_compute. done. Qed.

Lemma settled_mirror_tells_the_truth_witness :
  holder (after unraced) = Settled /\ busy (dog (after unraced)) = false /\
  agrees (statusMirror_ (ctl (after unraced))) (ctl (after unraced)) /\
  (facts (statusMirror_ (ctl (after unraced))) = facts (ComposeStatusLocked (ctl (after unraced))) \/
   busy (dog (after unraced)) = true \/ overtaken (history (after unraced))).
Proof.
  split_and!; [vm_compute; reflexivity|vm_compute; reflexivity| |];
    apply (settled_mirror_tells_the_truth new_controller (after unraced));
    first [vm_compute; reflexivity|apply plays; vm_compute; reflexivity].
Defined.
